(* ===== verification/_CoqProject ===== *)
-Q . S2P
Prelude.v
GoStrings.v
GoTime.v
GoNet.v
ClientIP.v
DnsTarget.v
DnsProperties.v
Sha256.v
Stateless.v
Types.v
NetPolicy.v
Logx.v
NetProperties.v
Checks.v
ProbeMachine.v
CheckMachine.v
QuorumMachine.v
Runtime.v
Database.v
StoreNotifications.v
StoreMonitoring.v
StoreChecks.v
StatusView.v
StoreProbes.v
StoreInvariant.v
StoreProperties.v
ProbeProperties.v
StoreAuth.v
AuthInvariant.v
AuthProperties.v
StoreFrame.v
RateLimiter.v
Config.v
Sender.v
SenderProperties.v
Delivery.v
Fairness.v
Interleaving.v
Batcher.v
Executors.v
BatcherProperties.v
Scheduler.v
Results.v
Mock.v
Ledger.v
Heartbeat.v
Sweepers.v
ProbeProcessor.v
ProbeClient.v
AuthProcessor.v
Server.v
Routes.v
Lifecycle.v
RequestLog.v
Onboarding.v
AuthExamples.v
SweepProperties.v
Recovery.v
StoreLedger.v
StoreBatch.v
ProbeIngest.v
System.v
LostIncident.v
Examples.v
Paging.v
ServerInvariant.v
WorldInvariant.v
ServerProperties.v
ProbeServer.v
ProbeStart.v
StatusProperties.v
Startup.v
StartupProperties.v
ProbeSafety.v
ServerExamples.v
LogExamples.v
ProbeExamples.v
