(* ===== verification/Prelude.v ===== *)
(** * wacht: a verification of the uptime monitor

    wacht watches checks (HTTP, TCP, DNS targets) from several probes.  A probe
    runs the checks of the server on a schedule, buffers the results and uploads
    them in batches; the server turns the results of all probes into a majority
    verdict per check, records incidents in Postgres, queues a page for every
    opening and closing, and delivers the pages to webhooks.  Users get accounts
    through sign-up requests that an administrator approves.

    ** Parts, files and sources (under src/)

    Shared: this file (integers, time, errors, the state-and-error monad and the
    tactics), GoStrings.v (the functions of Go's strings, unicode/utf8 and
    encoding/json that the program uses), GoTime.v (RFC 3339 and differences of
    times), GoNet.v (addresses, prefixes and host:port of net and net/netip, and
    [strconv.Atoi]), Sha256.v (crypto/sha256, encoding/hex),
    Types.v (internal/proto, the check struct of internal/checks/check.go and the
    structs and enums of internal/monitoring).

    The monitoring core, internal/monitoring/.
    - Stateless.v: the stateless library, which is third-party code, as a class
      with the laws the program relies on, and a table-driven instance.
    - ProbeMachine.v, CheckMachine.v, QuorumMachine.v: probe_machine.go,
      check_machine.go, quorum_machine.go, the three state machines.
    - Runtime.v: runtime.go with the degradation of heartbeat.go; one record of
      maps, one definition per method.
    - Results.v: result.go, the ingestion of a batch with its rollback and the
      incident writes it derives.  Heartbeat.v: heartbeat.go.  Sweepers.v:
      sweepers.go.  Recovery.v: recovery.go.

    The store, internal/store/ on the schema of migrations/000001_init.up.sql.
    - Database.v: rows, tables, sequences, transactions, and the class [StoreEnv]
      of what Postgres, the driver, the clock and the random source answer.
    - StoreNotifications.v: incident_notifications.go.  StoreMonitoring.v:
      monitoring.go and check_identity.go.  StoreChecks.v: store.go.
      StoreProbes.v: probes.go.  StoreAuth.v: auth.go.

    Delivery, internal/alert/: Sender.v (sender.go and [Fire] of webhook.go).

    What may be watched and reached: NetPolicy.v (internal/network: the outbound
    policy of netguard.go with its dial loop, the target syntax of
    check_targets_validation.go), Checks.v (the normalisation and validation of
    internal/checks/check.go).

    The HTTP server, internal/server/: ClientIP.v (the client address of auth.go),
    ProbeProcessor.v (probe_processor.go,
    errors.go), AuthProcessor.v (auth_processor.go), RateLimiter.v (the rate
    limiter of auth.go), StatusView.v (status_view.go), Server.v (the handlers and
    middleware of handler.go and auth.go, with json_request.go), Routes.v
    ([Handler.Routes]: a request of any route to the whole server's state),
    RequestLog.v (request_log.go: the access log around [Routes]).  Logx.v is
    internal/logx: levels and log fields.

    The probe, cmd/wacht-probe/: Batcher.v (result_batcher.go, and the retry rule
    of internal/api/probe/client.go), Scheduler.v (scheduler.go), Executors.v (the
    executors of internal/checks, the guarded HTTP client of netguard.go and
    [runAndQueue]), ProbeClient.v (internal/api/probe: the client of the server's
    API, and the start and the loops of main.go).

    The smoke tests' targets, cmd/wacht-mock/: DnsTarget.v (dns_target.go, on bytes),
    Mock.v (main.go: the HTTP and TCP targets and the webhook receiver).

    The process: Config.v (internal/config), Lifecycle.v (how the store, the handler
    and the HTTP server are made and closed: [New], [runMigrations] and [Close] of
    store.go and handler.go, http_server.go), Startup.v (cmd/wacht-server/main.go up
    to serving, and the sweep loops of monitoring_sweepers.go).

    The remaining files prove: StoreInvariant.v, StoreProperties.v, StoreBatch.v,
    ProbeProperties.v, StoreLedger.v, AuthInvariant.v, AuthProperties.v,
    StoreFrame.v (the store), Ledger.v, SweepProperties.v, System.v, LostIncident.v
    (runtime and store together), ProbeIngest.v, Onboarding.v (requests on the real
    store), SenderProperties.v, Delivery.v, Fairness.v, Interleaving.v (the sender
    on the real store), Paging.v (from an upload to the webhook),
    BatcherProperties.v, NetProperties.v, ServerInvariant.v, WorldInvariant.v,
    ServerProperties.v (the server as one transition system), StatusProperties.v,
    StartupProperties.v,
    ProbeServer.v, ProbeStart.v and ProbeSafety.v (the probe with the server behind
    it), DnsProperties.v; Examples.v, AuthExamples.v, ServerExamples.v, LogExamples.v
    and ProbeExamples.v hold concrete runs.

    ** How code is modelled

    A method that returns [(A, error)] is a function [St S A] from its receiver's
    state to the error or result and the state after it, on every path.  An [int]
    or [time.Duration] is a [Z] with [wrap64] where it can overflow; a
    [time.Time] is an instant in nanoseconds; strings are byte strings; maps are
    [gmap]s, and where the code ranges over a map the order is an argument.

    Every request to the world outside (a database round trip, the clock, the
    random source, bcrypt) is numbered; the environment answers by number.  A
    database call may fail before or after the server did the work.  Most theorems
    hold for both; where runtime and database agree only without the second, the
    theorem has the hypothesis [acknowledged] (ServerInvariant.v): after a call
    that was done but reported as failed the runtime is rolled back and the
    database is not.  A store call or a method
    under the runtime's lock is one step; the sweepers, the sender and the
    buffer, which release the lock or wait for the network in between, take what
    others do meanwhile as an argument or are transition systems.

    Error texts: a wrapped error keeps the fixed part of its format string;
    quoted arguments that no code reads are left out, in the text of a 400 answer
    too.  Of the log, the access log is modelled; the lines that handlers and
    workers log themselves are left out.

    Fuel: [TrimSpace] strips at most as many runes as the string has bytes;
    [generate_credential 8] is the source's own bound; [worker] and
    [flushPendingForShutdown] run for a number of rounds, and
    [shutdown_flush_terminates], [closed_sender_ends] and [due_page_waits_its_turn]
    show how many are enough; [parseDNSName] is given
    one round more than the message has bytes, which [dns_target_answers] shows to
    be enough, and [handleTCPConn] one round more than there are queries
    ([dns_frames_roundtrip]).

    ** What is proved

    - The whole server (ServerProperties.v): through any sequence of HTTP requests,
      evidence sweeps, probe sweeps that leave the incident flags alone, deliveries
      and restarts, tables and accounts stay sound whatever database calls fail;
      and where no call that was done is reported as failed, the runtime is sound
      and agrees with the database on the open incidents.  The status page shows
      what they agree on (StatusProperties.v).  What each call of the store keeps is
      kept by every request and sweep (WorldInvariant.v).
    - The machines: the probe and check machines are functions of their event
      history (ProbeMachine.v, CheckMachine.v); the quorum is a strict-majority
      vote over the probes, an incident needs a confirmed majority, and enough
      down reports open one (QuorumMachine.v); reachable runtimes are well formed
      and a degraded probe votes nowhere (Runtime.v).
    - Runtime and database: agreement on the open incidents of active checks is
      kept by result batches and evidence sweeps (Ledger.v, SweepProperties.v,
      stated against the class [Ledger] and discharged for the real store in
      StoreLedger.v) and established by a restart (System.v, Recovery.v); failing
      calls restore the runtime (Results.v, Heartbeat.v, SweepProperties.v); a
      probe's whole upload and heartbeat keep it (ProbeIngest.v).
      [probe_sweep_loses_incident] (LostIncident.v): an incident that a probe sweep
      opens is not recorded and nobody is paged, until the check is reported up.
    - The store: integrity of every reachable database, what a batch leaves in the
      tables row by row (StoreBatch.v), the page
      queue (pages that end stay ended, live pages become due, a claim takes the
      earliest, a claimed page is held, nobody is paged about a recovery before it),
      deletion, credentials (StoreProperties.v,
      ProbeProperties.v, SenderProperties.v); accounts and the life of sign-up
      requests, one-time setup tokens, onboarding end to end (AuthProperties.v,
      Onboarding.v).
    - The process: [LoadServer] returns only configurations that can be run
      (Config.v); a start is a run of the server's transition system, and what it
      serves is the loaded runtime after one probe sweep, which does not fail; the
      sweep loops do their work on every tick (StartupProperties.v).
    - Delivery: a round settles each page it sends, except where the database
      refuses the error's text, which it does whenever the text was cut inside a
      character; the backoff is bounded (SenderProperties.v).  A worker drains the queue once the
      webhooks accept, and ends once the sender is closed (Delivery.v); a due page
      waits for no more rounds than there are pages before it, however the other
      webhooks behave, as long as their error texts can be stored, and whatever the
      rest of the server queues or resolves between the rounds (Fairness.v,
      Interleaving.v).
    - End to end: an upload that opens or closes an incident queues its page in the
      same transaction, and a worker delivers it to the check's webhook (Paging.v).
    - The probe: the buffer is bounded and accounts for every result, shutdown
      ends (BatcherProperties.v); reconciliation touches only what changed
      (Scheduler.v).  Probe and server together: an upload is settled as the server
      served it, whatever is lost on the way, and one that is too long is given up;
      a check sync makes the probe run exactly the active checks (ProbeServer.v); a
      start with a valid credential registers the probe and runs them (ProbeStart.v);
      no check the server hands out makes a worker panic (ProbeSafety.v).  A worker
      queues a result per tick (Executors.v), and one tick of the upload loop is
      enough for a backlog of any size (BatcherProperties.v).
    - The access log changes no response, logs what was sent under an ID that is
      safe to log, and names a caller only if the guard let the request through;
      every request is answered with one of ten statuses (RequestLog.v).  The host
      a target is logged by is the one the policy judges (Logx.v).
    - The smoke DNS server reads no message out of bounds and answers exactly the
      queries for its name (DnsProperties.v); forced webhook failures are counted
      exactly, and the sender takes a page for delivered exactly if the receiver
      kept it (Mock.v).
    - Input: [DialContext] reaches only addresses outside the blocks the policy
      forbids, whatever the resolver answers (NetProperties.v); an accepted check
      is canonical and is accepted again unchanged (Checks.v), and a probe that runs
      it queues one result, up exactly if the target was reachable, and connects
      only where its policy allows (Executors.v); a client cannot
      choose the address it is limited by, unless a proxy adds a header line of
      its own, [only_first_header_line_counts] (ClientIP.v); the rate limiter lets
      through at most twice the limit in a window and locks nobody out for longer
      than one (RateLimiter.v).

    ** Not modelled

    What is left is at the edge of the program, and most of it is not its code.  The
    JSON and YAML decoders and [url.Parse], whose outcomes are arguments (a body is
    what decoding it meets); what net/http does on the wire, which is a tree of
    connections and redirects; response headers other than the request ID and those
    of CORS; the log lines of handlers and workers and the text format of a log;
    sockets, and the tickers' and time limits' timing: a loop is given the times of
    its ticks, and what an accept or a read delivers is an argument; what
    golang-migrate does with the migrations, which is taken to leave the tables of
    Database.v; flags and the process's exit; the frontend.  Requests are served one
    at a time and a store call is one step: data races and the interleaving of
    statements inside Postgres are outside; the calls of the rest of the server fall
    between a worker's rounds, not inside one. *)

From stdpp Require Export base gmap strings list fin_maps sorting numbers.

(** * Scope and notation *)

Declare Scope go_scope.
Delimit Scope go_scope with go.

(** Go's [==] on comparable values, as a boolean. *)
Notation "x == y" := (bool_decide (x = y)) (at level 70, no associativity) : go_scope.
Notation "x != y" := (negb (bool_decide (x = y))) (at level 70, no associativity) : go_scope.
Open Scope go_scope.

(** * Machine integers

    Go's [int], [int64] and [time.Duration] are 64-bit two's complement on the
    supported platforms; Postgres [INTEGER] is a 32-bit signed integer. *)

Definition wrap64 (z : Z) : Z := ((z + 2 ^ 63) mod 2 ^ 64 - 2 ^ 63)%Z.
Definition int64_max : Z := (2 ^ 63 - 1)%Z.
Definition fits_int32 (z : Z) : bool := ((- 2 ^ 31 <=? z) && (z <? 2 ^ 31))%Z.

Lemma wrap64_id (z : Z) : (- 2 ^ 63 <= z < 2 ^ 63)%Z -> wrap64 z = z.
Proof. intros H. unfold wrap64. rewrite Z.mod_small; lia. Qed.

Lemma wrap64_range (z : Z) : (- 2 ^ 63 <= wrap64 z < 2 ^ 63)%Z.
Proof. unfold wrap64. pose proof (Z.mod_pos_bound (z + 2 ^ 63) (2 ^ 64)). lia. Qed.

Lemma wrap64_idemp (z : Z) : wrap64 (wrap64 z) = wrap64 z.
Proof. apply wrap64_id, wrap64_range. Qed.

Lemma wrap64_add_l (a b : Z) : wrap64 (wrap64 a + b) = wrap64 (a + b).
Proof.
  unfold wrap64. f_equal.
  replace ((a + 2 ^ 63) mod 2 ^ 64 - 2 ^ 63 + b + 2 ^ 63)%Z
    with ((a + 2 ^ 63) mod 2 ^ 64 + b)%Z by lia.
  rewrite Z.add_mod_idemp_l by lia. f_equal. lia.
Qed.

(** * Time

    A [time.Time] is an instant: nanoseconds since Go's zero time
    (January 1, year 1, 00:00 UTC), so [time.Time{}] is 0.  [UTC] changes the
    location used for display and not the instant.  A [time.Duration] is an
    [int64] number of nanoseconds. *)

Abbreviation Time := Z.
Abbreviation Duration := Z.

Definition zeroTime : Time := 0%Z.
Definition IsZero (t : Time) : bool := (t =? 0)%Z.
Definition UTC (t : Time) : Time := t.
Definition time_Add (t : Time) (d : Duration) : Time := (t + d)%Z.
Definition After (t u : Time) : bool := (u <? t)%Z.
Definition Second : Duration := 1000000000%Z.
Definition Minute : Duration := (60 * Second)%Z.
Definition Hour : Duration := (60 * Minute)%Z.

(** * Errors

    An [error] value: a package-level sentinel, a formatted message, a wrapped
    error ([%w]), a pointer to one of the program's error structs, or an error
    reported by the database driver. *)

Inductive GoError :=
| ErrSentinel (name : string)
| Errorf (msg : string)
| Wrapf (prefix : string) (inner : GoError)
| ErrTyped (type_name msg : string)
| ErrDriver (msg : string).

#[global] Instance GoError_eq_dec : EqDecision GoError.
Proof. solve_decision. Defined.

(** [err.Error()]. *)
Fixpoint error_text (err : GoError) : string :=
  match err with
  | ErrSentinel name => name
  | Errorf msg => msg
  | Wrapf prefix inner => prefix +:+ ": " +:+ error_text inner
  | ErrTyped _ msg => msg
  | ErrDriver msg => msg
  end.

(** [errors.Is(err, target)] for a sentinel target: walks the wrap chain. *)
Fixpoint errors_Is (e target : GoError) : bool :=
  (e == target) ||
  match e with Wrapf _ inner => errors_Is inner target | _ => false end.

(** [errors.As(err, &p)] for an error struct type: the first match of the chain. *)
Fixpoint errors_As (e : GoError) (type_name : string) : option string :=
  match e with
  | ErrTyped ty msg => if ty == type_name then Some msg else None
  | Wrapf _ inner => errors_As inner type_name
  | _ => None
  end.

(** * State passing with errors

    A method with a pointer receiver that returns [(A, error)] is a function
    from the receiver's state to the error or the result together with the
    state it leaves behind, on the error path too. *)

Definition St (S A : Type) : Type := S -> (GoError + A) * S.

#[global] Instance St_ret S : MRet (St S) := fun A (a : A) s => (inr a, s).
#[global] Instance St_bind S : MBind (St S) := fun A B (f : A -> St S B) m s =>
  match m s with
  | (inl e, s') => (inl e, s')
  | (inr a, s') => f a s'
  end.

Definition st_get {S} : St S S := fun s => (inr s, s).
Definition st_put {S} (s' : S) : St S unit := fun _ => (inr tt, s').
Definition st_modify {S} (f : S -> S) : St S unit := fun s => (inr tt, f s).
Definition st_lift {S A} (x : GoError + A) : St S A := fun s => (x, s).
Definition st_fail {S A} (e : GoError) : St S A := fun s => (inl e, s).

(** ** Reasoning about runs *)

(** A run of a sequence that succeeds is two runs that succeed. *)
Lemma bind_inr {S A B} (m : St S A) (k : A -> St S B) s b s' :
  (m ≫= k) s = (inr b, s') <->
  exists a s1, m s = (inr a, s1) /\ k a s1 = (inr b, s').
Proof.
  unfold mbind, St_bind. destruct (m s) as [[e|a] s1]; split.
  - done.
  - intros (? & ? & ? & _). simplify_eq.
  - eauto.
  - intros (a' & s2 & ? & Hk). by simplify_eq.
Qed.

(** A run of a sequence that fails stops at the first failing part. *)
Lemma bind_inl {S A B} (m : St S A) (k : A -> St S B) s e s' :
  (m ≫= k) s = (inl e, s') <->
  m s = (inl e, s') \/ exists a s1, m s = (inr a, s1) /\ k a s1 = (inl e, s').
Proof.
  unfold mbind, St_bind. destruct (m s) as [[e'|a] s1]; split.
  - intros [= -> ->]. by left.
  - intros [H|(? & ? & H & _)]; by simplify_eq.
  - eauto.
  - intros [H|(? & ? & H & Hk)]; by simplify_eq.
Qed.

(** Filtering an association list keeps its keys distinct. *)
Lemma NoDup_fst_filter {K V} (f : K * V -> bool) (l : list (K * V)) :
  NoDup l.*1 -> NoDup (List.filter f l).*1.
Proof.
  induction l as [|[k v] l IH]; [done|]. simpl. rewrite list.NoDup_cons. intros [Hni Hnd].
  destruct (f (k, v)); [|by apply IH]. simpl. apply list.NoDup_cons. split; [|by apply IH].
  intros Hin. apply Hni. apply list_elem_of_fmap in Hin as (kn & -> & Hin). apply list_elem_of_fmap.
  exists kn. split; [done|]. apply list_elem_of_In, filter_In in Hin as [Hin _].
  by apply list_elem_of_In.
Qed.

(** [for _, x := range xs], stopping at the first error. *)
Fixpoint st_for {S A} (xs : list A) (body : A -> St S unit) : St S unit :=
  match xs with
  | [] => mret tt
  | x :: xs => body x ;; st_for xs body
  end.

(** The same where the body's results are appended to a slice. *)
Fixpoint st_collect {S A B} (xs : list A) (body : A -> St S B) : St S (list B) :=
  match xs with
  | [] => mret []
  | x :: xs => y ← body x; ys ← st_collect xs body; mret (y :: ys)
  end.

(** The hints that show store calls to keep the integrity of the tables. *)
Create HintDb store.

(** Opens the binds of a successful run in hypothesis [H]. *)
Ltac run_ok H :=
  repeat match type of H with
  | (_ ≫= _) _ = (inr _, _) =>
      let a := fresh "a" in let s := fresh "s" in let H1 := fresh "Hrun" in
      apply bind_inr in H as (a & s & H1 & H)
  end.
