(* ===== verification/GoStrings.v ===== *)
(** The functions of Go's [strings], [unicode/utf8] and [encoding/json] packages
    the program uses, on byte strings. *)

From S2P Require Import Prelude.
From stdpp Require Import pretty.
From Stdlib Require Import Ascii NArith ZifyBool ZifyN.

Definition code (a : ascii) : N := N_of_ascii a.
Definition between (lo hi n : N) : bool := ((lo <=? n) && (n <=? hi))%N.

(** * strings.TrimSpace

    White space is [unicode.IsSpace]: the ASCII spaces, U+0085, U+00A0, U+1680,
    U+2000 to U+200A, U+2028, U+2029, U+202F, U+205F and U+3000, recognised by
    their UTF-8 encodings. *)

Definition ascii_space (n : N) : bool := between 9 13 n || (n =? 32)%N.
Definition space2 (a b : N) : bool := ((a =? 194) && ((b =? 133) || (b =? 160)))%N.
Definition space3 (a b c : N) : bool :=
  ((a =? 225) && (b =? 154) && (c =? 128))%N ||
  ((a =? 226)%N && (b =? 128)%N &&
     (between 128 138 c || (c =? 168)%N || (c =? 169)%N || (c =? 175)%N)) ||
  ((a =? 226) && (b =? 129) && (c =? 159))%N ||
  ((a =? 227) && (b =? 128) && (c =? 128))%N.

(** The rest of the string after a leading white-space rune. *)
Definition space_head (s : string) : option string :=
  match s with
  | EmptyString => None
  | String a s1 =>
      if ascii_space (code a) then Some s1
      else match s1 with
           | EmptyString => None
           | String b s2 =>
               if space2 (code a) (code b) then Some s2
               else match s2 with
                    | EmptyString => None
                    | String c s3 => if space3 (code a) (code b) (code c) then Some s3 else None
                    end
           end
  end.

(** The same on the reversed string: a trailing white-space rune. *)
Definition space_last (s : string) : option string :=
  match s with
  | EmptyString => None
  | String a s1 =>
      if ascii_space (code a) then Some s1
      else match s1 with
           | EmptyString => None
           | String b s2 =>
               if space2 (code b) (code a) then Some s2
               else match s2 with
                    | EmptyString => None
                    | String c s3 => if space3 (code c) (code b) (code a) then Some s3 else None
                    end
           end
  end.

(** Strips while [f] finds a rune to strip; every step shortens the string, so
    its length is enough fuel. *)
Fixpoint strip (f : string -> option string) (fuel : nat) (s : string) : string :=
  match fuel with
  | 0 => s
  | S fuel => match f s with Some s' => strip f fuel s' | None => s end
  end.

Definition TrimSpace (s : string) : string :=
  let l := strip space_head (String.length s) s in
  String.rev (strip space_last (String.length l) (String.rev l)).

Lemma space_head_shorter s s' : space_head s = Some s' -> String.length s' < String.length s.
Proof.
  unfold space_head. intros H. repeat case_match; simplify_eq; simpl; lia.
Qed.

Lemma space_last_shorter s s' : space_last s = Some s' -> String.length s' < String.length s.
Proof.
  unfold space_last. intros H. repeat case_match; simplify_eq; simpl; lia.
Qed.

(** The fuel is enough: nothing is left to strip. *)
Lemma strip_done f fuel s :
  (forall s s', f s = Some s' -> String.length s' < String.length s) ->
  String.length s <= fuel -> f (strip f fuel s) = None.
Proof.
  intros Hf. revert s. induction fuel as [|fuel IH]; intros s Hs; simpl.
  - destruct (f s) eqn:He; [|done]. apply Hf in He. lia.
  - destruct (f s) eqn:He; [|done]. apply IH. apply Hf in He. lia.
Qed.

Lemma string_app_nil s : s +:+ EmptyString = s.
Proof. induction s as [|a s IH]; [done|]. change (String a (s +:+ EmptyString) = String a s). by rewrite IH. Qed.

Lemma string_app_assoc a b c : (a +:+ b) +:+ c = a +:+ (b +:+ c).
Proof.
  induction a as [|x a IH]; [done|].
  change (String x ((a +:+ b) +:+ c) = String x (a +:+ (b +:+ c))). by rewrite IH.
Qed.

Lemma rev_app_spec s t : String.rev_app s t = String.rev s +:+ t.
Proof.
  revert t. induction s as [|a s IH]; intros t; [done|]. unfold String.rev. simpl.
  rewrite IH, (IH (String a EmptyString)), string_app_assoc. done.
Qed.

Lemma string_rev_cons a s : String.rev (String a s) = String.rev s +:+ String a EmptyString.
Proof. exact (rev_app_spec s (String a EmptyString)). Qed.

Lemma string_rev_app s t : String.rev (s +:+ t) = String.rev t +:+ String.rev s.
Proof.
  induction s as [|a s IH]; [by rewrite string_app_nil|].
  change (String a s +:+ t) with (String a (s +:+ t)).
  by rewrite !string_rev_cons, IH, string_app_assoc.
Qed.

Lemma string_rev_involutive s : String.rev (String.rev s) = s.
Proof.
  induction s as [|a s IH]; [done|]. rewrite string_rev_cons, string_rev_app, IH. done.
Qed.

Lemma string_length_app s t : String.length (s +:+ t) = String.length s + String.length t.
Proof.
  induction s as [|a s IH]; [done|].
  change (S (String.length (s +:+ t)) = S (String.length s) + String.length t). by rewrite IH.
Qed.

Lemma string_rev_length s : String.length (String.rev s) = String.length s.
Proof.
  induction s as [|a s IH]; [done|]. rewrite string_rev_cons, string_length_app, IH. simpl. lia.
Qed.

(** What is stripped is a prefix. *)
Lemma strip_prefix f fuel s :
  (forall s s', f s = Some s' -> exists p, s = p +:+ s') -> exists p, s = p +:+ strip f fuel s.
Proof.
  intros Hf. revert s. induction fuel as [|fuel IH]; intros s; simpl; [by exists EmptyString|].
  destruct (f s) as [s'|] eqn:He; [|by exists EmptyString].
  destruct (Hf s s' He) as [p1 ->], (IH s') as [p2 E]. exists (p1 +:+ p2).
  by rewrite string_app_assoc, <-E.
Qed.

Lemma space_last_prefix s s' : space_last s = Some s' -> exists p, s = p +:+ s'.
Proof.
  unfold space_last. intros H. repeat case_match; simplify_eq.
  - by exists (String a EmptyString).
  - by exists (String a (String a0 EmptyString)).
  - by exists (String a (String a0 (String a1 EmptyString))).
Qed.

(** A leading space of a prefix is one of the whole. *)
Lemma space_head_app s t : space_head (s +:+ t) = None -> space_head s = None.
Proof.
  intros H. destruct s as [|a [|b [|c s]]]; [done|..]; revert H; unfold space_head;
    repeat (change (String ?x ?y +:+ t) with (String x (y +:+ t))); simpl; repeat case_match; done.
Qed.

Lemma TrimSpace_fix s : space_head s = None -> space_last (String.rev s) = None -> TrimSpace s = s.
Proof.
  intros Hh Hl. unfold TrimSpace.
  assert (E : strip space_head (String.length s) s = s) by (destruct (String.length s); simpl; by rewrite ?Hh).
  rewrite E. assert (E2 : forall n, strip space_last n (String.rev s) = String.rev s)
    by (intros []; simpl; by rewrite ?Hl).
  by rewrite E2, string_rev_involutive.
Qed.

(** Nothing is left to trim. *)
Lemma TrimSpace_clean s :
  space_head (TrimSpace s) = None /\ space_last (String.rev (TrimSpace s)) = None.
Proof.
  unfold TrimSpace. set (l := strip space_head (String.length s) s). split.
  - destruct (strip_prefix space_last (String.length l) (String.rev l) space_last_prefix) as [p E].
    apply (f_equal String.rev) in E. rewrite string_rev_involutive, string_rev_app in E.
    apply (space_head_app _ (String.rev p)). rewrite <-E. apply strip_done; [apply space_head_shorter|done].
  - rewrite string_rev_involutive. apply strip_done; [apply space_last_shorter|].
    by rewrite string_rev_length.
Qed.

Lemma TrimSpace_idemp s : TrimSpace (TrimSpace s) = TrimSpace s.
Proof. apply TrimSpace_fix; apply TrimSpace_clean. Qed.

(** Text of ASCII characters that are not white space. *)
Definition solid_char (a : ascii) : bool := (code a <? 128)%N && negb (ascii_space (code a)).
Fixpoint solid (s : string) : bool :=
  match s with EmptyString => true | String a s => solid_char a && solid s end.

Lemma solid_app s t : solid (s +:+ t) = solid s && solid t.
Proof.
  induction s as [|a s IH]; [done|]. change (String a s +:+ t) with (String a (s +:+ t)). simpl.
  by rewrite IH, andb_assoc.
Qed.

Lemma solid_rev s : solid (String.rev s) = solid s.
Proof.
  induction s as [|a s IH]; [done|]. rewrite string_rev_cons, solid_app, IH. simpl.
  by rewrite andb_true_r, andb_comm.
Qed.

(** An ASCII character at the end of a text decides whether there is a space. *)
Lemma ascii_end a s :
  (code a < 128)%N ->
  (space_head (String a s) = None <-> ascii_space (code a) = false) /\
  (space_last (String a s) = None <-> ascii_space (code a) = false).
Proof.
  intros Hlt. simpl. destruct (ascii_space (code a)); [by split|].
  assert (H2 : forall b, space2 (code a) b = false /\ space2 b (code a) = false).
  { intros b. unfold space2. split; lia. }
  assert (H3 : forall b c, space3 (code a) b c = false /\ space3 c b (code a) = false).
  { intros b c. unfold space3, between. split; lia. }
  destruct s as [|b [|c s]]; [done|..]; repeat rewrite (proj1 (H2 _)), (proj2 (H2 _)); [done|].
  by rewrite (proj1 (H3 _ _)), (proj2 (H3 _ _)).
Qed.

Lemma solid_no_space s : solid s = true -> space_head s = None /\ space_last s = None.
Proof.
  destruct s as [|a s]; [done|]. simpl solid. intros [Ha _]%andb_true_iff. unfold solid_char in Ha.
  apply andb_true_iff in Ha as [Hlt Hns]. apply N.ltb_lt in Hlt. apply negb_true_iff in Hns.
  destruct (ascii_end a s Hlt) as [-> ->]. done.
Qed.

Lemma TrimSpace_solid s : solid s = true -> TrimSpace s = s.
Proof.
  intros Hs. apply TrimSpace_fix; [by apply solid_no_space|]. apply solid_no_space. by rewrite solid_rev.
Qed.

(** * encoding/json strings

    [appendString] with HTML escaping, as [json.Marshal] uses it. *)

Definition hex_digit (n : N) : ascii :=
  if (n <? 10)%N then ascii_of_N (48 + n) else ascii_of_N (87 + n).

Definition quote_char : ascii := ascii_of_N 34.
Definition backslash : ascii := ascii_of_N 92.

(** A byte below 0x80: escaped unless it is in [htmlSafeSet]. *)
Definition escape_ascii (a : ascii) (rest : string) : string :=
  let n := code a in
  if (n =? 92)%N || (n =? 34)%N then String backslash (String a rest)
  else if (n =? 8)%N then String backslash (String "b" rest)
  else if (n =? 12)%N then String backslash (String "f" rest)
  else if (n =? 10)%N then String backslash (String "n" rest)
  else if (n =? 13)%N then String backslash (String "r" rest)
  else if (n =? 9)%N then String backslash (String "t" rest)
  else if (n <? 32)%N || (n =? 60)%N || (n =? 62)%N || (n =? 38)%N then
    String backslash (String "u" (String "0" (String "0"
      (String (hex_digit (n / 16)) (String (hex_digit (n mod 16)) rest)))))
  else String a rest.

Definition cont (n : N) : bool := between 128 191 n.

(** Valid multi-byte UTF-8 sequences, by Go's accept ranges. *)
Definition utf8_2 (a b : N) : bool := between 194 223 a && cont b.
Definition utf8_3 (a b c : N) : bool :=
  (((a =? 224)%N && between 160 191 b) || (between 225 236 a && cont b) ||
   ((a =? 237)%N && between 128 159 b) || (between 238 239 a && cont b)) && cont c.
Definition utf8_4 (a b c d : N) : bool :=
  (((a =? 240)%N && between 144 191 b) || (between 241 243 a && cont b) ||
   ((a =? 244)%N && between 128 143 b)) && cont c && cont d.

Definition invalid_utf8 (rest : string) : string :=
  String backslash (String "u" (String "f" (String "f" (String "f" (String "d" rest))))).
Definition line_separator (c : N) (rest : string) : string :=
  String backslash (String "u" (String "2" (String "0" (String "2" (String (hex_digit (c mod 16)) rest))))).

Fixpoint json_chars (s : string) : string :=
  match s with
  | EmptyString => EmptyString
  | String a s1 =>
      if (code a <? 128)%N then escape_ascii a (json_chars s1)
      else match s1 with
           | String b s2 =>
               if utf8_2 (code a) (code b) then String a (String b (json_chars s2))
               else match s2 with
                    | String c s3 =>
                        if utf8_3 (code a) (code b) (code c) then
                          if ((code a =? 226) && (code b =? 128) &&
                              ((code c =? 168) || (code c =? 169)))%N
                          then line_separator (code c) (json_chars s3)
                          else String a (String b (String c (json_chars s3)))
                        else match s3 with
                             | String d s4 =>
                                 if utf8_4 (code a) (code b) (code c) (code d)
                                 then String a (String b (String c (String d (json_chars s4))))
                                 else invalid_utf8 (json_chars s1)
                             | EmptyString => invalid_utf8 (json_chars s1)
                             end
                    | EmptyString => invalid_utf8 (json_chars s1)
                    end
           | EmptyString => invalid_utf8 (json_chars s1)
           end
  end.

Definition json_string (s : string) : string :=
  String quote_char (json_chars s +:+ String quote_char EmptyString).

Definition json_int (n : Z) : string := pretty n.

(** One member of an object. *)
Definition json_member (key value : string) : string := json_string key +:+ ":" +:+ value.

Fixpoint json_members (ms : list string) : string :=
  match ms with
  | [] => EmptyString
  | [m] => m
  | m :: ms => m +:+ "," +:+ json_members ms
  end.

Definition json_object (ms : list string) : string := "{" +:+ json_members ms +:+ "}".

(** * Other string functions *)

(** Byte length, [len(s)]. *)
Definition len (s : string) : Z := Z.of_nat (String.length s).

(** [s[:n]] for [0 <= n <= len(s)]. *)
Definition slice_to (n : nat) (s : string) : string := String.substring 0 n s.

(** * strings.ToLower

    ASCII strings are lowered byte by byte; others by [strings.Map] with the rune
    mapping [to_lower] of the toolchain's Unicode tables: every byte of an invalid
    sequence becomes U+FFFD. *)

Definition is_ascii (s : string) : bool :=
  forallb (fun a => (code a <? 128)%N) (String.list_ascii_of_string s).

Definition lower_byte (a : ascii) : ascii :=
  if between 65 90 (code a) then ascii_of_N (code a + 32)%N else a.

Fixpoint lower_bytes (s : string) : string :=
  match s with EmptyString => EmptyString | String a s => String (lower_byte a) (lower_bytes s) end.

Lemma code_lower a :
  (code a < 128)%N -> (code (lower_byte a) < 128)%N /\ lower_byte (lower_byte a) = lower_byte a /\
  ascii_space (code (lower_byte a)) = ascii_space (code a).
Proof.
  intros Ha. unfold lower_byte. destruct (between 65 90 (code a)) eqn:E; [|by rewrite E].
  unfold between in E. assert (Hc : code (ascii_of_N (code a + 32)) = (code a + 32)%N).
  { unfold code in *. apply N_ascii_embedding. lia. }
  rewrite Hc. unfold between, ascii_space, between. split; [lia|]. split.
  - assert (((65 <=? code a + 32) && (code a + 32 <=? 90))%N = false) as -> by lia. done.
  - lia.
Qed.

Lemma is_ascii_cons a s : is_ascii (String a s) = true <-> (code a < 128)%N /\ is_ascii s = true.
Proof. unfold is_ascii. simpl. by rewrite andb_true_iff, N.ltb_lt. Qed.

Lemma is_ascii_app s t : is_ascii (s +:+ t) = is_ascii s && is_ascii t.
Proof.
  induction s as [|a s IH]; [done|]. change (String a s +:+ t) with (String a (s +:+ t)).
  unfold is_ascii in *. simpl. by rewrite IH, andb_assoc.
Qed.

Lemma is_ascii_rev s : is_ascii (String.rev s) = is_ascii s.
Proof.
  induction s as [|a s IH]; [done|]. rewrite string_rev_cons, is_ascii_app, IH. unfold is_ascii. simpl.
  by rewrite andb_true_r, andb_comm.
Qed.

Lemma lower_bytes_app s t : lower_bytes (s +:+ t) = lower_bytes s +:+ lower_bytes t.
Proof.
  induction s as [|a s IH]; [done|]. change (String a s +:+ t) with (String a (s +:+ t)). simpl. by rewrite IH.
Qed.

Lemma lower_bytes_rev s : String.rev (lower_bytes s) = lower_bytes (String.rev s).
Proof.
  induction s as [|a s IH]; [done|]. simpl lower_bytes. by rewrite !string_rev_cons, lower_bytes_app, IH.
Qed.

Lemma lower_bytes_idemp s : is_ascii s = true ->
  lower_bytes (lower_bytes s) = lower_bytes s /\ is_ascii (lower_bytes s) = true.
Proof.
  induction s as [|a s IH]; [done|]. intros [Ha Hs]%is_ascii_cons. simpl.
  destruct (code_lower a Ha) as (H1 & H2 & _), (IH Hs) as [E1 E2]. rewrite H2, E1. split; [done|].
  by apply is_ascii_cons.
Qed.

(** Lower-casing leaves nothing to trim. *)
Lemma lower_bytes_trimmed s :
  is_ascii (TrimSpace s) = true -> TrimSpace (lower_bytes (TrimSpace s)) = lower_bytes (TrimSpace s).
Proof.
  intros Ha. destruct (TrimSpace_clean s) as [Hh Hl].
  assert (Hkeep : forall u, is_ascii u = true ->
    (space_head u = None -> space_head (lower_bytes u) = None) /\
    (space_last u = None -> space_last (lower_bytes u) = None)).
  { intros [|a u] Hu; [done|]. apply is_ascii_cons in Hu as [Hc _].
    destruct (code_lower a Hc) as (Hc' & _ & Hsp). cbn [lower_bytes].
    destruct (ascii_end a u Hc) as [-> ->], (ascii_end (lower_byte a) (lower_bytes u) Hc') as [-> ->].
    by rewrite Hsp. }
  apply TrimSpace_fix; [by apply Hkeep|]. rewrite lower_bytes_rev. apply Hkeep; [by rewrite is_ascii_rev|done].
Qed.

(** [utf8.AppendRune]. *)
Definition encode_rune (r : N) (rest : string) : string :=
  let cont_byte n := ascii_of_N (128 + n mod 64)%N in
  if (r <? 128)%N then String (ascii_of_N r) rest
  else if (r <? 2048)%N then String (ascii_of_N (192 + r / 64)%N) (String (cont_byte r) rest)
  else if (1114111 <? r)%N || between 55296 57343 r then
    String (ascii_of_N 239) (String (ascii_of_N 191) (String (ascii_of_N 189) rest))
  else if (r <? 65536)%N then
    String (ascii_of_N (224 + r / 4096)%N) (String (cont_byte (r / 64)%N) (String (cont_byte r) rest))
  else
    String (ascii_of_N (240 + r / 262144)%N) (String (cont_byte (r / 4096)%N)
      (String (cont_byte (r / 64)%N) (String (cont_byte r) rest))).

Definition rune_error : N := 65533.

(** [strings.Map]. *)
Fixpoint map_runes (f : N -> N) (s : string) : string :=
  match s with
  | EmptyString => EmptyString
  | String a s1 =>
      let invalid := encode_rune (f rune_error) (map_runes f s1) in
      let payload x := (code x mod 64)%N in
      if (code a <? 128)%N then encode_rune (f (code a)) (map_runes f s1)
      else match s1 with
           | String b s2 =>
               if utf8_2 (code a) (code b)
               then encode_rune (f (code a mod 32 * 64 + payload b)%N) (map_runes f s2)
               else match s2 with
                    | String c s3 =>
                        if utf8_3 (code a) (code b) (code c)
                        then encode_rune (f (code a mod 16 * 4096 + payload b * 64 + payload c)%N)
                               (map_runes f s3)
                        else match s3 with
                             | String d s4 =>
                                 if utf8_4 (code a) (code b) (code c) (code d)
                                 then encode_rune (f (code a mod 8 * 262144 + payload b * 4096 +
                                                      payload c * 64 + payload d)%N) (map_runes f s4)
                                 else invalid
                             | EmptyString => invalid
                             end
                    | EmptyString => invalid
                    end
           | EmptyString => invalid
           end
  end.

Definition ToLower (to_lower : N -> N) (s : string) : string :=
  if is_ascii s then lower_bytes s else map_runes to_lower s.

(** U+00C9 is lowered to U+00E9, and a stray byte is replaced. *)
Example ToLower_latin :
  let f r := if between 192 222 r then (r + 32)%N else r in
  ToLower f (String "a" (String (ascii_of_N 195) (String (ascii_of_N 137) (String (ascii_of_N 255) "b")))) =
  String "a" (String (ascii_of_N 195) (String (ascii_of_N 169)
    (String (ascii_of_N 239) (String (ascii_of_N 191) (String (ascii_of_N 189) "b"))))).
Proof. vm_compute. reflexivity. Qed.
