(* ===== verification/GoTime.v ===== *)
(** [time.Time.UTC().Format(time.RFC3339)] and [time.Time.Sub], on instants that
    are nanoseconds since January 1, year 1. *)

From S2P Require Import Prelude GoStrings.
From stdpp Require Import pretty.
From Stdlib Require Import Ascii NArith.

Local Open Scope Z_scope.

(** The proleptic Gregorian date of a day, counted from January 1, year 1; years
    are taken to begin in March. *)
Definition civil (day : Z) : Z * Z * Z :=
  let z := day + 306 in
  let era := z / 146097 in
  let doe := z mod 146097 in
  let yoe := (doe - doe / 1460 + doe / 36524 - doe / 146096) / 365 in
  let doy := doe - (365 * yoe + yoe / 4 - yoe / 100) in
  let mp := (5 * doy + 2) / 153 in
  let month := if mp <? 10 then mp + 3 else mp - 9 in
  let year := yoe + era * 400 + (if month <=? 2 then 1 else 0) in
  (year, month, doy - (153 * mp + 2) / 5 + 1).

Fixpoint pad (width : nat) (n : Z) : string :=
  match width with
  | O => EmptyString
  | S width => pad width (n / 10) +:+ String (ascii_of_N (48 + Z.to_N (n mod 10))%N) EmptyString
  end.

Definition format_year (year : Z) : string :=
  if year <? 0 then "-" +:+ pad 4 (- year)
  else if year <? 10000 then pad 4 year else pretty year.

Definition format_RFC3339 (t : Time) : string :=
  let seconds := t / Second in
  let '(year, month, day) := civil (seconds / 86400) in
  let second := seconds mod 86400 in
  format_year year +:+ "-" +:+ pad 2 month +:+ "-" +:+ pad 2 day +:+ "T" +:+
  pad 2 (second / 3600) +:+ ":" +:+ pad 2 (second / 60 mod 60) +:+ ":" +:+ pad 2 (second mod 60) +:+ "Z".

(** [t.Sub(u)], which saturates. *)
Definition time_Sub (t u : Time) : Duration := Z.max (- 2 ^ 63) (Z.min int64_max (t - u)).
Definition Milliseconds (d : Duration) : Z := Z.quot d 1000000.

Example format_zero : format_RFC3339 0 = "0001-01-01T00:00:00Z".
Proof. vm_compute. reflexivity. Qed.
Example format_epoch : format_RFC3339 (62135596800 * Second) = "1970-01-01T00:00:00Z".
Proof. vm_compute. reflexivity. Qed.
Example format_leap : format_RFC3339 ((62135596800 + 1709251199) * Second) = "2024-02-29T23:59:59Z".
Proof. vm_compute. reflexivity. Qed.
