(* ===== verification/GoNet.v ===== *)
(** What the program uses of Go's net and net/netip: textual addresses, CIDR
    prefixes, host:port, and the classes of an IP address; and [strconv.Atoi].

    A [netip.Addr] is its number; a [net.IP] is its bytes. *)

From S2P Require Import Prelude GoStrings GoTime.
From Stdlib Require Import Ascii NArith.

Local Open Scope Z_scope.

(** * Text *)

Definition chr (n : N) : ascii := ascii_of_N n.
Definition is_char (n : N) (a : ascii) : bool := (code a =? n)%N.

Fixpoint IndexByte (c : N) (s : string) : option nat :=
  match s with
  | EmptyString => None
  | String a s => if is_char c a then Some 0%nat else S <$> IndexByte c s
  end.

Fixpoint LastIndexByte (c : N) (s : string) : option nat :=
  match s with
  | EmptyString => None
  | String a s =>
      match LastIndexByte c s with
      | Some i => Some (S i)
      | None => if is_char c a then Some 0%nat else None
      end
  end.

Definition slice_from (n : nat) (s : string) : string := String.substring n (String.length s - n) s.
Definition has_byte (c : N) (s : string) : bool :=
  match IndexByte c s with Some _ => true | None => false end.

Definition digit (a : ascii) : option Z :=
  if between 48 57 (code a) then Some (Z.of_N (code a) - 48) else None.

Definition hex (a : ascii) : option Z :=
  if between 48 57 (code a) then Some (Z.of_N (code a) - 48)
  else if between 97 102 (code a) then Some (Z.of_N (code a) - 87)
  else if between 65 70 (code a) then Some (Z.of_N (code a) - 55)
  else None.

(** [strconv.Atoi]: an optional sign and decimal digits, in the range of [int]. *)
Fixpoint decimal (s : string) (acc : Z) : option Z :=
  match s with
  | EmptyString => Some acc
  | String a s => match digit a with Some d => decimal s (acc * 10 + d) | None => None end
  end.

Definition unsigned_decimal (s : string) : option Z :=
  if s == "" then None else decimal s 0.

Definition Atoi (s : string) : option Z :=
  let n := match s with
           | String a rest =>
               if is_char 45 a then Z.opp <$> unsigned_decimal rest
               else if is_char 43 a then unsigned_decimal rest
               else unsigned_decimal s
           | EmptyString => None
           end in
  match n with
  | Some n => if (- 2 ^ 63 <=? n) && (n <? 2 ^ 63) then Some n else None
  | None => None
  end.

(** [net.SplitHostPort]. *)
Definition SplitHostPort (hostport : string) : option (string * string) :=
  match LastIndexByte 58 hostport with
  | None => None
  | Some i =>
      let port := slice_from (S i) hostport in
      match hostport with
      | String a rest =>
          if is_char 91 a then
            match IndexByte 93 hostport with
            | None => None
            | Some close =>
                if (S close =? i)%nat then
                  if has_byte 91 rest || has_byte 93 (slice_from (S close) hostport) then None
                  else Some (String.substring 1 (close - 1) hostport, port)
                else None
            end
          else
            let host := slice_to i hostport in
            if has_byte 58 host || has_byte 91 hostport || has_byte 93 hostport then None
            else Some (host, port)
      | EmptyString => None
      end
  end.

(** * netip *)

Inductive Addr :=
| IP4 (a : Z)
| IP6 (a : Z) (zone : string).

#[global] Instance Addr_eq_dec : EqDecision Addr.
Proof. solve_decision. Defined.

(** The four fields of a dotted address; [started] tells whether the current
    field has a digit. *)
Fixpoint v4_fields (s : string) (started : bool) (val : Z) (fields : list Z) : option (list Z) :=
  match s with
  | EmptyString => if (length fields <? 3)%nat then None else Some (fields ++ [val])
  | String a rest =>
      match digit a with
      | Some d =>
          if started && (val =? 0) then None
          else let val := val * 10 + d in
               if 255 <? val then None else v4_fields rest true val fields
      | None =>
          if is_char 46 a then
            if negb started || (rest == "") then None
            else if (length fields =? 3)%nat then None
            else v4_fields rest false 0 (fields ++ [val])
          else None
      end
  end.

Definition bytes_Z (l : list Z) : Z := foldl (fun acc b => acc * 256 + b) 0 l.

Definition parseIPv4 (s : string) : option Addr :=
  (fun l => IP4 (bytes_Z l)) <$> v4_fields s false 0 [].

(** The hex digits at the front: their value, their number and what follows; a
    fifth digit is an error. *)
Fixpoint hex_group (s : string) (acc : Z) (off : nat) : option (Z * nat * string) :=
  match s with
  | EmptyString => Some (acc, off, s)
  | String a rest =>
      match hex a with
      | None => Some (acc, off, s)
      | Some d => if (3 <? off)%nat then None else hex_group rest (acc * 16 + d) (S off)
      end
  end.

(** The sixteen-bit fields once the text is used up; [ellipsis] is the position
    of "::". *)
Definition v6_finish (s : string) (groups : list Z) (ellipsis : option nat) : option (list Z) :=
  if negb (s == "") then None
  else if (length groups <? 8)%nat then
    match ellipsis with
    | None => None
    | Some e => Some (take e groups ++ replicate (8 - length groups) 0 ++ drop e groups)
    end
  else match ellipsis with Some _ => None | None => Some groups end.

(** [room] is the number of fields that still fit. *)
Fixpoint v6_loop (room : nat) (s : string) (groups : list Z) (ellipsis : option nat)
    : option (list Z) :=
  match room with
  | O => v6_finish s groups ellipsis
  | S room =>
      match hex_group s 0 0 with
      | None | Some (_, O, _) => None
      | Some (acc, _, rest) =>
          match rest with
          | EmptyString => v6_finish "" (groups ++ [acc]) ellipsis
          | String a after =>
              if is_char 46 a then
                if bool_decide (ellipsis = None) && negb (length groups =? 6)%nat then None
                else if (6 <? length groups)%nat then None
                else match v4_fields s false 0 [] with
                     | Some [b0; b1; b2; b3] =>
                         v6_finish "" (groups ++ [b0 * 256 + b1; b2 * 256 + b3]) ellipsis
                     | _ => None
                     end
              else if negb (is_char 58 a) then None
              else
                let groups := groups ++ [acc] in
                match after with
                | EmptyString => None
                | String b after' =>
                    if is_char 58 b then
                      match ellipsis with
                      | Some _ => None
                      | None =>
                          if after' == "" then v6_finish "" groups (Some (length groups))
                          else v6_loop room after' groups (Some (length groups))
                      end
                    else v6_loop room after groups ellipsis
                end
          end
      end
  end.

Definition words_Z (l : list Z) : Z := foldl (fun acc w => acc * 65536 + w) 0 l.

Definition v6_groups (s : string) : option (list Z) :=
  match s with
  | String a (String b rest) =>
      if is_char 58 a && is_char 58 b then
        if rest == "" then Some (replicate 8 0) else v6_loop 8 rest [] (Some 0%nat)
      else v6_loop 8 s [] None
  | _ => v6_loop 8 s [] None
  end.

Definition parseIPv6 (s : string) : option Addr :=
  match IndexByte 37 s with
  | None => (fun l => IP6 (words_Z l) "") <$> v6_groups s
  | Some i =>
      let zone := slice_from (S i) s in
      if zone == "" then None else (fun l => IP6 (words_Z l) zone) <$> v6_groups (slice_to i s)
  end.

(** The first of ".", ":" and "%" decides. *)
Fixpoint address_kind (s : string) : option N :=
  match s with
  | EmptyString => None
  | String a s =>
      if is_char 46 a || is_char 58 a || is_char 37 a then Some (code a) else address_kind s
  end.

Definition ParseAddr (s : string) : option Addr :=
  match address_kind s with
  | Some 46%N => parseIPv4 s
  | Some 58%N => parseIPv6 s
  | _ => None
  end.

Definition Unmap (ip : Addr) : Addr :=
  match ip with
  | IP6 a _ => if Z.shiftr a 32 =? 65535 then IP4 (a mod 2 ^ 32) else ip
  | IP4 _ => ip
  end.

(** [Addr.String]. *)
Definition dec_byte (n : Z) : string := pad (if n <? 10 then 1 else if n <? 100 then 2 else 3) n.

Definition v4_text (a : Z) : string :=
  dec_byte (Z.shiftr a 24 mod 256) +:+ "." +:+ dec_byte (Z.shiftr a 16 mod 256) +:+ "." +:+
  dec_byte (Z.shiftr a 8 mod 256) +:+ "." +:+ dec_byte (a mod 256).

Definition hex_text (w : Z) : string :=
  let d i := String (hex_digit (Z.to_N (Z.shiftr w i mod 16))) EmptyString in
  if w <? 16 then d 0
  else if w <? 256 then d 4 +:+ d 0
  else if w <? 4096 then d 8 +:+ d 4 +:+ d 0
  else d 12 +:+ d 8 +:+ d 4 +:+ d 0.

Definition v6_words (a : Z) : list Z := (fun i => Z.shiftr a (16 * i) mod 65536) <$> [7; 6; 5; 4; 3; 2; 1; 0].

Fixpoint zero_run (l : list Z) : nat :=
  match l with w :: l => if w =? 0 then S (zero_run l) else 0%nat | [] => 0%nat end.

(** The first of the longest runs of at least two zero fields: start and end. *)
Definition longest_zeros (l : list Z) : option (nat * nat) :=
  foldl (fun best i =>
    let n := zero_run (drop i l) in
    let m := match best with Some (a, b) => (b - a)%nat | None => 0%nat end in
    if (2 <=? n)%nat && (m <? n)%nat then Some (i, i + n)%nat else best) None (seq 0 8).

Fixpoint join_words (l : list Z) : string :=
  match l with
  | [] => ""
  | [w] => hex_text w
  | w :: l => hex_text w +:+ ":" +:+ join_words l
  end.

Definition v6_text (a : Z) : string :=
  let l := v6_words a in
  match longest_zeros l with
  | None => join_words l
  | Some (i, j) => join_words (take i l) +:+ "::" +:+ join_words (drop j l)
  end.

Definition Addr_String (ip : Addr) : string :=
  match ip with
  | IP4 a => v4_text a
  | IP6 a zone =>
      (if Z.shiftr a 32 =? 65535 then "::ffff:" +:+ v4_text (a mod 2 ^ 32) else v6_text a) +:+
      (if zone == "" then "" else "%" +:+ zone)
  end.

(** A valid prefix. *)
Record Prefix := MkPrefix { px_ip : Addr; px_bits : Z }.

Definition Contains (p : Prefix) (ip : Addr) : bool :=
  match px_ip p, ip with
  | IP4 n, IP4 a => Z.shiftr (Z.lxor a n) (32 - px_bits p) =? 0
  | IP6 n _, IP6 a zone => (zone == "") && (Z.shiftr (Z.lxor a n) (128 - px_bits p) =? 0)
  | _, _ => false
  end.

(** [netip.ParsePrefix], [Prefix.Masked]. *)
Definition ParsePrefix (s : string) : option Prefix :=
  match LastIndexByte 47 s with
  | None => None
  | Some i =>
      match ParseAddr (slice_to i s) with
      | None => None
      | Some ip =>
          let zone := match ip with IP6 _ z => z | IP4 _ => "" end in
          let bits_text := slice_from (S i) s in
          let signed := match bits_text with
                        | String a (String _ _) => negb (between 49 57 (code a))
                        | _ => false
                        end in
          if negb (zone == "") || signed then None
          else match Atoi bits_text with
          | None => None
          | Some bits =>
              if (bits <? 0) || ((match ip with IP4 _ => 32 | IP6 _ _ => 128 end) <? bits) then None
              else Some (MkPrefix ip bits)
          end
      end
  end.

Definition Masked (p : Prefix) : Prefix :=
  let clear width a := Z.shiftl (Z.shiftr a (width - px_bits p)) (width - px_bits p) in
  MkPrefix (match px_ip p with
            | IP4 a => IP4 (clear 32 a)
            | IP6 a _ => IP6 (clear 128 a) ""
            end) (px_bits p).

(** * net.IP *)

Definition IP : Type := list Z.

Fixpoint Z_bytes (n : nat) (z : Z) : IP :=
  match n with O => [] | S n => Z_bytes n (Z.shiftr z 8) ++ [z mod 256] end.

(** [net.ParseIP]: sixteen bytes, no zone. *)
Definition ParseIP (s : string) : option IP :=
  match ParseAddr s with
  | Some (IP4 a) => Some (Z_bytes 16 (65535 * 2 ^ 32 + a))
  | Some (IP6 a zone) => if zone == "" then Some (Z_bytes 16 a) else None
  | None => None
  end.

Definition v4_in_v6 : IP := replicate 10 0 ++ [255; 255].
Definition To4 (ip : IP) : option IP :=
  if (length ip =? 4)%nat then Some ip
  else if (length ip =? 16)%nat && bool_decide (take 12 ip = v4_in_v6) then Some (drop 12 ip)
  else None.

Definition IP_Equal (ip x : IP) : bool :=
  if (length ip =? length x)%nat then bool_decide (ip = x)
  else if (length ip =? 4)%nat && (length x =? 16)%nat then
    bool_decide (take 12 x = v4_in_v6) && bool_decide (ip = drop 12 x)
  else if (length ip =? 16)%nat && (length x =? 4)%nat then
    bool_decide (take 12 ip = v4_in_v6) && bool_decide (drop 12 ip = x)
  else false.

(** [net.IP.String]. *)
Definition IP_String (ip : IP) : string :=
  if (length ip =? 0)%nat then "<nil>"
  else match To4 ip with
  | Some ip4 => v4_text (bytes_Z ip4)
  | None =>
      if (length ip =? 16)%nat then v6_text (bytes_Z ip)
      else "?" +:+ foldr (fun b rest => String (hex_digit (Z.to_N (b / 16))) (String (hex_digit (Z.to_N (b mod 16))) rest)) "" ip
  end.

Definition octet (ip : IP) (i : nat) : Z := nth i ip 0.
Definition is16 (ip : IP) : bool := (length ip =? 16)%nat.

Definition IsUnspecified (ip : IP) : bool :=
  IP_Equal ip (v4_in_v6 ++ [0; 0; 0; 0]) || IP_Equal ip (replicate 16 0).
Definition IsLoopback (ip : IP) : bool :=
  match To4 ip with
  | Some ip4 => octet ip4 0 =? 127
  | None => IP_Equal ip (replicate 15 0 ++ [1])
  end.
Definition IsPrivate (ip : IP) : bool :=
  match To4 ip with
  | Some ip4 =>
      (octet ip4 0 =? 10) ||
      ((octet ip4 0 =? 172) && (Z.land (octet ip4 1) 240 =? 16)) ||
      ((octet ip4 0 =? 192) && (octet ip4 1 =? 168))
  | None => is16 ip && (Z.land (octet ip 0) 254 =? 252)
  end.
Definition IsMulticast (ip : IP) : bool :=
  match To4 ip with
  | Some ip4 => Z.land (octet ip4 0) 240 =? 224
  | None => is16 ip && (octet ip 0 =? 255)
  end.
Definition IsLinkLocalMulticast (ip : IP) : bool :=
  match To4 ip with
  | Some ip4 => (octet ip4 0 =? 224) && (octet ip4 1 =? 0) && (octet ip4 2 =? 0)
  | None => is16 ip && (octet ip 0 =? 255) && (Z.land (octet ip 1) 15 =? 2)
  end.
Definition IsLinkLocalUnicast (ip : IP) : bool :=
  match To4 ip with
  | Some ip4 => (octet ip4 0 =? 169) && (octet ip4 1 =? 254)
  | None => is16 ip && (octet ip 0 =? 254) && (Z.land (octet ip 1) 192 =? 128)
  end.

(** * Checks of the model *)

Example parse_v4 : ParseAddr "192.0.2.1" = Some (IP4 3221225985).
Proof. vm_compute. reflexivity. Qed.
Example parse_v4_bad : omap ParseAddr ["1.2.3"; "1.2.3.4.5"; "01.2.3.4"; "1..2.3"; "1.2.3."; "256.1.1.1"; "1.2.3.x"; ""; "7"; "%1"] = [].
Proof. vm_compute. reflexivity. Qed.
Example parse_v6 :
  Addr_String <$> omap ParseAddr ["::"; "::1"; "2001:DB8:0:0:1:0:0:1"; "fe80::1%eth0"; "::ffff:10.0.0.1"; "1:2:3:4:5:6:7:8"; "1::8"]
  = ["::"; "::1"; "2001:db8::1:0:0:1"; "fe80::1%eth0"; "::ffff:10.0.0.1"; "1:2:3:4:5:6:7:8"; "1::8"].
Proof. vm_compute. reflexivity. Qed.
Example parse_v6_bad :
  omap ParseAddr ["1:2:3:4:5:6:7:8:9"; "1:2:3:4:5:6:7::8"; "1::2::3"; ":1"; "1:"; "12345::"; "fe80::1%"; "1:2:3.4.5.6"] = [].
Proof. vm_compute. reflexivity. Qed.
Example split_host_port :
  omap SplitHostPort ["a:1"; "[::1]:80"; ":80"; "::1:80"; "[::1]"; "a"; "[a]b:1"; "[a:1"; "[[a]:1"; "a]:1"]
  = [("a", "1"); ("::1", "80"); ("", "80")].
Proof. vm_compute. reflexivity. Qed.

Example parse_prefix :
  Masked <$> omap ParsePrefix ["127.0.0.1/8"; "::1/128"; "10.1.2.3/0"; "2001:db8::1/32"] =
    [MkPrefix (IP4 2130706432) 8; MkPrefix (IP6 1 "") 128; MkPrefix (IP4 0) 0;
     MkPrefix (IP6 (8193 * 2 ^ 112 + 3512 * 2 ^ 96) "") 32].
Proof. vm_compute. reflexivity. Qed.
Example parse_prefix_bad :
  omap ParsePrefix ["127.0.0.1"; "10.0.0.0/33"; "10.0.0.0/+8"; "10.0.0.0/08"; "10.0.0.0/"; "::1/129"; "fe80::1%e/64"; "x/8"] = [].
Proof. vm_compute. reflexivity. Qed.
