(* ===== verification/ClientIP.v ===== *)
(** The client address of internal/server/auth.go: which address a rate limiter
    counts, behind proxies that may or may not be trusted.

    The headers are the request's header lines in order; [Header.Get] reads the
    first of a name. *)

From S2P Require Import Prelude GoStrings GoNet.
From Stdlib Require Import Ascii NArith.

(** What [clientIP] reads of a request. *)
Record Peer := MkPeer {
  pe_RemoteAddr : string;
  pe_forwarded : list string;
  pe_real_ip : list string
}.

(** [Header.Get] on the lines of one name. *)
Definition header_Get (lines : list string) : string := default "" (head lines).

(** [strings.TrimPrefix] and [strings.TrimSuffix] of one character. *)
Definition trim_first (c : N) (s : string) : string :=
  match s with
  | String a rest => if is_char c a then rest else s
  | EmptyString => s
  end.
Definition trim_last (c : N) (s : string) : string := String.rev (trim_first c (String.rev s)).

Definition parseIP (raw : string) : option Addr :=
  let raw := trim_last 93 (trim_first 91 (TrimSpace raw)) in
  if raw == "" then None else Unmap <$> ParseAddr raw.

Definition parseRequestIP (remoteAddr : string) : option Addr :=
  parseIP (match SplitHostPort remoteAddr with Some (h, _) => h | None => remoteAddr end).

(** [strings.Split] at commas. *)
Fixpoint split_commas (s : string) : list string :=
  match s with
  | EmptyString => [""]
  | String a rest =>
      if is_char 44 a then "" :: split_commas rest
      else match split_commas rest with
           | part :: parts => String a part :: parts
           | [] => [String a EmptyString]
           end
  end.

Definition parseForwardedFor (header : string) : list Addr :=
  if header == "" then [] else omap parseIP (split_commas header).

Definition ipInPrefixes (ip : Addr) (prefixes : list Prefix) : bool :=
  existsb (fun prefix => Contains prefix (Unmap ip)) prefixes.

(** The chain from the back: the first that is not trusted, or else the front. *)
Definition last_untrusted (chain : list Addr) (trusted : list Prefix) : option Addr :=
  match List.find (fun ip => negb (ipInPrefixes ip trusted)) (rev chain) with
  | Some ip => Some ip
  | None => head chain
  end.

Definition forwardedClientIP (r : Peer) (peer : Addr) (trusted : list Prefix) : option Addr :=
  let chain := parseForwardedFor (header_Get (pe_forwarded r)) in
  let chain :=
    if bool_decide (length chain = 0)
    then chain ++ option_list (parseIP (header_Get (pe_real_ip r)))
    else chain in
  last_untrusted (chain ++ [peer]) trusted.

Definition clientIP (trustedProxies : list Prefix) (r : Peer) : string :=
  match parseRequestIP (pe_RemoteAddr r) with
  | None => pe_RemoteAddr r
  | Some peer =>
      if negb (ipInPrefixes peer trustedProxies) then Addr_String peer
      else match forwardedClientIP r peer trustedProxies with
           | Some client => Addr_String client
           | None => Addr_String peer
           end
  end.

(** * Who can choose the address *)

Lemma split_commas_nonempty s : split_commas s <> [].
Proof. destruct s as [|a s]; simpl; [done|]. case_match; [done|]. by case_match. Qed.

Lemma split_commas_app s t :
  split_commas (s +:+ String ","%char t) = split_commas s ++ split_commas t.
Proof.
  induction s as [|a s IH]; [done|]. simpl. rewrite IH. case_match; [done|].
  pose proof (split_commas_nonempty s). by destruct (split_commas s).
Qed.

Lemma parseForwardedFor_app s t :
  t <> "" ->
  parseForwardedFor (s +:+ String ","%char t) = parseForwardedFor s ++ parseForwardedFor t.
Proof.
  intros Ht. unfold parseForwardedFor. rewrite (bool_decide_eq_false_2 (t = "")) by done.
  rewrite bool_decide_eq_false_2 by (by destruct s). rewrite split_commas_app, omap_app.
  case_bool_decide as Hs; [by rewrite Hs|done].
Qed.

Lemma find_app {A} (f : A -> bool) l k :
  List.find f (l ++ k) = match List.find f l with Some x => Some x | None => List.find f k end.
Proof. induction l as [|x l IH]; simpl; [done|]. by destruct (f x). Qed.

Lemma find_untrusted_rev chain trusted :
  Exists (fun ip => ipInPrefixes ip trusted = false) chain ->
  exists ip, List.find (fun ip => negb (ipInPrefixes ip trusted)) (rev chain) = Some ip /\
    ipInPrefixes ip trusted = false.
Proof.
  intros Hex. destruct (List.find _ (rev chain)) as [ip|] eqn:Hf.
  - exists ip. split; [done|]. apply List.find_some in Hf as [_ Hf]. by apply negb_true_iff.
  - exfalso. apply Exists_exists in Hex as (ip & Hin & Hip).
    assert (Hno := List.find_none _ _ Hf ip). rewrite <-in_rev in Hno. apply Hno in Hin.
    by rewrite Hip in Hin.
Qed.

Lemma find_untrusted chain trusted :
  Exists (fun ip => ipInPrefixes ip trusted = false) chain ->
  exists ip, last_untrusted chain trusted = Some ip /\ ipInPrefixes ip trusted = false.
Proof.
  intros Hex. unfold last_untrusted.
  destruct (find_untrusted_rev chain trusted Hex) as (ip & -> & Hip). by exists ip.
Qed.

(** What stands before an untrusted address does not matter. *)
Lemma last_untrusted_app front chain trusted :
  Exists (fun ip => ipInPrefixes ip trusted = false) chain ->
  last_untrusted (front ++ chain) trusted = last_untrusted chain trusted.
Proof.
  intros Hex. unfold last_untrusted. rewrite rev_app_distr, find_app.
  by destruct (find_untrusted_rev chain trusted Hex) as (ip & -> & _).
Qed.

Lemma last_untrusted_trusted chain peer trusted :
  ipInPrefixes peer trusted = true ->
  Exists (fun ip => ipInPrefixes ip trusted = false) chain ->
  last_untrusted (chain ++ [peer]) trusted = last_untrusted chain trusted.
Proof.
  intros Hp Hex. unfold last_untrusted. rewrite rev_app_distr. simpl. rewrite Hp. simpl.
  destruct (find_untrusted_rev chain trusted Hex) as (ip & -> & _). done.
Qed.

(** C36. A client cannot choose the address it is limited by, where its proxies
    append to one header line.  If the connection does not come from a trusted
    proxy, the headers do not matter.  If it does, the request has a single
    X-Forwarded-For line and the part of it that the proxies wrote names an
    untrusted address, then whatever the client put before that part does not
    matter: the address is the last untrusted one.  (With further lines it does
    matter: [only_first_header_line_counts].) *)
Theorem client_cannot_choose_address trusted remote peer (client proxies : string) forwarded real forwarded' real' :
  parseRequestIP remote = Some peer ->
  (ipInPrefixes peer trusted = false ->
   clientIP trusted (MkPeer remote forwarded real) = clientIP trusted (MkPeer remote forwarded' real')) /\
  (ipInPrefixes peer trusted = true ->
   Exists (fun ip => ipInPrefixes ip trusted = false) (parseForwardedFor proxies) ->
   clientIP trusted (MkPeer remote [client +:+ "," +:+ proxies] real) =
     clientIP trusted (MkPeer remote [proxies] real') /\
   exists ip, last_untrusted (parseForwardedFor proxies) trusted = Some ip /\
     ipInPrefixes ip trusted = false /\
     clientIP trusted (MkPeer remote [proxies] real') = Addr_String ip).
Proof.
  intros Hpeer. unfold clientIP. cbn [pe_RemoteAddr]. rewrite Hpeer.
  split; intros Htr; rewrite Htr; cbn [negb]; [done|].
  intros Hex. unfold forwardedClientIP. cbn [pe_forwarded pe_real_ip header_Get head default from_option id].
  change ("," +:+ proxies) with (String ","%char proxies).
  assert (Hp : proxies <> "") by (intros ->; by apply Exists_nil in Hex).
  assert (Hfront : forall front, last_untrusted (front ++ parseForwardedFor proxies ++ [peer]) trusted =
    last_untrusted (parseForwardedFor proxies) trusted).
  { intros front. rewrite last_untrusted_app by (apply Exists_app; by left).
    by apply last_untrusted_trusted. }
  destruct (find_untrusted (parseForwardedFor proxies) trusted Hex) as (ip & Hip & Hun).
  rewrite parseForwardedFor_app by done.
  assert (Hlen : forall front, bool_decide (length (front ++ parseForwardedFor proxies) = 0) = false).
  { intros front. apply bool_decide_eq_false_2. intros [_ E]%length_zero_iff_nil%app_nil. by rewrite E in Hex; apply Exists_nil in Hex. }
  rewrite Hlen, <-app_assoc, Hfront. pose proof (Hlen []) as Hl0. simpl in Hl0. rewrite Hl0.
  pose proof (Hfront []) as Hf0. simpl in Hf0. rewrite Hf0, Hip. split; [done|]. by exists ip.
Qed.

Definition ex_loopback : list Prefix := [MkPrefix (IP4 2130706432) 8].

(** Behind the bundled proxy, which appends to the header the client sent. *)
Lemma client_cannot_choose_address_witness :
  clientIP ex_loopback (MkPeer "127.0.0.1:4000" ["203.0.113.9" +:+ "," +:+ " 198.51.100.10"] []) = "198.51.100.10" /\
  clientIP ex_loopback (MkPeer "198.51.100.10:4000" ["10.0.0.1"] []) =
    clientIP ex_loopback (MkPeer "198.51.100.10:4000" [] []).
Proof.
  assert (H1 : parseRequestIP "127.0.0.1:4000" = Some (IP4 2130706433)) by (vm_compute; reflexivity).
  assert (H2 : parseRequestIP "198.51.100.10:4000" = Some (IP4 3325256714)) by (vm_compute; reflexivity).
  assert (T1 : ipInPrefixes (IP4 2130706433) ex_loopback = true) by (vm_compute; reflexivity).
  assert (T2 : ipInPrefixes (IP4 3325256714) ex_loopback = false) by (vm_compute; reflexivity).
  assert (Hin : Exists (fun ip => ipInPrefixes ip ex_loopback = false) (parseForwardedFor " 198.51.100.10")).
  { assert (E : parseForwardedFor " 198.51.100.10" = [IP4 3325256714]) by (vm_compute; reflexivity).
    rewrite E. left. exact T2. }
  assert (L : last_untrusted (parseForwardedFor " 198.51.100.10") ex_loopback = Some (IP4 3325256714))
    by (vm_compute; reflexivity).
  split.
  - destruct (client_cannot_choose_address ex_loopback _ _ "203.0.113.9" " 198.51.100.10" [] [] [] [] H1) as [_ Hc].
    destruct (Hc T1 Hin) as [E (ip & Hip & _ & Ha)]. rewrite L in Hip. injection Hip as <-.
    rewrite E, Ha. vm_compute. reflexivity.
  - exact (proj1 (client_cannot_choose_address ex_loopback _ _ "" "" ["10.0.0.1"] [] [] [] H2) T2).
Defined.

(** A proxy that adds a header line of its own, instead of appending to the
    client's, leaves the choice to the client: only the first line is read. *)
Example only_first_header_line_counts :
  clientIP ex_loopback (MkPeer "127.0.0.1:4000" ["203.0.113.9"; "198.51.100.10"] []) = "203.0.113.9" /\
  clientIP ex_loopback (MkPeer "127.0.0.1:4000" ["203.0.113.10"; "198.51.100.10"] []) = "203.0.113.10".
Proof. vm_compute. split; reflexivity. Qed.
