(* ===== verification/DnsTarget.v ===== *)
(** cmd/wacht-mock/dns_target.go: the DNS server of the smoke tests.

    A message is a list of bytes.  An index or slice expression that Go would panic
    on is [None], and so is a loop that runs out of fuel.  What the upstream server
    answers is an argument; the state, which the control path may change at any
    time, is that of the moment a message is handled. *)

From S2P Require Import Prelude GoStrings GoNet ClientIP.
From Stdlib Require Import NArith Ascii.

Local Open Scope Z_scope.

Definition ErrUnexpectedEOF : GoError := ErrSentinel "unexpected EOF".
(** [fmt.Errorf("%w %q", errUnsupportedStatus, status)] is [Wrapf status]. *)
Definition errUnsupportedStatus : GoError := ErrSentinel "unsupported status".

(** * Bytes *)

Abbreviation Bytes := (list Z).

(** [string(b)]. *)
Definition bytes_string (b : Bytes) : string :=
  foldr (fun c s => String (chr (Z.to_N c)) s) EmptyString b.

(** [b[lo:hi]]. *)
Definition slice (b : Bytes) (lo hi : nat) : option Bytes :=
  if ((lo <=? hi) && (hi <=? length b))%nat then Some (take (hi - lo) (drop lo b)) else None.

(** [binary.BigEndian]. *)
Definition Uint16 (b : Bytes) : option Z :=
  match b with b0 :: b1 :: _ => Some (Z.lor (Z.shiftl b0 8) b1) | _ => None end.
Definition put16 (v : Z) : Bytes := [Z.shiftr v 8 mod 256; v mod 256].
Definition put32 (v : Z) : Bytes := [Z.shiftr v 24 mod 256; Z.shiftr v 16 mod 256; Z.shiftr v 8 mod 256; v mod 256].

Definition dnsFixtureHost : string := "smoke-dns.wacht.test".
Definition dnsFixtureIP : string := "172.29.0.53".
Definition dnsTypeA : Z := 1.
Definition dnsClassINET : Z := 1.
Definition dnsResponseBit : Z := Z.shiftl 1 15.
Definition dnsRecursionWant : Z := Z.shiftl 1 8.
Definition dnsRecursionOK : Z := Z.shiftl 1 7.
Definition dnsRCodeNoError : Z := 0.
Definition dnsRCodeNXDomain : Z := 3.
Definition stateUp : Z := 0.
Definition stateDown : Z := 1.

Record dnsTarget := MkDnsTarget {
  dt_hostNormalized : string;
  dt_answer : Bytes;
  dt_state : Z
}.

Record dnsQuestion := MkDnsQuestion {
  dq_id : Z;
  dq_flags : Z;
  dq_name : string;
  dq_qType : Z;
  dq_qClass : Z;
  dq_question : Bytes
}.

(** * State *)

Definition status (t : dnsTarget) : string := if dt_state t =? stateDown then "down" else "up".

Definition setStatus (status : string) (t : dnsTarget) : option GoError * dnsTarget :=
  if status == "up" then (None, MkDnsTarget (dt_hostNormalized t) (dt_answer t) stateUp)
  else if status == "down" then (None, MkDnsTarget (dt_hostNormalized t) (dt_answer t) stateDown)
  else (Some (Wrapf status errUnsupportedStatus), t).

Section dns.
Context (unicode_lower : N -> N).

Definition normalizeDNSName (name : string) : string := trim_last 46 (ToLower unicode_lower (TrimSpace name)).

(** [udp] and [tcp] are the errors of the two listeners. *)
Definition newDNSTarget (udp tcp : option GoError) (host answerIP : string) : GoError + dnsTarget :=
  match (match ParseIP answerIP with Some ip => To4 ip | None => None end) with
  | None => inl (Errorf "dns target requires IPv4 answer")
  | Some ip =>
      match udp with
      | Some err => inl (Wrapf "listen udp" err)
      | None =>
          match tcp with
          | Some err => inl (Wrapf "listen tcp" err)
          | None => inr (MkDnsTarget (normalizeDNSName host) (take 4 ip) stateUp)
          end
      end
  end.

(** * Questions *)

(** The loop, with [i] and [labels] its variables. *)
Fixpoint parseDNSName (fuel : nat) (query : Bytes) (i : nat) (labels : list string)
    : option (GoError + (string * nat)) :=
  match fuel with
  | O => None
  | S fuel =>
      if (length query <=? i)%nat then Some (inl ErrUnexpectedEOF)
      else
        n ← query !! i;
        let i := S i in
        if n =? 0 then Some (inr (String.concat "." labels, i))
        else if negb (Z.land n 192 =? 0)
        then Some (inl (Errorf "compressed dns query names are not supported"))
        else if (length query <? i + Z.to_nat n)%nat then Some (inl ErrUnexpectedEOF)
        else
          label ← slice query i (i + Z.to_nat n);
          parseDNSName fuel query (i + Z.to_nat n) (labels ++ [ToLower unicode_lower (bytes_string label)])
  end.

Definition parseDNSQuestion (query : Bytes) : option (GoError + dnsQuestion) :=
  if (length query <? 12)%nat then Some (inl (Errorf "dns query too short"))
  else
    count ← slice query 4 6 ≫= Uint16;
    if negb (count =? 1) then Some (inl (Errorf "dns query must contain exactly one question"))
    else
      parsed ← parseDNSName (S (length query)) query 12 [];
      match parsed with
      | inl err => Some (inl err)
      | inr (name, next) =>
          if (length query <? next + 4)%nat then Some (inl ErrUnexpectedEOF)
          else
            question ← slice query 12 (next + 4);
            id ← slice query 0 2 ≫= Uint16;
            flags ← slice query 2 4 ≫= Uint16;
            qType ← slice query next (next + 2) ≫= Uint16;
            qClass ← slice query (next + 2) (next + 4) ≫= Uint16;
            Some (inr (MkDnsQuestion id flags name qType qClass question))
      end.

(** * Answers *)

Definition buildDNSResponse (question : dnsQuestion) (rCode : Z) (answer : Bytes) : Bytes :=
  let flags := Z.lor (Z.lor (Z.lor (Z.lor dnsResponseBit dnsRecursionOK)
                 (Z.land (dq_flags question) dnsRecursionWant)) (Z.land (dq_flags question) 0x7800)) rCode in
  let answerCount := if (0 <? length answer)%nat then 1 else 0 in
  put16 (dq_id question) ++ put16 flags ++ put16 1 ++ put16 answerCount ++ put16 0 ++ put16 0 ++
  dq_question question ++ answer.

Definition buildARecord (ip : Bytes) : Bytes :=
  [0xc0; 0x0c] ++ put16 dnsTypeA ++ put16 dnsClassINET ++ put32 1 ++ put16 4 ++ take 4 ip.

(** [upstream overTCP] is [proxyDNSTCP] or [proxyDNSUDP]. *)
Definition handleMessage (t : dnsTarget) (upstream : bool -> Bytes -> GoError + Bytes) (query : Bytes) (overTCP : bool)
    : option (GoError + Bytes) :=
  parsed ← parseDNSQuestion query;
  match parsed with
  | inl err => Some (inl err)
  | inr question =>
      if normalizeDNSName (dq_name question) != dt_hostNormalized t then Some (upstream overTCP query)
      else if status t == "down" then Some (inr (buildDNSResponse question dnsRCodeNXDomain []))
      else if (dq_qType question =? dnsTypeA) && (dq_qClass question =? dnsClassINET)
      then Some (inr (buildDNSResponse question dnsRCodeNoError (buildARecord (dt_answer t))))
      else Some (inr (buildDNSResponse question dnsRCodeNoError []))
  end.

(** * Transports *)

(** [io.ReadFull] of a frame from what a connection still delivers: the message
    and the rest, or the error. *)
Definition read_frame (stream : Bytes) : GoError + (Bytes * Bytes) :=
  match stream with
  | b0 :: b1 :: rest =>
      let size := Z.to_nat (Z.lor (Z.shiftl b0 8) b1) in
      if (length rest <? size)%nat then inl ErrUnexpectedEOF else inr (take size rest, drop size rest)
  | _ => inl ErrUnexpectedEOF
  end.

Definition frame (message : Bytes) : Bytes := put16 (Z.of_nat (length message)) ++ message.

(** What one connection is sent for [stream]; [t n] and [upstream n] are those of
    query [n]. *)
Fixpoint handleTCPConn (fuel : nat) (t : nat -> dnsTarget) (upstream : nat -> bool -> Bytes -> GoError + Bytes)
    (n : nat) (stream : Bytes) : option Bytes :=
  match fuel with
  | O => None
  | S fuel =>
      match read_frame stream with
      | inl _ => Some []
      | inr ([], _) => Some []
      | inr (query, rest) =>
          handled ← handleMessage (t n) (upstream n) query true;
          match handled with
          | inl _ => Some []
          | inr response =>
              out ← handleTCPConn fuel t upstream (S n) rest;
              Some (frame response ++ out)
          end
      end
  end.

(** The replies to a sequence of packets with their senders; a packet is cut at
    the buffer's 1500 bytes. *)
Fixpoint serveUDP {Addr} (t : nat -> dnsTarget) (upstream : nat -> bool -> Bytes -> GoError + Bytes)
    (n : nat) (packets : list (Bytes * Addr)) : option (list (Bytes * Addr)) :=
  match packets with
  | [] => Some []
  | (packet, addr) :: packets =>
      handled ← handleMessage (t n) (upstream n) (take 1500 packet) false;
      replies ← serveUDP t upstream (S n) packets;
      match handled with
      | inl _ => Some replies
      | inr response => Some ((response, addr) :: replies)
      end
  end.

(** The connections, one stream each, are served until accepting one fails; the
    state of the target is read per connection and query. *)
Fixpoint serveTCP (fuel : nat) (t : nat -> nat -> dnsTarget)
    (upstream : nat -> nat -> bool -> Bytes -> GoError + Bytes) (n : nat) (accepts : list (GoError + Bytes))
    : list (option Bytes) :=
  match accepts with
  | inr stream :: accepts =>
      handleTCPConn fuel (t n) (upstream n) 0 stream :: serveTCP fuel t upstream (S n) accepts
  | _ => []
  end.

(** [exchange] sends bytes to the upstream and gives what comes back. *)
Definition proxyDNSUDP (exchange : Bytes -> GoError + Bytes) (query : Bytes) : GoError + Bytes :=
  match exchange query with
  | inl err => inl err
  | inr reply => inr (take 1500 reply)
  end.

Definition proxyDNSTCP (exchange : Bytes -> GoError + Bytes) (query : Bytes) : GoError + Bytes :=
  match exchange (frame query) with
  | inl err => inl err
  | inr stream =>
      match read_frame stream with
      | inl err => inl err
      | inr (response, _) => inr response
      end
  end.

Definition proxy (udp tcp : Bytes -> GoError + Bytes) (overTCP : bool) (query : Bytes) : GoError + Bytes :=
  if overTCP then proxyDNSTCP tcp query else proxyDNSUDP udp query.
End dns.

(** * Closing *)

(** [net.ErrClosed]. *)
Definition ErrClosed : GoError := ErrSentinel "use of closed network connection".

Definition close_error (err : option GoError) : list string :=
  match err with
  | Some err => if errors_Is err ErrClosed then [] else [error_text err]
  | None => []
  end.

(** [udp] and [tcp] are what closing the two sockets reports. *)
Definition close (udp tcp : option GoError) : option GoError :=
  let errs := close_error udp ++ close_error tcp in
  if (length errs =? 0)%nat then None else Some (Errorf (String.concat "; " errs)).

(** A target is closed without an error exactly if each socket was closed or had
    been before. *)
Lemma close_reports udp tcp :
  close udp tcp = None <->
  (forall err, udp = Some err \/ tcp = Some err -> errors_Is err ErrClosed = true).
Proof.
  unfold close, close_error. split.
  - intros Hc err Herr. destruct (errors_Is err ErrClosed) eqn:E; [done|].
    destruct Herr as [->| ->]; rewrite E in Hc; [done|]. by destruct udp as [e|]; [destruct (errors_Is e ErrClosed)|].
  - intros Hall. destruct udp as [e|], tcp as [e'|]; rewrite ?(Hall e), ?(Hall e') by auto; done.
Qed.
