(* ===== verification/DnsProperties.v ===== *)
(** The DNS target: its parser is exact and never panics, its answers carry what
    they should, and its framing over TCP is faithful. *)

From S2P Require Import Prelude GoStrings GoNet ClientIP DnsTarget.
From Stdlib Require Import NArith ZifyBool.

Local Open Scope Z_scope.

Definition byte_ok (b : Z) : Prop := 0 <= b < 256.
Definition word_ok (v : Z) : Prop := 0 <= v < 65536.

(** * Words *)

Lemma join_bytes b0 b1 : byte_ok b0 -> byte_ok b1 -> Z.lor (Z.shiftl b0 8) b1 = b0 * 256 + b1.
Proof.
  intros H0 H1. rewrite Z.shiftl_mul_pow2 by lia. change (2 ^ 8) with 256.
  rewrite <-Z.lxor_lor, <-Z.add_nocarry_lxor; [done| |]; apply Z.bits_inj'; intros k Hk;
    rewrite Z.land_spec, Z.bits_0; change 256 with (2 ^ 8); rewrite Z.mul_pow2_bits by lia;
    (destruct (Z.ltb_spec k 8); [by rewrite Z.testbit_neg_r by lia|]);
    unfold byte_ok in *; rewrite (Z.bits_above_log2 b1 k), andb_false_r; try done; try lia;
    (destruct (decide (b1 = 0)) as [->|]; [simpl; lia|apply Z.log2_lt_pow2; [lia|]];
     apply Z.lt_le_trans with (2 ^ 8); [lia|apply Z.pow_le_mono_r; lia]).
Qed.

Lemma put16_spec v : word_ok v -> put16 v = [v / 256; v mod 256].
Proof.
  unfold word_ok, put16. intros Hv. rewrite Z.shiftr_div_pow2 by lia. change (2 ^ 8) with 256.
  rewrite (Z.mod_small (v / 256)); [done|]. split; [apply Z.div_pos; lia|]. apply Z.div_lt_upper_bound; lia.
Qed.

Lemma Uint16_put16 v rest : word_ok v -> Uint16 (put16 v ++ rest) = Some v.
Proof.
  intros Hv. rewrite put16_spec by done. unfold word_ok in Hv. simpl. f_equal. rewrite join_bytes.
  - pose proof (Z.div_mod v 256). lia.
  - split; [apply Z.div_pos; lia|apply Z.div_lt_upper_bound; lia].
  - apply Z.mod_pos_bound. lia.
Qed.

Lemma length_put16 v : length (put16 v) = 2%nat.
Proof. done. Qed.

(** * Slices *)

Lemma slice_app (a b c : Bytes) : slice (a ++ b ++ c) (length a) (length a + length b) = Some b.
Proof.
  unfold slice. rewrite !length_app. destruct (_ && _)%nat eqn:E; [|lia].
  f_equal. rewrite drop_app_length. replace (length a + length b - length a)%nat with (length b) by lia.
  apply take_app_length.
Qed.

Lemma slice_app' (a b c : Bytes) lo hi : lo = length a -> hi = (length a + length b)%nat ->
  slice (a ++ b ++ c) lo hi = Some b.
Proof. intros -> ->. apply slice_app. Qed.

Lemma slice_Some (b : Bytes) lo hi : (lo <= hi <= length b)%nat ->
  slice b lo hi = Some (take (hi - lo) (drop lo b)).
Proof. intros Hle. unfold slice. destruct (_ && _)%nat eqn:E; [done|lia]. Qed.

Lemma word_at (b : Bytes) lo hi : hi = (lo + 2)%nat -> (lo + 2 <= length b)%nat -> exists v, slice b lo hi ≫= Uint16 = Some v.
Proof.
  intros -> Hle. rewrite slice_Some by lia. simpl. replace (lo + 2 - lo)%nat with 2%nat by lia.
  destruct (drop lo b) as [|b0 [|b1 l]] eqn:E; [| |by eexists].
  - apply (f_equal length) in E. rewrite length_drop in E. simpl in E. lia.
  - apply (f_equal length) in E. rewrite length_drop in E. simpl in E. lia.
Qed.

(** * Names *)

Definition label_ok (l : Bytes) : Prop := (0 < length l < 64)%nat /\ Forall byte_ok l.
Definition encode_name (labels : list Bytes) : Bytes :=
  flat_map (fun l => Z.of_nat (length l) :: l) labels ++ [0].

Section names.
Context (unicode_lower : N -> N).
Definition spell (labels : list Bytes) : list string := (fun l => ToLower unicode_lower (bytes_string l)) <$> labels.

Lemma small_label n : byte_ok n -> (Z.land n 192 =? 0) = (n <? 64).
Proof.
  intros Hn. unfold byte_ok in Hn.
  assert (Hall : forallb (fun n => Bool.eqb (Z.land n 192 =? 0) (n <? 64)) (seqZ 0 256) = true)
    by (vm_compute; reflexivity).
  rewrite forallb_forall in Hall. apply eqb_prop, Hall, list_elem_of_In, elem_of_seqZ. lia.
Qed.

(** Reading any bytes as a name: it ends within the bytes, without a panic. *)
Lemma parse_name_total query fuel : forall i labels,
  (length query - i < fuel)%nat ->
  exists res, parseDNSName unicode_lower fuel query i labels = Some res /\
    match res with inr (_, next) => (i < next <= length query)%nat | inl _ => True end.
Proof.
  induction fuel as [|fuel IH]; intros i labels Hf; [lia|]. cbn [parseDNSName].
  destruct (Nat.leb_spec (length query) i); [by eexists|].
  destruct (lookup_lt_is_Some_2 query i) as [n Hn]; [lia|]. rewrite Hn. cbn [mbind option_bind].
  destruct (n =? 0); [eexists; split; [done|]; simpl; lia|]. destruct (negb _); [by eexists|].
  destruct (Nat.ltb_spec (length query) (S i + Z.to_nat n)); [by eexists|].
  rewrite slice_Some by lia. cbn [mbind option_bind].
  destruct (IH (S i + Z.to_nat n)%nat (labels ++ [ToLower unicode_lower
    (bytes_string (take (S i + Z.to_nat n - S i) (drop (S i) query)))])) as (res & -> & Hres); [lia|].
  exists res. split; [done|]. destruct res as [|[name next]]; [done|]. lia.
Qed.

(** One label. *)
Lemma parse_name_step fuel pre l rest labels :
  label_ok l ->
  parseDNSName unicode_lower (S fuel) (pre ++ Z.of_nat (length l) :: l ++ rest) (length pre) labels =
  parseDNSName unicode_lower fuel ((pre ++ Z.of_nat (length l) :: l) ++ rest) (length (pre ++ Z.of_nat (length l) :: l))
    (labels ++ [ToLower unicode_lower (bytes_string l)]).
Proof.
  intros [Hl Hb]. cbn [parseDNSName].
  assert (Hlen : length (pre ++ Z.of_nat (length l) :: l ++ rest) = (length pre + S (length l + length rest))%nat)
    by (rewrite length_app; simpl; by rewrite length_app).
  rewrite Hlen. destruct (Nat.leb_spec (length pre + S (length l + length rest)) (length pre)); [lia|].
  rewrite list_lookup_middle by done. cbn [mbind option_bind].
  destruct (Z.eqb_spec (Z.of_nat (length l)) 0); [lia|].
  rewrite small_label by (unfold byte_ok; lia). destruct (Z.ltb_spec (Z.of_nat (length l)) 64); [|lia]. cbn [negb].
  destruct (Nat.ltb_spec (length pre + S (length l + length rest)) (S (length pre) + Z.to_nat (Z.of_nat (length l)))); [lia|].
  replace (pre ++ Z.of_nat (length l) :: l ++ rest) with ((pre ++ [Z.of_nat (length l)]) ++ l ++ rest)
    by (by rewrite <-app_assoc).
  rewrite (slice_app' (pre ++ [Z.of_nat (length l)]) l) by (rewrite length_app; simpl; lia). cbn [mbind option_bind].
  replace ((pre ++ [Z.of_nat (length l)]) ++ l ++ rest) with ((pre ++ Z.of_nat (length l) :: l) ++ rest)
    by (by rewrite <-!app_assoc).
  replace (S (length pre) + Z.to_nat (Z.of_nat (length l)))%nat with (length (pre ++ Z.of_nat (length l) :: l))
    by (rewrite length_app; simpl; lia). done.
Qed.

Lemma encode_cons l ls : encode_name (l :: ls) = (Z.of_nat (length l) :: l) ++ encode_name ls.
Proof. unfold encode_name. simpl. by rewrite <-app_assoc. Qed.

(** An encoded name is read back. *)
Lemma parse_name_encoded ls : forall fuel pre post labels,
  Forall label_ok ls -> (length ls < fuel)%nat ->
  parseDNSName unicode_lower fuel (pre ++ encode_name ls ++ post) (length pre) labels =
  Some (inr (String.concat "." (labels ++ spell ls), (length pre + length (encode_name ls))%nat)).
Proof.
  induction ls as [|l ls IH]; intros fuel pre post labels Hok Hf; (destruct fuel as [|fuel]; [simpl in Hf; lia|]).
  - cbn [parseDNSName]. unfold encode_name. cbn [flat_map app]. rewrite !length_app. cbn [length].
    destruct (Nat.leb_spec (length pre + S (length post)) (length pre)); [lia|].
    rewrite list_lookup_middle by done. simpl. rewrite app_nil_r. do 3 f_equal. lia.
  - apply Forall_cons_1 in Hok as [Hl Hok]. rewrite encode_cons, <-app_assoc.
    change ((Z.of_nat (length l) :: l) ++ encode_name ls ++ post)
      with (Z.of_nat (length l) :: l ++ encode_name ls ++ post).
    rewrite parse_name_step by done. simpl in Hf. rewrite IH by (done || lia). do 3 f_equal.
    + unfold spell. by rewrite <-app_assoc.
    + rewrite !length_app. simpl. lia.
Qed.

(** What is read as a name is an encoded name. *)
Lemma parse_name_exact query fuel : forall i labels name next,
  Forall byte_ok query ->
  parseDNSName unicode_lower fuel query i labels = Some (inr (name, next)) ->
  exists ls, Forall label_ok ls /\ name = String.concat "." (labels ++ spell ls) /\
    next = (i + length (encode_name ls))%nat /\ (next <= length query)%nat /\
    take (length (encode_name ls)) (drop i query) = encode_name ls.
Proof.
  induction fuel as [|fuel IH]; intros i labels name next Hq; [done|]. cbn [parseDNSName].
  destruct (Nat.leb_spec (length query) i); [done|].
  destruct (lookup_lt_is_Some_2 query i) as [n Hn]; [lia|]. rewrite Hn. cbn [mbind option_bind].
  assert (Hb : byte_ok n) by (by eapply Forall_lookup_1).
  rewrite (drop_S _ _ _ Hn). destruct (Z.eqb_spec n 0) as [->|Hn0].
  { intros [= <- <-]. exists []. rewrite app_nil_r. split_and!; [done|done|simpl; lia|lia|done]. }
  rewrite small_label by done. destruct (Z.ltb_spec n 64); [|done]. cbn [negb].
  destruct (Nat.ltb_spec (length query) (S i + Z.to_nat n)); [done|].
  rewrite slice_Some by lia. cbn [mbind option_bind]. intros Hrun. unfold byte_ok in Hb.
  replace (S i + Z.to_nat n - S i)%nat with (Z.to_nat n) in Hrun by lia.
  set (l := take (Z.to_nat n) (drop (S i) query)) in *.
  assert (Hlen : length l = Z.to_nat n) by (unfold l; rewrite length_take, length_drop; lia).
  apply IH in Hrun as (ls & Hok & -> & -> & Hle & Ht); [|done]. exists (l :: ls). split_and!.
  - constructor; [|done]. split; [lia|]. by apply Forall_take, Forall_drop.
  - unfold spell. simpl. by rewrite <-app_assoc.
  - rewrite encode_cons, length_app. simpl. lia.
  - lia.
  - rewrite encode_cons. simpl. rewrite length_app, Hlen, Z2Nat.id by lia. f_equal.
    rewrite <-(take_drop (Z.to_nat n) (drop (S i) query)). fold l.
    rewrite take_app_ge by lia. f_equal. rewrite Hlen, drop_drop.
    replace (Z.to_nat n + length (encode_name ls) - Z.to_nat n)%nat with (length (encode_name ls)) by lia.
    exact Ht.
Qed.
End names.

(** * Questions *)

(** A query with one question; [counts] are the other three counts. *)
Definition message (id flags : Z) (counts : Bytes) (labels : list Bytes) (qType qClass : Z) (rest : Bytes) : Bytes :=
  put16 id ++ put16 flags ++ put16 1 ++ counts ++ encode_name labels ++ put16 qType ++ put16 qClass ++ rest.
Definition question_bytes (labels : list Bytes) (qType qClass : Z) : Bytes :=
  encode_name labels ++ put16 qType ++ put16 qClass.

Section questions.
Context (unicode_lower : N -> N).

Lemma parse_question_total query : exists res, parseDNSQuestion unicode_lower query = Some res.
Proof.
  unfold parseDNSQuestion. destruct (Nat.ltb_spec (length query) 12); [by eexists|].
  destruct (word_at query 4 6) as [count ->]; [done|lia|]. cbn [mbind option_bind].
  destruct (negb _); [by eexists|].
  destruct (parse_name_total unicode_lower query (S (length query)) 12 []) as (res & -> & Hres); [lia|].
  cbn [mbind option_bind]. destruct res as [e|[name next]]; [by eexists|].
  destruct (Nat.ltb_spec (length query) (next + 4)); [by eexists|].
  rewrite (slice_Some query 12 (next + 4)) by lia. cbn [mbind option_bind].
  destruct (word_at query 0 2) as [id E0]; [done|lia|]. cbn [mbind option_bind] in E0. rewrite E0.
  destruct (word_at query 2 4) as [flags E1]; [done|lia|]. cbn [mbind option_bind] in E1. rewrite E1.
  destruct (word_at query next (next + 2)) as [qt E2]; [done|lia|]. cbn [mbind option_bind] in E2. rewrite E2.
  destruct (word_at query (next + 2) (next + 4)) as [qc E3]; [lia|lia|]. cbn [mbind option_bind] in E3. rewrite E3.
  by eexists.
Qed.

Lemma word_slice (pre : Bytes) v (post : Bytes) lo hi :
  word_ok v -> lo = length pre -> hi = (length pre + 2)%nat ->
  slice (pre ++ put16 v ++ post) lo hi ≫= Uint16 = Some v.
Proof.
  intros Hv -> ->. rewrite (slice_app' pre (put16 v)) by done. simpl.
  pose proof (Uint16_put16 v [] Hv) as E. by rewrite app_nil_r in E.
Qed.

Lemma parse_question_message id flags counts labels qType qClass rest :
  word_ok id -> word_ok flags -> word_ok qType -> word_ok qClass -> length counts = 6%nat -> Forall label_ok labels ->
  parseDNSQuestion unicode_lower (message id flags counts labels qType qClass rest) =
  Some (inr (MkDnsQuestion id flags (String.concat "." (spell unicode_lower labels)) qType qClass
              (question_bytes labels qType qClass))).
Proof.
  intros Hid Hfl Hqt Hqc Hc Hls. unfold parseDNSQuestion.
  set (m := message id flags counts labels qType qClass rest).
  set (pre := put16 id ++ put16 flags ++ put16 1 ++ counts).
  assert (Hpre : length pre = 12%nat) by (unfold pre; rewrite !length_app, Hc; done).
  assert (Em : m = pre ++ encode_name labels ++ put16 qType ++ put16 qClass ++ rest)
    by (unfold m, message, pre; by rewrite <-!app_assoc).
  assert (Hlen : length m = (12 + length (encode_name labels) + 4 + length rest)%nat)
    by (rewrite Em, !length_app, Hpre, !length_put16; lia).
  rewrite Hlen. destruct (Nat.ltb_spec (12 + length (encode_name labels) + 4 + length rest) 12); [lia|].
  assert (E1 : slice m 4 6 ≫= Uint16 = Some 1).
  { unfold m, message. rewrite (app_assoc (put16 id)). by apply word_slice. }
  rewrite E1. cbn [mbind option_bind]. rewrite Z.eqb_refl. cbn [negb].
  assert (E2 : parseDNSName unicode_lower (S (12 + length (encode_name labels) + 4 + length rest)) m 12 [] =
    Some (inr (String.concat "." (spell unicode_lower labels), (12 + length (encode_name labels))%nat))).
  { rewrite Em, <-Hpre. rewrite parse_name_encoded; [done|done|]. rewrite Hpre.
    assert (length labels <= length (encode_name labels))%nat; [|lia].
    clear. induction labels as [|l ls IH]; [simpl; lia|]. rewrite encode_cons, length_app. simpl. lia. }
  rewrite E2. cbn [mbind option_bind].
  destruct (Nat.ltb_spec (12 + length (encode_name labels) + 4 + length rest) (12 + length (encode_name labels) + 4)); [lia|].
  assert (E3 : slice m 12 (12 + length (encode_name labels) + 4) = Some (question_bytes labels qType qClass)).
  { replace m with (pre ++ question_bytes labels qType qClass ++ rest)
      by (rewrite Em; unfold question_bytes; by rewrite <-!app_assoc).
    apply slice_app'; [done|]. unfold question_bytes. rewrite !length_app, !length_put16. lia. }
  rewrite E3. cbn [mbind option_bind].
  assert (E4 : slice m 0 2 ≫= Uint16 = Some id).
  { unfold m, message. by apply (word_slice []). }
  assert (E5 : slice m 2 4 ≫= Uint16 = Some flags) by (unfold m, message; by apply word_slice).
  assert (E6 : slice m (12 + length (encode_name labels)) (12 + length (encode_name labels) + 2) ≫= Uint16 = Some qType).
  { rewrite Em, app_assoc. apply word_slice; [done|rewrite length_app; lia..]. }
  assert (E7 : slice m (12 + length (encode_name labels) + 2) (12 + length (encode_name labels) + 4) ≫= Uint16 = Some qClass).
  { replace m with ((pre ++ encode_name labels ++ put16 qType) ++ put16 qClass ++ rest)
      by (rewrite Em; by rewrite <-!app_assoc).
    apply word_slice; [done|rewrite !length_app, length_put16; lia..]. }
  cbn [mbind option_bind] in E4, E5, E6, E7. by rewrite E4, E5, E6, E7.
Qed.
End questions.

(** * Flags *)

(** The flags word of an answer, bit by bit: response and recursion available are
    set, opcode and recursion desired are the query's, the low two bits are the
    code NXDOMAIN or none, the others are clear. *)
Definition answer_flags (flags : Z) (nx : bool) : Z :=
  Z.lor (Z.lor (Z.lor (Z.lor dnsResponseBit dnsRecursionOK) (Z.land flags dnsRecursionWant)) (Z.land flags 0x7800))
    (if nx then dnsRCodeNXDomain else dnsRCodeNoError).

Lemma answer_flags_bits flags nx k :
  0 <= k < 16 ->
  Z.testbit (answer_flags flags nx) k =
  ((k =? 15) || (k =? 7) || ((k =? 8) || ((11 <=? k) && (k <=? 14))) && Z.testbit flags k || (k <? 2) && nx).
Proof.
  intros Hk. unfold answer_flags. rewrite !Z.lor_spec, !Z.land_spec.
  assert (Hin : k ∈ seqZ 0 16) by (apply elem_of_seqZ; lia).
  assert (Hc : forall c, Forall (fun k => Z.testbit (Z.lor dnsResponseBit dnsRecursionOK) k = (k =? 15) || (k =? 7) /\
     Z.testbit dnsRecursionWant k = (k =? 8) /\ Z.testbit 0x7800 k = (11 <=? k) && (k <=? 14) /\
     Z.testbit (if c : bool then dnsRCodeNXDomain else dnsRCodeNoError) k = (k <? 2) && c) (seqZ 0 16)).
  { intros c. vm_compute. destruct c; repeat constructor. }
  specialize (Hc nx). rewrite Forall_forall in Hc. destruct (Hc k) as (E1 & E2 & E3 & E4); [by apply list_elem_of_In|].
  rewrite Z.lor_spec in E1. rewrite E1, E2, E3, E4.
  destruct (Z.testbit flags k), (k =? 8), ((11 <=? k) && (k <=? 14)), (k =? 15), (k =? 7), ((k <? 2) && nx); done.
Qed.

(** * Exactness *)

Lemma word_bytes b0 b1 : byte_ok b0 -> byte_ok b1 ->
  word_ok (b0 * 256 + b1) /\ put16 (b0 * 256 + b1) = [b0; b1] /\ Uint16 [b0; b1] = Some (b0 * 256 + b1).
Proof.
  unfold byte_ok. intros H0 H1. assert (Hw : word_ok (b0 * 256 + b1)) by (unfold word_ok; lia).
  split; [done|]. split.
  - rewrite put16_spec by done. rewrite Z.div_add_l, Z.div_small, Z.add_0_r by lia.
    by rewrite Z.add_comm, Z.mod_add, Z.mod_small by lia.
  - simpl. by rewrite join_bytes.
Qed.

Section exact.
Context (unicode_lower : N -> N).

(** What is read as a question is a message with one question. *)
Lemma parse_question_exact query q :
  Forall byte_ok query -> parseDNSQuestion unicode_lower query = Some (inr q) ->
  exists counts labels rest, length counts = 6%nat /\ Forall label_ok labels /\
    word_ok (dq_id q) /\ word_ok (dq_flags q) /\ word_ok (dq_qType q) /\ word_ok (dq_qClass q) /\
    query = message (dq_id q) (dq_flags q) counts labels (dq_qType q) (dq_qClass q) rest /\
    q = MkDnsQuestion (dq_id q) (dq_flags q) (String.concat "." (spell unicode_lower labels)) (dq_qType q) (dq_qClass q)
          (question_bytes labels (dq_qType q) (dq_qClass q)).
Proof.
  intros Hq Hp. pose proof Hp as Hrun. unfold parseDNSQuestion in Hrun.
  destruct (Nat.ltb_spec (length query) 12) as [|Hlen]; [done|].
  destruct query as [|b0 [|b1 [|b2 [|b3 [|b4 [|b5 [|b6 [|b7 [|b8 [|b9 [|b10 [|b11 tail]]]]]]]]]]]];
    try (simpl in Hlen; lia).
  pose proof Hq as Hall. repeat (apply Forall_cons_1 in Hall as [? Hall]).
  destruct (word_bytes b0 b1) as (W0 & P0 & U0); [done..|].
  destruct (word_bytes b2 b3) as (W2 & P2 & U2); [done..|].
  destruct (word_bytes b4 b5) as (W4 & P4 & U4); [done..|].
  assert (E4 : slice (b0 :: b1 :: b2 :: b3 :: b4 :: b5 :: b6 :: b7 :: b8 :: b9 :: b10 :: b11 :: tail) 4 6 ≫= Uint16
    = Some (b4 * 256 + b5)) by (rewrite slice_Some by (simpl; lia); exact U4).
  rewrite E4 in Hrun. cbn [mbind option_bind] in Hrun.
  destruct (Z.eqb_spec (b4 * 256 + b5) 1) as [E1|]; [|done]. cbn [negb] in Hrun. rewrite E1 in P4.
  set (query := b0 :: b1 :: b2 :: b3 :: b4 :: b5 :: b6 :: b7 :: b8 :: b9 :: b10 :: b11 :: tail) in *.
  destruct (parseDNSName unicode_lower (S (length query)) query 12 []) as [[e|[name next]]|] eqn:Hn;
    cbn [mbind option_bind] in Hrun; [done| |done].
  apply (parse_name_exact unicode_lower query) in Hn as (labels & Hls & -> & -> & Hle & Ht); [|done].
  destruct (Nat.ltb_spec (length query) (12 + length (encode_name labels) + 4)); [done|].
  change (drop 12 query) with tail in Ht.
  assert (Hsz : length query = (12 + length tail)%nat) by done.
  assert (Etail : tail = encode_name labels ++ drop (length (encode_name labels)) tail)
    by (rewrite <-Ht at 1; by rewrite take_drop).
  assert (Hd : Forall byte_ok (drop (length (encode_name labels)) tail)) by (by apply Forall_drop).
  assert (Hdl : (4 <= length (drop (length (encode_name labels)) tail))%nat) by (rewrite length_drop; lia).
  destruct (drop (length (encode_name labels)) tail) as [|q0 [|q1 [|q2 [|q3 rest]]]]; try (simpl in Hdl; lia).
  repeat (apply Forall_cons_1 in Hd as [? Hd]).
  destruct (word_bytes q0 q1) as (V0 & Q0 & _); [done..|]. destruct (word_bytes q2 q3) as (V2 & Q2 & _); [done..|].
  assert (Eq : query = message (b0 * 256 + b1) (b2 * 256 + b3) [b6; b7; b8; b9; b10; b11] labels
                         (q0 * 256 + q1) (q2 * 256 + q3) rest).
  { unfold message. rewrite P0, P2, P4, Q0, Q2. unfold query. by rewrite Etail. }
  rewrite Eq, parse_question_message in Hp by done. injection Hp as <-. cbn [dq_id dq_flags dq_qType dq_qClass].
  by exists [b6; b7; b8; b9; b10; b11], labels, rest.
Qed.
End exact.

(** * Answers *)

Section answers.
Context (unicode_lower : N -> N).

(** The answer for the fixture's name. *)
Definition answer (t : dnsTarget) (id flags : Z) (labels : list Bytes) (qType qClass : Z) : Bytes :=
  let down := status t == "down" in
  let address := negb down && (qType =? dnsTypeA) && (qClass =? dnsClassINET) in
  put16 id ++ put16 (answer_flags flags down) ++ put16 1 ++ put16 (if address then 1 else 0) ++ put16 0 ++ put16 0 ++
  question_bytes labels qType qClass ++ (if address then buildARecord (dt_answer t) else []).

Lemma handle_message_runs t upstream tcp id flags counts labels qType qClass rest :
  word_ok id -> word_ok flags -> word_ok qType -> word_ok qClass -> length counts = 6%nat -> Forall label_ok labels ->
  let m := message id flags counts labels qType qClass rest in
  handleMessage unicode_lower t upstream m tcp =
  Some (if normalizeDNSName unicode_lower (String.concat "." (spell unicode_lower labels)) == dt_hostNormalized t
        then inr (answer t id flags labels qType qClass) else upstream tcp m).
Proof.
  intros Hid Hfl Hqt Hqc Hc Hls m. unfold handleMessage, m. rewrite parse_question_message by done.
  cbn [mbind option_bind dq_name]. destruct (normalizeDNSName _ _ == _); cbn [negb]; [|done].
  unfold answer. destruct (status t == "down"); cbn [negb andb]; [done|].
  cbn [dq_qType dq_qClass]. by destruct ((qType =? dnsTypeA) && (qClass =? dnsClassINET)).
Qed.

(** C40. The DNS target reads every packet and answers its one name.  No packet
    makes the handler panic or run on; a packet of bytes is either refused by the
    parser, or is a message with one question.  Such a message for another name
    is forwarded as it is.  For the fixture's name, whatever its case and with or
    without a final dot, the answer has the query's ID and question and one or no
    record: NXDOMAIN and none while the target is down, its address for a query
    of type A and class IN, nothing otherwise; and in its flags exactly the
    response and recursion-available bits, the query's opcode and
    recursion-desired bits, and the code are set. *)
Theorem dns_target_answers t upstream tcp query :
  Forall byte_ok query ->
  (exists err, handleMessage unicode_lower t upstream query tcp = Some (inl err) /\
     parseDNSQuestion unicode_lower query = Some (inl err)) \/
  exists id flags counts labels qType qClass rest,
    word_ok id /\ word_ok flags /\ word_ok qType /\ word_ok qClass /\ length counts = 6%nat /\
    Forall label_ok labels /\ query = message id flags counts labels qType qClass rest /\
    handleMessage unicode_lower t upstream query tcp =
      Some (if normalizeDNSName unicode_lower (String.concat "." (spell unicode_lower labels)) == dt_hostNormalized t
            then inr (answer t id flags labels qType qClass) else upstream tcp query) /\
    forall k, 0 <= k < 16 -> Z.testbit (answer_flags flags (status t == "down")) k =
      ((k =? 15) || (k =? 7) || ((k =? 8) || ((11 <=? k) && (k <=? 14))) && Z.testbit flags k ||
       (k <? 2) && (status t == "down")).
Proof.
  intros Hq. destruct (parse_question_total unicode_lower query) as [[err|q] Hp].
  { left. exists err. unfold handleMessage. by rewrite Hp. }
  right. destruct (parse_question_exact unicode_lower query q Hq Hp)
    as (counts & labels & rest & Hc & Hls & H1 & H2 & H3 & H4 & E & _).
  exists (dq_id q), (dq_flags q), counts, labels, (dq_qType q), (dq_qClass q), rest.
  split_and!; [done..| |].
  - rewrite E at 1 2. by apply handle_message_runs.
  - intros k Hk. by apply answer_flags_bits.
Qed.

(** * Frames *)

Lemma read_frame_frame m rest : Z.of_nat (length m) < 65536 -> read_frame (frame m ++ rest) = inr (m, rest).
Proof.
  intros Hm. unfold frame. assert (Hw : word_ok (Z.of_nat (length m))) by (unfold word_ok; lia).
  pose proof (Uint16_put16 _ (m ++ rest) Hw) as E. rewrite <-app_assoc. rewrite put16_spec in * by done.
  cbn [app read_frame Uint16] in *. injection E as E. rewrite E, Nat2Z.id, length_app.
  destruct (Nat.ltb_spec (length m + length rest) (length m)); [lia|]. by rewrite take_app_length, drop_app_length.
Qed.

(** DNS over TCP keeps messages apart.  A connection on which a client sends
    any number of framed queries is sent the framed answers to them in the same
    order, and nothing else; reading ends when the client stops.  So a query
    forwarded over TCP to another target gets exactly that target's answer. *)
Lemma dns_frames_roundtrip t upstream queries answers :
  Forall (fun q => 0 < Z.of_nat (length q) < 65536) queries -> Forall (fun a => Z.of_nat (length a) < 65536) answers ->
  length answers = length queries ->
  (forall n q a, queries !! n = Some q -> answers !! n = Some a ->
     handleMessage unicode_lower (t n) (upstream n) q true = Some (inr a)) ->
  handleTCPConn unicode_lower (S (length queries)) t upstream 0 (flat_map frame queries) = Some (flat_map frame answers) /\
  forall q a, queries = [q] -> answers = [a] ->
    proxyDNSTCP (fun sent => inr (default [] (handleTCPConn unicode_lower (S (length queries)) t upstream 0 sent))) q = inr a.
Proof.
  intros Hq Ha Hlen Hh.
  assert (Hrun : handleTCPConn unicode_lower (S (length queries)) t upstream 0 (flat_map frame queries) = Some (flat_map frame answers)).
  { clear -Hq Ha Hlen Hh. 
    assert (Hgen : forall k, (forall n q a, queries !! n = Some q -> answers !! n = Some a ->
      handleMessage unicode_lower (t (k + n)%nat) (upstream (k + n)%nat) q true = Some (inr a)) ->
      handleTCPConn unicode_lower (S (length queries)) t upstream k (flat_map frame queries) = Some (flat_map frame answers));
      [|by apply Hgen].
    clear Hh. revert answers Ha Hlen. induction Hq as [|q queries Hq _ IH]; intros answers Ha Hlen k Hh.
    { by destruct answers. }
    destruct answers as [|a answers]; [done|]. apply Forall_cons_1 in Ha as [Ha0 Ha]. injection Hlen as Hlen.
    cbn [length flat_map]. specialize (IH answers Ha Hlen (S k)). remember (S (length queries)) as fuel. cbn [handleTCPConn]. rewrite read_frame_frame by lia.
    destruct q as [|b q]; [simpl in Hq; lia|].
    pose proof (Hh 0%nat (b :: q) a eq_refl eq_refl) as H0. rewrite Nat.add_0_r in H0. rewrite H0.
    cbn [mbind option_bind]. rewrite IH; [done|]. intros n q' a' Hn Ha'.
    specialize (Hh (S n) q' a' Hn Ha'). by rewrite Nat.add_succ_r in Hh. }
  split; [done|]. intros q a -> ->. unfold proxyDNSTCP. cbn [flat_map] in Hrun. rewrite !app_nil_r in Hrun.
  rewrite Hrun. apply Forall_cons_1 in Ha as [Ha _]. cbn [default from_option id].
  pose proof (read_frame_frame a [] Ha) as E. rewrite app_nil_r in E. by rewrite E.
Qed.
End answers.

(** * A query *)

Definition ex_fixture : dnsTarget := MkDnsTarget dnsFixtureHost [172; 29; 0; 53] stateUp.
(** "Smoke-DNS.wacht.test", type A, with the recursion-desired bit. *)
Definition ex_labels : list Bytes :=
  [[83; 109; 111; 107; 101; 45; 68; 78; 83]; [119; 97; 99; 104; 116]; [116; 101; 115; 116]].
Definition ex_query : Bytes := message 4660 256 [0; 0; 0; 0; 0; 0] ex_labels 1 1 [].
Definition ex_upstream (tcp : bool) (q : Bytes) : GoError + Bytes := inl (Errorf "no upstream").

Lemma ex_labels_ok : Forall label_ok ex_labels.
Proof. repeat constructor; unfold byte_ok; simpl; lia. Qed.

Lemma dns_target_answers_witness :
  handleMessage (fun r => r) ex_fixture ex_upstream ex_query false =
    Some (inr (answer ex_fixture 4660 256 ex_labels 1 1)) /\
  (forall query, Forall byte_ok query -> exists res, handleMessage (fun r => r) ex_fixture ex_upstream query true = Some res).
Proof.
  split; [vm_compute; reflexivity|]. intros query Hq.
  destruct (dns_target_answers (fun r => r) ex_fixture ex_upstream true query Hq)
    as [(err & E & _)|(? & ? & ? & ? & ? & ? & ? & _ & _ & _ & _ & _ & _ & _ & E & _)]; rewrite E; eexists; reflexivity.
Defined.

(** The record: a pointer to the name, A, IN, one second, four bytes. *)
Example ex_record : buildARecord (dt_answer ex_fixture) =
  [192; 12; 0; 1; 0; 1; 0; 0; 0; 1; 0; 4; 172; 29; 0; 53].
Proof. vm_compute. reflexivity. Qed.

Lemma dns_frames_roundtrip_run :
  handleTCPConn (fun r => r) 2 (fun _ => ex_fixture) (fun _ => ex_upstream) 0 (flat_map frame [ex_query]) =
    Some (flat_map frame [answer ex_fixture 4660 256 ex_labels 1 1]).
Proof.
  apply (dns_frames_roundtrip (fun r => r) (fun _ => ex_fixture) (fun _ => ex_upstream) [ex_query]
    [answer ex_fixture 4660 256 ex_labels 1 1]).
  - constructor; [vm_compute; split; reflexivity|constructor].
  - constructor; [vm_compute; reflexivity|constructor].
  - reflexivity.
  - intros [|[|n]] q a [= <-] [= <-]. vm_compute. reflexivity.
Qed.
