(* ===== verification/Stateless.v ===== *)
(** The state-machine library [github.com/qmuntal/stateless], which is not part
    of the repository: its [Fire] is an operation of a class, and what the
    program relies on of it is stated as that class's laws.  The tables passed
    to [Configure]/[Permit]/[PermitReentry] are data of the program. *)

From S2P Require Import Prelude.

(** One call chained after [sm.Configure(state)]. *)
Inductive TransitionRule :=
| Permit (trigger dest : string)
| PermitReentry (trigger : string).

(** The calls [sm.Configure(state).rule1.rule2...], in order. *)
Definition MachineConfig : Type := list (string * list TransitionRule).

Definition rule_trigger (r : TransitionRule) : string :=
  match r with Permit t _ => t | PermitReentry t => t end.

(** The destination a configuration gives a trigger in a state: [Permit] names
    it, [PermitReentry] stays in the state. *)
Definition rule_target (state : string) (r : TransitionRule) : string :=
  match r with Permit _ d => d | PermitReentry _ => state end.

Definition permitted (cfg : MachineConfig) (state trigger : string) : option string :=
  '(_, rules) ← list_find (fun e => e.1 = state) cfg;
  '(_, r) ← list_find (fun r => rule_trigger r = trigger) rules.2;
  Some (rule_target state r).

(** Every state is configured once and has at most one rule for a trigger. *)
Definition config_ok (cfg : MachineConfig) : bool :=
  bool_decide (NoDup cfg.*1) &&
  forallb (fun e => bool_decide (NoDup (rule_trigger <$> e.2))) cfg.

(** [sm.Fire(trigger)] of a machine with external storage and immediate firing:
    it reads the current state through the accessor and either passes the new
    state to the mutator and returns nil, or returns an error and calls no
    mutator.  [sm_Fire cfg state trigger] is the state passed to the mutator. *)
Class Stateless : Type :=
  sm_Fire : MachineConfig -> string -> string -> GoError + string.

(** The documented behaviour: a permitted trigger moves to its destination, any
    other trigger is an error. *)
Class StatelessLaws `{Stateless} : Prop := {
  Fire_permitted cfg state trigger dest :
    config_ok cfg = true -> permitted cfg state trigger = Some dest ->
    sm_Fire cfg state trigger = inr dest;
  Fire_not_permitted cfg state trigger :
    config_ok cfg = true -> permitted cfg state trigger = None ->
    exists e, sm_Fire cfg state trigger = inl e
}.

(** A concrete library that obeys the laws: it looks the rule up in the table. *)
Definition table_Fire : Stateless := fun cfg state trigger =>
  match permitted cfg state trigger with
  | Some dest => inr dest
  | None => inl (Errorf "stateless: no valid leaving transitions are permitted")
  end.

Lemma table_Fire_laws : @StatelessLaws table_Fire.
Proof.
  split; intros cfg state trigger; unfold sm_Fire, table_Fire.
  - by intros dest _ ->.
  - intros _ ->. eauto.
Qed.
