(* ===== verification/Types.v ===== *)
(** The data of [internal/monitoring] (types.go, machine_types.go), of
    [internal/proto] and of [internal/checks]: string-typed enums with their
    constants, and one record per struct.  Field names carry a prefix that
    stands for the struct. *)

From S2P Require Import Prelude.

(** * String-typed enums *)

Definition ProbeState : Type := string.
Definition ProbeStateOnline : ProbeState := "online".
Definition ProbeStateOffline : ProbeState := "offline".
Definition ProbeStateError : ProbeState := "error".

Definition CheckState : Type := string.
Definition CheckStateUp : CheckState := "up".
Definition CheckStateDown : CheckState := "down".
Definition CheckStateMissing : CheckState := "missing".
Definition CheckStateError : CheckState := "error".

Definition QuorumState : Type := string.
Definition QuorumStatePending : QuorumState := "pending".
Definition QuorumStateUp : QuorumState := "up".
Definition QuorumStateDown : QuorumState := "down".
Definition QuorumStateError : QuorumState := "error".

Definition ProbeTrigger : Type := string.
Definition ProbeTriggerReceiveHeartbeat : ProbeTrigger := "receive_heartbeat".
Definition ProbeTriggerHeartbeatExpired : ProbeTrigger := "heartbeat_expired".
Definition ProbeTriggerMarkError : ProbeTrigger := "mark_error".

Definition CheckTrigger : Type := string.
Definition CheckTriggerObserveUp : CheckTrigger := "observe_up".
Definition CheckTriggerObserveDown : CheckTrigger := "observe_down".
Definition CheckTriggerLoseEvidence : CheckTrigger := "lose_evidence".
Definition CheckTriggerMarkError : CheckTrigger := "mark_error".

#[global] Typeclasses Transparent ProbeState CheckState QuorumState ProbeTrigger CheckTrigger.

(** * Runtime state *)

Record ProbeRuntimeState := MkProbeRuntimeState {
  pr_ProbeID : string;
  pr_State : ProbeState;
  pr_LastHeartbeatAt : option Time;
  pr_LastError : string
}.

Record CheckExecState := MkCheckExecState {
  ce_CheckID : string;
  ce_ProbeID : string;
  ce_LastResultAt : Time;
  ce_LastOutcome : CheckState;
  ce_StreakLen : Z;
  ce_ExpiresAt : Time;
  ce_State : CheckState;
  ce_LastError : string
}.

Record CheckQuorumState := MkCheckQuorumState {
  cq_CheckID : string;
  cq_State : QuorumState;
  cq_LastStableState : QuorumState;
  cq_IncidentOpen : bool
}.

#[global] Instance ProbeRuntimeState_eq_dec : EqDecision ProbeRuntimeState.
Proof. solve_decision. Defined.
#[global] Instance CheckExecState_eq_dec : EqDecision CheckExecState.
Proof. solve_decision. Defined.
#[global] Instance CheckQuorumState_eq_dec : EqDecision CheckQuorumState.
Proof. solve_decision. Defined.

(** The structs' zero values, which the code returns beside an error. *)
Definition zeroProbeRuntimeState : ProbeRuntimeState := MkProbeRuntimeState "" "" None "".
Definition zeroCheckQuorumState : CheckQuorumState := MkCheckQuorumState "" "" "" false.

Definition newProbeRuntimeState (probeID : string) : ProbeRuntimeState :=
  MkProbeRuntimeState probeID ProbeStateOffline None "".

Definition newCheckExecState (checkID probeID : string) : CheckExecState :=
  MkCheckExecState checkID probeID zeroTime "" 0 zeroTime CheckStateMissing "".

Definition newCheckQuorumState (checkID : string) : CheckQuorumState :=
  MkCheckQuorumState checkID QuorumStatePending "" false.

(** [clone] copies the heartbeat pointer's target; values are immutable here. *)
Definition clone (s : ProbeRuntimeState) : ProbeRuntimeState := s.

(** * Transitions *)

Record ProbeTransition := MkProbeTransition {
  pt_From : ProbeState;
  pt_To : ProbeState;
  pt_Trigger : ProbeTrigger;
  pt_Reentry : bool
}.

Record CheckTransition := MkCheckTransition {
  ct_From : CheckState;
  ct_To : CheckState;
  ct_Trigger : CheckTrigger;
  ct_Reentry : bool
}.

Record QuorumTransition := MkQuorumTransition {
  qt_From : QuorumState;
  qt_To : QuorumState;
  qt_LastStableState : QuorumState
}.

Record CheckUpdate := MkCheckUpdate {
  cu_CheckTransition : CheckTransition;
  cu_QuorumTransition : QuorumTransition;
  cu_Quorum : CheckQuorumState
}.

(** * Check definitions and results on the wire *)

(** [checks.Check] of internal/checks/check.go. *)
Record Check := MkCheck {
  ck_ID : string;
  ck_Name : string;
  ck_Type : string;
  ck_Target : string;
  ck_Webhook : string;
  ck_Interval : Z
}.

#[global] Instance Check_eq_dec : EqDecision Check.
Proof. solve_decision. Defined.

Definition DefaultInterval : Z := 30.
Definition MaxInterval : Z := 86400.

(** [proto.ProbeCheck] of internal/proto/check.go. *)
Record ProbeCheck := MkProbeCheck {
  pc_ID : string;
  pc_Name : string;
  pc_Type : string;
  pc_Target : string;
  pc_Interval : Z
}.

#[global] Instance ProbeCheck_eq_dec : EqDecision ProbeCheck.
Proof. solve_decision. Defined.

(** [proto.CheckResult] of internal/proto/result.go. *)
Record CheckResult := MkCheckResult {
  cr_CheckID : string;
  cr_CheckName : string;
  cr_ProbeID : string;
  cr_Type : string;
  cr_Target : string;
  cr_Up : bool;
  cr_Latency : Duration;
  cr_Error : string;
  cr_Timestamp : Time
}.

#[global] Instance CheckResult_eq_dec : EqDecision CheckResult.
Proof. solve_decision. Defined.

(** * Automation *)

(** Contradictions between two different enum constants. *)
Ltac enum_congruence :=
  unfold ProbeStateOnline, ProbeStateOffline, ProbeStateError,
    CheckStateUp, CheckStateDown, CheckStateMissing, CheckStateError,
    QuorumStatePending, QuorumStateUp, QuorumStateDown, QuorumStateError in *;
  congruence.
