(* ===== verification/NetPolicy.v ===== *)
(** internal/network: which destinations the program may reach, and the syntax of
    check targets and webhooks.

    The resolver's answer, the outcome of a connection attempt and [url.Parse] are
    arguments.  A nil [net.IP] is the empty list. *)

From S2P Require Import Prelude GoStrings GoNet ClientIP.
From Stdlib Require Import Ascii NArith.

Record Policy := MkPolicy { AllowPrivateTargets : bool }.

(** The parts of a [url.URL] that are read. *)
Record URL := MkURL {
  url_Scheme : string;
  url_Host : string;
  url_User : bool
}.

(** [url.Parse] of the toolchain. *)
Class UrlLib : Type := url_Parse : string -> GoError + URL.

(** [strings.EqualFold] with an ASCII text in lower case: two characters outside
    ASCII fold to ASCII letters, U+017F to s and U+212A to k. *)
Fixpoint fold_ascii (s : string) : string :=
  match s with
  | EmptyString => EmptyString
  | String a rest =>
      match rest with
      | String b rest' =>
          if ((code a =? 197) && (code b =? 191))%N then String (chr 115) (fold_ascii rest')
          else match rest' with
               | String c rest'' =>
                   if ((code a =? 226) && (code b =? 132) && (code c =? 170))%N
                   then String (chr 107) (fold_ascii rest'')
                   else String (lower_byte a) (fold_ascii rest)
               | EmptyString => String (lower_byte a) (fold_ascii rest)
               end
      | EmptyString => String (lower_byte a) EmptyString
      end
  end.
Definition EqualFold (s lower : string) : bool := fold_ascii s == lower.

(** [validOptionalPort], [URL.Hostname]. *)
Definition validOptionalPort (port : string) : bool :=
  match port with
  | EmptyString => true
  | String a rest => is_char 58 a && forallb (fun b => between 48 57 (code b)) (String.list_ascii_of_string rest)
  end.

Definition Hostname (u : URL) : string :=
  let host := url_Host u in
  let host := match LastIndexByte 58 host with
              | Some colon => if validOptionalPort (slice_from colon host) then slice_to colon host else host
              | None => host
              end in
  match host with
  | String a rest =>
      match String.rev rest with
      | String b inner => if is_char 91 a && is_char 93 b then String.rev inner else host
      | EmptyString => host
      end
  | EmptyString => host
  end.

(** [strings.Contains]. *)
Fixpoint contains (s sub : string) : bool :=
  String.prefix sub s || match s with String _ rest => contains rest sub | EmptyString => false end.

(** * Policy *)

Definition ValidateIP (p : Policy) (ip : IP) : option GoError :=
  if bool_decide (ip = []) then Some (Errorf "destination is not allowed")
  else if IsUnspecified ip || IsMulticast ip then Some (Errorf "destination %s is not allowed")
  else if AllowPrivateTargets p then None
  else if IsLoopback ip || IsPrivate ip || IsLinkLocalUnicast ip || IsLinkLocalMulticast ip
  then Some (Errorf "destination %s is not allowed")
  else None.

Definition ValidateLiteralHost (p : Policy) (host : string) : option GoError :=
  let host := TrimSpace host in
  if host == "" then Some (Errorf "host is required")
  else if EqualFold host "localhost" && negb (AllowPrivateTargets p)
  then Some (Errorf "localhost is not allowed")
  else match ParseIP host with
       | Some ip => ValidateIP p ip
       | None => None
       end.

(** The loop over the resolved addresses. *)
Fixpoint validate_all (p : Policy) (ips : list IP) : option GoError :=
  match ips with
  | [] => None
  | ip :: ips =>
      match ValidateIP p ip with
      | Some _ => Some (Errorf "destination resolved to disallowed address")
      | None => validate_all p ips
      end
  end.

Section resolver.
Context (lookup : string -> GoError + list IP).

Definition ResolveHost (p : Policy) (host : string) : GoError + list IP :=
  let host := TrimSpace host in
  match ValidateLiteralHost p host with
  | Some err => inl err
  | None =>
      match ParseIP host with
      | Some ip => inr [ip]
      | None =>
          match lookup host with
          | inl err => inl (Wrapf "resolve host" err)
          | inr ips =>
              if bool_decide (length ips = 0) then inl (Errorf "no addresses resolved")
              else match validate_all p ips with
                   | Some err => inl err
                   | None => inr ips
                   end
          end
      end
  end.

Definition ValidateHost (p : Policy) (host : string) : option GoError :=
  match ResolveHost p host with inl err => Some err | inr _ => None end.

(** A port in the range of TCP. *)
Definition parse_port (port : string) : option Z :=
  match Atoi port with
  | Some n => if (n <? 1)%Z || (65535 <? n)%Z then None else Some n
  | None => None
  end.

Definition ValidateHostPort (p : Policy) (address : string) : option GoError :=
  match SplitHostPort address with
  | None => Some (Errorf "invalid host:port")
  | Some (host, port) =>
      if host == "" then Some (Errorf "host is required")
      else match parse_port port with
           | None => Some (Errorf "invalid port")
           | Some _ => ValidateHost p host
           end
  end.

(** ** Dialling *)

Context {Conn : Type} (dial : IP -> Z -> GoError + Conn).

(** The loop over the addresses, with the attempts it makes. *)
Fixpoint dial_loop (ips : list IP) (port : Z) (lastErr : option GoError)
    : (GoError + Conn) * list (IP * Z) :=
  match ips with
  | [] => (inl (default (Errorf "no addresses resolved") lastErr), [])
  | ip :: ips =>
      match dial ip port with
      | inr conn => (inr conn, [(ip, port)])
      | inl err => let '(res, attempts) := dial_loop ips port (Some err) in (res, (ip, port) :: attempts)
      end
  end.

Definition DialContext (p : Policy) (address : string) : (GoError + Conn) * list (IP * Z) :=
  match SplitHostPort address with
  | None => (inl (Errorf "invalid host:port"), [])
  | Some (host, port) =>
      match parse_port port with
      | None => (inl (Errorf "invalid port"), [])
      | Some n =>
          match ResolveHost p host with
          | inl err => (inl err, [])
          | inr ips => dial_loop ips n None
          end
      end
  end.

(** * Targets *)

Context (parse_url : string -> GoError + URL) (unicode_lower : N -> N).

Definition NormalizeCheckType (checkType : string) : string :=
  if TrimSpace checkType == "" then "http" else ToLower unicode_lower (TrimSpace checkType).

Definition ParseHTTPURLTarget (target : string) : GoError + URL :=
  match parse_url target with
  | inl err => inl (Wrapf "http target: invalid URL" err)
  | inr u =>
      if negb (url_Scheme u == "http") && negb (url_Scheme u == "https")
      then inl (Errorf "http target: unsupported URL scheme")
      else if Hostname u == "" then inl (Errorf "http target: host is required")
      else inr u
  end.

Definition ValidateWebhookURL (rawURL : string) (p : Policy) : option GoError :=
  if rawURL == "" then None
  else match parse_url rawURL with
  | inl err => Some (Wrapf "webhook: invalid URL" err)
  | inr u =>
      if negb (url_Scheme u == "https") && negb (url_Scheme u == "http")
      then Some (Errorf "webhook: unsupported URL scheme")
      else if url_Host u == "" then Some (Errorf "webhook: host is required")
      else if url_User u then Some (Errorf "webhook: userinfo is not allowed")
      else if Hostname u == "" then Some (Errorf "webhook: host is required")
      else Wrapf "webhook" <$> ValidateLiteralHost p (Hostname u)
  end.

Definition ParseTCPAddressTarget (target : string) : GoError + string * string :=
  match SplitHostPort target with
  | None => inl (Errorf "tcp target: must be host:port")
  | Some (host, port) =>
      if host == "" then inl (Errorf "tcp target: host is required")
      else match parse_port port with
           | None => inl (Errorf "tcp target: invalid port")
           | Some _ => inr (host, port)
           end
  end.

Definition ParseDNSHostnameTarget (target : string) : GoError + string :=
  let host := TrimSpace (trim_last 46 target) in
  if host == "" then inl (Errorf "dns target: hostname is required")
  else if contains host "://" || contains host "/" then inl (Errorf "dns target: bare hostname required")
  else if contains host ":" then inl (Errorf "dns target: bare hostname required")
  else if bool_decide (is_Some (ParseIP host)) then inl (Errorf "dns target: hostname required")
  else inr host.

Definition ValidateCheckTarget (checkType target : string) (p : Policy) : option GoError :=
  let type := NormalizeCheckType checkType in
  if type == "http" then
    match ParseHTTPURLTarget target with
    | inl err => Some err
    | inr u => ValidateHost p (Hostname u)
    end
  else if type == "tcp" then
    match ParseTCPAddressTarget target with
    | inl err => Some err
    | inr (host, _) => ValidateHost p host
    end
  else if type == "dns" then
    match ParseDNSHostnameTarget target with
    | inl err => Some err
    | inr host => ValidateHost p host
    end
  else Some (Errorf "unsupported check type").
End resolver.
