(* ===== verification/Logx.v ===== *)
(** internal/logx/logx.go: the level of a process's logger and the log fields that
    stand for an e-mail address, a URL or a check's target.

    A [slog.Level] is its number.  The environment variable, the writer and the
    text handler's output format are outside: a logger is its threshold and the
    attributes its records carry. *)

From S2P Require Import Prelude GoStrings GoNet ClientIP NetPolicy Sha256.
From Stdlib Require Import Ascii NArith.

(** * Levels *)

Definition LevelDebug : Z := -4.
Definition LevelInfo : Z := 0.
Definition LevelWarn : Z := 4.
Definition LevelError : Z := 8.

Section logx.
Context (unicode_lower : N -> N).

Definition parseLevel (raw : string) : Z :=
  let level := ToLower unicode_lower (TrimSpace raw) in
  if level == "debug" then LevelDebug
  else if (level == "warn") || (level == "warning") then LevelWarn
  else if level == "error" then LevelError
  else LevelInfo.

(** An attribute of a record. *)
Inductive Attr := AttrString (key value : string) | AttrInt (key : string) (value : Z).

Record Logger := MkLogger { lg_level : Z; lg_attrs : list Attr }.

(** [logger.With(...)]. *)
Definition With (attr : Attr) (l : Logger) : Logger := MkLogger (lg_level l) (lg_attrs l ++ [attr]).

Definition New (service level : string) : Logger :=
  With (AttrString "service" service) (MkLogger (parseLevel level) []).

Record LogRecord := MkLogRecord { lr_level : Z; lr_msg : string; lr_attrs : list Attr }.

(** [logger.Log]: what the handler writes of a record, if the level is enabled. *)
Definition Log (l : Logger) (level : Z) (msg : string) (args : list Attr) : option LogRecord :=
  if (lg_level l <=? level)%Z then Some (MkLogRecord level msg (lg_attrs l ++ args)) else None.

(** What [Configure] leaves in the process: slog's default logger, and what a line
    of the log package becomes. *)
Definition envLogLevel : string := "WACHT_LOG_LEVEL".

Record ProcessLog := MkProcessLog { pl_default : Logger; pl_Printf : string -> option LogRecord }.

Definition Configure (service : string) (getenv : string -> string) : Logger * ProcessLog :=
  let logger := New service (getenv envLogLevel) in
  (logger, MkProcessLog logger (fun line => Log logger LevelInfo line [])).

(** Lines of the log package carry the service's name, and are dropped from the
    level "warn" on. *)
Lemma configured_lines service getenv line :
  let '(logger, process) := Configure service getenv in
  pl_Printf process line =
    if (parseLevel (getenv envLogLevel) <=? LevelInfo)%Z
    then Some (MkLogRecord LevelInfo line [AttrString "service" service]) else None.
Proof. done. Qed.

(** * Fields *)

Definition EmailHash (email : string) : string :=
  let normalized := ToLower unicode_lower (TrimSpace email) in
  if normalized == "" then "" else hex_encode (take 8 (sha256_bytes (string_bytes normalized))).

(** [strings.Trim(s, "[]")]. *)
Fixpoint drop_brackets (s : string) : string :=
  match s with
  | String a rest => if is_char 91 a || is_char 93 a then drop_brackets rest else s
  | EmptyString => s
  end.
Definition trim_brackets (s : string) : string := String.rev (drop_brackets (String.rev (drop_brackets s))).

Context (parse_url : string -> GoError + URL).

Definition URLHost (raw : string) : string :=
  match parse_url (TrimSpace raw) with
  | inl _ => ""
  | inr u => if url_Host u == "" then "" else Hostname u
  end.

Definition split_host (target : string) : string :=
  match SplitHostPort target with
  | Some (host, _) => trim_brackets host
  | None => trim_last 46 target
  end.

Definition TargetHost (target : string) : string :=
  let target := TrimSpace target in
  if target == "" then ""
  else match parse_url target with
       | inl _ => split_host target
       | inr u => if url_Host u == "" then split_host target else Hostname u
       end.
End logx.

(** * What the fields show *)

Abbreviation chars := String.list_ascii_of_string.

Lemma has_byte_false c s : has_byte c s = false <-> forall a, a ∈ chars s -> is_char c a = false.
Proof.
  unfold has_byte. induction s as [|a s IH]; cbn [IndexByte String.list_ascii_of_string].
  - split; [|done]. intros _ a Ha. by apply not_elem_of_nil in Ha.
  - destruct (is_char c a) eqn:E.
    + split; [done|]. intros Hc. specialize (Hc a). rewrite E in Hc. apply Hc. set_solver.
    + setoid_rewrite elem_of_cons. destruct (IndexByte c s); cbn; naive_solver.
Qed.

Lemma chars_substring s : forall n m a, a ∈ chars (String.substring n m s) -> a ∈ chars s.
Proof.
  induction s as [|b s IH]; intros [|n] [|m] a; cbn [String.substring String.list_ascii_of_string]; try set_solver.
Qed.

Lemma before_first c s : forall n, IndexByte c s = Some n -> has_byte c (slice_to n s) = false.
Proof.
  unfold slice_to. induction s as [|a s IH]; intros n; cbn [IndexByte]; [done|].
  destruct (is_char c a) eqn:E; intros Hn.
  - by simplify_eq.
  - destruct (IndexByte c s) as [k|] eqn:Ek; [|done]. simplify_eq/=. unfold has_byte in *.
    cbn [String.substring IndexByte]. rewrite E. specialize (IH k eq_refl).
    by destruct (IndexByte c (String.substring 0 k s)).
Qed.

(** The host of a host:port has no brackets left. *)
Lemma split_host_bare t host port :
  SplitHostPort t = Some (host, port) -> has_byte 91 host = false /\ has_byte 93 host = false.
Proof.
  unfold SplitHostPort. intros Hs.
  destruct (LastIndexByte 58 t) as [i|]; [|done]. destruct t as [|a rest]; [done|].
  destruct (is_char 91 a) eqn:Ea.
  - destruct (IndexByte 93 (String a rest)) as [close|] eqn:Ec; [|done].
    destruct (S close =? i)%nat; [|done].
    destruct (has_byte 91 rest) eqn:E91; [done|]. cbn [orb] in Hs.
    destruct (has_byte 93 (slice_from (S close) (String a rest))); [done|]. simplify_eq.
    cbn [IndexByte] in Ec. destruct (is_char 93 a) eqn:E93.
    { unfold is_char in *. lia. }
    destruct (IndexByte 93 rest) as [k|] eqn:Ek; [|done]. simplify_eq/=. rewrite Nat.sub_0_r. split.
    + rewrite has_byte_false in *. intros b Hb. eapply E91, chars_substring, Hb.
    + apply before_first in Ek. done.
  - destruct (has_byte 58 _); [done|]. destruct (has_byte 91 (String a rest)) eqn:E91; [done|]. cbn [orb] in Hs.
    destruct (has_byte 93 (String a rest)) eqn:E93; [done|]. simplify_eq.
    rewrite !has_byte_false in *. unfold slice_to.
    split; intros b Hb%chars_substring; eauto.
Qed.

Lemma drop_brackets_bare s : has_byte 91 s = false -> has_byte 93 s = false -> drop_brackets s = s.
Proof.
  destruct s as [|a s]; [done|]. unfold has_byte. cbn [IndexByte drop_brackets].
  destruct (is_char 91 a), (is_char 93 a); done.
Qed.

(** ** Trimming keeps every character that is not white space *)

Lemma head_keeps s s' x : space_head s = Some s' -> solid_char x = true -> x ∈ chars s -> x ∈ chars s'.
Proof.
  unfold space_head, solid_char. intros Hs Hx Hin.
  repeat case_match; simplify_eq/=; rewrite !elem_of_cons in Hin; destruct_or? Hin; subst; try done;
    exfalso; unfold space2, space3, ascii_space, between in *; lia.
Qed.

Lemma last_keeps s s' x : space_last s = Some s' -> solid_char x = true -> x ∈ chars s -> x ∈ chars s'.
Proof.
  unfold space_last, solid_char. intros Hs Hx Hin.
  repeat case_match; simplify_eq/=; rewrite !elem_of_cons in Hin; destruct_or? Hin; subst; try done;
    exfalso; unfold space2, space3, ascii_space, between in *; lia.
Qed.

Lemma strip_keeps f fuel x : forall s,
  (forall s s', f s = Some s' -> x ∈ chars s -> x ∈ chars s') -> x ∈ chars s -> x ∈ chars (strip f fuel s).
Proof.
  induction fuel as [|fuel IH]; intros s Hf Hx; cbn [strip]; [done|].
  destruct (f s) eqn:E; [|done]. apply IH; eauto.
Qed.

Lemma chars_rev s : chars (String.rev s) = reverse (chars s).
Proof.
  induction s as [|a s IH]; [done|]. rewrite string_rev_cons. cbn [String.list_ascii_of_string].
  rewrite reverse_cons, <-IH. clear. induction (String.rev s) as [|b t IH]; [done|]. simpl. by rewrite IH.
Qed.

Lemma trim_keeps s x : solid_char x = true -> x ∈ chars s -> x ∈ chars (TrimSpace s).
Proof.
  intros Hx Hin. unfold TrimSpace. rewrite chars_rev, elem_of_reverse.
  apply strip_keeps; [eauto using last_keeps|]. rewrite chars_rev, elem_of_reverse.
  apply strip_keeps; eauto using head_keeps.
Qed.

Lemma trim_last_keeps c s x : is_char c x = false -> x ∈ chars s -> x ∈ chars (trim_last c s).
Proof.
  intros Hx Hin. unfold trim_last. rewrite chars_rev, elem_of_reverse.
  rewrite <-(string_rev_involutive s), chars_rev, elem_of_reverse in Hin.
  destruct (String.rev s) as [|a t]; [done|]. cbn [trim_first]. destruct (is_char c a) eqn:E; [|done].
  cbn in Hin. apply elem_of_cons in Hin as [->|Hin]; [congruence|done].
Qed.

Lemma contains_char c s : contains s (String c EmptyString) = false -> c ∉ chars s.
Proof.
  induction s as [|a s IH]; cbn [contains String.list_ascii_of_string]; [set_solver|].
  intros [Hp Hs]%orb_false_iff Hin. apply elem_of_cons in Hin as [->|Hin]; [|by apply IH].
  cbn in Hp. destruct (ascii_dec a a); [|done]. by destruct s.
Qed.

Lemma contains_needs a sub s : a ∈ chars sub -> contains s sub = true -> a ∈ chars s.
Proof.
  intros Ha. assert (Hp : forall s, String.prefix sub s = true -> a ∈ chars s).
  { revert Ha. induction sub as [|b sub IH]; cbn; [set_solver|]. intros Ha [|c t]; [done|].
    cbn. destruct (ascii_dec b c) as [->|]; [|done]. intros Hp. apply elem_of_cons in Ha as [->|Ha]; apply elem_of_cons; auto. }
  induction s as [|b s IH]; cbn [contains]; intros Hc.
  - destruct sub; [cbn in Ha; set_solver|done].
  - apply orb_true_iff in Hc as [Hc|Hc]; [by apply Hp|]. cbn. apply elem_of_cons. auto.
Qed.

Lemma LastIndexByte_none c s : (forall a, a ∈ chars s -> is_char c a = false) -> LastIndexByte c s = None.
Proof.
  induction s as [|a s IH]; cbn; [done|]. setoid_rewrite elem_of_cons. intros Hc.
  rewrite IH by eauto. by rewrite Hc by eauto.
Qed.

(** ** A target is logged by the host the policy judges

    The host is the one [ValidateCheckTarget] resolves.  A dns target may keep white
    space before a final dot.  The text of a URL that has an authority contains
    two slashes. *)
Lemma accepted_target_host parse_url t :
  (forall t u, parse_url t = inr u -> url_Host u <> "" -> contains t "//" = true) ->
  TrimSpace t = t ->
  (forall u, ParseHTTPURLTarget parse_url t = inr u -> TargetHost parse_url t = Hostname u) /\
  (forall host port, ParseTCPAddressTarget t = inr (host, port) -> contains t "//" = false ->
     TargetHost parse_url t = host) /\
  (forall host, ParseDNSHostnameTarget t = inr host -> TrimSpace (TargetHost parse_url t) = host).
Proof.
  intros Hurl Ht. unfold TargetHost. rewrite Ht.
  assert (Hsplit : contains t "//" = false ->
    match parse_url t with inl _ => split_host t | inr u => if url_Host u == "" then split_host t else Hostname u end = split_host t).
  { intros Hc. destruct (parse_url t) as [|u] eqn:E; [done|]. case_bool_decide as Hh; [done|].
    rewrite (Hurl _ _ E Hh) in Hc. done. }
  split_and!.
  - unfold ParseHTTPURLTarget. intros u Hp. destruct (parse_url t) as [|u'] eqn:E; [done|].
    destruct (_ && _); [done|]. case_bool_decide as Hh; [done|]. simplify_eq.
    assert (url_Host u <> "") by (intros E'; apply Hh; unfold Hostname; by rewrite E').
    rewrite (bool_decide_eq_false_2 (url_Host u = "")) by done.
    rewrite bool_decide_eq_false_2; [done|]. intros ->. specialize (Hurl _ _ E). naive_solver.
  - unfold ParseTCPAddressTarget. intros host port Hp Hc. rewrite Hsplit by done. unfold split_host.
    destruct (SplitHostPort t) as [[h p]|] eqn:Es; [|done]. case_bool_decide; [done|].
    destruct (parse_port p); [|done]. simplify_eq. destruct (split_host_bare _ _ _ Es) as [H91 H93].
    rewrite bool_decide_eq_false_2 by (intros ->; done).
    unfold trim_brackets. rewrite (drop_brackets_bare host) by done.
    rewrite drop_brackets_bare; [apply string_rev_involutive|..];
      rewrite has_byte_false in *; intros a; rewrite chars_rev, elem_of_reverse; eauto.
  - unfold ParseDNSHostnameTarget. intros host Hp. case_bool_decide as Hh; [done|].
    destruct (contains _ "/") eqn:Eslash; [by rewrite orb_true_r in Hp|].
    destruct (contains _ "://"); [done|]. cbn [orb] in Hp.
    destruct (contains _ ":") eqn:Ecolon; [done|]. case_bool_decide; [done|]. simplify_eq.
    assert (Hno : forall c, solid_char c = true -> is_char 46 c = false ->
      contains (TrimSpace (trim_last 46 t)) (String c EmptyString) = false -> c ∉ chars t).
    { intros c Hsol Hdot Hc Hin. eapply contains_char; [done|]. eauto using trim_keeps, trim_last_keeps. }
    apply Hno in Eslash as Hslash; [|done..]. apply Hno in Ecolon; [|done..].
    rewrite bool_decide_eq_false_2 by (intros ->; done). rewrite Hsplit.
    + unfold split_host, SplitHostPort. rewrite LastIndexByte_none; [done|].
      intros a Ha. unfold is_char. apply N.eqb_neq. intros E. apply Ecolon.
      assert (a = ":"%char) as ->; [|done]. rewrite <-(ascii_N_embedding a). unfold code in E. by rewrite E.
    + destruct (contains t "//") eqn:E; [|done]. exfalso. apply Hslash. eapply contains_needs, E. cbn. set_solver.
Qed.
