(* ===== verification/NetProperties.v ===== *)
(** What the outbound policy promises: the addresses it lets through, and that
    nothing else is dialled. *)

From S2P Require Import Prelude GoStrings GoNet ClientIP NetPolicy.
From Stdlib Require Import Ascii NArith ZArith ZifyBool Btauto.

Local Open Scope Z_scope.

(** * The policy as a list of address blocks *)

Definition block4 (a b c d bits : Z) : Prefix := MkPrefix (IP4 (bytes_Z [a; b; c; d])) bits.
Definition block6 (word : Z) (rest : Z) (bits : Z) : Prefix := MkPrefix (IP6 (word * 2 ^ 112 + rest) "") bits.

(** The unspecified addresses and multicast. *)
Definition never : list Prefix := [block4 0 0 0 0 32; block6 0 0 128; block4 224 0 0 0 4; block6 65280 0 8].
(** Loopback, private networks and link-local addresses. *)
Definition internal : list Prefix :=
  [block4 127 0 0 0 8; block4 10 0 0 0 8; block4 172 16 0 0 12; block4 192 168 0 0 16; block4 169 254 0 0 16;
   block6 0 1 128; block6 64512 0 7; block6 65152 0 10].

Definition blocked (p : Policy) : list Prefix :=
  never ++ (if AllowPrivateTargets p then [] else internal).

(** The address of four or sixteen bytes, mapped addresses taken as IPv4. *)
Definition addr_of (ip : IP) : Addr :=
  if (length ip =? 4)%nat then IP4 (bytes_Z ip) else Unmap (IP6 (bytes_Z ip) "").

Definition is_ip (ip : IP) : Prop :=
  (length ip = 4%nat \/ length ip = 16%nat) /\ Forall (fun b => 0 <= b < 256) ip.

(** * Bytes *)

Lemma bytes_Z_app l k : bytes_Z (l ++ k) = bytes_Z l * 256 ^ Z.of_nat (length k) + bytes_Z k.
Proof.
  unfold bytes_Z. rewrite foldl_app. generalize (foldl (fun acc b => acc * 256 + b) 0 l) as n.
  induction k as [|b k IH] using rev_ind; intros n; simpl; [lia|].
  rewrite !foldl_app, length_app. simpl. rewrite IH.
  replace (Z.of_nat (length k + 1)) with (Z.succ (Z.of_nat (length k))) by lia.
  rewrite Z.pow_succ_r by lia. lia.
Qed.

Lemma bytes_Z_one b : bytes_Z [b] = b.
Proof. done. Qed.

Lemma bytes_Z_bound l : Forall (fun b => 0 <= b < 256) l -> 0 <= bytes_Z l < 256 ^ Z.of_nat (length l).
Proof.
  induction l as [|b l IH] using rev_ind; intros Hl; [done|]. apply Forall_app in Hl as [Hl Hb].
  specialize (IH Hl). apply Forall_cons_1 in Hb as [Hb _]. rewrite bytes_Z_app, length_app. simpl.
  replace (Z.of_nat (length l + 1)) with (Z.succ (Z.of_nat (length l))) by lia.
  rewrite Z.pow_succ_r, bytes_Z_one by lia. lia.
Qed.

Lemma bytes_Z_div l k :
  Forall (fun b => 0 <= b < 256) k -> bytes_Z (l ++ k) / 256 ^ Z.of_nat (length k) = bytes_Z l.
Proof.
  intros Hk. rewrite bytes_Z_app. pose proof (bytes_Z_bound k Hk).
  rewrite Z.div_add_l by lia. rewrite (Z.div_small (bytes_Z k)) by lia. lia.
Qed.

Lemma bytes_Z_mod l k :
  Forall (fun b => 0 <= b < 256) k -> bytes_Z (l ++ k) mod 256 ^ Z.of_nat (length k) = bytes_Z k.
Proof.
  intros Hk. rewrite bytes_Z_app. pose proof (bytes_Z_bound k Hk).
  rewrite Z.add_comm, Z.mod_add by lia. by apply Z.mod_small.
Qed.

Lemma bytes_Z_inj l : forall k, length l = length k ->
  Forall (fun b => 0 <= b < 256) l -> Forall (fun b => 0 <= b < 256) k -> bytes_Z l = bytes_Z k -> l = k.
Proof.
  induction l as [|b l IH] using rev_ind; intros k Hlen Hl Hk E; [by destruct k|].
  destruct k as [|c k _] using rev_ind; [rewrite length_app in Hlen; simpl in Hlen; lia|].
  rewrite !length_app in Hlen. simpl in Hlen. apply Forall_app in Hl as [Hl Hb], Hk as [Hk Hc].
  assert (Hd := bytes_Z_div l [b] Hb). assert (Hd' := bytes_Z_div k [c] Hc).
  assert (Hm := bytes_Z_mod l [b] Hb). assert (Hm' := bytes_Z_mod k [c] Hc).
  rewrite E in Hd, Hm. simpl length in *. rewrite (IH k) by (done || lia || congruence).
  rewrite bytes_Z_one in Hm, Hm'. f_equal. f_equal. congruence.
Qed.

(** A property of bytes holds if it holds of all of them. *)
Lemma byte_check (P : Z -> bool) b : forallb P (seqZ 0 256) = true -> 0 <= b < 256 -> P b = true.
Proof. intros Hall Hb. eapply forallb_forall; [exact Hall|]. apply list_elem_of_In, elem_of_seqZ. lia. Qed.

(** * Blocks *)

Lemma shift_eq v n k : (Z.shiftr (Z.lxor v n) k =? 0) = (Z.shiftr v k =? Z.shiftr n k).
Proof.
  apply Bool.eq_iff_eq_true. rewrite !Z.eqb_eq, Z.shiftr_lxor. apply Z.lxor_eq_0_iff.
Qed.

Lemma inside4 v a b c d bits :
  Contains (block4 a b c d bits) (IP4 v) = (Z.shiftr v (32 - bits) =? Z.shiftr (bytes_Z [a; b; c; d]) (32 - bits)).
Proof. apply shift_eq. Qed.

Lemma inside6 v word rest bits :
  Contains (block6 word rest bits) (IP6 v "") = (Z.shiftr v (128 - bits) =? Z.shiftr (word * 2 ^ 112 + rest) (128 - bits)).
Proof. apply shift_eq. Qed.

(** Does the policy's code refuse these four bytes? *)
Definition refused4 (p : Policy) (l : IP) : bool :=
  bool_decide (l = [0; 0; 0; 0]) || (Z.land (octet l 0) 240 =? 224) ||
  negb (AllowPrivateTargets p) &&
  ((octet l 0 =? 127) ||
   ((octet l 0 =? 10) || ((octet l 0 =? 172) && (Z.land (octet l 1) 240 =? 16)) ||
    ((octet l 0 =? 192) && (octet l 1 =? 168))) ||
   ((octet l 0 =? 169) && (octet l 1 =? 254)) ||
   ((octet l 0 =? 224) && (octet l 1 =? 0) && (octet l 2 =? 0))).

Lemma high_nibble b n : 0 <= b < 256 -> 0 <= n < 16 -> (Z.land b 240 =? n * 16) = (b / 16 =? n).
Proof.
  intros Hb Hn.
  assert (Hall : forallb (fun b => forallb (fun n => Bool.eqb (Z.land b 240 =? n * 16) (b / 16 =? n)) (seqZ 0 16)) (seqZ 0 256) = true)
    by (vm_compute; reflexivity).
  pose proof (byte_check _ b Hall Hb) as Hr. cbv beta in Hr. rewrite forallb_forall in Hr.
  apply Bool.eqb_prop, Hr, list_elem_of_In, elem_of_seqZ. lia.
Qed.

(** The prefixes of an IPv4 number, from its bytes. *)
Lemma shifts4 a b c d :
  Forall (fun b => 0 <= b < 256) [a; b; c; d] ->
  let v := bytes_Z [a; b; c; d] in
  Z.shiftr v 24 = a /\ Z.shiftr v 16 = a * 256 + b /\ Z.shiftr v 20 = a * 16 + b / 16 /\ Z.shiftr v 28 = a / 16 /\
  ([a; b; c; d] = [0; 0; 0; 0] <-> Z.shiftr v 0 = 0).
Proof.
  intros Hl v. pose proof Hl as Hl'. apply Forall_cons_1 in Hl' as [Ha Hl'].
  apply Forall_cons_1 in Hl' as [Hb Hl']. apply Forall_cons_1 in Hl' as [Hc Hl']. apply Forall_cons_1 in Hl' as [Hd _].
  unfold v, bytes_Z. simpl foldl. rewrite !Z.shiftr_div_pow2 by lia.
  split_and!; [Z.to_euclidean_division_equations; lia..|].
  rewrite Z.div_1_r. split; [by intros [= -> -> -> ->]|]. intros Hv. repeat f_equal; lia.
Qed.

Lemma decide_eqb (x y : Z) : bool_decide (x = y) = (x =? y).
Proof. case_bool_decide; lia. Qed.

Lemma pair_eqb k a b x y :
  0 <= b < k -> 0 <= y < k -> (a * k + b =? x * k + y) = (a =? x) && (b =? y).
Proof. intros Hb Hy. apply Bool.eq_iff_eq_true. rewrite andb_true_iff, !Z.eqb_eq.
  split; [|by intros [-> ->]]. intros E.
  assert (a = x) as ->.
  { rewrite (Z.div_unique (a * k + b) k a b), E, <-(Z.div_unique (x * k + y) k x y) by lia. done. }
  split; lia.
Qed.

(** Evaluates the blocks and keeps the address. *)
Ltac compute_blocks :=
  repeat match goal with
  | |- context [Contains (block6 ?x ?y ?z) (IP4 ?v)] => change (Contains (block6 x y z) (IP4 v)) with false
  | |- context [Contains (block4 ?a ?b ?c ?d ?z) (IP6 ?v "")] =>
      change (Contains (block4 a b c d z) (IP6 v "")) with false
  | |- context [Z.shiftr (bytes_Z ?l) ?k] =>
      let r := eval vm_compute in (Z.shiftr (bytes_Z l) k) in change (Z.shiftr (bytes_Z l) k) with r
  | |- context [Z.shiftr (?w * 2 ^ 112 + ?y) ?k] =>
      let r := eval vm_compute in (Z.shiftr (w * 2 ^ 112 + y) k) in change (Z.shiftr (w * 2 ^ 112 + y) k) with r
  | |- context [32 - ?n] => let r := eval vm_compute in (32 - n) in change (32 - n) with r
  | |- context [128 - ?n] => let r := eval vm_compute in (128 - n) in change (128 - n) with r
  end.

Lemma refused4_blocks p a b c d :
  Forall (fun b => 0 <= b < 256) [a; b; c; d] ->
  refused4 p [a; b; c; d] = existsb (fun x => Contains x (IP4 (bytes_Z [a; b; c; d]))) (blocked p).
Proof.
  intros Hl. destruct (shifts4 a b c d Hl) as (E24 & E16 & E20 & E28 & E0).
  pose proof (Forall_cons_1 _ _ _ Hl) as [Ha Hl']. apply Forall_cons_1 in Hl' as [Hb Hl'].
  unfold refused4. rewrite (bool_decide_ext _ _ E0). cbn [octet nth].
  pose proof (high_nibble a 14 Ha ltac:(lia)) as Na. pose proof (high_nibble b 1 Hb ltac:(lia)) as Nb.
  change (14 * 16) with 224 in Na. change (1 * 16) with 16 in Nb. rewrite Na, Nb.
  unfold blocked, never, internal. destruct (AllowPrivateTargets p); cbn [existsb app negb andb];
    rewrite !inside4, decide_eqb; revert E24 E16 E20 E28; generalize (bytes_Z [a; b; c; d]) as v; intros v;
    compute_blocks; intros E24 E16 E20 E28; rewrite ?E24, ?E16, ?E20, ?E28.
  - btauto.
  - change 49320 with (192 * 256 + 168). change 43518 with (169 * 256 + 254). change 2753 with (172 * 16 + 1).
    rewrite (pair_eqb 256 a b 192 168), (pair_eqb 256 a b 169 254), (pair_eqb 16 a (b / 16) 172 1)
      by (Z.to_euclidean_division_equations; lia).
    destruct (a / 16 =? 14) eqn:En; [btauto|].
    assert ((a =? 224) = false) as -> by (Z.to_euclidean_division_equations; lia). btauto.
Qed.

(** Does the policy's code refuse these sixteen bytes, if they are not a mapped
    address? *)
Definition refused6 (p : Policy) (l : IP) : bool :=
  bool_decide (l = replicate 16 0) || (octet l 0 =? 255) ||
  negb (AllowPrivateTargets p) &&
  (bool_decide (l = replicate 15 0 ++ [1]) || (Z.land (octet l 0) 254 =? 252) ||
   ((octet l 0 =? 254) && (Z.land (octet l 1) 192 =? 128)) ||
   ((octet l 0 =? 255) && (Z.land (octet l 1) 15 =? 2))).

Lemma byte_masks b : 0 <= b < 256 ->
  (Z.land b 254 =? 252) = (b / 2 =? 126) /\ (Z.land b 192 =? 128) = (b / 64 =? 2).
Proof.
  intros Hb.
  assert (Hall : forallb (fun b => Bool.eqb (Z.land b 254 =? 252) (b / 2 =? 126) &&
    Bool.eqb (Z.land b 192 =? 128) (b / 64 =? 2)) (seqZ 0 256) = true) by (vm_compute; reflexivity).
  pose proof (byte_check _ b Hall Hb) as Hr. cbv beta in Hr. apply andb_true_iff in Hr as [H1 H2].
  by apply Bool.eqb_prop in H1, H2.
Qed.

Lemma shifts6 b0 b1 l :
  length l = 14%nat -> Forall (fun b => 0 <= b < 256) (b0 :: b1 :: l) ->
  let v := bytes_Z (b0 :: b1 :: l) in
  Z.shiftr v 120 = b0 /\ Z.shiftr v 121 = b0 / 2 /\ Z.shiftr v 118 = b0 * 4 + b1 / 64.
Proof.
  intros Hlen Hl v. apply Forall_cons_1 in Hl as [H0 Hl]. pose proof Hl as Hl'. apply Forall_cons_1 in Hl as [H1 Hl].
  assert (E120 : v / 2 ^ 120 = b0).
  { pose proof (bytes_Z_div [b0] (b1 :: l) Hl') as E. cbn [length app] in E. rewrite Hlen in E.
    change (256 ^ Z.of_nat 15) with (2 ^ 120) in E. unfold v. rewrite E. apply bytes_Z_one. }
  assert (E112 : v / 2 ^ 112 = b0 * 256 + b1).
  { pose proof (bytes_Z_div [b0; b1] l Hl) as E. cbn [length app] in E. rewrite Hlen in E.
    change (256 ^ Z.of_nat 14) with (2 ^ 112) in E. unfold v. rewrite E. done. }
  rewrite !Z.shiftr_div_pow2 by lia. change (2 ^ 121) with (2 ^ 120 * 2). change (2 ^ 118) with (2 ^ 112 * 64).
  rewrite <-!Z.div_div, E120, E112 by lia. split_and!; [done|done|].
  Z.to_euclidean_division_equations. lia.
Qed.

Lemma bytes_Z_eqb (l k : IP) :
  length l = length k -> Forall (fun b => 0 <= b < 256) l -> Forall (fun b => 0 <= b < 256) k ->
  bool_decide (l = k) = (bytes_Z l =? bytes_Z k).
Proof.
  intros Hlen Hl Hk. case_bool_decide as E; [subst; symmetry; apply Z.eqb_refl|].
  symmetry. apply Z.eqb_neq. intros Hv. by apply E, bytes_Z_inj.
Qed.

Lemma refused6_blocks p l :
  length l = 16%nat -> Forall (fun b => 0 <= b < 256) l ->
  refused6 p l = existsb (fun x => Contains x (IP6 (bytes_Z l) "")) (blocked p).
Proof.
  intros Hlen Hl. unfold refused6.
  rewrite (bytes_Z_eqb l (replicate 16 0)), (bytes_Z_eqb l (replicate 15 0 ++ [1])); try done;
    [|by repeat constructor..].
  change (bytes_Z (replicate 16 0)) with 0. change (bytes_Z (replicate 15 0 ++ [1])) with 1.
  destruct l as [|b0 [|b1 l]]; [done|done|]. injection Hlen as Hlen.
  destruct (shifts6 b0 b1 l Hlen Hl) as (E120 & E121 & E118).
  pose proof (Forall_cons_1 _ _ _ Hl) as [H0 Hl']. apply Forall_cons_1 in Hl' as [H1 _].
  destruct (byte_masks b0 H0) as [M0 _], (byte_masks b1 H1) as [_ M1]. cbn [octet nth]. rewrite M0, M1.
  unfold blocked, never, internal. destruct (AllowPrivateTargets p); cbn [existsb app negb andb];
    rewrite !inside6; revert E120 E121 E118; generalize (bytes_Z (b0 :: b1 :: l)) as v; intros v;
    compute_blocks; intros E120 E121 E118; rewrite ?E120, ?E121, ?E118, ?Z.shiftr_0_r.
  - btauto.
  - change 1018 with (254 * 4 + 2). rewrite (pair_eqb 4 b0 (b1 / 64) 254 2) by (Z.to_euclidean_division_equations; lia).
    destruct (b0 =? 255); btauto.
Qed.

(** * What the policy lets through *)

Definition refused (p : Policy) (ip : IP) : bool := bool_decide (is_Some (ValidateIP p ip)).
Definition outside (p : Policy) (ip : IP) : Prop :=
  forall block, block ∈ blocked p -> Contains block (addr_of ip) = false.

Lemma outside_existsb p ip : outside p ip <-> existsb (fun x => Contains x (addr_of ip)) (blocked p) = false.
Proof.
  unfold outside. induction (blocked p) as [|b l IH]; simpl; [split; [done|by intros _ b Hb%not_elem_of_nil]|].
  rewrite orb_false_iff, <-IH. split.
  - intros Hall. split; [apply Hall; left|]. intros c Hc. apply Hall. by right.
  - intros [Hb Hl] c Hc. apply elem_of_cons in Hc as [->|Hc]; auto.
Qed.

Lemma refused_eq p ip :
  ip <> [] ->
  refused p ip = IsUnspecified ip || IsMulticast ip ||
    negb (AllowPrivateTargets p) &&
    (IsLoopback ip || IsPrivate ip || IsLinkLocalUnicast ip || IsLinkLocalMulticast ip).
Proof.
  intros Hne. unfold refused, ValidateIP. rewrite (bool_decide_eq_false_2 (ip = [])) by done.
  destruct (IsUnspecified ip || IsMulticast ip); [done|]. destruct (AllowPrivateTargets p); [done|].
  by destruct (_ || _ || _ || _).
Qed.

Lemma unspecified_v4 a b c d :
  IsUnspecified [a; b; c; d] = bool_decide (([a; b; c; d] : IP) = [0; 0; 0; 0]) /\
  IsUnspecified (v4_in_v6 ++ [a; b; c; d]) = bool_decide (([a; b; c; d] : IP) = [0; 0; 0; 0]).
Proof.
  unfold IsUnspecified, IP_Equal. split.
  - cbn [length Nat.eqb app replicate v4_in_v6 andb]. rewrite (bool_decide_eq_true_2 (take 12 _ = _)) by done.
    rewrite (bool_decide_eq_false_2 (take 12 _ = _)) by done. cbn [andb drop]. by rewrite orb_false_r.
  - cbn [length Nat.eqb app replicate v4_in_v6 andb].
    rewrite (bool_decide_eq_false_2 (_ = [0; 0; 0; 0; 0; 0; 0; 0; 0; 0; 0; 0; 0; 0; 0; 0])) by done.
    rewrite orb_false_r. apply bool_decide_ext.
    change (v4_in_v6 ++ [a; b; c; d] = v4_in_v6 ++ [0; 0; 0; 0] <-> [a; b; c; d] = [0; 0; 0; 0]).
    split; [apply app_inv_head|by intros ->].
Qed.

Lemma to4_mapped l : length l = 4%nat -> To4 (v4_in_v6 ++ l) = Some l.
Proof.
  intros Hl. unfold To4. rewrite length_app, Hl. simpl Nat.eqb. cbn [andb].
  rewrite take_app_length' by done. rewrite bool_decide_eq_true_2 by done. by rewrite drop_app_length'.
Qed.

(** The two forms in which four bytes come. *)
Lemma refused_v4 p a b c d :
  refused p [a; b; c; d] = refused4 p [a; b; c; d] /\
  refused p (v4_in_v6 ++ [a; b; c; d]) = refused4 p [a; b; c; d].
Proof.
  destruct (unspecified_v4 a b c d) as [U1 U2]. rewrite !refused_eq, U1, U2 by done.
  unfold refused4, IsMulticast, IsLoopback, IsPrivate, IsLinkLocalUnicast, IsLinkLocalMulticast.
  by rewrite to4_mapped.
Qed.

Lemma refused_v6 p ip :
  length ip = 16%nat -> take 12 ip <> v4_in_v6 -> refused p ip = refused6 p ip.
Proof.
  intros Hlen Hm. assert (Hne : ip <> []) by (by intros ->).
  assert (H4 : To4 ip = None).
  { unfold To4. rewrite Hlen. cbn [Nat.eqb andb]. by rewrite bool_decide_eq_false_2. }
  rewrite refused_eq by done.
  unfold refused6, IsMulticast, IsLoopback, IsPrivate, IsLinkLocalUnicast, IsLinkLocalMulticast, is16, IsUnspecified, IP_Equal.
  rewrite H4, Hlen. cbn [Nat.eqb andb length app replicate v4_in_v6].
  rewrite (bool_decide_eq_false_2 (ip = [0; 0; 0; 0; 0; 0; 0; 0; 0; 0; 255; 255; 0; 0; 0; 0])); [done|].
  intros ->. by apply Hm.
Qed.

(** Taking the mapped form for the address it maps. *)
Lemma addr_of_mapped l :
  length l = 4%nat -> Forall (fun b => 0 <= b < 256) l -> addr_of (v4_in_v6 ++ l) = IP4 (bytes_Z l).
Proof.
  intros Hlen Hl. unfold addr_of. rewrite length_app, Hlen. cbn [Nat.eqb length v4_in_v6 replicate app Nat.add Unmap].
  pose proof (bytes_Z_div v4_in_v6 l Hl) as Hd. pose proof (bytes_Z_mod v4_in_v6 l Hl) as Hm.
  rewrite Hlen in Hd, Hm. change (256 ^ Z.of_nat 4) with (2 ^ 32) in Hd, Hm.
  rewrite Z.shiftr_div_pow2 by lia. cbn [v4_in_v6 replicate app] in Hd, Hm. rewrite Hd, Hm. done.
Qed.

Lemma addr_of_v6 ip :
  length ip = 16%nat -> Forall (fun b => 0 <= b < 256) ip -> take 12 ip <> v4_in_v6 ->
  addr_of ip = IP6 (bytes_Z ip) "".
Proof.
  intros Hlen Hl Hm. unfold addr_of. rewrite Hlen. cbn [Nat.eqb Unmap].
  rewrite <-(take_drop 12 ip) in Hl. apply Forall_app in Hl as [Ht Hd].
  pose proof (bytes_Z_div (take 12 ip) (drop 12 ip) Hd) as Hv. rewrite take_drop, length_drop, Hlen in Hv.
  change (256 ^ Z.of_nat (16 - 12)) with (2 ^ 32) in Hv. rewrite Z.shiftr_div_pow2, Hv by lia.
  destruct (bytes_Z (take 12 ip) =? 65535) eqn:E; [|done]. exfalso. apply Hm, bytes_Z_inj; [|done| |by apply Z.eqb_eq].
  - rewrite length_take, Hlen. done.
  - by repeat constructor.
Qed.

(** [ValidateIP] is the list of blocks. *)
Lemma validate_ip_blocks p ip : is_ip ip -> ValidateIP p ip = None <-> outside p ip.
Proof.
  intros [Hlen Hl]. rewrite outside_existsb.
  assert (Hn : ValidateIP p ip = None <-> refused p ip = false).
  { unfold refused. rewrite bool_decide_eq_false. apply eq_None_not_Some. }
  rewrite Hn. destruct Hlen as [Hlen|Hlen].
  - destruct ip as [|a [|b [|c [|d [|? ?]]]]]; try done.
    rewrite (proj1 (refused_v4 p a b c d)), refused4_blocks by done. done.
  - destruct (decide (take 12 ip = v4_in_v6)) as [Hm|Hm].
    + rewrite <-(take_drop 12 ip), Hm in Hl |- *. apply Forall_app in Hl as [_ Hl].
      assert (Hd : length (drop 12 ip) = 4%nat) by (rewrite length_drop, Hlen; done).
      rewrite addr_of_mapped by done. destruct (drop 12 ip) as [|a [|b [|c [|d [|? ?]]]]]; try done.
      rewrite (proj2 (refused_v4 p a b c d)), refused4_blocks by done. done.
    + rewrite refused_v6, refused6_blocks, addr_of_v6 by done. done.
Qed.

(** * Dialling *)

Lemma validate_all_none p ips : validate_all p ips = None <-> Forall (fun ip => ValidateIP p ip = None) ips.
Proof.
  induction ips as [|ip ips IH]; simpl; [by split|]. rewrite list.Forall_cons. rewrite <-IH.
  destruct (ValidateIP p ip); naive_solver.
Qed.

Section dial.
Context (lookup : string -> GoError + list IP) {Conn : Type} (dial : IP -> Z -> GoError + Conn).

(** Every resolved address passed the policy. *)
Lemma resolve_allowed p host ips :
  ResolveHost lookup p host = inr ips -> ips <> [] /\ Forall (fun ip => ValidateIP p ip = None) ips.
Proof.
  unfold ResolveHost, ValidateLiteralHost. cbv zeta. rewrite TrimSpace_idemp.
  destruct (TrimSpace host == ""); [done|]. destruct (_ && _); [done|].
  destruct (ParseIP (TrimSpace host)) as [ip|].
  - destruct (ValidateIP p ip) eqn:Hv; [done|]. intros [= <-]. split; [done|]. by repeat constructor.
  - destruct (lookup (TrimSpace host)) as [e|l]; [done|].
    case_bool_decide as Hl; [done|]. destruct (validate_all p l) eqn:Hv; [done|].
    intros [= <-]. split; [by destruct l|]. by apply validate_all_none.
Qed.

(** The attempts are the addresses in order, up to the first that answers. *)
Lemma dial_loop_run port ips : forall lastErr res attempts,
  dial_loop dial ips port lastErr = (res, attempts) ->
  exists done rest, ips = done ++ rest /\ attempts = (fun ip => (ip, port)) <$> done /\
    match res with
    | inr conn => exists front ip, done = front ++ [ip] /\ dial ip port = inr conn /\
        Forall (fun ip => exists e, dial ip port = inl e) front
    | inl _ => rest = [] /\ Forall (fun ip => exists e, dial ip port = inl e) done
    end.
Proof.
  induction ips as [|ip ips IH]; intros lastErr res attempts; simpl.
  { intros [= <- <-]. by exists [], []. }
  destruct (dial ip port) as [e|conn] eqn:Hd; [|intros [= <- <-]; exists [ip], ips; split_and!; [done|done|]; by exists [], ip].
  destruct (dial_loop dial ips port (Some e)) as [res' attempts'] eqn:Hrun. intros [= <- <-].
  destruct (IH _ _ _ Hrun) as (dn & rest & -> & -> & Hres). exists (ip :: dn), rest. split_and!; [done|done|].
  destruct res' as [e'|conn].
  - destruct Hres as [-> Hall]. split; [done|]. constructor; eauto.
  - destruct Hres as (front & ip' & -> & Hc & Hall). exists (ip :: front), ip'. split_and!; [done|done|]. constructor; eauto.
Qed.

Lemma parse_port_range port n : parse_port port = Some n -> 1 <= n <= 65535.
Proof. unfold parse_port. destruct (Atoi port); [|done]. destruct (_ || _) eqn:E; [done|]. intros [= <-]. lia. Qed.

(** Every attempt is at a port of TCP and at an address the policy lets through. *)
Lemma dial_attempts_allowed p address ip n :
  (ip, n) ∈ (DialContext lookup dial p address).2 -> 1 <= n <= 65535 /\ ValidateIP p ip = None.
Proof.
  unfold DialContext. destruct (SplitHostPort address) as [[host port]|]; [|by intros ?%not_elem_of_nil].
  destruct (parse_port port) as [m|] eqn:Hp; [|by intros ?%not_elem_of_nil].
  destruct (ResolveHost lookup p host) as [e|ips] eqn:Hres; [by intros ?%not_elem_of_nil|].
  destruct (resolve_allowed p host ips Hres) as [_ Hall].
  destruct (dial_loop dial ips m None) as [res attempts] eqn:Hrun.
  destruct (dial_loop_run m ips None res attempts Hrun) as (tried & rest & -> & -> & _).
  intros Hin. apply list_elem_of_fmap in Hin as (ip' & [= -> ->] & Hin). split; [by eapply parse_port_range|].
  rewrite Forall_app in Hall. destruct Hall as [Hall _]. rewrite Forall_forall in Hall.
  by apply Hall, list_elem_of_In.
Qed.

(** C34. The program connects to no address its policy forbids.  Whatever the
    resolver answers and whichever attempts fail, [DialContext] tries only ports
    of TCP and only addresses outside the forbidden blocks: the unspecified
    addresses and multicast always, loopback, private networks and link-local
    addresses too unless private targets are allowed, in IPv4, in IPv6 and as
    mapped addresses; a connection it returns is to an address it tried; and a
    name all of whose addresses are outside the blocks is tried, in the
    resolver's order, up to the first that answers, and no further. *)
Theorem dial_reaches_only_allowed p address :
  let '(res, attempts) := DialContext lookup dial p address in
  (forall ip n, (ip, n) ∈ attempts -> 1 <= n <= 65535 /\ (is_ip ip -> outside p ip)) /\
  (forall conn, res = inr conn -> exists ip n, (ip, n) ∈ attempts /\ dial ip n = inr conn) /\
  (forall host port n ips, SplitHostPort address = Some (host, port) -> parse_port port = Some n ->
     TrimSpace host <> "" -> EqualFold (TrimSpace host) "localhost" = false ->
     ParseIP (TrimSpace host) = None -> lookup (TrimSpace host) = inr ips -> ips <> [] ->
     Forall is_ip ips -> Forall (outside p) ips ->
     exists tried rest, ips = tried ++ rest /\ attempts = (fun ip => (ip, n)) <$> tried /\ tried <> [] /\
       match res with
       | inl _ => rest = [] /\ Forall (fun ip => exists e, dial ip n = inl e) tried
       | inr conn => exists front ip, tried = front ++ [ip] /\ dial ip n = inr conn /\
           Forall (fun ip => exists e, dial ip n = inl e) front
       end).
Proof.
  pose proof (dial_attempts_allowed p address) as Hsafe.
  destruct (DialContext lookup dial p address) as [res attempts] eqn:Hrun. cbn [snd] in Hsafe.
  split; [intros ip n Hin; destruct (Hsafe _ _ Hin); split; [done|]; intros Hip; by apply validate_ip_blocks|].
  unfold DialContext in Hrun.
  destruct (SplitHostPort address) as [[host port]|] eqn:Hs.
  2: { injection Hrun as <- <-. split_and!; [done|done]. }
  destruct (parse_port port) as [n|] eqn:Hp.
  2: { injection Hrun as <- <-. split_and!; [done|]. intros. by simplify_eq. }
  destruct (ResolveHost lookup p host) as [e|ips] eqn:Hres.
  - injection Hrun as <- <-. split_and!; [done|].
    intros host' port' n' ips [= <- <-] _ Hne Hloc Hlit Hlook Hips Hip Hout. exfalso. revert Hres.
    unfold ResolveHost, ValidateLiteralHost. cbv zeta. rewrite TrimSpace_idemp, Hloc, Hlit, Hlook.
    rewrite bool_decide_eq_false_2 by done. cbn [andb]. rewrite bool_decide_eq_false_2 by (by destruct ips).
    rewrite (proj2 (validate_all_none p ips)); [done|].
    apply Forall_forall. intros ip Hin. rewrite Forall_forall in Hip, Hout.
    apply validate_ip_blocks; [by apply Hip|by apply Hout].
  - destruct (resolve_allowed p host ips Hres) as [Hips Hall].
    destruct (dial_loop_run n ips None res attempts Hrun) as (tried & rest & -> & -> & Hend).
    split_and!.
    + intros conn ->. destruct Hend as (front & ip & -> & Hc & _). exists ip, n. split; [|done].
      rewrite fmap_app. apply elem_of_app. right. left.
    + intros host' port' n' ips' [= <- <-] Hp' Hne Hloc Hlit Hlook _ _ _. rewrite Hp in Hp'. injection Hp' as <-.
      exists tried, rest. revert Hres. unfold ResolveHost. cbv zeta. rewrite Hlit, Hlook.
      destruct (ValidateLiteralHost _ _); [done|]. destruct (bool_decide _); [done|].
      destruct (validate_all _ _); [done|]. intros [= ->]. split_and!; [done|done| |].
      * intros ->. destruct res; [destruct Hend as [E _]; by rewrite E in Hips|].
        destruct Hend as (front & ip & E & _). by destruct front.
      * exact Hend.
Qed.
End dial.

Definition ex_lookup (host : string) : GoError + list IP :=
  if host == "rebind.example" then inr [[93; 184; 216; 34]; [10; 0; 0; 1]]
  else if host == "site.example" then inr [[93; 184; 216; 34]; [93; 184; 216; 35]]
  else inl (Errorf "no such host").
Definition ex_dial (ip : IP) (port : Z) : GoError + Z :=
  if bool_decide (ip = [93; 184; 216; 35]) then inr port else inl (Errorf "refused").

Example dial_examples :
  (fun a => (DialContext ex_lookup ex_dial (MkPolicy false) a).2) <$>
    ["site.example:443"; "rebind.example:80"; "127.0.0.1:80"; "[::ffff:10.1.2.3]:80"; "[fe80::1]:80"; "LocalHost:80";
     "site.example:0"; "[fd00::1]:80"; "0.0.0.0:80"]
  = [[([93; 184; 216; 34], 443); ([93; 184; 216; 35], 443)]; []; []; []; []; []; []; []; []].
Proof. vm_compute. reflexivity. Qed.

(** Both addresses of a name are tried, the second answers. *)
Lemma dial_reaches_only_allowed_witness :
  (DialContext ex_lookup ex_dial (MkPolicy false) "site.example:443").1 = inr 443 /\
  forall ip n, (ip, n) ∈ (DialContext ex_lookup ex_dial (MkPolicy false) "site.example:443").2 ->
    1 <= n <= 65535 /\ (is_ip ip -> outside (MkPolicy false) ip).
Proof.
  split; [vm_compute; reflexivity|].
  pose proof (dial_reaches_only_allowed ex_lookup ex_dial (MkPolicy false) "site.example:443") as Hd.
  destruct (DialContext ex_lookup ex_dial (MkPolicy false) "site.example:443") as [res attempts]. exact (proj1 Hd).
Defined.
