(* ===== verification/Checks.v ===== *)
(** internal/checks/check.go: the canonical form of a check definition. *)

From S2P Require Import Prelude GoStrings GoNet Types NetPolicy.
From Stdlib Require Import NArith ZifyBool.

Definition NewCheck (name checkType target webhook : string) (interval : Z) : Check :=
  MkCheck "" name checkType target webhook interval.

Section checks.
Context (unicode_lower : N -> N) (lookup : string -> GoError + list IP) (parse_url : string -> GoError + URL).

Definition Normalize (c : Check) : Check :=
  MkCheck (ck_ID c) (TrimSpace (ck_Name c)) (NormalizeCheckType unicode_lower (ck_Type c))
    (TrimSpace (ck_Target c)) (TrimSpace (ck_Webhook c))
    (if (ck_Interval c =? 0)%Z then DefaultInterval else ck_Interval c).

Definition NormalizeAndValidate (policy : Policy) (requireName : bool) (c : Check) : GoError + Check :=
  let c := Normalize c in
  if requireName && (ck_Name c == "") then inl (Errorf "name is required")
  else if ck_Target c == "" then inl (Errorf "target is required")
  else if (ck_Interval c <? 1)%Z || (MaxInterval <? ck_Interval c)%Z
  then inl (Errorf "interval must be between 0 and 86400 seconds")
  else match ValidateWebhookURL parse_url (ck_Webhook c) policy with
  | Some err => inl err
  | None =>
      match ValidateCheckTarget lookup parse_url unicode_lower (ck_Type c) (ck_Target c) policy with
      | Some err => inl err
      | None => inr c
      end
  end.

(** * Accepted checks *)

Definition known_type (t : string) : Prop := t = "http" \/ t = "tcp" \/ t = "dns".

Lemma normalize_known t : known_type t -> NormalizeCheckType unicode_lower t = t.
Proof. intros [->|[->| ->]]; vm_compute; reflexivity. Qed.

(** Only the three types pass. *)
Lemma validated_type t target p :
  ValidateCheckTarget lookup parse_url unicode_lower t target p = None ->
  known_type (NormalizeCheckType unicode_lower t).
Proof.
  unfold ValidateCheckTarget, known_type. cbv zeta.
  repeat (case_bool_decide; [by auto|]). done.
Qed.

(** An ASCII type is normalised once and for all. *)
Lemma normalize_type_idemp t :
  is_ascii (TrimSpace t) = true ->
  NormalizeCheckType unicode_lower (NormalizeCheckType unicode_lower t) = NormalizeCheckType unicode_lower t.
Proof.
  intros Ha. unfold NormalizeCheckType at 2 3. case_bool_decide as Hb; [by apply normalize_known; left|].
  unfold ToLower. rewrite Ha. unfold NormalizeCheckType, ToLower. rewrite (lower_bytes_trimmed t Ha).
  destruct (lower_bytes_idemp (TrimSpace t) Ha) as [-> ->].
  rewrite bool_decide_eq_false_2; [done|]. by destruct (TrimSpace t).
Qed.

Lemma normalize_idemp c :
  is_ascii (TrimSpace (ck_Type c)) = true -> Normalize (Normalize c) = Normalize c.
Proof.
  intros Ht. unfold Normalize. simpl. rewrite !TrimSpace_idemp, (normalize_type_idemp _ Ht). f_equal.
  destruct (ck_Interval c =? 0)%Z eqn:E; simpl; [done|]. by rewrite E.
Qed.

(** What validation answers is the normal form, and its target was validated. *)
Lemma accepted_normal policy requireName c c' :
  NormalizeAndValidate policy requireName c = inr c' ->
  c' = Normalize c /\
  ValidateCheckTarget lookup parse_url unicode_lower (ck_Type (Normalize c)) (ck_Target (Normalize c)) policy = None.
Proof.
  unfold NormalizeAndValidate. cbv zeta. repeat (case_match; [done|]).
  by intros [= <-].
Qed.

Lemma accepted_interval policy requireName c c' :
  NormalizeAndValidate policy requireName c = inr c' -> (1 <= ck_Interval c' <= MaxInterval)%Z.
Proof.
  unfold NormalizeAndValidate. cbv zeta. destruct (requireName && _); [done|]. case_bool_decide; [done|].
  destruct (_ || _) eqn:Hi; [done|]. destruct (ValidateWebhookURL _ _ _); [done|].
  destruct (ValidateCheckTarget _ _ _ _ _ _); [done|]. intros [= <-]. lia.
Qed.

(** C35. What is accepted is canonical.  A check with an ASCII type that passes
    validation has, after it, one of the three types, a trimmed target, name and webhook, a target and,
    where required, a name that are not blank, and an interval of one second to
    one day; it keeps its ID; and validating the accepted definition again, with
    the same answers of the resolver, accepts it unchanged. *)
Theorem accepted_check_is_canonical policy requireName c c' :
  is_ascii (TrimSpace (ck_Type c)) = true ->
  NormalizeAndValidate policy requireName c = inr c' ->
  ck_ID c' = ck_ID c /\ known_type (ck_Type c') /\ (1 <= ck_Interval c' <= 86400)%Z /\
  ck_Target c' <> "" /\ (requireName = true -> ck_Name c' <> "") /\
  TrimSpace (ck_Name c') = ck_Name c' /\ TrimSpace (ck_Target c') = ck_Target c' /\
  TrimSpace (ck_Webhook c') = ck_Webhook c' /\
  NormalizeAndValidate policy requireName c' = inr c'.
Proof.
  intros Ha Hrun. pose proof Hrun as Hagain. unfold NormalizeAndValidate in Hrun. cbv zeta in Hrun.
  destruct (requireName && _) eqn:Hn; [done|]. case_bool_decide as Ht; [done|].
  destruct (_ || _) eqn:Hi; [done|]. destruct (ValidateWebhookURL _ _ _) eqn:Hw; [done|].
  destruct (ValidateCheckTarget _ _ _ _ _ _) eqn:Hv; [done|]. injection Hrun as <-.
  assert (Hk : known_type (ck_Type (Normalize c))).
  { pose proof (validated_type _ _ _ Hv) as Hk. simpl in *. by rewrite (normalize_type_idemp _ Ha) in Hk. }
  split_and!; [done|done|unfold MaxInterval in Hi; lia|unfold MaxInterval in Hi; lia|done| |apply TrimSpace_idemp..|].
  - intros ->. simpl in Hn. by apply bool_decide_eq_false in Hn.
  - unfold NormalizeAndValidate in *. cbv zeta in *. by rewrite (normalize_idemp c Ha).
Qed.
End checks.

Definition ex_url (s : string) : GoError + URL :=
  if s == "https://site.example/health" then inr (MkURL "https" "site.example" false) else inl (Errorf "bad URL").
Definition ex_dns (host : string) : GoError + list IP :=
  if host == "site.example" then inr [[93; 184; 216; 34]%Z] else inl (Errorf "no such host").
Definition ex_definition : Check := NewCheck " web " " HTTP " " https://site.example/health" "" 0.

Lemma accepted_check_is_canonical_witness :
  NormalizeAndValidate (fun r => r) ex_dns ex_url (MkPolicy false) true ex_definition =
    inr (NewCheck "web" "http" "https://site.example/health" "" 30) /\
  NormalizeAndValidate (fun r => r) ex_dns ex_url (MkPolicy false) true
    (NewCheck "web" "http" "https://site.example/health" "" 30) =
    inr (NewCheck "web" "http" "https://site.example/health" "" 30).
Proof.
  assert (Hr : NormalizeAndValidate (fun r => r) ex_dns ex_url (MkPolicy false) true ex_definition =
    inr (NewCheck "web" "http" "https://site.example/health" "" 30)) by (vm_compute; reflexivity).
  split; [exact Hr|].
  assert (Ha : is_ascii (TrimSpace (ck_Type ex_definition)) = true) by (vm_compute; reflexivity).
  destruct (accepted_check_is_canonical (fun r => r) ex_dns ex_url (MkPolicy false) true ex_definition _ Ha Hr)
    as (_ & _ & _ & _ & _ & _ & _ & _ & Hagain). exact Hagain.
Defined.
