(* ===== verification/ProbeMachine.v ===== *)
(** The probe state machine, internal/monitoring/probe_machine.go.  A machine is
    its [ProbeRuntimeState]; the [sm] field is the constant table
    [newProbeStateMachine]. *)

From S2P Require Import Prelude Stateless Types.

Definition newProbeStateMachine : MachineConfig := [
  (ProbeStateOnline, [
    PermitReentry ProbeTriggerReceiveHeartbeat;
    Permit ProbeTriggerHeartbeatExpired ProbeStateOffline;
    Permit ProbeTriggerMarkError ProbeStateError]);
  (ProbeStateOffline, [
    Permit ProbeTriggerReceiveHeartbeat ProbeStateOnline;
    PermitReentry ProbeTriggerHeartbeatExpired;
    Permit ProbeTriggerMarkError ProbeStateError]);
  (ProbeStateError, [
    Permit ProbeTriggerReceiveHeartbeat ProbeStateOnline;
    PermitReentry ProbeTriggerMarkError;
    Permit ProbeTriggerHeartbeatExpired ProbeStateOffline])
].

Definition NewProbeMachine (probeID : string) : ProbeRuntimeState :=
  newProbeRuntimeState probeID.

Definition Snapshot (m : ProbeRuntimeState) : ProbeRuntimeState := clone m.

Definition set_State (st : ProbeState) (m : ProbeRuntimeState) : ProbeRuntimeState :=
  MkProbeRuntimeState (pr_ProbeID m) st (pr_LastHeartbeatAt m) (pr_LastError m).
Definition set_LastHeartbeatAt (at_ : option Time) (m : ProbeRuntimeState) : ProbeRuntimeState :=
  MkProbeRuntimeState (pr_ProbeID m) (pr_State m) at_ (pr_LastError m).
Definition set_LastError (msg : string) (m : ProbeRuntimeState) : ProbeRuntimeState :=
  MkProbeRuntimeState (pr_ProbeID m) (pr_State m) (pr_LastHeartbeatAt m) msg.

Section machine.
Context `{SL : Stateless}.

Definition fire (trigger : ProbeTrigger) : St ProbeRuntimeState ProbeTransition := fun m =>
  let from := pr_State m in
  match sm_Fire newProbeStateMachine from trigger with
  | inl e => (inl e, m)
  | inr st =>
      let m' := set_State st m in
      let to := pr_State m' in
      (inr (MkProbeTransition from to trigger (from == to)), m')
  end.

Definition ReceiveHeartbeat (at_ : Time) : St ProbeRuntimeState ProbeTransition :=
  transition ← fire ProbeTriggerReceiveHeartbeat;
  st_modify (fun m => set_LastError "" (set_LastHeartbeatAt (Some (UTC at_)) m));;
  mret transition.

Definition ExpireHeartbeat : St ProbeRuntimeState ProbeTransition :=
  fire ProbeTriggerHeartbeatExpired.

Definition MarkError (message : string) : St ProbeRuntimeState ProbeTransition :=
  transition ← fire ProbeTriggerMarkError;
  st_modify (set_LastError message);;
  mret transition.
End machine.

(** * Correctness *)

(** The three configured states. *)
Definition valid_probe_state (s : ProbeState) : Prop :=
  s = ProbeStateOnline \/ s = ProbeStateOffline \/ s = ProbeStateError.

(** Where each trigger leads, whatever the configured state it fires in. *)
Definition probe_target (t : ProbeTrigger) : option ProbeState :=
  if t == ProbeTriggerReceiveHeartbeat then Some ProbeStateOnline
  else if t == ProbeTriggerHeartbeatExpired then Some ProbeStateOffline
  else if t == ProbeTriggerMarkError then Some ProbeStateError
  else None.

(** An online probe has been heard from and shows no error. *)
Definition probe_wf (m : ProbeRuntimeState) : Prop :=
  valid_probe_state (pr_State m) /\
  (pr_State m = ProbeStateOnline -> is_Some (pr_LastHeartbeatAt m) /\ pr_LastError m = "").

(** What happens to a probe, and the method each event calls. *)
Inductive ProbeEvent :=
| EvHeartbeat (at_ : Time)
| EvExpire
| EvMarkError (message : string).

(** The specification: what a history (most recent event first) says about a
    probe, without the machine. *)
Definition history_state (h : list ProbeEvent) : ProbeState :=
  match h with
  | [] | EvExpire :: _ => ProbeStateOffline
  | EvHeartbeat _ :: _ => ProbeStateOnline
  | EvMarkError _ :: _ => ProbeStateError
  end.

Fixpoint history_heartbeat (h : list ProbeEvent) : option Time :=
  match h with
  | [] => None
  | EvHeartbeat t :: _ => Some t
  | _ :: h => history_heartbeat h
  end.

Fixpoint history_error (h : list ProbeEvent) : string :=
  match h with
  | [] | EvHeartbeat _ :: _ => ""
  | EvMarkError msg :: _ => msg
  | EvExpire :: h => history_error h
  end.

Definition history_probe (probeID : string) (h : list ProbeEvent) : ProbeRuntimeState :=
  MkProbeRuntimeState probeID (history_state h) (history_heartbeat h) (history_error h).

Definition probe_event `{SL : Stateless} (ev : ProbeEvent) : St ProbeRuntimeState ProbeTransition :=
  match ev with
  | EvHeartbeat t => ReceiveHeartbeat t
  | EvExpire => ExpireHeartbeat
  | EvMarkError msg => MarkError msg
  end.

(** Runs the events in order; the first component counts the calls that failed. *)
Definition probe_run `{SL : Stateless} (evs : list ProbeEvent) (m : ProbeRuntimeState)
  : nat * ProbeRuntimeState :=
  fold_left (fun acc ev =>
    match probe_event ev acc.2 with
    | (inl _, m') => (S acc.1, m')
    | (inr _, m') => (acc.1, m')
    end) evs (0, m).

Section laws.
Context `{SLL : StatelessLaws}.

Lemma probe_Fire s t to :
  valid_probe_state s -> probe_target t = Some to ->
  sm_Fire newProbeStateMachine s t = inr to.
Proof.
  intros Hs Ht. apply Fire_permitted; [vm_compute; reflexivity|].
  unfold probe_target in Ht.
  repeat case_bool_decide; simplify_eq;
    destruct Hs as [->|[->| ->]]; vm_compute; reflexivity.
Qed.

Lemma fire_valid m t to :
  valid_probe_state (pr_State m) -> probe_target t = Some to ->
  fire t m = (inr (MkProbeTransition (pr_State m) to t (pr_State m == to)), set_State to m).
Proof. intros Hs Ht. unfold fire. by rewrite (probe_Fire _ _ _ Hs Ht). Qed.

Lemma ReceiveHeartbeat_valid m at_ :
  valid_probe_state (pr_State m) ->
  ReceiveHeartbeat at_ m =
    (inr (MkProbeTransition (pr_State m) ProbeStateOnline ProbeTriggerReceiveHeartbeat
            (pr_State m == ProbeStateOnline)),
     MkProbeRuntimeState (pr_ProbeID m) ProbeStateOnline (Some at_) "").
Proof.
  intros Hs. unfold ReceiveHeartbeat, mbind, St_bind.
  by rewrite (fire_valid m ProbeTriggerReceiveHeartbeat ProbeStateOnline Hs eq_refl).
Qed.

Lemma ExpireHeartbeat_valid m :
  valid_probe_state (pr_State m) ->
  ExpireHeartbeat m =
    (inr (MkProbeTransition (pr_State m) ProbeStateOffline ProbeTriggerHeartbeatExpired
            (pr_State m == ProbeStateOffline)), set_State ProbeStateOffline m).
Proof. intros Hs. by apply fire_valid. Qed.

Lemma MarkError_valid m msg :
  valid_probe_state (pr_State m) ->
  MarkError msg m =
    (inr (MkProbeTransition (pr_State m) ProbeStateError ProbeTriggerMarkError
            (pr_State m == ProbeStateError)),
     set_LastError msg (set_State ProbeStateError m)).
Proof.
  intros Hs. unfold MarkError, mbind, St_bind.
  by rewrite (fire_valid m ProbeTriggerMarkError ProbeStateError Hs eq_refl).
Qed.

Lemma history_state_valid h : valid_probe_state (history_state h).
Proof. destruct h as [|[]]; unfold valid_probe_state; simpl; auto. Qed.

Lemma probe_event_history probeID h ev :
  exists tr, probe_event ev (history_probe probeID h) = (inr tr, history_probe probeID (ev :: h)).
Proof.
  pose proof (history_state_valid h) as Hs.
  destruct ev; simpl;
    rewrite ?ReceiveHeartbeat_valid, ?ExpireHeartbeat_valid, ?MarkError_valid by exact Hs;
    eexists; reflexivity.
Qed.

Lemma probe_run_history probeID evs h :
  probe_run evs (history_probe probeID h) = (0, history_probe probeID (rev evs ++ h)).
Proof.
  unfold probe_run. revert h. induction evs as [|ev evs IH]; intros h; [done|].
  destruct (probe_event_history probeID h ev) as [tr Htr]. simpl. rewrite Htr.
  rewrite IH. by rewrite <-app_assoc.
Qed.

Lemma history_probe_wf probeID h : probe_wf (history_probe probeID h).
Proof.
  split; [apply history_state_valid|].
  destruct h as [|[]]; simpl; intros ?; simplify_eq; eauto.
Qed.

Lemma probe_event_wf ev m m' r :
  probe_wf m -> probe_event ev m = (r, m') -> probe_wf m' /\ pr_ProbeID m' = pr_ProbeID m.
Proof.
  intros [Hv Hon] Hev.
  destruct ev; simpl in Hev;
    rewrite ?ReceiveHeartbeat_valid, ?ExpireHeartbeat_valid, ?MarkError_valid in Hev by exact Hv;
    injection Hev as <- <-; (split; [|done]); (split; [unfold valid_probe_state; simpl; auto|]);
    simpl; intros ?; simplify_eq; eauto.
Qed.

Lemma NewProbeMachine_wf probeID : probe_wf (NewProbeMachine probeID).
Proof. split; [right; left; done | done]. Qed.
End laws.

Section properties.
Context `{SLL : StatelessLaws}.

(** A probe machine never refuses an event: from a new machine, any sequence
    of heartbeats, expiries and errors runs without a failing call, and the state
    it ends in is exactly what the history says: the state of the last event, the
    time of the last heartbeat, the last error message not cleared by a later
    heartbeat. *)
Lemma probe_machine_refines_history probeID evs :
  probe_run evs (NewProbeMachine probeID) = (0, history_probe probeID (rev evs)).
Proof.
  change (NewProbeMachine probeID) with (history_probe probeID []).
  by rewrite probe_run_history, app_nil_r.
Qed.
End properties.

Lemma probe_machine_refines_history_run :
  @probe_run table_Fire [EvHeartbeat 5%Z; EvMarkError "x"; EvExpire] (NewProbeMachine "p")
  = (0, MkProbeRuntimeState "p" ProbeStateOffline (Some 5%Z) "x").
Proof.
  exact (@probe_machine_refines_history table_Fire table_Fire_laws "p"
           [EvHeartbeat 5%Z; EvMarkError "x"; EvExpire]).
Qed.
