(* ===== verification/CheckMachine.v ===== *)
(** The per-(check, probe) state machine, internal/monitoring/check_machine.go.
    A machine is its [CheckExecState]; the [sm] field is the constant table
    [newCheckStateMachine]. *)

From S2P Require Import Prelude Stateless Types.

Definition consecutiveEvidenceThreshold : Z := 2.

Definition newCheckStateMachine : MachineConfig := [
  (CheckStateMissing, [
    Permit CheckTriggerObserveUp CheckStateUp;
    Permit CheckTriggerObserveDown CheckStateDown;
    Permit CheckTriggerMarkError CheckStateError;
    PermitReentry CheckTriggerLoseEvidence]);
  (CheckStateUp, [
    PermitReentry CheckTriggerObserveUp;
    Permit CheckTriggerObserveDown CheckStateDown;
    Permit CheckTriggerLoseEvidence CheckStateMissing;
    Permit CheckTriggerMarkError CheckStateError]);
  (CheckStateDown, [
    Permit CheckTriggerObserveUp CheckStateUp;
    PermitReentry CheckTriggerObserveDown;
    Permit CheckTriggerLoseEvidence CheckStateMissing;
    Permit CheckTriggerMarkError CheckStateError]);
  (CheckStateError, [
    Permit CheckTriggerObserveUp CheckStateUp;
    Permit CheckTriggerObserveDown CheckStateDown;
    Permit CheckTriggerLoseEvidence CheckStateMissing;
    PermitReentry CheckTriggerMarkError])
].

Definition NewCheckMachine (checkID probeID : string) : CheckExecState :=
  newCheckExecState checkID probeID.

Definition Snapshot (m : CheckExecState) : CheckExecState := m.

Definition set_State (st : CheckState) (m : CheckExecState) : CheckExecState :=
  MkCheckExecState (ce_CheckID m) (ce_ProbeID m) (ce_LastResultAt m) (ce_LastOutcome m)
    (ce_StreakLen m) (ce_ExpiresAt m) st (ce_LastError m).
Definition set_LastError (msg : string) (m : CheckExecState) : CheckExecState :=
  MkCheckExecState (ce_CheckID m) (ce_ProbeID m) (ce_LastResultAt m) (ce_LastOutcome m)
    (ce_StreakLen m) (ce_ExpiresAt m) (ce_State m) msg.

(** [m.state.StreakLen++] wraps at 64 bits. *)
Definition bumpOutcome (outcome : CheckState) (m : CheckExecState) : CheckExecState :=
  let streak :=
    if ce_LastOutcome m == outcome then wrap64 (ce_StreakLen m + 1) else 1%Z in
  MkCheckExecState (ce_CheckID m) (ce_ProbeID m) (ce_LastResultAt m) outcome
    streak (ce_ExpiresAt m) (ce_State m) (ce_LastError m).

Definition recordObservation (outcome : CheckState) (at_ : Time) (expiresAt : option Time)
    (message : string) (m : CheckExecState) : CheckExecState :=
  let expiry := match expiresAt with None => zeroTime | Some t => UTC t end in
  bumpOutcome outcome
    (MkCheckExecState (ce_CheckID m) (ce_ProbeID m) (UTC at_) (ce_LastOutcome m)
       (ce_StreakLen m) expiry (ce_State m) message).

Definition contributionStateFor (outcome : CheckState) (m : CheckExecState) : CheckState :=
  if (ce_StreakLen m <? consecutiveEvidenceThreshold)%Z then CheckStateMissing else outcome.

Section machine.
Context `{SL : Stateless}.

Definition fire (trigger : CheckTrigger) : St CheckExecState CheckTransition := fun m =>
  let from := ce_State m in
  match sm_Fire newCheckStateMachine from trigger with
  | inl e => (inl e, m)
  | inr st =>
      let m' := set_State st m in
      (inr (MkCheckTransition from (ce_State m') trigger (from == ce_State m')), m')
  end.

Definition observe (trigger : CheckTrigger) (outcome : CheckState) (at_ : Time)
    (expiresAt : option Time) (message : string) : St CheckExecState CheckTransition := fun m =>
  let from := ce_State m in
  match fire trigger m with
  | (inl e, m1) => (inl e, m1)
  | (inr _, m1) =>
      let m2 := recordObservation outcome at_ expiresAt message m1 in
      let m3 := set_State (contributionStateFor outcome m2) m2 in
      (inr (MkCheckTransition from (ce_State m3) trigger (from == ce_State m3)), m3)
  end.

Definition ObserveUp (at_ : Time) (expiresAt : option Time) : St CheckExecState CheckTransition :=
  observe CheckTriggerObserveUp CheckStateUp at_ expiresAt "".

Definition ObserveDown (at_ : Time) (expiresAt : option Time) (message : string)
    : St CheckExecState CheckTransition :=
  observe CheckTriggerObserveDown CheckStateDown at_ expiresAt message.

Definition LoseEvidence : St CheckExecState CheckTransition :=
  transition ← fire CheckTriggerLoseEvidence;
  st_modify (fun m =>
    MkCheckExecState (ce_CheckID m) (ce_ProbeID m) (ce_LastResultAt m) "" 0 zeroTime
      (ce_State m) "");;
  mret transition.

Definition MarkError (message : string) : St CheckExecState CheckTransition :=
  transition ← fire CheckTriggerMarkError;
  st_modify (fun m => set_LastError message (bumpOutcome CheckStateError m));;
  mret transition.
End machine.

(** * Specification

    What a check's machine should say after a history of events, most recent
    first, without running it. *)

Inductive CheckEvent :=
| EvUp (at_ : Time) (expiresAt : option Time)
| EvDown (at_ : Time) (expiresAt : option Time) (message : string)
| EvLose
| EvError (message : string).

Definition check_event `{SL : Stateless} (ev : CheckEvent) : St CheckExecState CheckTransition :=
  match ev with
  | EvUp t e => ObserveUp t e
  | EvDown t e msg => ObserveDown t e msg
  | EvLose => LoseEvidence
  | EvError msg => MarkError msg
  end.

Definition event_outcome (ev : CheckEvent) : CheckState :=
  match ev with
  | EvUp _ _ => CheckStateUp
  | EvDown _ _ _ => CheckStateDown
  | EvLose => ""
  | EvError _ => CheckStateError
  end.

Definition history_outcome (h : list CheckEvent) : CheckState :=
  match h with [] => "" | ev :: _ => event_outcome ev end.

(** How many of the most recent events have the same outcome as the latest. *)
Fixpoint run_length (o : CheckState) (h : list CheckEvent) : nat :=
  match h with
  | [] => 0
  | ev :: h => if event_outcome ev == o then S (run_length o h) else 0
  end.

(** The state that counts towards quorum: an error at once, an up or a down only
    from the second consecutive one. *)
Definition counted_state (o : CheckState) (streak : Z) : CheckState :=
  if o == "" then CheckStateMissing
  else if o == CheckStateError then CheckStateError
  else if (streak <? 2)%Z then CheckStateMissing else o.

Definition history_streak (h : list CheckEvent) : Z :=
  if history_outcome h == "" then 0
  else wrap64 (Z.of_nat (run_length (history_outcome h) h)).

(** What a history determines of a machine's state. *)
Definition agrees_with_history (h : list CheckEvent) (m : CheckExecState) : Prop :=
  ce_LastOutcome m = history_outcome h /\
  ce_StreakLen m = history_streak h /\
  ce_State m = counted_state (history_outcome h) (history_streak h).

Definition check_run `{SL : Stateless} (evs : list CheckEvent) (m : CheckExecState)
  : nat * CheckExecState :=
  fold_left (fun acc ev =>
    match check_event ev acc.2 with
    | (inl _, m') => (S acc.1, m')
    | (inr _, m') => (acc.1, m')
    end) evs (0, m).

(** * Invariant *)

Definition valid_check_state (s : CheckState) : Prop :=
  s = CheckStateMissing \/ s = CheckStateUp \/ s = CheckStateDown \/ s = CheckStateError.

Definition valid_outcome (o : CheckState) : Prop :=
  o = "" \/ o = CheckStateUp \/ o = CheckStateDown \/ o = CheckStateError.

(** The stored state is a function of the raw outcome and its streak, evidence
    that was lost left no streak, and the streak is a machine integer. *)
Definition check_wf (m : CheckExecState) : Prop :=
  valid_outcome (ce_LastOutcome m) /\
  (ce_LastOutcome m = "" -> ce_StreakLen m = 0%Z) /\
  (- 2 ^ 63 <= ce_StreakLen m < 2 ^ 63)%Z /\
  ce_State m = counted_state (ce_LastOutcome m) (ce_StreakLen m).

Lemma counted_state_valid o n : valid_outcome o -> valid_check_state (counted_state o n).
Proof.
  unfold counted_state, valid_check_state.
  intros [->|[->|[->| ->]]]; repeat case_bool_decide; simplify_eq; auto;
    destruct (n <? 2)%Z; auto.
Qed.

Lemma check_wf_state_valid m : check_wf m -> valid_check_state (ce_State m).
Proof. intros (Ho & _ & _ & ->). by apply counted_state_valid. Qed.

Lemma NewCheckMachine_wf checkID probeID : check_wf (NewCheckMachine checkID probeID).
Proof. repeat split; simpl; try lia. by left. Qed.

Definition check_target (t : CheckTrigger) : option CheckState :=
  if t == CheckTriggerObserveUp then Some CheckStateUp
  else if t == CheckTriggerObserveDown then Some CheckStateDown
  else if t == CheckTriggerLoseEvidence then Some CheckStateMissing
  else if t == CheckTriggerMarkError then Some CheckStateError
  else None.

(** What each event does to a machine whose state is one of the four. *)
Definition event_effect (ev : CheckEvent) (m : CheckExecState) : CheckExecState :=
  match ev with
  | EvLose =>
      MkCheckExecState (ce_CheckID m) (ce_ProbeID m) (ce_LastResultAt m) "" 0 zeroTime
        CheckStateMissing ""
  | EvError msg => set_LastError msg (bumpOutcome CheckStateError (set_State CheckStateError m))
  | EvUp t e =>
      let m' := recordObservation CheckStateUp t e "" (set_State CheckStateUp m) in
      set_State (contributionStateFor CheckStateUp m') m'
  | EvDown t e msg =>
      let m' := recordObservation CheckStateDown t e msg (set_State CheckStateDown m) in
      set_State (contributionStateFor CheckStateDown m') m'
  end.

Section laws.
Context `{SLL : StatelessLaws}.

Lemma check_Fire s t to :
  valid_check_state s -> check_target t = Some to ->
  sm_Fire newCheckStateMachine s t = inr to.
Proof.
  intros Hs Ht. apply Fire_permitted; [vm_compute; reflexivity|].
  unfold check_target in Ht.
  repeat case_bool_decide; simplify_eq;
    destruct Hs as [->|[->|[->| ->]]]; vm_compute; reflexivity.
Qed.

Lemma check_fire_valid m t to :
  valid_check_state (ce_State m) -> check_target t = Some to ->
  fire t m = (inr (MkCheckTransition (ce_State m) to t (ce_State m == to)), set_State to m).
Proof. intros Hs Ht. unfold fire. by rewrite (check_Fire _ _ _ Hs Ht). Qed.

Lemma check_event_valid ev m :
  valid_check_state (ce_State m) ->
  exists tr, check_event ev m = (inr tr, event_effect ev m) /\
             ct_From tr = ce_State m /\ ct_To tr = ce_State (event_effect ev m).
Proof.
  intros Hs. destruct ev; simpl.
  - unfold ObserveUp, observe.
    rewrite (check_fire_valid m CheckTriggerObserveUp CheckStateUp Hs eq_refl). eauto.
  - unfold ObserveDown, observe.
    rewrite (check_fire_valid m CheckTriggerObserveDown CheckStateDown Hs eq_refl). eauto.
  - unfold LoseEvidence, mbind, St_bind.
    rewrite (check_fire_valid m CheckTriggerLoseEvidence CheckStateMissing Hs eq_refl). eauto.
  - unfold MarkError, mbind, St_bind.
    rewrite (check_fire_valid m CheckTriggerMarkError CheckStateError Hs eq_refl). eauto.
Qed.
End laws.

(** * Effects and history *)

Lemma event_effect_ids ev m :
  ce_CheckID (event_effect ev m) = ce_CheckID m /\ ce_ProbeID (event_effect ev m) = ce_ProbeID m.
Proof. by destruct ev. Qed.

Lemma event_effect_outcome ev m : ce_LastOutcome (event_effect ev m) = event_outcome ev.
Proof. by destruct ev. Qed.

Lemma event_effect_streak ev m :
  ce_StreakLen (event_effect ev m) =
  if event_outcome ev == "" then 0%Z
  else if ce_LastOutcome m == event_outcome ev then wrap64 (ce_StreakLen m + 1) else 1%Z.
Proof. by destruct ev. Qed.

Lemma event_effect_state ev m :
  ce_State (event_effect ev m) =
  counted_state (event_outcome ev) (ce_StreakLen (event_effect ev m)).
Proof. by destruct ev. Qed.

Lemma event_outcome_valid ev : valid_outcome (event_outcome ev).
Proof. unfold valid_outcome. destruct ev; simpl; auto. Qed.

Lemma event_effect_wf ev m : check_wf m -> check_wf (event_effect ev m).
Proof.
  intros (_ & _ & Hr & _). unfold check_wf.
  rewrite event_effect_state, event_effect_outcome, event_effect_streak.
  split; [apply event_outcome_valid | split; [|split; [|done]]].
  - intros ->. by rewrite bool_decide_eq_true_2.
  - repeat case_bool_decide; try lia; apply wrap64_range.
Qed.

Lemma event_effect_history ev h m :
  agrees_with_history h m -> agrees_with_history (ev :: h) (event_effect ev m).
Proof.
  intros (Ho & Hn & _). unfold agrees_with_history.
  rewrite event_effect_state, event_effect_outcome, event_effect_streak, Ho, Hn.
  assert (Hs : (if event_outcome ev == "" then 0%Z
     else if history_outcome h == event_outcome ev
          then wrap64 (history_streak h + 1) else 1%Z) = history_streak (ev :: h)).
  { unfold history_streak. simpl. rewrite (bool_decide_eq_true_2 (event_outcome ev = event_outcome ev)) by done.
    case_bool_decide as H0; [done|].
    case_bool_decide as H1.
    - rewrite H1. rewrite (bool_decide_eq_false_2 _ H0), wrap64_add_l. f_equal. lia.
    - destruct h as [|ev' h]; simpl in *; rewrite ?bool_decide_eq_false_2 by done; reflexivity. }
  rewrite Hs. done.
Qed.

Section properties.
Context `{SLL : StatelessLaws}.

Lemma check_run_history evs : forall h m,
  check_wf m -> agrees_with_history h m ->
  exists m', check_run evs m = (0, m') /\ check_wf m' /\ agrees_with_history (rev evs ++ h) m'.
Proof.
  unfold check_run. induction evs as [|ev evs IH]; intros h m Hwf Hh; [eauto|].
  destruct (check_event_valid ev m (check_wf_state_valid _ Hwf)) as (tr & Htr & _).
  simpl. rewrite Htr.
  destruct (IH (ev :: h) (event_effect ev m)) as (m' & ? & ? & Ha);
    [by apply event_effect_wf | by apply event_effect_history|].
  exists m'. split_and!; [done|done|]. by rewrite <-app_assoc.
Qed.

(** A new check machine runs any sequence of up and down observations, lost
    evidence and errors without a failing call, and ends with the latest
    outcome, with the length of the run of identical outcomes since evidence was
    last lost (modulo 64 bits), and in the state that run justifies: an error at
    once, an up or a down only from the second consecutive one, missing
    otherwise. *)
Lemma check_machine_refines_history checkID probeID evs :
  exists m', check_run evs (NewCheckMachine checkID probeID) = (0, m') /\
             check_wf m' /\ agrees_with_history (rev evs) m'.
Proof.
  destruct (check_run_history evs [] (NewCheckMachine checkID probeID)) as (m' & ? & ? & Ha);
    [apply NewCheckMachine_wf | done | ].
  rewrite app_nil_r in Ha. eauto.
Qed.
End properties.

Lemma check_machine_refines_history_run :
  exists m', @check_run table_Fire [EvUp 1%Z None; EvDown 2%Z None "a"; EvDown 3%Z None "b"]
               (NewCheckMachine "c" "p") = (0, m') /\
             check_wf m' /\ ce_State m' = CheckStateDown /\ ce_StreakLen m' = 2%Z.
Proof.
  destruct (@check_machine_refines_history table_Fire table_Fire_laws "c" "p"
              [EvUp 1%Z None; EvDown 2%Z None "a"; EvDown 3%Z None "b"])
    as (m' & Hrun & Hwf & _ & Hn & Hs).
  exists m'. split_and!; [exact Hrun | exact Hwf | rewrite Hs | rewrite Hn]; vm_compute; reflexivity.
Qed.
