(* ===== verification/QuorumMachine.v ===== *)
(** The per-check quorum machine, internal/monitoring/quorum_machine.go, and the
    ID helper it takes from runtime.go.  A machine owns its child check machines
    in a map; no other object holds a pointer to them, so the map stores their
    states. *)

From S2P Require Import Prelude Stateless Types CheckMachine.

Definition ErrUnknownCheckAssignment : GoError :=
  ErrSentinel "monitoring: unknown check assignment".

(** [uniqueIDs]: the loop over [ids] with its [seen] set and [out] slice. *)
Fixpoint uniqueIDs_loop (seen : gset string) (out ids : list string) : list string :=
  match ids with
  | [] => out
  | id :: ids =>
      if id == "" then uniqueIDs_loop seen out ids
      else if bool_decide (id ∈ seen) then uniqueIDs_loop seen out ids
      else uniqueIDs_loop ({[id]} ∪ seen) (out ++ [id]) ids
  end.

Definition uniqueIDs (ids : list string) : list string := uniqueIDs_loop ∅ [] ids.

Record QuorumMachine := MkQuorumMachine {
  qm_state : CheckQuorumState;
  qm_checks : gmap string CheckExecState
}.

#[global] Instance QuorumMachine_eq_dec : EqDecision QuorumMachine.
Proof. solve_decision. Defined.

Definition set_state (st : CheckQuorumState) (m : QuorumMachine) : QuorumMachine :=
  MkQuorumMachine st (qm_checks m).
Definition set_checks (cs : gmap string CheckExecState) (m : QuorumMachine) : QuorumMachine :=
  MkQuorumMachine (qm_state m) cs.

Definition NewQuorumMachine (checkID : string) (probeIDs : list string) : QuorumMachine :=
  MkQuorumMachine (newCheckQuorumState checkID)
    (fold_left (fun cs probeID => <[probeID := NewCheckMachine checkID probeID]> cs)
       (uniqueIDs probeIDs) ∅).

Definition Snapshot (m : QuorumMachine) : CheckQuorumState := qm_state m.

Definition CheckSnapshot (probeID : string) (m : QuorumMachine) : option CheckExecState :=
  CheckMachine.Snapshot <$> qm_checks m !! probeID.

(** * Votes *)

Definition isStableQuorumState (state : QuorumState) : bool :=
  (state == QuorumStateUp) || (state == QuorumStateDown).

Definition quorumContribution (check : CheckExecState) (current : CheckQuorumState) : CheckState :=
  if ce_LastOutcome check == CheckStateDown then
    if (consecutiveEvidenceThreshold <=? ce_StreakLen check)%Z then CheckStateDown
    else CheckStateMissing
  else if ce_LastOutcome check == CheckStateUp then
    if cq_IncidentOpen current && (ce_StreakLen check <? consecutiveEvidenceThreshold)%Z
    then CheckStateMissing
    else if negb (IsZero (ce_LastResultAt check)) then CheckStateUp
    else CheckStateMissing
  else CheckStateMissing.

(** Go's integer division truncates. *)
Definition quorumThreshold (totalAssigned : Z) : Z := (Z.quot totalAssigned 2 + 1)%Z.

(** The counting loop of [Recompute]; its result does not depend on the order in
    which Go ranges over the map. *)
Definition tally (current : CheckQuorumState) (checks : gmap string CheckExecState) : Z * Z :=
  map_fold (fun _ check '(upVotes, downVotes) =>
    let v := quorumContribution (CheckMachine.Snapshot check) current in
    if v == CheckStateUp then (upVotes + 1, downVotes)%Z
    else if v == CheckStateDown then (upVotes, downVotes + 1)%Z
    else (upVotes, downVotes)) (0, 0)%Z checks.

Definition Recompute (m : QuorumMachine) : QuorumTransition * QuorumMachine :=
  let current := qm_state m in
  let '(upVotes, downVotes) := tally current (qm_checks m) in
  let n := Z.of_nat (size (qm_checks m)) in
  let required := quorumThreshold n in
  let nextState :=
    if (0 <? n)%Z && (required <=? upVotes)%Z then QuorumStateUp
    else if (0 <? n)%Z && (required <=? downVotes)%Z then QuorumStateDown
    else if cq_LastStableState current == "" then QuorumStatePending
    else QuorumStateError in
  let nextStable :=
    if isStableQuorumState nextState &&
       ((cq_LastStableState current == nextState) || (cq_State current == nextState))
    then nextState else cq_LastStableState current in
  let nextOpen :=
    if (cq_LastStableState current == QuorumStateUp) && (nextStable == QuorumStateDown) then true
    else if (cq_LastStableState current == QuorumStateDown) && (nextStable == QuorumStateUp)
    then false
    else cq_IncidentOpen current in
  (MkQuorumTransition (cq_State current) nextState nextStable,
   set_state (MkCheckQuorumState (cq_CheckID current) nextState nextStable nextOpen) m).

Definition AddProbe (probeID : string) (m : QuorumMachine) : CheckExecState * QuorumMachine :=
  match qm_checks m !! probeID with
  | Some check => (CheckMachine.Snapshot check, m)
  | None =>
      let check := NewCheckMachine (cq_CheckID (qm_state m)) probeID in
      let m1 := set_checks (<[probeID := check]> (qm_checks m)) m in
      (CheckMachine.Snapshot check, (Recompute m1).2)
  end.

(** The body the four routing methods share: find the child, let it take the
    event, recompute, and return the combined update. *)
Definition route (probeID : string) (op : St CheckExecState CheckTransition)
    : St QuorumMachine CheckUpdate := fun m =>
  match qm_checks m !! probeID with
  | None => (inl ErrUnknownCheckAssignment, m)
  | Some check =>
      let '(res, check') := op check in
      let m1 := set_checks (<[probeID := check']> (qm_checks m)) m in
      match res with
      | inl e => (inl e, m1)
      | inr checkTransition =>
          let '(quorumTransition, m2) := Recompute m1 in
          (inr (MkCheckUpdate checkTransition quorumTransition (Snapshot m2)), m2)
      end
  end.

Section machine.
Context `{SL : Stateless}.

Definition ObserveUp (probeID : string) (at_ : Time) (expiresAt : option Time)
    : St QuorumMachine CheckUpdate :=
  route probeID (CheckMachine.ObserveUp at_ expiresAt).

Definition ObserveDown (probeID : string) (at_ : Time) (expiresAt : option Time) (message : string)
    : St QuorumMachine CheckUpdate :=
  route probeID (CheckMachine.ObserveDown at_ expiresAt message).

Definition LoseEvidence (probeID : string) : St QuorumMachine CheckUpdate :=
  route probeID CheckMachine.LoseEvidence.

Definition MarkCheckError (probeID message : string) : St QuorumMachine CheckUpdate :=
  route probeID (CheckMachine.MarkError message).
End machine.

(** * Specification of the vote *)

Definition votes (v : CheckState) (current : CheckQuorumState)
    (checks : gmap string CheckExecState) : nat :=
  size (filter (fun kc : string * CheckExecState => quorumContribution kc.2 current = v) checks).

(** Strictly more than half of the assigned probes cast the vote. *)
Definition majority (v : CheckState) (m : QuorumMachine) : Prop :=
  size (qm_checks m) < 2 * votes v (qm_state m) (qm_checks m).

#[global] Instance majority_dec v m : Decision (majority v m).
Proof. unfold majority. apply _. Defined.

(** The aggregate state the votes justify. *)
Definition voted_state (m : QuorumMachine) : QuorumState :=
  if bool_decide (majority CheckStateUp m) then QuorumStateUp
  else if bool_decide (majority CheckStateDown m) then QuorumStateDown
  else if cq_LastStableState (qm_state m) == "" then QuorumStatePending
  else QuorumStateError.

(** The stable state after a vote [s]: a stable vote is adopted when it repeats
    the previous aggregate state or the current stable state. *)
Definition promoted (cur : CheckQuorumState) (s : QuorumState) : QuorumState :=
  if isStableQuorumState s && ((cq_LastStableState cur == s) || (cq_State cur == s))
  then s else cq_LastStableState cur.

(** The incident flag after the stable state moved. *)
Definition incident_after (cur : CheckQuorumState) (stable : QuorumState) : bool :=
  if (cq_LastStableState cur == QuorumStateUp) && (stable == QuorumStateDown) then true
  else if (cq_LastStableState cur == QuorumStateDown) && (stable == QuorumStateUp) then false
  else cq_IncidentOpen cur.

Definition next_state (m : QuorumMachine) : CheckQuorumState :=
  let cur := qm_state m in
  let s := voted_state m in
  MkCheckQuorumState (cq_CheckID cur) s (promoted cur s) (incident_after cur (promoted cur s)).

(** * Counting *)

Lemma votes_empty v cur : votes v cur ∅ = 0.
Proof. unfold votes. by rewrite map_filter_empty, map_size_empty. Qed.

Lemma votes_insert_new v cur checks k c :
  checks !! k = None ->
  votes v cur (<[k := c]> checks) =
  votes v cur checks + (if quorumContribution c cur == v then 1 else 0).
Proof.
  intros Hk. unfold votes. rewrite map_filter_insert. simpl.
  case_bool_decide as Hv.
  - rewrite decide_True by done. rewrite map_size_insert_None; [lia|].
    apply map_lookup_filter_None. left. done.
  - rewrite decide_False by done. rewrite map_filter_delete.
    rewrite delete_id; [lia|]. apply map_lookup_filter_None. left. done.
Qed.

Lemma votes_delete v cur checks k c :
  checks !! k = Some c ->
  votes v cur checks =
  votes v cur (delete k checks) + (if quorumContribution c cur == v then 1 else 0).
Proof.
  intros Hk. rewrite <-(insert_delete_id checks k c Hk) at 1.
  apply votes_insert_new, lookup_delete_eq.
Qed.

Lemma votes_le_size v cur checks : votes v cur checks <= size checks.
Proof.
  induction checks as [|k c checks Hk IH] using map_ind; [by rewrite votes_empty|].
  rewrite votes_insert_new, map_size_insert_None by done. case_bool_decide; lia.
Qed.

(** A child casts one vote. *)
Lemma votes_disjoint cur checks :
  votes CheckStateUp cur checks + votes CheckStateDown cur checks <= size checks.
Proof.
  induction checks as [|k c checks Hk IH] using map_ind; [by rewrite !votes_empty|].
  rewrite !votes_insert_new, map_size_insert_None by done.
  repeat case_bool_decide; try lia. enum_congruence.
Qed.

Lemma tally_votes cur checks :
  tally cur checks =
  (Z.of_nat (votes CheckStateUp cur checks), Z.of_nat (votes CheckStateDown cur checks)).
Proof.
  unfold tally.
  apply (map_fold_weak_ind (fun r m =>
    r = (Z.of_nat (votes CheckStateUp cur m), Z.of_nat (votes CheckStateDown cur m)))).
  - by rewrite !votes_empty.
  - intros k c m r Hk ->. unfold CheckMachine.Snapshot.
    rewrite !votes_insert_new by done. repeat case_bool_decide; try enum_congruence;
      f_equal; lia.
Qed.

Lemma majority_exclusive m : majority CheckStateUp m -> ~ majority CheckStateDown m.
Proof.
  unfold majority. pose proof (votes_disjoint (qm_state m) (qm_checks m)). lia.
Qed.

Lemma threshold_majority n v :
  v <= n -> ((0 <? Z.of_nat n) && (quorumThreshold (Z.of_nat n) <=? Z.of_nat v))%Z =
            bool_decide (n < 2 * v).
Proof.
  intros Hv. unfold quorumThreshold. rewrite Z.quot_div_nonneg by lia.
  pose proof (Z.div_mod (Z.of_nat n) 2). pose proof (Z.mod_pos_bound (Z.of_nat n) 2).
  destruct (Z.ltb_spec 0 (Z.of_nat n)), (Z.leb_spec (Z.of_nat n / 2 + 1) (Z.of_nat v));
    simpl; symmetry; [apply bool_decide_eq_true_2|apply bool_decide_eq_false_2..]; lia.
Qed.

(** [Recompute] is the vote specification. *)
Lemma Recompute_next m :
  (Recompute m).2 = set_state (next_state m) m /\
  (Recompute m).1 = MkQuorumTransition (cq_State (qm_state m)) (cq_State (next_state m))
                      (cq_LastStableState (next_state m)).
Proof.
  unfold Recompute. rewrite tally_votes.
  rewrite !threshold_majority by apply votes_le_size. split; reflexivity.
Qed.

Lemma Recompute_snd m : (Recompute m).2 = set_state (next_state m) m.
Proof. apply Recompute_next. Qed.

(** * Invariant *)

(** The aggregate state is one of the four; the stable state is unset or one of
    the two stable ones; an incident is open only while the stable state is
    down; "pending" is exactly the unresolved state before any stable one. *)
Definition quorum_state_wf (s : CheckQuorumState) : Prop :=
  (cq_State s = QuorumStatePending \/ cq_State s = QuorumStateUp \/
   cq_State s = QuorumStateDown \/ cq_State s = QuorumStateError) /\
  (cq_LastStableState s = "" \/ cq_LastStableState s = QuorumStateUp \/
   cq_LastStableState s = QuorumStateDown) /\
  (cq_IncidentOpen s = true -> cq_LastStableState s = QuorumStateDown) /\
  (cq_State s = QuorumStatePending -> cq_LastStableState s = "") /\
  (cq_State s = QuorumStateError -> cq_LastStableState s <> "").

Definition child_wf (checkID probeID : string) (c : CheckExecState) : Prop :=
  ce_CheckID c = checkID /\ ce_ProbeID c = probeID /\ check_wf c.

Definition quorum_wf (checkID : string) (m : QuorumMachine) : Prop :=
  cq_CheckID (qm_state m) = checkID /\
  quorum_state_wf (qm_state m) /\
  map_Forall (child_wf checkID) (qm_checks m).

Lemma new_child_wf checkID probeID : child_wf checkID probeID (NewCheckMachine checkID probeID).
Proof. split_and!; [done|done|apply NewCheckMachine_wf]. Qed.

Lemma voted_state_cases m :
  (voted_state m = QuorumStateUp /\ majority CheckStateUp m) \/
  (voted_state m = QuorumStateDown /\ majority CheckStateDown m) \/
  (voted_state m = QuorumStatePending /\ cq_LastStableState (qm_state m) = "") \/
  (voted_state m = QuorumStateError /\ cq_LastStableState (qm_state m) <> "").
Proof. unfold voted_state. repeat case_bool_decide; auto. Qed.

(** The stable state moves only to a vote that repeats the previous one. *)
Lemma promoted_cases cur s :
  promoted cur s = cq_LastStableState cur \/
  (promoted cur s = s /\ cq_State cur = s /\ cq_LastStableState cur <> s /\
   (s = QuorumStateUp \/ s = QuorumStateDown)).
Proof.
  unfold promoted, isStableQuorumState.
  destruct (decide (cq_LastStableState cur = s)) as [->|Hne];
    repeat case_bool_decide; simpl; auto; naive_solver.
Qed.

Lemma next_state_wf m : quorum_state_wf (qm_state m) -> quorum_state_wf (next_state m).
Proof.
  intros (_ & HL & HO & _ & _). unfold quorum_state_wf, next_state; simpl.
  assert (HL' : promoted (qm_state m) (voted_state m) = "" \/
    promoted (qm_state m) (voted_state m) = QuorumStateUp \/
    promoted (qm_state m) (voted_state m) = QuorumStateDown).
  { destruct (promoted_cases (qm_state m) (voted_state m)) as [->|(-> & _ & _ & ?)]; tauto. }
  split_and!; [|exact HL'| | |].
  - destruct (voted_state_cases m) as [[-> _]|[[-> _]|[[-> _]|[-> _]]]]; auto.
  - unfold incident_after. intros Hi.
    destruct HL' as [E|[E|E]]; rewrite E in *; repeat case_bool_decide; simpl in *;
      try done; specialize (HO Hi); simplify_eq;
      destruct (promoted_cases (qm_state m) (voted_state m)) as [Hp|(Hp & _ & _ & [Hs|Hs])];
      rewrite Hp in E; enum_congruence.
  - intros Hv. rewrite Hv. unfold promoted. simpl.
    destruct (voted_state_cases m) as [[? _]|[[? _]|[[? ?]|[? ?]]]]; [enum_congruence..|done|enum_congruence].
  - intros Hv. rewrite Hv. unfold promoted. simpl.
    destruct (voted_state_cases m) as [[? _]|[[? _]|[[? ?]|[? ?]]]]; [enum_congruence..|done].
Qed.

Lemma Recompute_wf checkID m : quorum_wf checkID m -> quorum_wf checkID (Recompute m).2.
Proof.
  intros (Hid & Hs & Hc). rewrite Recompute_snd.
  split_and!; [done | by apply next_state_wf | done].
Qed.

Lemma NewQuorumMachine_wf checkID probeIDs :
  quorum_wf checkID (NewQuorumMachine checkID probeIDs).
Proof.
  split_and!; [done | |].
  - unfold quorum_state_wf. simpl. naive_solver.
  - simpl. generalize (uniqueIDs probeIDs) as ids.
    assert (map_Forall (child_wf checkID) ∅) as H by apply map_Forall_empty.
    intros ids. revert H. generalize (∅ : gmap string CheckExecState) as cs.
    induction ids as [|p ids IH]; intros cs Hcs; [done|]. simpl. apply IH.
    apply map_Forall_insert_2; [|done]. apply new_child_wf.
Qed.

(** * Effects of the operations on well-formed machines *)

(** [AddProbe] when the probe is new, and what an event to a child does. *)
Definition add_effect (probeID : string) (m : QuorumMachine) : QuorumMachine :=
  let m1 := set_checks
    (<[probeID := NewCheckMachine (cq_CheckID (qm_state m)) probeID]> (qm_checks m)) m in
  set_state (next_state m1) m1.

Definition child_effect (probeID : string) (ev : CheckEvent) (c : CheckExecState)
    (m : QuorumMachine) : QuorumMachine :=
  let m1 := set_checks (<[probeID := event_effect ev c]> (qm_checks m)) m in
  set_state (next_state m1) m1.

Lemma AddProbe_effect probeID m :
  (AddProbe probeID m).2 =
  match qm_checks m !! probeID with Some _ => m | None => add_effect probeID m end.
Proof.
  unfold AddProbe. destruct (qm_checks m !! probeID); [done|]. simpl. apply Recompute_snd.
Qed.

Lemma AddProbe_wf checkID probeID m :
  quorum_wf checkID m -> quorum_wf checkID (AddProbe probeID m).2.
Proof.
  intros Hwf. rewrite AddProbe_effect. destruct (qm_checks m !! probeID); [done|].
  unfold add_effect. rewrite <-Recompute_snd. apply Recompute_wf.
  destruct Hwf as (Hid & Hs & Hc). split_and!; [done|done|].
  apply map_Forall_insert_2; [|done]. rewrite Hid. apply new_child_wf.
Qed.

Lemma child_effect_wf checkID probeID ev c m :
  quorum_wf checkID m -> qm_checks m !! probeID = Some c ->
  quorum_wf checkID (child_effect probeID ev c m).
Proof.
  intros (Hid & Hs & Hc) Hl. unfold child_effect. rewrite <-Recompute_snd. apply Recompute_wf.
  destruct (Hc _ _ Hl) as (Hc1 & Hc2 & Hc3).
  split_and!; [done|done|]. apply map_Forall_insert_2; [|done].
  unfold child_wf. destruct (event_effect_ids ev c) as [-> ->].
  split_and!; [done|done|by apply event_effect_wf].
Qed.

Section laws.
Context `{SLL : StatelessLaws}.

Lemma route_event probeID ev m c :
  qm_checks m !! probeID = Some c -> valid_check_state (ce_State c) ->
  exists tr, route probeID (check_event ev) m =
    (inr (MkCheckUpdate tr
            (MkQuorumTransition (cq_State (qm_state m))
               (cq_State (qm_state (child_effect probeID ev c m)))
               (cq_LastStableState (qm_state (child_effect probeID ev c m))))
            (qm_state (child_effect probeID ev c m))),
     child_effect probeID ev c m) /\
    ct_From tr = ce_State c /\ ct_To tr = ce_State (event_effect ev c).
Proof.
  intros Hl Hv. destruct (check_event_valid ev c Hv) as (tr & Htr & Hf & Ht).
  exists tr. split; [|done]. unfold route. rewrite Hl, Htr.
  set (m1 := set_checks _ m). destruct (Recompute_next m1) as [H2 H1].
  destruct (Recompute m1) as [qt m2]. simpl in *. subst. done.
Qed.

Lemma route_unknown probeID op m :
  qm_checks m !! probeID = None -> route probeID op m = (inl ErrUnknownCheckAssignment, m).
Proof. intros Hl. unfold route. by rewrite Hl. Qed.
End laws.

(** * Incident flag over one or two recomputes *)

Lemma incident_after_same cur : incident_after cur (cq_LastStableState cur) = cq_IncidentOpen cur.
Proof. unfold incident_after. repeat case_bool_decide; simpl; try done; enum_congruence. Qed.

(** After the stable state moved it cannot move again at the next recompute. *)
Lemma stable_moves_once m1 m2 :
  qm_state m2 = next_state m1 ->
  cq_LastStableState (next_state m1) <> cq_LastStableState (qm_state m1) ->
  cq_LastStableState (next_state m2) = cq_LastStableState (next_state m1).
Proof.
  intros Hs Hne. simpl in *.
  destruct (promoted_cases (qm_state m1) (voted_state m1)) as [Hp|(Hp & _)]; [done|].
  destruct (promoted_cases (qm_state m2) (voted_state m2)) as [Hq|(Hq & Hq2 & _)];
    rewrite Hq, Hs in *; simpl in *; [done|]. congruence.
Qed.

(** So one comparison of stable states spans two recomputes. *)
Lemma incident_two_steps m1 m2 :
  qm_state m2 = next_state m1 ->
  cq_IncidentOpen (next_state m2) =
  incident_after (qm_state m1) (cq_LastStableState (next_state m2)).
Proof.
  intros Hs.
  change (cq_IncidentOpen (next_state m2)) with
    (incident_after (qm_state m2) (cq_LastStableState (next_state m2))).
  destruct (decide (cq_LastStableState (next_state m1) = cq_LastStableState (qm_state m1))) as [He|Hne].
  - assert (Ho : cq_IncidentOpen (next_state m1) = cq_IncidentOpen (qm_state m1)).
    { change (cq_IncidentOpen (next_state m1)) with
        (incident_after (qm_state m1) (cq_LastStableState (next_state m1))).
      rewrite He. apply incident_after_same. }
    generalize (cq_LastStableState (next_state m2)) as L. intros L.
    unfold incident_after. by rewrite Hs, He, Ho.
  - rewrite (stable_moves_once m1 m2 Hs Hne), Hs. apply incident_after_same.
Qed.

(** * Evidence behind a vote *)

(** The assigned probes whose last two results had outcome [o]. *)
Definition confirmed (o : CheckState) (m : QuorumMachine) : gmap string CheckExecState :=
  filter (fun kc : string * CheckExecState =>
    ce_LastOutcome kc.2 = o /\ (2 <= ce_StreakLen kc.2)%Z) (qm_checks m).

Lemma contribution_down c cur :
  quorumContribution c cur = CheckStateDown <->
  ce_LastOutcome c = CheckStateDown /\ (2 <= ce_StreakLen c)%Z.
Proof.
  unfold quorumContribution, consecutiveEvidenceThreshold.
  case_bool_decide as Hd.
  - destruct (Z.leb_spec 2 (ce_StreakLen c)); split; intros; first [done | enum_congruence | lia].
  - split; [|intros [? _]; enum_congruence].
    intros H. exfalso. revert H. case_bool_decide; [|enum_congruence].
    repeat case_match; enum_congruence.
Qed.

Lemma contribution_up c cur :
  quorumContribution c cur = CheckStateUp <->
  ce_LastOutcome c = CheckStateUp /\ ce_LastResultAt c <> zeroTime /\
  (cq_IncidentOpen cur = true -> (2 <= ce_StreakLen c)%Z).
Proof.
  unfold quorumContribution, consecutiveEvidenceThreshold, IsZero, zeroTime.
  case_bool_decide as Hd.
  { destruct (2 <=? ce_StreakLen c)%Z; split; intros; enum_congruence || (destruct_and!; enum_congruence). }
  case_bool_decide as Hu; [|split; intros; enum_congruence || (destruct_and!; enum_congruence)].
  destruct (cq_IncidentOpen cur), (Z.ltb_spec (ce_StreakLen c) 2), (Z.eqb_spec (ce_LastResultAt c) 0);
    simpl; split; intros H'; try enum_congruence; try done;
    destruct H' as (? & ? & H'); try done; specialize (H' eq_refl); lia.
Qed.

Lemma votes_confirmed_down m :
  votes CheckStateDown (qm_state m) (qm_checks m) = size (confirmed CheckStateDown m).
Proof.
  unfold votes, confirmed. f_equal. apply map_filter_ext. intros k c _. apply contribution_down.
Qed.

Lemma votes_up_confirmed m :
  cq_IncidentOpen (qm_state m) = true ->
  votes CheckStateUp (qm_state m) (qm_checks m) <= size (confirmed CheckStateUp m).
Proof.
  intros Ho. unfold votes, confirmed. apply map_subseteq_size, map_filter_subseteq_ext.
  intros k c _. rewrite contribution_up. naive_solver.
Qed.

Lemma majority_down_confirmed m :
  majority CheckStateDown m <-> size (qm_checks m) < 2 * size (confirmed CheckStateDown m).
Proof. unfold majority. by rewrite votes_confirmed_down. Qed.

Lemma majority_down_voted m : majority CheckStateDown m -> voted_state m = QuorumStateDown.
Proof.
  intros Hd. unfold voted_state.
  rewrite bool_decide_eq_false_2 by (intros Hu; by apply (majority_exclusive m)).
  by rewrite bool_decide_eq_true_2.
Qed.

(** An open incident whenever the check has been stable at all: kept by every
    recompute from a stable up. *)
Definition tracked (cur : CheckQuorumState) : Prop :=
  cq_LastStableState cur = QuorumStateUp \/
  (cq_LastStableState cur = QuorumStateDown /\ cq_IncidentOpen cur = true).

Lemma tracked_next m : tracked (qm_state m) -> tracked (next_state m).
Proof.
  unfold tracked, next_state, incident_after. simpl.
  destruct (promoted_cases (qm_state m) (voted_state m)) as [->|(-> & _ & _ & [->| ->])];
    intros [H|[H Ho]]; rewrite ?H, ?Ho; auto.
Qed.

(** * Sequences of failing results *)

(** One failing result: probe, time, deadline, message. *)
Definition down_report : Type := string * Time * option Time * string.
Definition report_probe (r : down_report) : string := r.1.1.1.

Definition observe_down `{SL : Stateless} (r : down_report) : St QuorumMachine CheckUpdate :=
  let '(p, t, e, msg) := r in ObserveDown p t e msg.

Fixpoint observe_downs `{SL : Stateless} (rs : list down_report) : St QuorumMachine unit :=
  match rs with
  | [] => mret tt
  | r :: rs => _ ← observe_down r; observe_downs rs
  end.

Definition reports_of (p : string) (rs : list down_report) : nat :=
  length (filter (fun r => report_probe r = p) rs).

Lemma reports_of_cons p r rs :
  reports_of p (r :: rs) = (if decide (report_probe r = p) then 1 else 0) + reports_of p rs.
Proof. unfold reports_of. rewrite filter_cons. by case_decide. Qed.

(** The streak of downs a child has to build on. *)
Definition down_streak (c : CheckExecState) : Z :=
  if ce_LastOutcome c == CheckStateDown then ce_StreakLen c else 0.

Definition room_for (n : nat) (m : QuorumMachine) : Prop :=
  map_Forall (fun _ c => (0 <= ce_StreakLen c /\ ce_StreakLen c + Z.of_nat n <= int64_max)%Z)
    (qm_checks m).

Section outage.
Context `{SLL : StatelessLaws}.

Lemma observe_down_step checkID r m c :
  quorum_wf checkID m -> qm_checks m !! report_probe r = Some c ->
  exists u, observe_down r m =
    (inr u, child_effect (report_probe r) (EvDown r.1.1.2 r.1.2 r.2) c m).
Proof.
  intros (_ & _ & Hc) Hl. destruct r as [[[p t] e] msg]. simpl in *.
  destruct (Hc _ _ Hl) as (_ & _ & Hcw).
  destruct (route_event p (EvDown t e msg) m c Hl (check_wf_state_valid _ Hcw)) as (tr & Hroute & _).
  eexists. exact Hroute.
Qed.

(** One failing result of an assigned probe: only that child changes, and its
    streak of downs grows by one. *)
Lemma observe_down_one checkID n r m c :
  quorum_wf checkID m -> qm_checks m !! report_probe r = Some c ->
  room_for (S n) m -> tracked (qm_state m) ->
  exists u m' c', observe_down r m = (inr u, m') /\ quorum_wf checkID m' /\ room_for n m' /\
    tracked (qm_state m') /\
    (forall p, qm_checks m' !! p =
       if decide (report_probe r = p) then Some c' else qm_checks m !! p) /\
    ce_LastOutcome c' = CheckStateDown /\ ce_StreakLen c' = (down_streak c + 1)%Z.
Proof.
  intros Hwf Hc Hroom Htr.
  destruct (observe_down_step checkID r m c Hwf Hc) as [u Hu].
  set (ev := EvDown r.1.1.2 r.1.2 r.2) in *. set (q := report_probe r) in *.
  exists u, (child_effect q ev c m), (event_effect ev c).
  assert (Hlook : forall p, qm_checks (child_effect q ev c m) !! p =
    if decide (q = p) then Some (event_effect ev c) else qm_checks m !! p).
  { intros p. simpl. by rewrite lookup_insert. }
  pose proof (Hroom _ _ Hc) as Hrc. simpl in Hrc. unfold int64_max in Hrc.
  assert (Hst : ce_StreakLen (event_effect ev c) = (down_streak c + 1)%Z).
  { rewrite event_effect_streak. unfold down_streak. simpl.
    case_bool_decide; [|lia]. apply wrap64_id. lia. }
  split_and!; [done | by apply child_effect_wf | | by apply tracked_next | done | done | done].
  intros p c' Hp. rewrite Hlook in Hp. unfold int64_max. case_decide; simplify_eq.
  - rewrite Hst. unfold down_streak. case_bool_decide; lia.
  - specialize (Hroom _ _ Hp). simpl in Hroom. unfold int64_max in Hroom. lia.
Qed.

(** What a run of failing results does to one child. *)
Definition run_effect (rs : list down_report) (p : string) (c c' : CheckExecState) : Prop :=
  (reports_of p rs = 0 /\ c' = c) \/
  (ce_LastOutcome c' = CheckStateDown /\
   ce_StreakLen c' = (down_streak c + Z.of_nat (reports_of p rs))%Z).

(** Running failing results of assigned probes never fails; it keeps the
    invariant and the tracking, and adds to each child's streak of downs the
    number of its reports. *)
Lemma observe_downs_run checkID rs : forall m,
  quorum_wf checkID m -> Forall (fun r => is_Some (qm_checks m !! report_probe r)) rs ->
  room_for (length rs) m -> tracked (qm_state m) ->
  exists m', observe_downs rs m = (inr tt, m') /\ quorum_wf checkID m' /\
    dom (qm_checks m') = dom (qm_checks m) /\ room_for 0 m' /\ tracked (qm_state m') /\
    forall p c, qm_checks m !! p = Some c ->
      exists c', qm_checks m' !! p = Some c' /\ run_effect rs p c c'.
Proof.
  induction rs as [|r rs IH]; intros m Hwf Hrs Hroom Htr.
  { exists m. split_and!; try done. intros p c Hc. exists c. split; [done|]. by left. }
  apply Forall_cons_1 in Hrs as [[c Hc] Hrs].
  destruct (observe_down_one checkID (length rs) r m c)
    as (u & m1 & c1 & Hu & Hwf1 & Hroom1 & Htr1 & Hlook & Ho1 & Hn1); [done..|].
  destruct (IH m1) as (m' & Hm' & Hwf' & Hdom & Hroom' & Htr' & Hp); [done| |done|done|].
  { eapply Forall_impl; [|exact Hrs]. intros r' Hr'. rewrite Hlook. case_decide; [by eexists|done]. }
  exists m'. simpl. unfold mbind, St_bind. rewrite Hu, Hm'. split_and!; try done.
  { rewrite Hdom. apply set_eq. intros p. rewrite !elem_of_dom, Hlook.
    case_decide as Hq; [subst p; rewrite Hc; split; by eauto|done]. }
  intros p c0 Hc0. unfold run_effect. rewrite reports_of_cons.
  destruct (decide (report_probe r = p)) as [<-|Hne].
  - rewrite Hc in Hc0. injection Hc0 as <-.
    destruct (Hp (report_probe r) c1) as (c' & Hc' & Hor); [by rewrite Hlook, decide_True|].
    exists c'. split; [done|]. right. destruct Hor as [[Hz ->]|[Ho Hs]].
    + rewrite Hn1, Hz. done.
    + split; [done|]. rewrite Hs. unfold down_streak at 1.
      rewrite bool_decide_eq_true_2 by done. lia.
  - apply Hp. by rewrite Hlook, decide_False.
Qed.

(** Two reports of every probe of a set confirm each of them down. *)
Lemma observe_downs_confirmed checkID rs m m' (D : gset string) :
  quorum_wf checkID m -> Forall (fun r => is_Some (qm_checks m !! report_probe r)) rs ->
  room_for (length rs) m -> tracked (qm_state m) -> observe_downs rs m = (inr tt, m') ->
  D ⊆ dom (qm_checks m) -> size (qm_checks m) < 2 * size D ->
  (forall p, p ∈ D -> 2 <= reports_of p rs) ->
  majority CheckStateDown m'.
Proof.
  intros Hwf Hrs Hroom Htr Hrun HD Hmaj Htwice.
  destruct (observe_downs_run checkID rs m) as (m0 & Hm0 & _ & Hdom & _ & _ & Hp); [done..|].
  rewrite Hrun in Hm0. injection Hm0 as <-.
  apply majority_down_confirmed.
  assert (HDc : D ⊆ dom (confirmed CheckStateDown m')).
  { intros p Hpd. pose proof (HD p Hpd) as [c Hc]%elem_of_dom.
    destruct (Hp p c Hc) as (c' & Hc' & Heff). apply elem_of_dom. exists c'.
    apply map_lookup_filter_Some. split; [done|]. simpl. specialize (Htwice p Hpd).
    pose proof (Hroom _ _ Hc) as Hrc. simpl in Hrc.
    destruct Heff as [[? _]|[Ho Hs]]; [lia|]. split; [done|]. rewrite Hs.
    unfold down_streak. case_bool_decide; lia. }
  apply subseteq_size in HDc. rewrite !size_dom in *.
  assert (size (qm_checks m') = size (qm_checks m)) as ->.
  { rewrite <-!size_dom. by rewrite Hdom. }
  lia.
Qed.

Lemma observe_downs_app rs rs' m m1 :
  observe_downs rs m = (inr tt, m1) -> observe_downs (rs ++ rs') m = observe_downs rs' m1.
Proof.
  revert m. induction rs as [|r rs IH]; intros m; simpl; [intros Hr; by injection Hr as ->|].
  unfold mbind, St_bind. destruct (observe_down r m) as [[e|u] m2]; [done|]. apply IH.
Qed.

(** A failing result after which a majority is confirmed down leaves the
    aggregate down, and the second such result in a row makes down stable. *)
Lemma observe_down_settles checkID r m m' :
  quorum_wf checkID m -> is_Some (qm_checks m !! report_probe r) ->
  observe_downs [r] m = (inr tt, m') -> majority CheckStateDown m' ->
  cq_State (qm_state m') = QuorumStateDown /\
  (cq_State (qm_state m) = QuorumStateDown -> cq_LastStableState (qm_state m') = QuorumStateDown).
Proof.
  intros Hwf [c Hc] Hrun Hmaj.
  destruct (observe_down_step checkID r m c Hwf Hc) as [u Hu].
  simpl in Hrun. unfold mbind, St_bind in Hrun. rewrite Hu in Hrun. injection Hrun as <-.
  assert (Hv : forall m0, qm_checks m0 = qm_checks (child_effect (report_probe r)
      (EvDown r.1.1.2 r.1.2 r.2) c m) -> voted_state m0 = QuorumStateDown).
  { intros m0 Hm0. apply majority_down_voted. apply majority_down_confirmed.
    apply majority_down_confirmed in Hmaj. unfold confirmed in *. by rewrite Hm0. }
  split; [by apply Hv|]. intros Hs. simpl. rewrite Hv by done.
  unfold promoted. simpl. rewrite Hs. rewrite (bool_decide_eq_true_2 (QuorumStateDown = _)) by done.
  by rewrite orb_true_r.
Qed.

Lemma reports_of_app p rs rs' : reports_of p (rs ++ rs') = reports_of p rs + reports_of p rs'.
Proof. unfold reports_of. by rewrite list.filter_app, length_app. Qed.
End outage.

(** * uniqueIDs against a reference *)

(** Keep the first occurrence of every non-empty ID. *)
Fixpoint first_occurrences (ids : list string) : list string :=
  match ids with
  | [] => []
  | id :: ids =>
      if id == "" then first_occurrences ids
      else id :: filter (fun x => x <> id) (first_occurrences ids)
  end.

Lemma filter_filter_and {A} (P Q : A -> Prop) `{!forall x, Decision (P x)} `{!forall x, Decision (Q x)}
    (l : list A) : filter P (filter Q l) = filter (fun x => P x /\ Q x) l.
Proof.
  induction l as [|x l IH]; [done|]. rewrite (filter_cons Q), (filter_cons (fun x => P x /\ Q x)).
  destruct (decide (Q x)) as [Hq|Hq].
  - rewrite filter_cons. destruct (decide (P x)).
    + rewrite decide_True by done. by rewrite IH.
    + rewrite decide_False by tauto. done.
  - rewrite decide_False by tauto. done.
Qed.

Lemma list_filter_ext {A} (P Q : A -> Prop) `{!forall x, Decision (P x)} `{!forall x, Decision (Q x)}
    (l : list A) : (forall x, x ∈ l -> P x <-> Q x) -> filter P l = filter Q l.
Proof.
  intros HPQ. induction l as [|x l IH]; [done|]. rewrite !filter_cons.
  rewrite IH by (intros; apply HPQ; set_solver).
  pose proof (HPQ x ltac:(set_solver)). destruct (decide (P x)), (decide (Q x)); tauto || done.
Qed.

Lemma uniqueIDs_loop_spec seen out ids :
  uniqueIDs_loop seen out ids =
  out ++ filter (fun x => x ∉ seen) (first_occurrences ids).
Proof.
  revert seen out. induction ids as [|id ids IH]; intros seen out; simpl; [by rewrite app_nil_r|].
  case_bool_decide as He; [apply IH|].
  rewrite filter_cons. case_bool_decide as Hs.
  - rewrite decide_False by tauto. rewrite IH, filter_filter_and. f_equal.
    apply list_filter_ext. set_solver.
  - rewrite decide_True by done. rewrite IH, filter_filter_and, <-app_assoc. simpl.
    do 2 f_equal. apply list_filter_ext. set_solver.
Qed.

Lemma uniqueIDs_eq ids : uniqueIDs ids = first_occurrences ids.
Proof.
  unfold uniqueIDs. rewrite uniqueIDs_loop_spec. simpl.
  rewrite (list_filter_ext _ (fun _ => True)) by set_solver.
  induction (first_occurrences ids); [done|]. rewrite filter_cons. simpl. by f_equal.
Qed.

Lemma elem_of_uniqueIDs x ids : x ∈ uniqueIDs ids <-> x ∈ ids /\ x <> "".
Proof.
  rewrite uniqueIDs_eq. induction ids as [|id ids IH]; simpl; [set_solver|].
  case_bool_decide; [rewrite IH; set_solver|].
  rewrite elem_of_cons, list_elem_of_filter, IH, elem_of_cons.
  destruct (decide (x = id)); set_solver.
Qed.

Lemma NoDup_uniqueIDs ids : NoDup (uniqueIDs ids).
Proof.
  rewrite uniqueIDs_eq. induction ids as [|id ids IH]; simpl; [constructor|].
  case_bool_decide; [done|]. constructor; [|by apply list.NoDup_filter].
  rewrite list_elem_of_filter. tauto.
Qed.

(** * Properties *)

(** [Recompute] is a strict-majority vote.  The aggregate state becomes up
    (down) exactly when strictly more than half of the assigned probes cast an up
    (down) vote; without a majority it is pending until a first stable state
    exists and error afterwards.  The two majorities exclude each other, the
    children are untouched, and the returned transition reports the new state. *)
Lemma recompute_is_strict_majority m :
  let m' := (Recompute m).2 in
  qm_checks m' = qm_checks m /\
  (cq_State (qm_state m') = QuorumStateUp <-> majority CheckStateUp m) /\
  (cq_State (qm_state m') = QuorumStateDown <-> majority CheckStateDown m) /\
  (cq_State (qm_state m') = QuorumStatePending <->
     ~ majority CheckStateUp m /\ ~ majority CheckStateDown m /\
     cq_LastStableState (qm_state m) = "") /\
  (cq_State (qm_state m') = QuorumStateError <->
     ~ majority CheckStateUp m /\ ~ majority CheckStateDown m /\
     cq_LastStableState (qm_state m) <> "") /\
  (Recompute m).1 = MkQuorumTransition (cq_State (qm_state m)) (cq_State (qm_state m'))
                      (cq_LastStableState (qm_state m')).
Proof.
  destruct (Recompute_next m) as [H2 H1]. cbv zeta. rewrite H1, H2. simpl.
  pose proof (majority_exclusive m) as Hx.
  unfold voted_state. repeat case_bool_decide; split_and!; try done;
    split; intros; try done; try tauto; enum_congruence.
Qed.

(** C5. An incident never opens or closes on thin evidence.  A recompute sets the
    incident flag only when the stable state was up, the previous aggregate was
    already down, and strictly more than half of the assigned probes have a down
    as each of their last two results; it clears the flag only when the previous
    aggregate was already up and strictly more than half of the assigned probes
    have an up as each of their last two results. *)
Theorem incident_needs_confirmed_majority m :
  quorum_state_wf (qm_state m) ->
  let m' := (Recompute m).2 in
  (cq_IncidentOpen (qm_state m) = false -> cq_IncidentOpen (qm_state m') = true ->
     cq_LastStableState (qm_state m) = QuorumStateUp /\
     cq_State (qm_state m) = QuorumStateDown /\
     cq_LastStableState (qm_state m') = QuorumStateDown /\
     size (qm_checks m) < 2 * size (confirmed CheckStateDown m)) /\
  (cq_IncidentOpen (qm_state m) = true -> cq_IncidentOpen (qm_state m') = false ->
     cq_LastStableState (qm_state m) = QuorumStateDown /\
     cq_State (qm_state m) = QuorumStateUp /\
     cq_LastStableState (qm_state m') = QuorumStateUp /\
     size (qm_checks m) < 2 * size (confirmed CheckStateUp m)).
Proof.
  intros (_ & _ & HO & _). cbv zeta. rewrite Recompute_snd. simpl. unfold incident_after.
  pose proof (voted_state_cases m) as Hv.
  pose proof (votes_up_confirmed m) as Hup.
  destruct (promoted_cases (qm_state m) (voted_state m)) as [Hp|(Hp & Hs & Hne & Hud)];
    rewrite Hp; split; intros Hb; rewrite Hb in *;
    repeat case_bool_decide; simpl; intros; try enum_congruence;
    destruct Hv as [[Hv Hm]|[[Hv Hm]|[[Hv _]|[Hv _]]]]; try enum_congruence;
    split_and!; try congruence.
  - by apply majority_down_confirmed.
  - unfold majority in Hm. specialize (Hup eq_refl). lia.
Qed.

Section properties.
Context `{SLL : StatelessLaws}.

(** C6. A real outage opens an incident.  From a stable up, once every probe of
    a strict majority of the assigned probes has reported down twice, in any
    interleaving with further failing results of assigned probes, two more
    failing results make the stable state down with the incident open; no call
    fails on the way.  (Streak counters must have room for the results: they are
    64-bit.) *)
Theorem outage_opens_incident checkID m rs r1 r2 (D : gset string) :
  quorum_wf checkID m -> cq_LastStableState (qm_state m) = QuorumStateUp ->
  Forall (fun r => is_Some (qm_checks m !! report_probe r)) (rs ++ [r1; r2]) ->
  room_for (length rs + 2) m ->
  D ⊆ dom (qm_checks m) -> size (qm_checks m) < 2 * size D ->
  (forall p, p ∈ D -> 2 <= reports_of p rs) ->
  exists m', observe_downs (rs ++ [r1; r2]) m = (inr tt, m') /\
    cq_LastStableState (qm_state m') = QuorumStateDown /\
    cq_IncidentOpen (qm_state m') = true.
Proof.
  intros Hwf Hup Hall Hroom HD Hmaj Htwice.
  assert (Htr : tracked (qm_state m)) by (by left).
  replace (rs ++ [r1; r2]) with ((rs ++ [r1]) ++ [r2]) in * by (by rewrite <-app_assoc).
  apply Forall_app in Hall as [Hall1 Hr2].
  assert (Hroom1 : room_for (length (rs ++ [r1])) m).
  { intros p c Hc. specialize (Hroom _ _ Hc). simpl in *. rewrite length_app. simpl. lia. }
  assert (Hroom2 : room_for (length ((rs ++ [r1]) ++ [r2])) m).
  { intros p c Hc. specialize (Hroom _ _ Hc). simpl in *. rewrite !length_app. simpl. lia. }
  destruct (observe_downs_run checkID (rs ++ [r1]) m)
    as (m2 & Hm2 & Hwf2 & Hdom2 & _); [done..|].
  destruct (observe_downs_run checkID ((rs ++ [r1]) ++ [r2]) m)
    as (m3 & Hm3 & Hwf3 & _ & _ & Htr3 & _); [done|by apply Forall_app|done..|].
  destruct (observe_downs_run checkID rs m) as (m1 & Hm1 & Hwf1 & Hdom1 & _);
    [done| by apply Forall_app in Hall1 as [? _] | |done|].
  { intros p c Hc. specialize (Hroom _ _ Hc). simpl in *. lia. }
  exists m3. split; [done|].
  assert (Hmaj2 : majority CheckStateDown m2).
  { eapply (observe_downs_confirmed checkID (rs ++ [r1]) m m2 D); try done.
    intros p Hp. rewrite reports_of_app. specialize (Htwice p Hp). lia. }
  assert (Hmaj3 : majority CheckStateDown m3).
  { eapply (observe_downs_confirmed checkID ((rs ++ [r1]) ++ [r2]) m m3 D); try done;
      [by apply Forall_app|]. intros p Hp. rewrite !reports_of_app. specialize (Htwice p Hp). lia. }
  assert (Hin : forall r m0, dom (qm_checks m0) = dom (qm_checks m) ->
    is_Some (qm_checks m !! report_probe r) -> is_Some (qm_checks m0 !! report_probe r)).
  { intros r m0 Hd. rewrite <-!elem_of_dom. by rewrite Hd. }
  rewrite (observe_downs_app _ _ _ _ Hm1) in Hm2. rewrite (observe_downs_app _ _ _ m2) in Hm3
    by (by rewrite (observe_downs_app _ _ _ _ Hm1)).
  apply Forall_app in Hall1 as [_ Hr1]. apply Forall_cons_1 in Hr1 as [Hr1 _].
  apply Forall_cons_1 in Hr2 as [Hr2 _].
  destruct (observe_down_settles checkID r1 m1 m2 Hwf1 (Hin _ _ Hdom1 Hr1) Hm2 Hmaj2) as [Hs2 _].
  destruct (observe_down_settles checkID r2 m2 m3 Hwf2 (Hin _ _ Hdom2 Hr2) Hm3 Hmaj3) as [_ Hl3].
  specialize (Hl3 Hs2). split; [done|].
  destruct Htr3 as [Hu|[_ ?]]; [enum_congruence|done].
Qed.
End properties.

(** * Witnesses *)

(** Three probes of a check that is stable up, without evidence yet. *)
Definition ex_quorum : QuorumMachine :=
  MkQuorumMachine (MkCheckQuorumState "c" QuorumStateUp QuorumStateUp false)
    (<["p1" := NewCheckMachine "c" "p1"]>
      (<["p2" := NewCheckMachine "c" "p2"]> (<["p3" := NewCheckMachine "c" "p3"]> ∅))).

Lemma ex_quorum_wf : quorum_wf "c" ex_quorum.
Proof.
  split_and!; [done | split_and!; simpl; auto; done |].
  do 3 (apply map_Forall_insert_2; [apply new_child_wf|]). apply map_Forall_empty.
Qed.

Definition ex_report (p : string) (t : Z) : down_report := (p, t, Some (t + 60)%Z, "timeout").

Lemma outage_opens_incident_witness :
  exists m', @observe_downs table_Fire
      ([ex_report "p1" 1; ex_report "p2" 2; ex_report "p3" 3; ex_report "p2" 4; ex_report "p1" 5] ++
       [ex_report "p3" 6; ex_report "p1" 7]) ex_quorum = (inr tt, m') /\
    cq_LastStableState (qm_state m') = QuorumStateDown /\
    cq_IncidentOpen (qm_state m') = true.
Proof.
  apply (@outage_opens_incident table_Fire table_Fire_laws "c" ex_quorum _ _ _ {["p1"; "p2"]}).
  - exact ex_quorum_wf.
  - reflexivity.
  - repeat (constructor; [eexists; vm_compute; reflexivity|]). constructor.
  - intros p c Hc. unfold ex_quorum in Hc. simpl in Hc.
    repeat (apply lookup_insert_Some in Hc as [[_ <-]|[_ Hc]]; [vm_compute; split; discriminate|]).
    by rewrite lookup_empty in Hc.
  - intros p Hp. apply elem_of_dom. rewrite elem_of_union, !elem_of_singleton in Hp.
    destruct Hp as [->| ->]; eexists; vm_compute; reflexivity.
  - vm_compute. lia.
  - intros p Hp. rewrite elem_of_union, !elem_of_singleton in Hp.
    destruct Hp as [->| ->]; vm_compute; lia.
Defined.

(** The same three probes after the two confirmed downs of a majority: the next
    recompute opens the incident. *)
Definition ex_quorum_down : QuorumMachine :=
  (@observe_downs table_Fire
     [ex_report "p1" 1; ex_report "p2" 2; ex_report "p2" 4; ex_report "p1" 5] ex_quorum).2.

Lemma incident_needs_confirmed_majority_witness :
  cq_LastStableState (qm_state ex_quorum_down) = QuorumStateUp /\
  cq_State (qm_state ex_quorum_down) = QuorumStateDown /\
  cq_LastStableState (qm_state (Recompute ex_quorum_down).2) = QuorumStateDown /\
  size (qm_checks ex_quorum_down) < 2 * size (confirmed CheckStateDown ex_quorum_down).
Proof.
  refine (proj1 (incident_needs_confirmed_majority ex_quorum_down _) _ _).
  - vm_compute. intuition congruence.
  - vm_compute. reflexivity.
  - vm_compute. reflexivity.
Defined.
