(* ===== verification/Runtime.v ===== *)
(** The monitoring runtime, internal/monitoring/runtime.go, with the two helpers
    that other files of the package add to it: [ensureQuorumLocked] (result.go)
    and [applyProbeDegradationLocked] (heartbeat.go).

    Every exported method holds [r.mu] for its whole body, so a method is one
    atomic step on the [Runtime] record and the mutex is not a field.  Where a
    loop over a Go map can stop early, the order in which [range] visits the keys
    is an argument. *)

From S2P Require Import Prelude Stateless Types ProbeMachine CheckMachine QuorumMachine.

Definition ErrUnknownCheck : GoError := ErrSentinel "monitoring: unknown check".
Definition ErrUnknownProbe : GoError := ErrSentinel "monitoring: unknown probe".

Record Runtime := MkRuntime {
  rt_probes : gmap string ProbeRuntimeState;
  rt_quorums : gmap string QuorumMachine
}.

Definition set_probe (probeID : string) (p : ProbeRuntimeState) (r : Runtime) : Runtime :=
  MkRuntime (<[probeID := p]> (rt_probes r)) (rt_quorums r).
Definition set_quorum (checkID : string) (q : QuorumMachine) (r : Runtime) : Runtime :=
  MkRuntime (rt_probes r) (<[checkID := q]> (rt_quorums r)).

(** * Reads *)

Definition ProbeSnapshot (probeID : string) (r : Runtime) : GoError + ProbeRuntimeState :=
  match rt_probes r !! probeID with
  | None => inl ErrUnknownProbe
  | Some probe => inr (ProbeMachine.Snapshot probe)
  end.

Definition CheckSnapshot (checkID probeID : string) (r : Runtime) : GoError + CheckExecState :=
  match rt_quorums r !! checkID with
  | None => inl ErrUnknownCheck
  | Some quorum =>
      match QuorumMachine.CheckSnapshot probeID quorum with
      | None => inl ErrUnknownCheckAssignment
      | Some check => inr check
      end
  end.

Definition QuorumSnapshot (checkID : string) (r : Runtime) : GoError + CheckQuorumState :=
  match rt_quorums r !! checkID with
  | None => inl ErrUnknownCheck
  | Some quorum => inr (QuorumMachine.Snapshot quorum)
  end.

Definition QuorumSnapshots (checkIDs : list string) (r : Runtime) : list CheckQuorumState :=
  (fun checkID =>
     match rt_quorums r !! checkID with
     | None => newCheckQuorumState checkID
     | Some quorum => QuorumMachine.Snapshot quorum
     end) <$> uniqueIDs checkIDs.

(** The keys in the order of [sort.Strings]. *)
Definition sorted_keys {A} (m : gmap string A) : list string :=
  merge_sort String.le (map_to_list m).*1.

Definition ProbeSnapshots (r : Runtime) : list ProbeRuntimeState :=
  omap (fun probeID => ProbeMachine.Snapshot <$> rt_probes r !! probeID) (sorted_keys (rt_probes r)).

(** * Creation and removal *)

Definition addProbeLocked (probeID : string) (r : Runtime) : ProbeRuntimeState * Runtime :=
  if probeID == "" then (zeroProbeRuntimeState, r)
  else match rt_probes r !! probeID with
       | Some probe => (ProbeMachine.Snapshot probe, r)
       | None =>
           let probe := NewProbeMachine probeID in
           (ProbeMachine.Snapshot probe, set_probe probeID probe r)
       end.

Definition AddProbe (probeID : string) (r : Runtime) : ProbeRuntimeState * Runtime :=
  addProbeLocked probeID r.

Definition ensureQuorumLocked (checkID : string) (r : Runtime) : QuorumMachine * Runtime :=
  match rt_quorums r !! checkID with
  | Some quorum => (quorum, r)
  | None =>
      let quorum := NewQuorumMachine checkID [] in
      (quorum, set_quorum checkID quorum r)
  end.

Definition EnsureCheck (checkID : string) (r : Runtime) : CheckQuorumState * Runtime :=
  let '(quorum, r') := ensureQuorumLocked checkID r in
  (QuorumMachine.Snapshot quorum, r').

Definition RemoveCheck (checkID : string) (r : Runtime) : Runtime :=
  MkRuntime (rt_probes r) (delete checkID (rt_quorums r)).

Definition NewRuntime (checkIDs probeIDs : list string) : Runtime :=
  let r := MkRuntime ∅
    (fold_left (fun qs checkID => <[checkID := NewQuorumMachine checkID []]> qs)
       (uniqueIDs checkIDs) ∅) in
  fold_left (fun r probeID => (addProbeLocked probeID r).2) (uniqueIDs probeIDs) r.

Section methods.
Context `{SL : Stateless}.

(** Routes an operation to one probe machine or one quorum machine. *)
Definition on_probe {A} (probeID : string) (op : St ProbeRuntimeState A) : St Runtime A := fun r =>
  match rt_probes r !! probeID with
  | None => (inl ErrUnknownProbe, r)
  | Some probe => let '(res, probe') := op probe in (res, set_probe probeID probe' r)
  end.

Definition on_quorum {A} (checkID : string) (op : St QuorumMachine A) : St Runtime A := fun r =>
  match rt_quorums r !! checkID with
  | None => (inl ErrUnknownCheck, r)
  | Some quorum => let '(res, quorum') := op quorum in (res, set_quorum checkID quorum' r)
  end.

(** The loop of [applyProbeDegradationLocked] over [r.quorums]; a check without
    the probe is skipped, the first error stops the loop. *)
Fixpoint applyProbeDegradationLocked (order : list string) (probeID : string) (state : ProbeState)
    (message : string) : St Runtime unit := fun r =>
  match order with
  | [] => (inr tt, r)
  | checkID :: order =>
      match rt_quorums r !! checkID with
      | None => applyProbeDegradationLocked order probeID state message r
      | Some quorum =>
          match qm_checks quorum !! probeID with
          | None => applyProbeDegradationLocked order probeID state message r
          | Some _ =>
              let '(res, quorum') :=
                if state == ProbeStateOffline then QuorumMachine.LoseEvidence probeID quorum
                else if state == ProbeStateError
                then QuorumMachine.MarkCheckError probeID message quorum
                else (inr (MkCheckUpdate (MkCheckTransition "" "" "" false)
                             (MkQuorumTransition "" "" "") zeroCheckQuorumState), quorum) in
              let r' := set_quorum checkID quorum' r in
              match res with
              | inl e => (inl e, r')
              | inr _ => applyProbeDegradationLocked order probeID state message r'
              end
          end
      end
  end.

Definition ReceiveHeartbeat (probeID : string) (at_ : Time) : St Runtime ProbeTransition :=
  on_probe probeID (ProbeMachine.ReceiveHeartbeat at_).

Definition ExpireHeartbeat (order : list string) (probeID : string) : St Runtime ProbeTransition :=
  transition ← on_probe probeID ProbeMachine.ExpireHeartbeat;
  _ ← applyProbeDegradationLocked order probeID ProbeStateOffline "";
  mret transition.

Definition MarkProbeError (order : list string) (probeID message : string)
    : St Runtime ProbeTransition :=
  transition ← on_probe probeID (ProbeMachine.MarkError message);
  _ ← applyProbeDegradationLocked order probeID ProbeStateError message;
  mret transition.

Definition ObserveCheckUp (checkID probeID : string) (at_ : Time) (expiresAt : option Time)
    : St Runtime CheckUpdate := fun r =>
  match rt_probes r !! probeID with
  | None => (inl ErrUnknownProbe, r)
  | Some _ =>
      on_quorum checkID (fun quorum =>
        QuorumMachine.ObserveUp probeID at_ expiresAt (QuorumMachine.AddProbe probeID quorum).2) r
  end.

Definition ObserveCheckDown (checkID probeID : string) (at_ : Time) (expiresAt : option Time)
    (message : string) : St Runtime CheckUpdate := fun r =>
  match rt_probes r !! probeID with
  | None => (inl ErrUnknownProbe, r)
  | Some _ =>
      on_quorum checkID (fun quorum =>
        QuorumMachine.ObserveDown probeID at_ expiresAt message
          (QuorumMachine.AddProbe probeID quorum).2) r
  end.

Definition LoseCheckEvidence (checkID probeID : string) : St Runtime CheckUpdate :=
  on_quorum checkID (QuorumMachine.LoseEvidence probeID).

Definition MarkCheckError (checkID probeID message : string) : St Runtime CheckUpdate :=
  on_quorum checkID (QuorumMachine.MarkCheckError probeID message).

Definition RecomputeCheck (checkID : string) : St Runtime CheckQuorumState :=
  on_quorum checkID (fun quorum =>
    let quorum' := (Recompute quorum).2 in (inr (QuorumMachine.Snapshot quorum'), quorum')).
End methods.

(** * Invariant *)

Definition probe_entry_wf (probeID : string) (p : ProbeRuntimeState) : Prop :=
  probeID <> "" /\ pr_ProbeID p = probeID /\ probe_wf p.

(** Every machine is filed under its own ID and well formed, and a probe votes in
    a check only when the runtime knows the probe. *)
Definition runtime_wf (r : Runtime) : Prop :=
  map_Forall probe_entry_wf (rt_probes r) /\
  map_Forall quorum_wf (rt_quorums r) /\
  map_Forall (fun _ q => dom (qm_checks q) ⊆ dom (rt_probes r)) (rt_quorums r).

Lemma set_quorum_wf r checkID q :
  runtime_wf r -> quorum_wf checkID q -> dom (qm_checks q) ⊆ dom (rt_probes r) ->
  runtime_wf (set_quorum checkID q r).
Proof.
  intros (Hp & Hq & Hd) Hwf Hdom. split_and!; simpl; [done|..];
    by apply map_Forall_insert_2.
Qed.

Lemma set_probe_wf r probeID p :
  runtime_wf r -> probe_entry_wf probeID p -> runtime_wf (set_probe probeID p r).
Proof.
  intros (Hp & Hq & Hd) Hwf. split_and!; simpl; [by apply map_Forall_insert_2 | done |].
  intros c q Hc. specialize (Hd c q Hc). simpl in Hd. rewrite dom_insert_L. set_solver.
Qed.

Lemma runtime_wf_quorum r checkID q :
  runtime_wf r -> rt_quorums r !! checkID = Some q ->
  quorum_wf checkID q /\ dom (qm_checks q) ⊆ dom (rt_probes r).
Proof. intros (_ & Hq & Hd) Hl. split; [by apply Hq | by apply (Hd checkID)]. Qed.

Lemma runtime_wf_child r checkID q probeID c :
  runtime_wf r -> rt_quorums r !! checkID = Some q -> qm_checks q !! probeID = Some c ->
  child_wf checkID probeID c.
Proof. intros Hwf Hl Hc. destruct (runtime_wf_quorum _ _ _ Hwf Hl) as [(_ & _ & Hch) _]. by apply Hch. Qed.

Lemma addProbeLocked_wf r probeID : runtime_wf r -> runtime_wf (addProbeLocked probeID r).2.
Proof.
  intros Hwf. unfold addProbeLocked. case_bool_decide; [done|].
  destruct (rt_probes r !! probeID); [done|]. apply set_probe_wf; [done|].
  split_and!; [done|done|apply NewProbeMachine_wf].
Qed.

Lemma ensureQuorumLocked_wf r checkID : runtime_wf r -> runtime_wf (ensureQuorumLocked checkID r).2.
Proof.
  intros Hwf. unfold ensureQuorumLocked. destruct (rt_quorums r !! checkID); [done|].
  apply set_quorum_wf; [done|apply NewQuorumMachine_wf|]. simpl. set_solver.
Qed.

Lemma RemoveCheck_wf r checkID : runtime_wf r -> runtime_wf (RemoveCheck checkID r).
Proof.
  intros (Hp & Hq & Hd). split_and!; simpl; [done|..]; by apply map_Forall_delete.
Qed.

Lemma NewRuntime_wf checkIDs probeIDs : runtime_wf (NewRuntime checkIDs probeIDs).
Proof.
  unfold NewRuntime. generalize (uniqueIDs probeIDs) as ps.
  assert (forall (cs : list string) (qs : gmap string QuorumMachine), runtime_wf (MkRuntime ∅ qs) ->
    runtime_wf (MkRuntime ∅ (fold_left (fun qs c => <[c := NewQuorumMachine c []]> qs) cs qs))) as Hcs.
  { induction cs as [|c cs IH]; intros qs Hqs; [done|]. simpl. apply IH.
    apply (set_quorum_wf (MkRuntime ∅ qs)); [done|apply NewQuorumMachine_wf|]. simpl. set_solver. }
  specialize (Hcs (uniqueIDs checkIDs) ∅).
  revert Hcs. generalize (fold_left (fun qs c => <[c := NewQuorumMachine c []]> qs)
                            (uniqueIDs checkIDs) (∅ : gmap string QuorumMachine)) as qs.
  intros qs Hqs ps. assert (Hwf : runtime_wf (MkRuntime ∅ qs)).
  { apply Hqs. split_and!; apply map_Forall_empty. }
  revert Hwf. generalize (MkRuntime ∅ qs) as r. induction ps as [|p ps IH]; intros r Hr; [done|].
  simpl. apply IH. by apply addProbeLocked_wf.
Qed.

Lemma AddProbe_dom probeID q :
  dom (qm_checks (QuorumMachine.AddProbe probeID q).2) = {[probeID]} ∪ dom (qm_checks q).
Proof.
  rewrite AddProbe_effect. destruct (qm_checks q !! probeID) as [c|] eqn:Hl.
  - apply elem_of_dom_2 in Hl. set_solver.
  - simpl. by rewrite dom_insert_L.
Qed.

Section laws.
Context `{SLL : StatelessLaws}.

(** Whatever event is routed to a child, the quorum stays well formed with the
    same children. *)
Lemma route_event_wf checkID probeID ev q res q' :
  quorum_wf checkID q -> route probeID (check_event ev) q = (res, q') ->
  quorum_wf checkID q' /\ dom (qm_checks q') = dom (qm_checks q).
Proof.
  intros Hwf Hr. destruct (qm_checks q !! probeID) as [c|] eqn:Hl.
  - destruct Hwf as (Hid & Hs & Hc). destruct (Hc _ _ Hl) as (_ & _ & Hcw).
    destruct (route_event probeID ev q c Hl (check_wf_state_valid _ Hcw)) as (tr & Htr & _).
    rewrite Htr in Hr. injection Hr as <- <-.
    split; [by apply child_effect_wf|]. simpl. rewrite dom_insert_L.
    apply elem_of_dom_2 in Hl. set_solver.
  - rewrite route_unknown in Hr by done. by injection Hr as <- <-.
Qed.

Lemma on_quorum_wf {A} r checkID (op : St QuorumMachine A) res r' :
  runtime_wf r -> on_quorum checkID op r = (res, r') ->
  (forall q a q', quorum_wf checkID q -> dom (qm_checks q) ⊆ dom (rt_probes r) ->
     op q = (a, q') -> quorum_wf checkID q' /\ dom (qm_checks q') ⊆ dom (rt_probes r)) ->
  runtime_wf r'.
Proof.
  intros Hwf Hop Hkeep. unfold on_quorum in Hop.
  destruct (rt_quorums r !! checkID) as [q|] eqn:Hl; [|by injection Hop as <- <-].
  destruct (op q) as [a q'] eqn:Hq. injection Hop as <- <-.
  destruct (runtime_wf_quorum _ _ _ Hwf Hl) as [Hqw Hqd].
  destruct (Hkeep q a q' Hqw Hqd Hq). by apply set_quorum_wf.
Qed.

Lemma on_quorum_event_wf r checkID probeID ev res r' :
  runtime_wf r -> on_quorum checkID (route probeID (check_event ev)) r = (res, r') -> runtime_wf r'.
Proof.
  intros Hwf Hop. eapply on_quorum_wf; [done..|]. intros q a q' Hq Hd Hr.
  destruct (route_event_wf _ _ _ _ _ _ Hq Hr) as [? ->]. done.
Qed.

(** A result may also assign the probe to the check first. *)
Lemma on_quorum_observe_wf r checkID probeID ev res r' :
  runtime_wf r -> is_Some (rt_probes r !! probeID) ->
  on_quorum checkID (fun q => route probeID (check_event ev) (QuorumMachine.AddProbe probeID q).2) r
    = (res, r') -> runtime_wf r'.
Proof.
  intros Hwf Hp Hop. eapply on_quorum_wf; [done..|]. intros q a q' Hq Hd Hr.
  destruct (route_event_wf checkID _ _ _ _ _ (AddProbe_wf _ probeID _ Hq) Hr) as [? ->].
  rewrite AddProbe_dom. apply elem_of_dom in Hp. set_solver.
Qed.

Lemma on_probe_wf r probeID ev res r' :
  runtime_wf r -> on_probe probeID (probe_event ev) r = (res, r') -> runtime_wf r'.
Proof.
  intros Hwf Hop. unfold on_probe in Hop.
  destruct (rt_probes r !! probeID) as [p|] eqn:Hl; [|by injection Hop as <- <-].
  destruct (probe_event ev p) as [a p'] eqn:He. injection Hop as <- <-.
  destruct Hwf as (Hp & Hq & Hd). destruct (Hp _ _ Hl) as (Hne & Hid & Hpw).
  destruct (probe_event_wf _ _ _ _ Hpw He) as [? Hid'].
  apply set_probe_wf; [done|]. split_and!; congruence || done.
Qed.
End laws.

(** * Probe-wide degradation *)

Definition degradation_event (state : ProbeState) (message : string) : option CheckEvent :=
  if state == ProbeStateOffline then Some EvLose
  else if state == ProbeStateError then Some (EvError message)
  else None.

(** What the loss of a probe does to one check. *)
Definition degrade_quorum (probeID : string) (ev : CheckEvent) (q : QuorumMachine) : QuorumMachine :=
  match qm_checks q !! probeID with
  | Some c => child_effect probeID ev c q
  | None => q
  end.

Definition degrade (probeID : string) (ev : CheckEvent) (order : list string) (r : Runtime) : Runtime :=
  MkRuntime (rt_probes r)
    (map_imap (fun checkID q =>
       Some (if bool_decide (checkID ∈ order) then degrade_quorum probeID ev q else q)) (rt_quorums r)).

Lemma degrade_nil probeID ev r : degrade probeID ev [] r = r.
Proof.
  destruct r as [ps qs]. unfold degrade. simpl. f_equal. apply map_eq. intros c.
  rewrite map_lookup_imap. by destruct (qs !! c).
Qed.

Lemma degrade_all probeID ev order r :
  (forall checkID, is_Some (rt_quorums r !! checkID) -> checkID ∈ order) ->
  degrade probeID ev order r = MkRuntime (rt_probes r) (degrade_quorum probeID ev <$> rt_quorums r).
Proof.
  intros Hall. unfold degrade. f_equal. apply map_eq. intros c.
  rewrite map_lookup_imap, lookup_fmap. destruct (rt_quorums r !! c) eqn:Hl; [|done]. simpl.
  by rewrite bool_decide_eq_true_2 by (apply Hall; eauto).
Qed.

Lemma degrade_cons_None probeID ev checkID order r :
  (forall q, rt_quorums r !! checkID = Some q -> qm_checks q !! probeID = None) ->
  degrade probeID ev (checkID :: order) r = degrade probeID ev order r.
Proof.
  intros Hn. unfold degrade. f_equal. apply map_eq. intros c. rewrite !map_lookup_imap.
  destruct (rt_quorums r !! c) as [q|] eqn:Hl; [|done]. simpl. f_equal.
  destruct (decide (c = checkID)) as [->|Hne].
  - unfold degrade_quorum. rewrite (Hn q Hl). by repeat case_bool_decide.
  - repeat case_bool_decide; set_solver.
Qed.

Lemma degrade_cons_Some probeID ev checkID order r q c :
  checkID ∉ order -> rt_quorums r !! checkID = Some q -> qm_checks q !! probeID = Some c ->
  degrade probeID ev (checkID :: order) r =
  degrade probeID ev order (set_quorum checkID (child_effect probeID ev c q) r).
Proof.
  intros Hni Hl Hc. unfold degrade. simpl. f_equal. apply map_eq. intros c'.
  rewrite !map_lookup_imap, lookup_insert. case_decide as Heq.
  - subst c'. rewrite Hl. simpl. f_equal. unfold degrade_quorum at 1. rewrite Hc.
    rewrite bool_decide_eq_true_2 by set_solver. by rewrite bool_decide_eq_false_2.
  - destruct (rt_quorums r !! c') as [q'|]; [|done]. simpl. f_equal.
    repeat case_bool_decide; set_solver.
Qed.

(** Two orders with the same keys degrade the same checks. *)
Lemma degrade_order probeID ev order order' r :
  (forall c, c ∈ order <-> c ∈ order') -> degrade probeID ev order r = degrade probeID ev order' r.
Proof.
  intros Ho. unfold degrade. f_equal. apply map_eq. intros c. rewrite !map_lookup_imap.
  destruct (rt_quorums r !! c); [|done]. simpl.
  repeat case_bool_decide; try done; exfalso; naive_solver.
Qed.

(** The keys of a map, as [range] may visit them. *)
Definition range_of {A} (m : gmap string A) (order : list string) : Prop :=
  order ≡ₚ (map_to_list m).*1.

Lemma range_of_NoDup {A} (m : gmap string A) order : range_of m order -> NoDup order.
Proof. intros ->. apply NoDup_fst_map_to_list. Qed.

Lemma range_of_elem {A} (m : gmap string A) order c :
  range_of m order -> c ∈ order <-> is_Some (m !! c).
Proof.
  intros ->. rewrite list_elem_of_fmap. split.
  - intros ([k v] & -> & Hin). apply elem_of_map_to_list in Hin. eauto.
  - intros [v Hv]. exists (c, v). split; [done|]. by apply elem_of_map_to_list.
Qed.

Section degradation.
Context `{SLL : StatelessLaws}.

Lemma applyProbeDegradationLocked_spec order probeID state message ev : forall r,
  runtime_wf r -> NoDup order -> degradation_event state message = Some ev ->
  applyProbeDegradationLocked order probeID state message r =
    (inr tt, degrade probeID ev order r) /\ runtime_wf (degrade probeID ev order r).
Proof.
  intros r Hwf Hnd Hev. revert r Hwf.
  induction Hnd as [|checkID order Hni Hnd IH]; intros r Hwf; simpl; [by rewrite degrade_nil|].
  destruct (rt_quorums r !! checkID) as [q|] eqn:Hl;
    [destruct (qm_checks q !! probeID) as [c|] eqn:Hc|].
  - destruct (route_event probeID ev q c Hc) as (tr & Htr & _).
    { apply check_wf_state_valid. by eapply runtime_wf_child. }
    assert (Hcall : (if state == ProbeStateOffline then QuorumMachine.LoseEvidence probeID q
      else if state == ProbeStateError then QuorumMachine.MarkCheckError probeID message q
      else (inr (MkCheckUpdate (MkCheckTransition "" "" "" false)
                   (MkQuorumTransition "" "" "") zeroCheckQuorumState), q))
      = route probeID (check_event ev) q).
    { unfold degradation_event in Hev. repeat case_bool_decide; by simplify_eq. }
    rewrite Hcall, Htr, (degrade_cons_Some _ _ _ _ _ _ _ Hni Hl Hc). apply IH.
    destruct (runtime_wf_quorum _ _ _ Hwf Hl) as [Hqw Hqd].
    apply set_quorum_wf; [done|by apply child_effect_wf|]. simpl. rewrite dom_insert_L.
    apply elem_of_dom_2 in Hc. set_solver.
  - rewrite degrade_cons_None by (intros; simplify_eq; done). by apply IH.
  - rewrite degrade_cons_None by (intros; simplify_eq). by apply IH.
Qed.

(** For every order [range] may take, the loop succeeds and treats every check of
    the probe once. *)
Lemma applyProbeDegradationLocked_all order probeID state message ev r :
  runtime_wf r -> range_of (rt_quorums r) order -> degradation_event state message = Some ev ->
  applyProbeDegradationLocked order probeID state message r =
    (inr tt, MkRuntime (rt_probes r) (degrade_quorum probeID ev <$> rt_quorums r)) /\
  runtime_wf (MkRuntime (rt_probes r) (degrade_quorum probeID ev <$> rt_quorums r)).
Proof.
  intros Hwf Hord Hev.
  rewrite <-(degrade_all probeID ev order r) by (intros c; by apply range_of_elem).
  apply applyProbeDegradationLocked_spec; [done|by eapply range_of_NoDup|done].
Qed.
End degradation.

(** * The runtime as a transition system *)

(** A call of an exported mutator.  [order] is the order in which the call's map
    loop visits the checks. *)
Inductive RuntimeOp :=
| OpEnsureCheck (checkID : string)
| OpAddProbe (probeID : string)
| OpRemoveCheck (checkID : string)
| OpReceiveHeartbeat (probeID : string) (at_ : Time)
| OpExpireHeartbeat (order : list string) (probeID : string)
| OpMarkProbeError (order : list string) (probeID message : string)
| OpObserveCheckUp (checkID probeID : string) (at_ : Time) (expiresAt : option Time)
| OpObserveCheckDown (checkID probeID : string) (at_ : Time) (expiresAt : option Time)
    (message : string)
| OpLoseCheckEvidence (checkID probeID : string)
| OpMarkCheckError (checkID probeID message : string)
| OpRecomputeCheck (checkID : string).

Definition exec_op `{SL : Stateless} (op : RuntimeOp) (r : Runtime) : Runtime :=
  match op with
  | OpEnsureCheck c => (EnsureCheck c r).2
  | OpAddProbe p => (AddProbe p r).2
  | OpRemoveCheck c => RemoveCheck c r
  | OpReceiveHeartbeat p t => (ReceiveHeartbeat p t r).2
  | OpExpireHeartbeat o p => (ExpireHeartbeat o p r).2
  | OpMarkProbeError o p msg => (MarkProbeError o p msg r).2
  | OpObserveCheckUp c p t e => (ObserveCheckUp c p t e r).2
  | OpObserveCheckDown c p t e msg => (ObserveCheckDown c p t e msg r).2
  | OpLoseCheckEvidence c p => (LoseCheckEvidence c p r).2
  | OpMarkCheckError c p msg => (MarkCheckError c p msg r).2
  | OpRecomputeCheck c => (RecomputeCheck c r).2
  end.

Inductive runtime_step `{SL : Stateless} : Runtime -> Runtime -> Prop :=
| step_op op r : runtime_step r (exec_op op r).

Section invariant.
Context `{SLL : StatelessLaws}.

(** For any list of visited checks, also one that [range] would not produce. *)
Lemma applyProbeDegradationLocked_wf order probeID state message : forall r,
  runtime_wf r -> runtime_wf (applyProbeDegradationLocked order probeID state message r).2.
Proof.
  induction order as [|checkID order IH]; intros r Hwf; simpl; [done|].
  destruct (rt_quorums r !! checkID) as [q|] eqn:Hl; [|by apply IH].
  destruct (qm_checks q !! probeID) as [c|] eqn:Hc; [|by apply IH].
  destruct (runtime_wf_quorum _ _ _ Hwf Hl) as [Hqw Hqd].
  match goal with |- context [let '(_, _) := ?call in _] => destruct call as [res q'] eqn:Hcall end.
  assert (runtime_wf (set_quorum checkID q' r)).
  { case_bool_decide; [|case_bool_decide].
    - destruct (route_event_wf checkID probeID EvLose q _ _ Hqw Hcall) as [? Hd].
      apply set_quorum_wf; [done|done|by rewrite Hd].
    - destruct (route_event_wf checkID probeID (EvError message) q _ _ Hqw Hcall) as [? Hd].
      apply set_quorum_wf; [done|done|by rewrite Hd].
    - injection Hcall as _ <-. by apply set_quorum_wf. }
  destruct res; [done|by apply IH].
Qed.

Lemma probe_then_degrade_wf order probeID ev state message r :
  runtime_wf r ->
  runtime_wf (((transition ← on_probe probeID (probe_event ev);
                _ ← applyProbeDegradationLocked order probeID state message;
                mret transition) : St Runtime ProbeTransition) r).2.
Proof.
  intros Hwf. unfold mbind, St_bind.
  destruct (on_probe probeID (probe_event ev) r) as [[e|tr] r1] eqn:H1; simpl;
    [by eapply on_probe_wf|].
  pose proof (applyProbeDegradationLocked_wf order probeID state message r1
                (on_probe_wf _ _ _ _ _ Hwf H1)) as Hwf2.
  by destruct (applyProbeDegradationLocked order probeID state message r1) as [[e|u] r2].
Qed.

Lemma exec_op_wf op r : runtime_wf r -> runtime_wf (exec_op op r).
Proof.
  intros Hwf. destruct op; simpl.
  - unfold EnsureCheck. pose proof (ensureQuorumLocked_wf r checkID Hwf) as He.
    by destruct (ensureQuorumLocked checkID r).
  - by apply addProbeLocked_wf.
  - by apply RemoveCheck_wf.
  - destruct (ReceiveHeartbeat probeID at_ r) as [res r'] eqn:Hop.
    by eapply (on_probe_wf _ _ (EvHeartbeat at_)).
  - by apply (probe_then_degrade_wf order probeID EvExpire).
  - by apply (probe_then_degrade_wf order probeID (EvMarkError message)).
  - unfold ObserveCheckUp. destruct (rt_probes r !! probeID) eqn:Hp; [|done].
    match goal with |- runtime_wf (?call).2 => destruct call eqn:Hop end.
    by eapply (on_quorum_observe_wf _ _ _ (EvUp at_ expiresAt)).
  - unfold ObserveCheckDown. destruct (rt_probes r !! probeID) eqn:Hp; [|done].
    match goal with |- runtime_wf (?call).2 => destruct call eqn:Hop end.
    by eapply (on_quorum_observe_wf _ _ _ (EvDown at_ expiresAt message)).
  - destruct (LoseCheckEvidence checkID probeID r) as [res r'] eqn:Hop.
    by eapply (on_quorum_event_wf _ _ _ EvLose).
  - destruct (MarkCheckError checkID probeID message r) as [res r'] eqn:Hop.
    by eapply (on_quorum_event_wf _ _ _ (EvError message)).
  - destruct (RecomputeCheck checkID r) as [res r'] eqn:Hop.
    eapply on_quorum_wf; [exact Hwf|exact Hop|]. intros q a q' Hq Hd Hr.
    injection Hr as <- <-. split; [by apply Recompute_wf|]. rewrite Recompute_snd. done.
Qed.

(** The runtime invariant.  Every state reachable from a new runtime by any
    sequence of calls to its exported mutators, with any arguments and any map
    iteration order, failing calls included, files each probe and check under its
    own non-empty ID, keeps each machine well formed (valid states, incident open
    only when stably down, stored state justified by the outcome streak), and
    only lets known probes vote. *)
Lemma runtime_reachable_wf checkIDs probeIDs r :
  rtc runtime_step (NewRuntime checkIDs probeIDs) r -> runtime_wf r.
Proof.
  intros Hr. assert (Hwf : runtime_wf (NewRuntime checkIDs probeIDs)) by apply NewRuntime_wf.
  revert Hwf. induction Hr as [r|r1 r2 r3 Hs _ IH]; intros Hwf; [done|].
  apply IH. destruct Hs. by apply exec_op_wf.
Qed.

(** When a probe's heartbeat expires it stops counting everywhere at once:
    for every iteration order, [ExpireHeartbeat] of a known probe succeeds, marks
    the probe offline, leaves the other probes alone, clears the probe's evidence
    in every check it is assigned to, so that it casts no vote there, and leaves
    the evidence of the other probes as it was. *)
Lemma expire_heartbeat_clears_votes r order probeID p :
  runtime_wf r -> range_of (rt_quorums r) order -> rt_probes r !! probeID = Some p ->
  exists tr r', ExpireHeartbeat order probeID r = (inr tr, r') /\ runtime_wf r' /\
    rt_probes r' = <[probeID := ProbeMachine.set_State ProbeStateOffline p]> (rt_probes r) /\
    dom (rt_quorums r') = dom (rt_quorums r) /\
    (forall checkID q q', rt_quorums r !! checkID = Some q -> rt_quorums r' !! checkID = Some q' ->
       dom (qm_checks q') = dom (qm_checks q) /\
       (forall c', qm_checks q' !! probeID = Some c' ->
          ce_State c' = CheckStateMissing /\
          quorumContribution c' (qm_state q') = CheckStateMissing) /\
       (forall other, other <> probeID -> qm_checks q' !! other = qm_checks q !! other)).
Proof.
  intros Hwf Hord Hp. pose proof Hwf as (Hps & _ & _). destruct (Hps _ _ Hp) as (Hne & Hid & Hpw).
  set (p' := ProbeMachine.set_State ProbeStateOffline p).
  assert (Hcall : on_probe probeID ProbeMachine.ExpireHeartbeat r =
    (inr (MkProbeTransition (pr_State p) ProbeStateOffline ProbeTriggerHeartbeatExpired
            (pr_State p == ProbeStateOffline)), set_probe probeID p' r)).
  { unfold on_probe. rewrite Hp, ExpireHeartbeat_valid by apply Hpw. done. }
  assert (Hwf1 : runtime_wf (set_probe probeID p' r)) by (by eapply (on_probe_wf r probeID EvExpire)).
  destruct (applyProbeDegradationLocked_all order probeID ProbeStateOffline "" EvLose
              (set_probe probeID p' r) Hwf1 Hord eq_refl) as [Hdeg Hwf2].
  unfold ExpireHeartbeat, mbind, St_bind. rewrite Hcall, Hdeg.
  eexists _, _. split_and!; [done|done|done|simpl; apply dom_fmap_L|].
  intros checkID q q' Hq Hq'. simpl in Hq'. rewrite lookup_fmap, Hq in Hq'.
  injection Hq' as <-. unfold degrade_quorum.
  destruct (qm_checks q !! probeID) as [c|] eqn:Hc.
  - simpl. rewrite dom_insert_L. split_and!.
    + apply elem_of_dom_2 in Hc. set_solver.
    + intros c' Hc'. rewrite lookup_insert_eq in Hc'. by injection Hc' as <-.
    + intros other Ho. by rewrite lookup_insert_ne.
  - split_and!; [done| |done]. intros c' Hc'. congruence.
Qed.
End invariant.

(** * Witnesses *)

Definition ex_runtime : Runtime := NewRuntime ["c1"; "c2"] ["p1"; "p2"].

Definition ex_ops : list RuntimeOp :=
  [OpReceiveHeartbeat "p1" 5; OpObserveCheckUp "c1" "p1" 6 (Some 66%Z);
   OpObserveCheckDown "c1" "p2" 7 (Some 67%Z) "refused"; OpRemoveCheck "c2";
   OpExpireHeartbeat ["c1"] "p1"].

Definition ex_runtime_after : Runtime :=
  fold_left (fun r op => @exec_op table_Fire op r) ex_ops ex_runtime.

Lemma exec_ops_steps `{SL : Stateless} ops r :
  rtc runtime_step r (fold_left (fun r op => exec_op op r) ops r).
Proof.
  revert r. induction ops as [|op ops IH]; intros r; simpl; [constructor|].
  eapply rtc_l; [constructor|apply IH].
Qed.

Lemma runtime_reachable_wf_run : runtime_wf ex_runtime_after.
Proof.
  apply (@runtime_reachable_wf table_Fire table_Fire_laws ["c1"; "c2"] ["p1"; "p2"]).
  apply exec_ops_steps.
Qed.
