(* ===== verification/Database.v ===== *)
(** The database as the store uses it: the tables of
    internal/store/migrations/000001_init.up.sql, [database/sql] calls that can
    fail before or after the server did the work, and transactions.

    Postgres, its driver and the UUID library are not part of the repository:
    what the statements need of them beyond the SQL itself is the class
    [StoreEnv].  One store call runs at a time: the interleavings of concurrent
    transactions, which Postgres serialises by row locks on these statements,
    are sequences of calls. *)

From S2P Require Import Prelude GoStrings.
From Stdlib Require Import Ascii NArith.

(** * Rows *)

Record ProbeRow := MkProbeRow {
  p_secret_hash : string;
  p_provisioned_by : string;
  p_version : string;
  p_created_at : Time;
  p_registered_at : option Time;
  p_last_seen_at : option Time;
  p_revoked_at : option Time
}.

Record CheckRow := MkCheckRow {
  c_name : string;
  c_type : string;
  c_target : string;
  c_webhook : string;
  c_user_id : option Z;
  c_interval_seconds : Z;
  c_deleted_at : option Time
}.

Record StateRow := MkStateRow {
  s_last_result_at : Time;
  s_last_outcome : string;
  s_streak_len : Z;
  s_expires_at : Time;
  s_state : string;
  s_last_error : string
}.

Record IncidentRow := MkIncidentRow {
  i_check_id : string;
  i_user_id : option Z;
  i_started_at : Time;
  i_resolved_at : option Time
}.

Record NotificationRow := MkNotificationRow {
  n_incident_id : Z;
  n_event : string;
  n_state : string;
  n_webhook_url : string;
  n_payload : string;
  n_attempts : Z;
  n_last_error : option string;
  n_last_attempt_at : option Time;
  n_next_attempt_at : option Time;
  n_delivered_at : option Time;
  n_created_at : Time;
  n_updated_at : Time
}.

Record UserRow := MkUserRow {
  u_email : string;
  u_password_hash : string;
  u_public_status_slug : string;
  u_created_at : Time;
  u_is_admin : bool
}.

Record SessionRow := MkSessionRow {
  ss_user_id : Z;
  ss_created_at : Time;
  ss_expires_at : Time
}.

Record SignupRow := MkSignupRow {
  su_email : string;
  su_requested_at : Time;
  su_approved_at : option Time;
  su_rejected_at : option Time;
  su_completed_at : option Time;
  su_user_id : option Z;
  su_setup_token_hash : option string;
  su_setup_token_expires_at : option Time;
  su_setup_token_used_at : option Time;
  su_status : string
}.

#[global] Instance ProbeRow_eq_dec : EqDecision ProbeRow.
Proof. solve_decision. Defined.
#[global] Instance CheckRow_eq_dec : EqDecision CheckRow.
Proof. solve_decision. Defined.
#[global] Instance StateRow_eq_dec : EqDecision StateRow.
Proof. solve_decision. Defined.
#[global] Instance IncidentRow_eq_dec : EqDecision IncidentRow.
Proof. solve_decision. Defined.
#[global] Instance NotificationRow_eq_dec : EqDecision NotificationRow.
Proof. solve_decision. Defined.

#[global] Instance UserRow_eq_dec : EqDecision UserRow.
Proof. solve_decision. Defined.
#[global] Instance SessionRow_eq_dec : EqDecision SessionRow.
Proof. solve_decision. Defined.
#[global] Instance SignupRow_eq_dec : EqDecision SignupRow.
Proof. solve_decision. Defined.

(** The tables, by primary key.  A UUID is its canonical text, which is what
    [id::text] and [uuid.UUID.String] give. *)
Record Tables := MkTables {
  t_probes : gmap string ProbeRow;
  t_checks : gmap string CheckRow;
  t_states : gmap (string * string) StateRow;
  t_incidents : gmap Z IncidentRow;
  t_notifications : gmap Z NotificationRow;
  t_users : gmap Z UserRow;
  t_sessions : gmap string SessionRow;
  t_signup_requests : gmap Z SignupRow
}.

#[global] Instance Tables_eq_dec : EqDecision Tables.
Proof. solve_decision. Defined.

Definition set_t_probes (x : gmap string ProbeRow) (t : Tables) : Tables :=
  MkTables x (t_checks t) (t_states t) (t_incidents t) (t_notifications t)
    (t_users t) (t_sessions t) (t_signup_requests t).
Definition set_t_checks (x : gmap string CheckRow) (t : Tables) : Tables :=
  MkTables (t_probes t) x (t_states t) (t_incidents t) (t_notifications t)
    (t_users t) (t_sessions t) (t_signup_requests t).
Definition set_t_states (x : gmap (string * string) StateRow) (t : Tables) : Tables :=
  MkTables (t_probes t) (t_checks t) x (t_incidents t) (t_notifications t)
    (t_users t) (t_sessions t) (t_signup_requests t).
Definition set_t_incidents (x : gmap Z IncidentRow) (t : Tables) : Tables :=
  MkTables (t_probes t) (t_checks t) (t_states t) x (t_notifications t)
    (t_users t) (t_sessions t) (t_signup_requests t).
Definition set_t_notifications (x : gmap Z NotificationRow) (t : Tables) : Tables :=
  MkTables (t_probes t) (t_checks t) (t_states t) (t_incidents t) x
    (t_users t) (t_sessions t) (t_signup_requests t).
Definition set_t_users (x : gmap Z UserRow) (t : Tables) : Tables :=
  MkTables (t_probes t) (t_checks t) (t_states t) (t_incidents t) (t_notifications t)
    x (t_sessions t) (t_signup_requests t).
Definition set_t_sessions (x : gmap string SessionRow) (t : Tables) : Tables :=
  MkTables (t_probes t) (t_checks t) (t_states t) (t_incidents t) (t_notifications t)
    (t_users t) x (t_signup_requests t).
Definition set_t_signup_requests (x : gmap Z SignupRow) (t : Tables) : Tables :=
  MkTables (t_probes t) (t_checks t) (t_states t) (t_incidents t) (t_notifications t)
    (t_users t) (t_sessions t) x.

(** The next values of the BIGSERIAL sequences, which transactions do not roll
    back. *)
Record Sequences := MkSequences {
  sq_incidents : Z;
  sq_notifications : Z;
  sq_users : Z;
  sq_signup_requests : Z
}.

(** The database and the position in the environment's script: [w_tick] numbers
    the requests to the environment. *)
Record World := MkWorld {
  w_tables : Tables;
  w_seqs : Sequences;
  w_tick : nat
}.

Definition set_tables (t : Tables) (w : World) : World := MkWorld t (w_seqs w) (w_tick w).
Definition set_seqs (q : Sequences) (w : World) : World := MkWorld (w_tables w) q (w_tick w).
Definition next_tick (w : World) : World := MkWorld (w_tables w) (w_seqs w) (S (w_tick w)).

Definition empty_world : World :=
  MkWorld (MkTables ∅ ∅ ∅ ∅ ∅ ∅ ∅ ∅) (MkSequences 1 1 1 1) 0.

(** * Environment *)

(** A database call can fail without reaching the server, or after the server
    did the work (the acknowledgement was lost). *)
Inductive Fault :=
| FaultBefore (msg : string)
| FaultAfter (msg : string).

(** What the [n]-th request to the environment does or returns, and the library
    and server functions the statements use. *)
Class StoreEnv : Type := {
  fault_at : nat -> option Fault;          (** the driver and the network *)
  now_at : nat -> Time;                    (** [time.Now] *)
  random_uuid_at : nat -> string;          (** [gen_random_uuid()] *)
  rand_Read : nat -> nat -> string + list Z;   (** [rand.Read]: an error or the bytes *)
  uuid_Parse : string -> option string;    (** [uuid.Parse], as canonical text *)
  timestamptz : Time -> Time;              (** a timestamp as the column keeps it *)
  jsonb_in : string -> option string;      (** [$n::jsonb], as the text it prints *)
  text_le : string -> string -> bool       (** the database's collation *)
}.

Definition uuid_Nil : string := "00000000-0000-0000-0000-000000000000".

(** Documented behaviour of these: the canonical text of a UUID parses to itself
    and holds no white space, [gen_random_uuid] gives a non-nil UUID, [rand.Read]
    fills the buffer with bytes, and storing a stored timestamp changes nothing. *)
Class StoreEnvLaws `{StoreEnv} : Prop := {
  uuid_Parse_canonical s u :
    uuid_Parse s = Some u -> uuid_Parse u = Some u /\ TrimSpace u = u /\ u <> "";
  random_uuid_canonical n :
    uuid_Parse (random_uuid_at n) = Some (random_uuid_at n) /\ random_uuid_at n <> uuid_Nil;
  rand_Read_bytes n size bytes :
    rand_Read n size = inr bytes -> length bytes = size /\ Forall (fun b => 0 <= b < 256)%Z bytes;
  timestamptz_idemp t : timestamptz (timestamptz t) = timestamptz t
}.

Definition DB (A : Type) : Type := St World A.

Definition ErrNoRows : GoError := ErrSentinel "sql: no rows in result set".

(** * Text parameters

    The server (encoding UTF8) rejects a text value that is not valid UTF-8 or
    holds a zero byte. *)
Fixpoint pg_text_ok (s : string) : bool :=
  match s with
  | EmptyString => true
  | String a s1 =>
      if (code a <? 128)%N then negb (code a =? 0)%N && pg_text_ok s1
      else match s1 with
           | String b s2 =>
               if utf8_2 (code a) (code b) then pg_text_ok s2
               else match s2 with
                    | String c s3 =>
                        if utf8_3 (code a) (code b) (code c) then pg_text_ok s3
                        else match s3 with
                             | String d s4 =>
                                 utf8_4 (code a) (code b) (code c) (code d) && pg_text_ok s4
                             | EmptyString => false
                             end
                    | EmptyString => false
                    end
           | EmptyString => false
           end
  end.

Definition err_encoding : GoError := ErrDriver "invalid byte sequence for encoding UTF8".
Definition err_int4 : GoError := ErrDriver "integer out of range for int4".
Definition err_check : GoError := ErrDriver "new row violates check constraint".
Definition err_foreign_key : GoError := ErrDriver "violates foreign key constraint".
Definition err_unique : GoError := ErrDriver "duplicate key value violates unique constraint".
Definition err_json : GoError := ErrDriver "invalid input syntax for type json".

Section calls.
Context `{Env : StoreEnv}.

(** One round trip to the server. *)
Definition call {A} (stmt : DB A) : DB A := fun w =>
  match fault_at (w_tick w) with
  | None => stmt (next_tick w)
  | Some (FaultBefore msg) => (inl (ErrDriver msg), next_tick w)
  | Some (FaultAfter msg) => (inl (ErrDriver msg), (stmt (next_tick w)).2)
  end.

(** [time.Now().UTC()] *)
Definition time_Now : DB Time := fun w => (inr (now_at (w_tick w)), next_tick w).

(** The values bound to the statement's text and integer parameters. *)
Definition params (texts : list string) (ints : list Z) : DB unit :=
  if negb (forallb pg_text_ok texts) then st_fail err_encoding
  else if negb (forallb fits_int32 ints) then st_fail err_int4
  else mret tt.

Definition get_tables : DB Tables := fun w => (inr (w_tables w), w).
Definition put_tables (t : Tables) : DB unit := fun w => (inr tt, set_tables t w).

Definition nextval_incidents : DB Z := fun w =>
  let q := w_seqs w in
  (inr (sq_incidents q),
   set_seqs (MkSequences (sq_incidents q + 1) (sq_notifications q) (sq_users q)
               (sq_signup_requests q)) w).
Definition nextval_notifications : DB Z := fun w =>
  let q := w_seqs w in
  (inr (sq_notifications q),
   set_seqs (MkSequences (sq_incidents q) (sq_notifications q + 1) (sq_users q)
               (sq_signup_requests q)) w).
Definition gen_random_uuid : DB string := fun w => (inr (random_uuid_at (w_tick w)), next_tick w).

(** A transaction: [BeginTx], the body, [Commit], with the deferred [Rollback]
    on every other way out.  A lost acknowledgement of the commit is an error
    after the commit. *)
Definition with_tx {A} (body : DB A) : DB A := fun w =>
  match call (mret tt) w with
  | (inl e, w1) => (inl e, w1)
  | (inr _, w1) =>
      match body w1 with
      | (inl e, w2) => (inl e, set_tables (w_tables w1) w2)
      | (inr a, w2) =>
          match fault_at (w_tick w2) with
          | None => (inr a, next_tick w2)
          | Some (FaultBefore msg) => (inl (ErrDriver msg), set_tables (w_tables w1) (next_tick w2))
          | Some (FaultAfter msg) => (inl (ErrDriver msg), next_tick w2)
          end
      end
  end.
End calls.

(** * Statements over a table *)

Section table.
Context `{Countable K} {V : Type}.
Implicit Types (m : gmap K V) (f : K -> V -> bool) (g : V -> V).

(** [EXISTS (SELECT ... WHERE f)] *)
Definition has_row f m : bool := existsb (fun kv => f kv.1 kv.2) (map_to_list m).

(** [SELECT ... WHERE f], in the order of the table. *)
Definition select f m : list (K * V) := List.filter (fun kv => f kv.1 kv.2) (map_to_list m).

(** [UPDATE ... SET g WHERE f] *)
Definition update_where f g m : gmap K V :=
  map_imap (fun k v => Some (if f k v then g v else v)) m.

(** [DELETE ... WHERE f] *)
Definition delete_where f m : gmap K V :=
  map_imap (fun k v => if f k v then None else Some v) m.

Lemma has_row_true f m : has_row f m = true <-> exists k v, m !! k = Some v /\ f k v = true.
Proof.
  unfold has_row. rewrite existsb_exists. split.
  - intros ([k v] & Hin & Hf). exists k, v. split; [|done].
    apply elem_of_map_to_list. by apply list_elem_of_In.
  - intros (k & v & Hl & Hf). exists (k, v). split; [|done].
    apply list_elem_of_In. by apply elem_of_map_to_list.
Qed.

Lemma has_row_false f m : has_row f m = false <-> forall k v, m !! k = Some v -> f k v = false.
Proof.
  rewrite <-not_true_iff_false, has_row_true. split.
  - intros Hn k v Hl. apply not_true_iff_false. intros Hf. apply Hn. eauto.
  - intros Hn (k & v & Hl & Hf). rewrite (Hn k v Hl) in Hf. done.
Qed.

Lemma elem_of_select f m k v : (k, v) ∈ select f m <-> m !! k = Some v /\ f k v = true.
Proof.
  unfold select. rewrite list_elem_of_In, filter_In, <-list_elem_of_In, elem_of_map_to_list. done.
Qed.

Lemma lookup_update_where f g m k :
  update_where f g m !! k = (fun v => if f k v then g v else v) <$> m !! k.
Proof. unfold update_where. rewrite map_lookup_imap. by destruct (m !! k). Qed.

Lemma lookup_update_where_Some f g m k v' :
  update_where f g m !! k = Some v' <->
  exists v, m !! k = Some v /\ v' = (if f k v then g v else v).
Proof. rewrite lookup_update_where, fmap_Some. done. Qed.

Lemma dom_update_where f g m : dom (update_where f g m) = dom m.
Proof.
  apply set_eq. intros k. rewrite !elem_of_dom, lookup_update_where. by rewrite fmap_is_Some.
Qed.

Lemma lookup_delete_where_Some f m k v :
  delete_where f m !! k = Some v <-> m !! k = Some v /\ f k v = false.
Proof.
  unfold delete_where. rewrite map_lookup_imap.
  destruct (m !! k) as [v'|]; simpl; [|split; [done|by intros [? _]]].
  destruct (f k v') eqn:Hf; split; try done.
  - intros [[= ->] ?]. congruence.
  - by intros [= ->].
  - by intros [[= ->] _].
Qed.
End table.

(** [ORDER BY] *)
Definition bool_rel {A} (le : A -> A -> bool) : relation A := fun a b => le a b = true.

#[global] Instance bool_rel_dec {A} (le : A -> A -> bool) : RelDecision (bool_rel le).
Proof. intros a b. unfold bool_rel. apply _. Defined.

Definition order_by {A} (le : A -> A -> bool) (l : list A) : list A :=
  merge_sort (bool_rel le) l.

Lemma order_by_perm {A} (le : A -> A -> bool) l : order_by le l ≡ₚ l.
Proof. apply merge_sort_Permutation. Qed.

(** The order of UUIDs is the byte order, as that of their canonical texts. *)
Definition uuid_le (a b : string) : bool := bool_decide (String.le a b).

(** Lexicographic order of two columns. *)
Definition lex_le {A B} `{EqDecision A} (le1 : A -> A -> bool) (le2 : B -> B -> bool)
    (x y : A * B) : bool :=
  if x.1 == y.1 then le2 x.2 y.2 else le1 x.1 y.1.

(** * A concrete environment

    Faults are scripted; the clock ticks a second per request; UUIDs are texts of
    the canonical shape; timestamps keep whole microseconds. *)

Definition hex_or_dash (a : ascii) : bool :=
  between 48 57 (code a) || between 97 102 (code a) || (code a =? 45)%N.

Definition canonical_shape (s : string) : bool :=
  (String.length s =? 36) && forallb hex_or_dash (String.list_ascii_of_string s) && (TrimSpace s == s).

Definition sample_uuids : list string :=
  ["6f1c2a34-0b1d-4e5f-8a9b-0c1d2e3f4a5b"; "a0b1c2d3-e4f5-4678-89ab-cdef01234567";
   "01234567-89ab-4cde-8f01-23456789abcd"].

Definition scripted_env (faults : nat -> option Fault) : StoreEnv := {|
  fault_at := faults;
  now_at n := (1000 * Second + Z.of_nat n * Second)%Z;
  random_uuid_at n := nth (n mod 3) sample_uuids uuid_Nil;
  rand_Read n size := inr (replicate size (Z.of_nat n mod 256)%Z);
  uuid_Parse s := if canonical_shape s then Some s else None;
  timestamptz t := (t / 1000 * 1000)%Z;
  jsonb_in s := Some s;
  text_le a b := bool_decide (String.le a b)
|}.

Definition calm_env : StoreEnv := scripted_env (fun _ => None).

Lemma sample_uuid_ok k :
  k < 3 -> canonical_shape (nth k sample_uuids uuid_Nil) = true /\
           nth k sample_uuids uuid_Nil <> uuid_Nil.
Proof.
  intros Hk. destruct k as [|[|[|k]]]; [..|lia];
    (split; [vm_compute; reflexivity|apply (bool_decide_unpack _); vm_compute; exact I]).
Qed.

Lemma scripted_env_laws faults : @StoreEnvLaws (scripted_env faults).
Proof.
  split.
  - intros s u. simpl. destruct (canonical_shape s) eqn:Hc; [|done]. intros [= <-]. rewrite Hc.
    unfold canonical_shape in Hc. apply andb_true_iff in Hc as [Hc Ht].
    apply bool_decide_eq_true in Ht. split_and!; [done|done|]. by intros ->.
  - intros n. destruct (sample_uuid_ok (n mod 3)) as [Hc Hn]; [by apply Nat.mod_upper_bound|].
    split; [|exact Hn].
    change ((if canonical_shape (nth (n mod 3) sample_uuids uuid_Nil)
             then Some (nth (n mod 3) sample_uuids uuid_Nil) else None)
            = Some (nth (n mod 3) sample_uuids uuid_Nil)).
    by rewrite Hc.
  - intros n size bytes. simpl. intros [= <-]. rewrite length_replicate. split; [done|].
    apply Forall_forall. intros b Hb. apply list_elem_of_In, elem_of_replicate in Hb as [-> _].
    apply Z.mod_pos_bound. lia.
  - intros t. simpl. rewrite Z.div_mul by lia. done.
Qed.
