(* ===== verification/StoreNotifications.v ===== *)
(** internal/store/incident_notifications.go: the durable webhook queue, and the
    two transactions' bodies that open and resolve an incident. *)

From S2P Require Import Prelude GoStrings Database.

Definition notificationEventDown : string := "down".
Definition notificationEventUp : string := "up".
Definition notificationStatePending : string := "pending".
Definition notificationStateProcessing : string := "processing".
Definition notificationStateRetrying : string := "retrying".
Definition notificationStateDelivered : string := "delivered".
Definition notificationStateSuperseded : string := "superseded".

Record NotificationRequest := MkNotificationRequest {
  nr_WebhookURL : string;
  nr_Payload : string
}.

#[global] Instance NotificationRequest_eq_dec : EqDecision NotificationRequest.
Proof. solve_decision. Defined.

Record IncidentNotification := MkIncidentNotification {
  in_ID : Z;
  in_State : string;
  in_Attempts : Z;
  in_LastError : string;
  in_LastAttemptAt : option Time;
  in_NextAttemptAt : option Time;
  in_DeliveredAt : option Time
}.

Record NotificationJob := MkNotificationJob {
  nj_ID : Z;
  nj_IncidentID : Z;
  nj_CheckID : string;
  nj_Event : string;
  nj_WebhookURL : string;
  nj_Payload : string;
  nj_Attempts : Z
}.

(** The table's CHECK constraints. *)
Definition event_ok (event : string) : bool := (event == "down") || (event == "up").
Definition state_ok (state : string) : bool :=
  (state == "pending") || (state == "processing") || (state == "retrying") ||
  (state == "delivered") || (state == "superseded").

Definition truncateError (message : string) : string :=
  if (len message <=? 512)%Z then message else slice_to 512 message.

(** [Valid] of a [sql.Null*] value is [Some]; a NULL string reads as "". *)
Definition scanIncidentNotification (id : option Z) (state : option string) (attempts : option Z)
    (lastError : option string) (lastAttemptAt nextAttemptAt deliveredAt : option Time)
    : option IncidentNotification :=
  match id with
  | None => None
  | Some id =>
      Some (MkIncidentNotification id (default "" state) (default 0%Z attempts)
              (default "" lastError) lastAttemptAt nextAttemptAt deliveredAt)
  end.

(** Does a notification of this incident and event exist already? *)
Definition notified (incidentID : Z) (event : string) (t : Tables) : bool :=
  has_row (fun _ n => (n_incident_id n =? incidentID)%Z && (n_event n == event)) (t_notifications t).

(** Does the check have an unresolved incident? *)
Definition is_open_of (checkID : string) (i : IncidentRow) : bool :=
  (i_check_id i == checkID) && bool_decide (i_resolved_at i = None).
Definition open_incident (checkID : string) (t : Tables) : bool :=
  has_row (fun _ i => is_open_of checkID i) (t_incidents t).

Definition set_n_state (st : string) (next : option Time) (updated : Time) (n : NotificationRow)
    : NotificationRow :=
  MkNotificationRow (n_incident_id n) (n_event n) st (n_webhook_url n) (n_payload n) (n_attempts n)
    (n_last_error n) (n_last_attempt_at n) next (n_delivered_at n) (n_created_at n) updated.

Definition set_resolved (at_ : Time) (i : IncidentRow) : IncidentRow :=
  MkIncidentRow (i_check_id i) (i_user_id i) (i_started_at i) (Some at_).

(** SQL's [a <= b] on a nullable column. *)
Definition null_le (a : option Time) (b : Time) : bool :=
  match a with Some a => (a <=? b)%Z | None => false end.

Section statements.
Context `{Env : StoreEnv}.

(** The INSERT: constraint checks, conflict, foreign key, row. *)
Definition insert_notification_row (incidentID : Z) (event webhookURL payload : string) (now : Time)
    : DB unit :=
  id ← nextval_notifications;
  t ← get_tables;
  if negb (event_ok event && state_ok notificationStatePending) then st_fail err_check
  else if notified incidentID event t then mret tt
  else if negb (bool_decide (is_Some (t_incidents t !! incidentID)))
  then st_fail err_foreign_key
  else if bool_decide (is_Some (t_notifications t !! id)) then st_fail err_unique
  else
    let now := timestamptz now in
    put_tables (set_t_notifications (<[id := MkNotificationRow incidentID event
      notificationStatePending webhookURL payload 0 None None (Some now) None
      now now]> (t_notifications t)) t).

Definition insertIncidentNotification (incidentID : Z) (event : string)
    (request : option NotificationRequest) (now : Time) : DB unit :=
  match request with
  | None => mret tt
  | Some request =>
      if (nr_WebhookURL request == "") || (len (nr_Payload request) =? 0)%Z then mret tt
      else call (
        params [event; notificationStatePending; nr_WebhookURL request; nr_Payload request] [];;
        match jsonb_in (nr_Payload request) with
        | None => st_fail err_json
        | Some payload =>
            insert_notification_row incidentID event (nr_WebhookURL request) payload now
        end)
  end.

(** [INSERT INTO incidents ... SELECT ... ON CONFLICT DO NOTHING RETURNING id];
    no row is [sql.ErrNoRows]. *)
Definition insert_incident_row (checkID : string) (now : Time) : DB (option Z) :=
  t ← get_tables;
  match t_checks t !! checkID with
  | None => mret None
  | Some c =>
      if bool_decide (is_Some (c_deleted_at c)) then mret None
      else
        id ← nextval_incidents;
        if open_incident checkID t then mret None
        else if bool_decide (is_Some (t_incidents t !! id)) then st_fail err_unique
        else
          put_tables (set_t_incidents
            (<[id := MkIncidentRow checkID (c_user_id c) (timestamptz now) None]> (t_incidents t)) t);;
          mret (Some id)
  end.

(** The result is [alreadyOpen]. *)
Definition openIncidentWithNotificationByCheckIDTx (checkID : string)
    (request : option NotificationRequest) (now : Time) : DB bool :=
  row ← call (insert_incident_row checkID now);
  match row with
  | None => mret true
  | Some incidentID =>
      insertIncidentNotification incidentID notificationEventDown request now;;
      mret false
  end.

Definition resolve_incidents (checkID : string) (at_ : Time) (t : Tables) : Tables :=
  set_t_incidents (update_where (fun _ i => is_open_of checkID i) (set_resolved at_)
                     (t_incidents t)) t.

(** [UPDATE incidents ... RETURNING id], of which [Scan] reads the first row. *)
Definition resolve_open_row (checkID : string) (now : Time) : DB (option Z) :=
  t ← get_tables;
  put_tables (resolve_incidents checkID (timestamptz now) t);;
  mret (head (select (fun _ i => is_open_of checkID i) (t_incidents t)).*1).

Definition supersede_down (incidentID : Z) (at_ : Time) (t : Tables) : Tables :=
  set_t_notifications
    (update_where
       (fun _ n => (n_incident_id n =? incidentID)%Z && (n_event n == notificationEventDown) &&
                   (n_state n != notificationStateDelivered))
       (set_n_state notificationStateSuperseded None at_)
       (t_notifications t)) t.

(** The result is whether an incident was resolved. *)
Definition resolveIncidentWithNotificationByCheckIDTx (checkID : string)
    (request : option NotificationRequest) (now : Time) : DB bool :=
  row ← call (resolve_open_row checkID now);
  match row with
  | None => mret false
  | Some incidentID =>
      call (t ← get_tables; put_tables (supersede_down incidentID (timestamptz now) t));;
      insertIncidentNotification incidentID notificationEventUp request now;;
      mret true
  end.

(** The [due] rows: the WHERE clause with its joins. *)
Definition due_row (now staleBefore : Time) (t : Tables) (n : NotificationRow) : bool :=
  match t_incidents t !! n_incident_id n with
  | None => false
  | Some i =>
      bool_decide (is_Some (t_checks t !! i_check_id i)) &&
      ((((n_state n == notificationStatePending) || (n_state n == notificationStateRetrying)) &&
        null_le (n_next_attempt_at n) (timestamptz now)) ||
       ((n_state n == notificationStateProcessing) &&
        null_le (n_last_attempt_at n) (timestamptz staleBefore))) &&
      negb ((n_event n == notificationEventDown) && bool_decide (is_Some (i_resolved_at i)))
  end.

(** [ORDER BY next_attempt_at ASC, id ASC]; NULLs sort last. *)
Definition due_le (a b : Z * NotificationRow) : Prop :=
  match n_next_attempt_at a.2, n_next_attempt_at b.2 with
  | Some x, Some y => (x < y \/ x = y /\ a.1 <= b.1)%Z
  | Some _, None => True
  | None, Some _ => False
  | None, None => (a.1 <= b.1)%Z
  end.

#[global] Instance due_le_dec : RelDecision due_le.
Proof. intros [i a] [j b]. unfold due_le. simpl. repeat case_match; apply _. Defined.

Definition claim_row (now : Time) (n : NotificationRow) : NotificationRow :=
  MkNotificationRow (n_incident_id n) (n_event n) notificationStateProcessing (n_webhook_url n)
    (n_payload n) (n_attempts n + 1) (n_last_error n) (Some (timestamptz now)) (n_next_attempt_at n)
    (n_delivered_at n) (n_created_at n) (timestamptz now).

Definition job_of (t : Tables) (id : Z) (n : NotificationRow) : NotificationJob :=
  MkNotificationJob id (n_incident_id n)
    (default "" (i_check_id <$> t_incidents t !! n_incident_id n))
    (n_event n) (n_webhook_url n) (n_payload n) (n_attempts n).

(** The [due] subquery. *)
Definition due_rows (now staleBefore : Time) (limit : Z) (t : Tables) : list (Z * NotificationRow) :=
  take (Z.to_nat limit)
    (merge_sort due_le (select (fun _ n => due_row now staleBefore t n) (t_notifications t))).

(** The rows are listed in the order of [due]; RETURNING promises none. *)
Definition ClaimDueIncidentNotifications (now staleBefore : Time) (limit : Z)
    : DB (list NotificationJob) :=
  let limit := if (limit <=? 0)%Z then 1%Z else limit in
  call (
    t ← get_tables;
    let due := due_rows now staleBefore limit t in
    if negb (forallb (fun kn => fits_int32 (n_attempts kn.2 + 1)) due) then st_fail err_int4
    else
      put_tables (set_t_notifications
        (update_where (fun id _ => bool_decide (id ∈ due.*1)) (claim_row now) (t_notifications t)) t);;
      mret ((fun kn => job_of t kn.1 (claim_row now kn.2)) <$> due)).

Definition deliver_row (at_ : Time) (n : NotificationRow) : NotificationRow :=
  MkNotificationRow (n_incident_id n) (n_event n) notificationStateDelivered (n_webhook_url n)
    (n_payload n) (n_attempts n) None (n_last_attempt_at n) None (Some at_) (n_created_at n) at_.

Definition MarkIncidentNotificationDelivered (id : Z) (deliveredAt : Time) : DB unit :=
  call (
    t ← get_tables;
    put_tables (set_t_notifications
      (update_where (fun k n => (k =? id)%Z && (n_state n == notificationStateProcessing))
         (deliver_row (timestamptz deliveredAt)) (t_notifications t)) t)).

(** Is the page superseded, or about an outage that is over? *)
Definition outdated (t : Tables) (n : NotificationRow) : bool :=
  (n_state n == notificationStateSuperseded) ||
  ((n_event n == notificationEventDown) &&
   bool_decide (is_Some (t_incidents t !! n_incident_id n ≫= i_resolved_at))).

Definition retry_row (superseded : bool) (attemptedAt nextAttemptAt : Time) (lastError : string)
    (n : NotificationRow) : NotificationRow :=
  MkNotificationRow (n_incident_id n) (n_event n)
    (if superseded then notificationStateSuperseded else notificationStateRetrying)
    (n_webhook_url n) (n_payload n) (n_attempts n) (Some lastError) (n_last_attempt_at n)
    (if superseded then None else Some nextAttemptAt)
    (n_delivered_at n) (n_created_at n) attemptedAt.

(** The number of affected rows is read and ignored. *)
Definition MarkIncidentNotificationRetry (id : Z) (attemptedAt nextAttemptAt : Time)
    (lastError : string) : DB unit :=
  call (
    params [truncateError lastError] [];;
    t ← get_tables;
    put_tables (set_t_notifications
      (update_where
         (fun k n => (k =? id)%Z && bool_decide (is_Some (t_incidents t !! n_incident_id n)) &&
                     (n_state n != notificationStateDelivered))
         (fun n => retry_row (outdated t n) (timestamptz attemptedAt) (timestamptz nextAttemptAt)
                     (truncateError lastError) n)
         (t_notifications t)) t)).
End statements.
