(* ===== verification/StoreMonitoring.v ===== *)
(** internal/store/monitoring.go and check_identity.go, with
    [updateProbeHeartbeatTx] of probes.go: current-state rows, probe heartbeats
    and incidents written in one transaction, and the reads recovery needs. *)

From S2P Require Import Prelude GoStrings Database StoreNotifications.

Definition ErrInvalidMonitoringProbeWrite : GoError :=
  ErrSentinel "store: invalid monitoring probe write".
Definition ErrInvalidMonitoringIncidentWrite : GoError :=
  ErrSentinel "store: invalid monitoring incident write".
Definition ErrInvalidMonitoringCheckStateWrite : GoError :=
  ErrSentinel "store: invalid monitoring check state write".
Definition ErrInvalidCheckID : GoError := ErrSentinel "store: invalid check id".

Record CheckStateWrite := MkCheckStateWrite {
  csw_CheckID : string;
  csw_ProbeID : string;
  csw_LastResultAt : Time;
  csw_LastOutcome : string;
  csw_StreakLen : Z;
  csw_ExpiresAt : Time;
  csw_State : string;
  csw_LastError : string
}.

Record PersistedProbeState := MkPersistedProbeState {
  pps_ProbeID : string;
  pps_LastSeenAt : option Time
}.

Record PersistedCheckState := MkPersistedCheckState {
  pcs_CheckID : string;
  pcs_ProbeID : string;
  pcs_LastResultAt : Time;
  pcs_LastOutcome : string;
  pcs_StreakLen : Z;
  pcs_ExpiresAt : Time;
  pcs_State : string;
  pcs_LastError : string
}.

Record MonitoringWrite := MkMonitoringWrite {
  mw_CheckStateWrites : list CheckStateWrite;
  mw_ProbeHeartbeatID : string;
  mw_ProbeHeartbeatAt : Time;
  mw_IncidentCheckID : string;
  mw_ResolveIncident : bool;
  mw_IncidentNotification : option NotificationRequest
}.

#[global] Instance CheckStateWrite_eq_dec : EqDecision CheckStateWrite.
Proof. solve_decision. Defined.
#[global] Instance MonitoringWrite_eq_dec : EqDecision MonitoringWrite.
Proof. solve_decision. Defined.

Definition zeroMonitoringWrite : MonitoringWrite :=
  MkMonitoringWrite [] "" zeroTime "" false None.

(** CHECK constraints of check_probe_state. *)
Definition last_outcome_ok (o : string) : bool :=
  (o == "") || (o == "up") || (o == "down") || (o == "error").
Definition check_state_ok (s : string) : bool :=
  (s == "up") || (s == "down") || (s == "missing") || (s == "error").

Section store.
Context `{Env : StoreEnv}.

(** * Identities and times *)

Definition normalizeCheckID (id : string) : GoError + string :=
  let id := TrimSpace id in
  if id == "" then inl (Wrapf "missing value" ErrInvalidCheckID)
  else match uuid_Parse id with
       | None => inl (Wrapf id ErrInvalidCheckID)
       | Some parsed =>
           if parsed == uuid_Nil then inl (Wrapf id ErrInvalidCheckID) else inr parsed
       end.

Definition normalizeTime (t : Time) : DB Time :=
  if IsZero t then time_Now else mret (UTC t).

Definition normalizeCheckStateWrite (state : CheckStateWrite) : DB CheckStateWrite :=
  let checkID := TrimSpace (csw_CheckID state) in
  let probeID := TrimSpace (csw_ProbeID state) in
  let lastOutcome := TrimSpace (csw_LastOutcome state) in
  let st := TrimSpace (csw_State state) in
  let lastError := TrimSpace (csw_LastError state) in
  if (checkID == "") || (probeID == "") || (st == "") || (csw_StreakLen state <? 0)%Z
  then st_fail ErrInvalidMonitoringCheckStateWrite
  else if (lastOutcome == "") && (st != "missing")
  then st_fail ErrInvalidMonitoringCheckStateWrite
  else
    lastResultAt ← normalizeTime (csw_LastResultAt state);
    let expiresAt :=
      if IsZero (csw_ExpiresAt state) then lastResultAt else UTC (csw_ExpiresAt state) in
    mret (MkCheckStateWrite checkID probeID lastResultAt lastOutcome (csw_StreakLen state)
            expiresAt st lastError).

(** * Transaction bodies *)

Definition set_csw_CheckID (id : string) (s : CheckStateWrite) : CheckStateWrite :=
  MkCheckStateWrite id (csw_ProbeID s) (csw_LastResultAt s) (csw_LastOutcome s) (csw_StreakLen s)
    (csw_ExpiresAt s) (csw_State s) (csw_LastError s).

Definition state_row (s : CheckStateWrite) : StateRow :=
  MkStateRow (timestamptz (csw_LastResultAt s)) (csw_LastOutcome s) (csw_StreakLen s)
    (timestamptz (csw_ExpiresAt s)) (csw_State s) (csw_LastError s).

Definition upsertCheckStateTx (state : CheckStateWrite) : DB CheckStateWrite :=
  state ← normalizeCheckStateWrite state;
  match normalizeCheckID (csw_CheckID state) with
  | inl _ => st_fail ErrInvalidMonitoringCheckStateWrite
  | inr checkID =>
      let state := set_csw_CheckID checkID state in
      call (
        params [csw_ProbeID state; csw_LastOutcome state; csw_State state; csw_LastError state]
          [csw_StreakLen state];;
        t ← get_tables;
        if negb (last_outcome_ok (csw_LastOutcome state) && check_state_ok (csw_State state) &&
                 (0 <=? csw_StreakLen state)%Z)
        then st_fail err_check
        else if negb (bool_decide (is_Some (t_checks t !! checkID))) then st_fail err_foreign_key
        else put_tables (set_t_states
               (<[(checkID, csw_ProbeID state) := state_row state]> (t_states t)) t));;
      mret state
  end.

(** probes.go *)
Definition updateProbeHeartbeatTx (probeID : string) (at_ : Time) : DB Time :=
  heartbeatAt ← normalizeTime at_;
  call (
    params [probeID] [];;
    t ← get_tables;
    put_tables (set_t_probes
      (update_where (fun k p => (k == probeID) && bool_decide (p_revoked_at p = None))
         (fun p => MkProbeRow (p_secret_hash p) (p_provisioned_by p) (p_version p) (p_created_at p)
            (p_registered_at p) (Some (timestamptz heartbeatAt)) (p_revoked_at p))
         (t_probes t)) t));;
  mret heartbeatAt.

Definition applyMonitoringIncidentTx (checkID : string) (resolve : bool)
    (request : option NotificationRequest) : DB bool :=
  if checkID == "" then mret false
  else match normalizeCheckID checkID with
  | inl _ => st_fail ErrInvalidMonitoringIncidentWrite
  | inr checkID =>
      now ← time_Now;
      if resolve then resolveIncidentWithNotificationByCheckIDTx checkID request now
      else
        alreadyOpen ← openIncidentWithNotificationByCheckIDTx checkID request now;
        mret (negb alreadyOpen)
  end.

(** The checks [PersistMonitoringBatch] and [persistMonitoringWriteTx] both make. *)
Definition validateMonitoringWrite (write : MonitoringWrite) : DB unit :=
  if (mw_ProbeHeartbeatID write == "") && negb (IsZero (mw_ProbeHeartbeatAt write))
  then st_fail ErrInvalidMonitoringProbeWrite
  else if (mw_IncidentCheckID write == "") &&
          (mw_ResolveIncident write || bool_decide (is_Some (mw_IncidentNotification write)))
  then st_fail ErrInvalidMonitoringIncidentWrite
  else st_for (mw_CheckStateWrites write) (fun state => normalizeCheckStateWrite state;; mret tt).

Definition write_nonempty (write : MonitoringWrite) : bool :=
  negb (bool_decide (mw_CheckStateWrites write = [])) ||
  (mw_ProbeHeartbeatID write != "") || (mw_IncidentCheckID write != "").

Definition persistMonitoringWriteTx (write : MonitoringWrite) : DB MonitoringWrite :=
  validateMonitoringWrite write;;
  if negb (write_nonempty write) then mret zeroMonitoringWrite
  else
    saved ← st_collect (mw_CheckStateWrites write) upsertCheckStateTx;
    heartbeatAt ←
      (if mw_ProbeHeartbeatID write != ""
       then updateProbeHeartbeatTx (mw_ProbeHeartbeatID write) (mw_ProbeHeartbeatAt write)
       else mret (mw_ProbeHeartbeatAt write));
    applyMonitoringIncidentTx (mw_IncidentCheckID write) (mw_ResolveIncident write)
      (mw_IncidentNotification write);;
    mret (MkMonitoringWrite saved (mw_ProbeHeartbeatID write) heartbeatAt
            (mw_IncidentCheckID write) (mw_ResolveIncident write) (mw_IncidentNotification write)).

(** * Operations *)

Definition PersistMonitoringBatch (writes : list MonitoringWrite) : DB (list MonitoringWrite) :=
  st_for writes validateMonitoringWrite;;
  if negb (existsb write_nonempty writes) then mret []
  else with_tx (st_collect writes persistMonitoringWriteTx).

Definition PersistMonitoringWrite (write : MonitoringWrite) : DB MonitoringWrite :=
  writes ← PersistMonitoringBatch [write];
  mret (default zeroMonitoringWrite (head writes)).

Definition RecoverableProbeStates : DB (list PersistedProbeState) :=
  call (
    t ← get_tables;
    mret ((fun kp => MkPersistedProbeState kp.1 (p_last_seen_at kp.2)) <$>
      order_by (fun a b => text_le a.1 b.1)
        (select (fun _ p => bool_decide (p_revoked_at p = None)) (t_probes t)))).

(** [rows.Scan]; the INTEGER column fits Go's [int]. *)
Definition scan_state (ks : (string * string) * StateRow) : PersistedCheckState :=
  MkPersistedCheckState ks.1.1 ks.1.2 (s_last_result_at ks.2) (s_last_outcome ks.2)
    (s_streak_len ks.2) (s_expires_at ks.2) (s_state ks.2) (s_last_error ks.2).

Definition PersistedCheckStates : DB (list PersistedCheckState) :=
  call (
    t ← get_tables;
    mret (scan_state <$>
      order_by (fun a b => lex_le uuid_le text_le a.1 b.1) (map_to_list (t_states t)))).

Definition active_check (t : Tables) (checkID : string) : bool :=
  match t_checks t !! checkID with
  | Some c => bool_decide (c_deleted_at c = None)
  | None => false
  end.

Definition OpenIncidentCheckIDs : DB (list string) :=
  call (
    t ← get_tables;
    mret (order_by uuid_le
      ((fun ki => i_check_id ki.2) <$>
       select (fun _ i => bool_decide (i_resolved_at i = None) && active_check t (i_check_id i))
         (t_incidents t)))).
End store.
