(* ===== verification/StoreChecks.v ===== *)
(** internal/store/store.go: check definitions, incident history and the
    metadata of the status pages. *)

From S2P Require Import Prelude GoStrings Types Database StoreNotifications StoreMonitoring.

Record StatusCheckView := MkStatusCheckView {
  sv_CheckID : string;
  sv_CheckName : string;
  sv_Target : string;
  sv_IncidentSince : option Time
}.

Record PublicStatusCheckView := MkPublicStatusCheckView {
  pv_CheckID : string;
  pv_CheckName : string;
  pv_IncidentSince : option Time
}.

Record Incident := MkIncident {
  inc_ID : Z;
  inc_CheckID : string;
  inc_CheckName : string;
  inc_StartedAt : Time;
  inc_ResolvedAt : option Time;
  inc_DownNotification : option IncidentNotification;
  inc_UpNotification : option IncidentNotification
}.

Definition is_active (c : CheckRow) : bool := bool_decide (c_deleted_at c = None).

(** [WHERE name = $1 AND user_id = $2 AND deleted_at IS NULL] *)
Definition owned_by (userID : Z) (c : CheckRow) : bool := bool_decide (c_user_id c = Some userID).
Definition named (name : string) (userID : Z) (c : CheckRow) : bool :=
  (c_name c == name) && owned_by userID c && is_active c.

(** The unique index on [(COALESCE(user_id, 0), name) WHERE deleted_at IS NULL]. *)
Definition name_taken (user : option Z) (name : string) (t : Tables) : bool :=
  has_row (fun _ c => is_active c && (default 0%Z (c_user_id c) =? default 0%Z user)%Z &&
                      (c_name c == name)) (t_checks t).

Definition scanCheck (row : string * CheckRow) : Check :=
  let '(id, c) := row in
  MkCheck id (c_name c) (c_type c) (c_target c) (c_webhook c) (c_interval_seconds c).

(** [LEFT JOIN]: the matching rows, or one NULL row. *)
Definition left_join {A} (rows : list A) : list (option A) :=
  match rows with [] => [None] | _ => Some <$> rows end.

Section store.
Context `{Env : StoreEnv}.

Definition check_order (a b : string * CheckRow) : bool :=
  lex_le text_le uuid_le (c_name a.2, a.1) (c_name b.2, b.1).

(** [INSERT INTO checks]; [on_conflict] is what a unique violation does. *)
Definition insert_check (c : Check) (user : option Z) (on_conflict : DB (option string))
    : DB (option string) :=
  params [ck_Name c; ck_Type c; ck_Target c; ck_Webhook c] (ck_Interval c :: option_list user);;
  id ← gen_random_uuid;
  t ← get_tables;
  if bool_decide (is_Some (t_checks t !! id)) || name_taken user (ck_Name c) t then on_conflict
  else
    put_tables (set_t_checks (<[id := MkCheckRow (ck_Name c) (ck_Type c) (ck_Target c)
      (ck_Webhook c) user (ck_Interval c) None]> (t_checks t)) t);;
    mret (Some id).

Definition SeedChecks (checks : list Check) (userID : Z) : DB unit :=
  st_for checks (fun c =>
    call (insert_check c (if (userID =? 0)%Z then None else Some userID) (mret None));; mret tt).

Definition ListChecks (userID : Z) : DB (list Check) :=
  call (
    params [] [userID];;
    t ← get_tables;
    mret (scanCheck <$> order_by check_order
            (select (fun _ c => owned_by userID c && is_active c) (t_checks t)))).

Definition ListAllChecks : DB (list Check) :=
  call (
    t ← get_tables;
    mret (scanCheck <$> order_by check_order (select (fun _ c => is_active c) (t_checks t)))).

Definition GetCheckByName (name : string) (userID : Z) : DB (option Check) :=
  call (
    params [name] [userID];;
    t ← get_tables;
    mret (scanCheck <$> head (select (fun _ c => named name userID c) (t_checks t)))).

Definition GetCheckByID (id : string) : DB (option Check) :=
  match normalizeCheckID id with
  | inl e => st_fail e
  | inr id =>
      call (
        t ← get_tables;
        mret (scanCheck <$> head (select (fun k c => (k == id) && is_active c) (t_checks t))))
  end.

Definition set_ck_ID (id : string) (c : Check) : Check :=
  MkCheck id (ck_Name c) (ck_Type c) (ck_Target c) (ck_Webhook c) (ck_Interval c).

Definition CreateCheck (c : Check) (userID : Z) : DB Check :=
  id ← call (insert_check c (Some userID) (st_fail err_unique));
  mret (set_ck_ID (default "" id) c).

Definition UpdateCheck (c : Check) (userID : Z) : DB unit :=
  call (
    params [ck_Type c; ck_Target c; ck_Webhook c; ck_Name c] [ck_Interval c; userID];;
    t ← get_tables;
    put_tables (set_t_checks
      (update_where (fun _ row => named (ck_Name c) userID row)
         (fun row => MkCheckRow (c_name row) (ck_Type c) (ck_Target c) (ck_Webhook c)
            (c_user_id row) (ck_Interval c) (c_deleted_at row))
         (t_checks t)) t)).

(** The four writes of [DeleteCheck] for a check that exists. *)
Definition supersede_all (checkID : string) (now : Time) : DB unit :=
  t ← get_tables;
  put_tables (set_t_notifications
    (update_where
       (fun _ n => bool_decide (i_check_id <$> t_incidents t !! n_incident_id n = Some checkID) &&
                   negb ((n_state n == notificationStateSuperseded) ||
                         (n_state n == notificationStateDelivered)))
       (set_n_state notificationStateSuperseded None (timestamptz now))
       (t_notifications t)) t).

Definition resolve_all (checkID : string) (now : Time) : DB unit :=
  t ← get_tables;
  put_tables (resolve_incidents checkID (timestamptz now) t).

Definition delete_states (checkID : string) : DB unit :=
  t ← get_tables;
  put_tables (set_t_states (delete_where (fun k _ => k.1 == checkID) (t_states t)) t).

Definition mark_deleted (checkID : string) (now : Time) : DB unit :=
  t ← get_tables;
  put_tables (set_t_checks
    (update_where (fun k _ => k == checkID)
       (fun c => MkCheckRow (c_name c) (c_type c) (c_target c) (c_webhook c) (c_user_id c)
          (c_interval_seconds c) (Some (timestamptz now)))
       (t_checks t)) t).

Definition DeleteCheck (name : string) (userID : Z) : DB (bool * string) :=
  with_tx (
    row ← call (
      params [name] [userID];;
      t ← get_tables;
      mret (head (select (fun _ c => named name userID c) (t_checks t)).*1));
    match row with
    | None => mret (false, "")
    | Some checkID =>
        now ← time_Now;
        call (supersede_all checkID now);;
        call (resolve_all checkID now);;
        call (delete_states checkID);;
        call (mark_deleted checkID now);;
        mret (true, checkID)
    end).

(** * Reads for the API *)

Definition open_rows (checkID : string) (t : Tables) : list (Z * IncidentRow) :=
  select (fun _ i => is_open_of checkID i) (t_incidents t).

Definition status_rows (userID : Z) (t : Tables) : list (string * CheckRow * option Time) :=
  flat_map (fun kc => map (fun i => (kc, option_map (fun ki => i_started_at ki.2) i))
                       (left_join (open_rows kc.1 t)))
    (order_by check_order (select (fun _ c => owned_by userID c && is_active c) (t_checks t))).

Definition StatusCheckViews (userID : Z) : DB (list StatusCheckView) :=
  call (
    params [] [userID];;
    t ← get_tables;
    mret ((fun '(id, c, since) => MkStatusCheckView id (c_name c) (c_target c) since) <$>
            status_rows userID t)).

(** The boolean tells an empty page from an unknown slug. *)
Definition PublicStatusCheckViews (slug : string) : DB (list PublicStatusCheckView * bool) :=
  user ← call (
    params [slug] [];;
    t ← get_tables;
    mret (head (select (fun _ u => u_public_status_slug u == slug) (t_users t)).*1));
  match user with
  | None => mret ([], false)
  | Some userID =>
      rows ← call (
        params [] [userID];;
        t ← get_tables;
        mret (status_rows userID t));
      mret ((fun '(id, c, since) => MkPublicStatusCheckView id (c_name c) since) <$> rows, true)
  end.

Definition notification_rows (incidentID : Z) (event : string) (t : Tables)
    : list (option (Z * NotificationRow)) :=
  left_join (select (fun _ n => (n_incident_id n =? incidentID)%Z && (n_event n == event))
               (t_notifications t)).

Definition scan_joined (r : option (Z * NotificationRow)) : option IncidentNotification :=
  let n := snd <$> r in
  scanIncidentNotification (fst <$> r) (n_state <$> n) (n_attempts <$> n)
    (n ≫= n_last_error) (n ≫= n_last_attempt_at) (n ≫= n_next_attempt_at) (n ≫= n_delivered_at).

Definition incident_rows (t : Tables) (ki : Z * IncidentRow) : list Incident :=
  flat_map (fun c =>
    flat_map (fun down =>
      map (fun up =>
        MkIncident ki.1 (i_check_id ki.2) (c_name c) (i_started_at ki.2) (i_resolved_at ki.2)
          (scan_joined down) (scan_joined up))
        (notification_rows ki.1 notificationEventUp t))
      (notification_rows ki.1 notificationEventDown t))
    (option_list (t_checks t !! i_check_id ki.2)).

(** Incidents with equal start times come in an unspecified order. *)
Definition ListIncidents (userID : Z) (limit : Z) : DB (list Incident) :=
  call (
    params [] [userID];;
    if (limit <? 0)%Z then st_fail (ErrDriver "LIMIT must not be negative")
    else
      t ← get_tables;
      mret (take (Z.to_nat limit) (flat_map (incident_rows t)
        (order_by (fun a b => (i_started_at b.2 <=? i_started_at a.2)%Z)
           (select (fun _ i => bool_decide (i_user_id i = Some userID)) (t_incidents t)))))).
End store.
