(* ===== verification/StatusView.v ===== *)
(** internal/server/status_view.go: the status pages. *)

From S2P Require Import Prelude GoStrings GoTime Types Database StoreNotifications StoreMonitoring StoreChecks.
From S2P Require Import ProbeMachine QuorumMachine Runtime.

Class StatusViewStore (W : Type) : Type := {
  store_StatusCheckViews : Z -> St W (list StatusCheckView);
  store_PublicStatusCheckViews : string -> St W (list PublicStatusCheckView * bool)
}.

Record statusCheckDTO := MkStatusCheckDTO {
  sc_CheckID : string;
  sc_CheckName : string;
  sc_Target : string;
  sc_Status : string;
  sc_IncidentSince : option string
}.

Record statusProbeDTO := MkStatusProbeDTO {
  spd_ProbeID : string;
  spd_Status : string;
  spd_Online : bool;
  spd_LastSeenAt : option string;
  spd_LastError : string
}.

Definition formatOptionalTimestamp (ts : option Time) : option string := format_RFC3339 <$> ts.

(** [quorumByCheckID]: a missing key reads as the zero value, whose state is "". *)
Definition quorum_index (quorums : list CheckQuorumState) : gmap string CheckQuorumState :=
  foldl (fun m quorum => <[cq_CheckID quorum := quorum]> m) ∅ quorums.
Definition indexed_state (m : gmap string CheckQuorumState) (checkID : string) : string :=
  match m !! checkID with Some quorum => cq_State quorum | None => "" end.

Definition probe_item (probe : ProbeRuntimeState) : statusProbeDTO :=
  MkStatusProbeDTO (pr_ProbeID probe) (pr_State probe) (pr_State probe == ProbeStateOnline)
    (formatOptionalTimestamp (pr_LastHeartbeatAt probe)) (pr_LastError probe).

Section views.
Context `{SV : StatusViewStore W}.

Definition buildAuthenticatedStatusResponse (runtime : option Runtime) (userID : Z)
    : St (option W) (list statusCheckDTO * list statusProbeDTO) := fun st =>
  match runtime, st with
  | None, _ => (inl (Errorf "monitoring runtime is required"), st)
  | Some _, None => (inl (Errorf "status store is required"), st)
  | Some r, Some w =>
      match store_StatusCheckViews userID w with
      | (inl e, w') => (inl e, Some w')
      | (inr views, w') =>
          let quorums := quorum_index (QuorumSnapshots (sv_CheckID <$> views) r) in
          let checks := (fun view => MkStatusCheckDTO (sv_CheckID view) (sv_CheckName view)
            (sv_Target view) (indexed_state quorums (sv_CheckID view))
            (formatOptionalTimestamp (sv_IncidentSince view))) <$> views in
          (inr (checks, probe_item <$> ProbeSnapshots r), Some w')
      end
  end.

Definition buildPublicStatusResponse (runtime : option Runtime) (slug : string)
    : St (option W) (list statusCheckDTO * bool) := fun st =>
  match runtime, st with
  | None, _ => (inl (Errorf "monitoring runtime is required"), st)
  | Some _, None => (inl (Errorf "status store is required"), st)
  | Some r, Some w =>
      match store_PublicStatusCheckViews slug w with
      | (inl e, w') => (inl e, Some w')
      | (inr (views, false), w') => (inr ([], false), Some w')
      | (inr (views, true), w') =>
          let quorums := quorum_index (QuorumSnapshots (pv_CheckID <$> views) r) in
          let checks := (fun view => MkStatusCheckDTO (pv_CheckID view) (pv_CheckName view) ""
            (indexed_state quorums (pv_CheckID view))
            (formatOptionalTimestamp (pv_IncidentSince view))) <$> views in
          (inr (checks, true), Some w')
      end
  end.
End views.
