(* ===== verification/StoreProbes.v ===== *)
(** internal/store/probes.go: probe credentials and registration, with
    [randomHexToken] of auth.go.  ([updateProbeHeartbeatTx] is in
    StoreMonitoring.v.) *)

From S2P Require Import Prelude GoStrings Sha256 Database.
From Stdlib Require Import Ascii NArith.

Definition ErrInvalidProbeID : GoError := ErrSentinel "store: invalid probe id".
Definition ErrProbeAlreadyExists : GoError := ErrSentinel "store: probe id already exists".

Record ProbeSeed := MkProbeSeed { sd_ProbeID : string; sd_Secret : string }.
Record ProbeCredential := MkProbeCredential { pcr_ProbeID : string; pcr_Secret : string }.
Record Probe := MkProbe {
  pb_ProbeID : string;
  pb_Version : string;
  pb_RegisteredAt : option Time;
  pb_LastSeenAt : option Time
}.

(** [^[A-Za-z0-9][A-Za-z0-9._-]{0,63}$] *)
Definition alnum (a : ascii) : bool :=
  between 65 90 (code a) || between 97 122 (code a) || between 48 57 (code a).
Definition id_char (a : ascii) : bool :=
  alnum a || (code a =? 46)%N || (code a =? 95)%N || (code a =? 45)%N.
Fixpoint id_tail (s : string) : bool :=
  match s with EmptyString => true | String a s => id_char a && id_tail s end.
Definition probeIDPattern_Match (s : string) : bool :=
  match s with
  | EmptyString => false
  | String a s => alnum a && id_tail s && (String.length s <=? 63)
  end.

Definition hashProbeSecret (secret : string) : string := sha256_hex secret.

Section probes.
Context `{Env : StoreEnv}.

Definition randomHexToken (size : nat) : DB string := fun w =>
  match rand_Read (w_tick w) size with
  | inl msg => (inl (ErrDriver msg), next_tick w)
  | inr bytes => (inr (hex_encode bytes), next_tick w)
  end.

(** [INSERT ... ON CONFLICT (probe_id) DO UPDATE] *)
Definition seed_row (hash : string) (now : Time) (row : option ProbeRow) : ProbeRow :=
  match row with
  | None => MkProbeRow hash "config" "" (timestamptz now) None None None
  | Some p => MkProbeRow hash "config" (p_version p) (p_created_at p) (p_registered_at p)
                (p_last_seen_at p) None
  end.

Definition seed_probe (seed : ProbeSeed) (now : Time) : DB unit :=
  params [sd_ProbeID seed; hashProbeSecret (sd_Secret seed)] [];;
  t ← get_tables;
  put_tables (set_t_probes
    (<[sd_ProbeID seed := seed_row (hashProbeSecret (sd_Secret seed)) now (t_probes t !! sd_ProbeID seed)]>
       (t_probes t)) t).

Definition revoke_row (now : Time) (p : ProbeRow) : ProbeRow :=
  MkProbeRow (p_secret_hash p) (p_provisioned_by p) (p_version p) (p_created_at p)
    (p_registered_at p) (p_last_seen_at p) (Some (timestamptz now)).

Definition revoke_probe (probeID : string) (now : Time) : DB unit :=
  params [probeID] [];;
  t ← get_tables;
  put_tables (set_t_probes
    (update_where (fun k _ => k == probeID) (revoke_row now) (t_probes t)) t).

(** The rows are read at once; the statements of the loop run on another
    connection. *)
Definition SeedProbes (probes : list ProbeSeed) : DB unit :=
  if bool_decide (length probes = 0) then mret tt
  else
    st_for probes (fun probe => now ← time_Now; call (seed_probe probe now));;
    ids ← call (t ← get_tables;
                mret (select (fun _ p => p_provisioned_by p == "config") (t_probes t)).*1);
    st_for ids (fun probeID =>
      if bool_decide (probeID ∈ sd_ProbeID <$> probes) then mret tt
      else now ← time_Now; call (revoke_probe probeID now)).

(** [INSERT ... ON CONFLICT DO NOTHING RETURNING probe_id]; no row is
    [sql.ErrNoRows]. *)
Definition insert_probe (probeID hash : string) (now : Time) : DB (option string) :=
  params [probeID; hash] [];;
  t ← get_tables;
  if bool_decide (is_Some (t_probes t !! probeID)) then mret None
  else
    put_tables (set_t_probes
      (<[probeID := MkProbeRow hash "api" "" (timestamptz now) None None None]> (t_probes t)) t);;
    mret (Some probeID).

Definition insertProbeCredential (probeID : string) : DB ProbeCredential :=
  let probeID := TrimSpace probeID in
  if negb (probeIDPattern_Match probeID) then st_fail (Wrapf probeID ErrInvalidProbeID)
  else
    secret ← randomHexToken 32;
    now ← time_Now;
    inserted ← call (insert_probe probeID (hashProbeSecret secret) now);
    match inserted with
    | None => st_fail ErrProbeAlreadyExists
    | Some probeID => mret (MkProbeCredential probeID secret)
    end.

Definition randomProbeID : DB string :=
  suffix ← randomHexToken 6;
  mret ("probe-" +:+ suffix).

(** [continue] if the ID is taken, [return] otherwise. *)
Definition if_taken (insert again : DB ProbeCredential) : DB ProbeCredential := fun w =>
  match insert w with
  | (inl e, w') => if errors_Is e ErrProbeAlreadyExists then again w' else (inl e, w')
  | (inr credential, w') => (inr credential, w')
  end.

(** The loop; [fuel] is its bound. *)
Fixpoint generate_credential (fuel : nat) : DB ProbeCredential :=
  match fuel with
  | 0 => st_fail (Wrapf "generated id collision" ErrProbeAlreadyExists)
  | S fuel =>
      generated ← randomProbeID;
      if_taken (insertProbeCredential generated) (generate_credential fuel)
  end.

Definition CreateProbeCredential (requestedProbeID : string) : DB ProbeCredential :=
  let probeID := TrimSpace requestedProbeID in
  if probeID != "" then insertProbeCredential probeID else generate_credential 8.

(** [subtle.ConstantTimeCompare] is 1 on equal byte strings only. *)
Definition AuthenticateProbe (probeID secret : string) : DB (option Probe) :=
  row ← call (
    params [probeID] [];;
    t ← get_tables;
    mret (head (select (fun k p => (k == probeID) && bool_decide (p_revoked_at p = None)) (t_probes t))));
  match row with
  | None => mret None
  | Some (id, p) =>
      if negb (p_secret_hash p == hashProbeSecret secret) then mret None
      else mret (Some (MkProbe id (p_version p) (p_registered_at p) (p_last_seen_at p)))
  end.

Definition register_row (version : string) (now : Time) (p : ProbeRow) : ProbeRow :=
  MkProbeRow (p_secret_hash p) (p_provisioned_by p) version (p_created_at p)
    (Some (default (timestamptz now) (p_registered_at p))) (Some (timestamptz now)) (p_revoked_at p).

Definition RegisterProbe (probeID version : string) : DB unit :=
  now ← time_Now;
  call (
    params [version; probeID] [];;
    t ← get_tables;
    put_tables (set_t_probes
      (update_where (fun k p => (k == probeID) && bool_decide (p_revoked_at p = None))
         (register_row version now) (t_probes t)) t)).

(** The row of a probe that authenticated. *)
Lemma authenticated_row id secret w probe w1 :
  AuthenticateProbe id secret w = (inr (Some probe), w1) ->
  pb_ProbeID probe = id /\ exists p, t_probes (w_tables w) !! id = Some p /\
    p_revoked_at p = None /\ p_secret_hash p = hashProbeSecret secret.
Proof.
  unfold AuthenticateProbe, mbind, St_bind, call, params.
  destruct (fault_at _) as [[]|]; [done..|]. cbn. destruct (negb _); [done|]. cbn.
  destruct (select _ _) as [|[k row] l] eqn:Hs; [done|]. cbn.
  destruct (negb (p_secret_hash row == _)) eqn:Eh; [done|]. intros [= <- <-].
  assert (Hin : (k, row) ∈ ((k, row) :: l)) by apply elem_of_cons, or_introl, eq_refl.
  rewrite <-Hs in Hin. apply elem_of_select in Hin as [Hl Hf].
  apply andb_prop in Hf as [->%bool_decide_eq_true_1 Hr%bool_decide_eq_true_1].
  split; [done|]. exists row. split_and!; [done..|]. apply negb_false_iff, bool_decide_eq_true_1 in Eh. done.
Qed.
End probes.
