(* ===== verification/StoreInvariant.v ===== *)
(** The integrity of the store's tables, and that every store call keeps it on
    every path: success, failing statement, failed commit and lost
    acknowledgement. *)

From S2P Require Import Prelude GoStrings Types Database StoreNotifications StoreMonitoring.
From S2P Require Import StoreChecks StoreProbes.

(** * The invariant *)

(** No further delivery is attempted. *)
Definition terminal (n : NotificationRow) : Prop :=
  n_state n = notificationStateDelivered \/ n_state n = notificationStateSuperseded.

Definition deleted (t : Tables) (checkID : string) : Prop :=
  exists c, t_checks t !! checkID = Some c /\ c_deleted_at c <> None.

(** Waiting rows have a due time and rows in flight an attempt time, so that none
    is stranded; a recovered incident pages nobody about the outage, a deleted
    check pages nobody at all, nobody is paged about a recovery before it, and only
    a page whose incident is over is superseded. *)
Definition notif_ok (t : Tables) (n : NotificationRow) : Prop :=
  exists i, t_incidents t !! n_incident_id n = Some i /\
    event_ok (n_event n) = true /\ state_ok (n_state n) = true /\
    (n_state n = notificationStatePending \/ n_state n = notificationStateRetrying ->
       n_next_attempt_at n <> None) /\
    (n_state n = notificationStateProcessing -> n_last_attempt_at n <> None) /\
    (n_event n = notificationEventDown -> i_resolved_at i <> None -> terminal n) /\
    (deleted t (i_check_id i) -> terminal n) /\
    (n_event n = notificationEventUp \/ n_state n = notificationStateSuperseded -> i_resolved_at i <> None).

Definition incident_ok (t : Tables) (i : IncidentRow) : Prop :=
  is_Some (t_checks t !! i_check_id i) /\ (deleted t (i_check_id i) -> i_resolved_at i <> None).

Record tables_wf (t : Tables) : Prop := MkTablesWf {
  wf_notifs : map_Forall (fun _ n => notif_ok t n) (t_notifications t);
  wf_incidents : map_Forall (fun _ i => incident_ok t i) (t_incidents t);
  wf_states : map_Forall (fun k _ => is_Some (t_checks t !! k.1)) (t_states t);
  wf_open_unique a b i j :
    t_incidents t !! a = Some i -> t_incidents t !! b = Some j ->
    i_check_id i = i_check_id j -> i_resolved_at i = None -> i_resolved_at j = None -> a = b;
  wf_event_unique a b n m :
    t_notifications t !! a = Some n -> t_notifications t !! b = Some m ->
    n_incident_id n = n_incident_id m -> n_event n = n_event m -> a = b;
  wf_name_unique a b c d :
    t_checks t !! a = Some c -> t_checks t !! b = Some d ->
    c_deleted_at c = None -> c_deleted_at d = None ->
    default 0%Z (c_user_id c) = default 0%Z (c_user_id d) -> c_name c = c_name d -> a = b
}.

Definition seqs_ok (t : Tables) (q : Sequences) : Prop :=
  (forall id, is_Some (t_incidents t !! id) -> (id < sq_incidents q)%Z) /\
  (forall id, is_Some (t_notifications t !! id) -> (id < sq_notifications q)%Z).

Definition db_wf (w : World) : Prop := tables_wf (w_tables w) /\ seqs_ok (w_tables w) (w_seqs w).

Definition seqs_le (q q' : Sequences) : Prop :=
  (sq_incidents q <= sq_incidents q')%Z /\ (sq_notifications q <= sq_notifications q')%Z.

#[global] Instance seqs_le_preorder : PreOrder seqs_le.
Proof. split; [split; reflexivity|]. intros [] [] [] [? ?] [? ?]. split; simpl in *; lia. Qed.

Lemma seqs_ok_mono t q q' : seqs_le q q' -> seqs_ok t q -> seqs_ok t q'.
Proof.
  intros [H1 H2] [Hi Hn]. split; intros id Hid; [specialize (Hi id Hid)|specialize (Hn id Hid)]; lia.
Qed.

Lemma empty_world_wf : db_wf empty_world.
Proof. split; [split|split]; simpl; try (by apply map_Forall_empty); intros *; rewrite lookup_empty; by try intros []. Qed.

(** * Calls and transactions *)

(** A call that keeps the invariant whether it succeeds or fails. *)
Definition keeps {A} (m : DB A) : Prop := forall w,
  db_wf w -> db_wf (m w).2 /\ seqs_le (w_seqs w) (w_seqs (m w).2).

(** A transaction body that keeps it when it succeeds. *)
Definition commits {A} (m : DB A) : Prop := forall w,
  db_wf w -> seqs_le (w_seqs w) (w_seqs (m w).2) /\
             forall a w', m w = (inr a, w') -> db_wf w'.

Lemma keeps_commits {A} (m : DB A) : keeps m -> commits m.
Proof.
  intros Hk w Hwf. destruct (Hk w Hwf) as [H1 H2]. split; [done|].
  intros a w' Hm. by rewrite Hm in H1.
Qed.

Lemma commits_intro {A} (m : DB A) :
  (forall w res w', db_wf w -> m w = (res, w') ->
     seqs_le (w_seqs w) (w_seqs w') /\ forall a, res = inr a -> db_wf w') -> commits m.
Proof.
  intros Hm w Hwf. destruct (m w) as [res w'] eqn:Hrun. destruct (Hm w res w' Hwf Hrun) as [H1 H2].
  split; [done|]. intros a w2 [= -> ->]. eauto.
Qed.

Lemma keeps_ret {A} (a : A) : keeps (mret a).
Proof. intros w Hwf. split; [done|reflexivity]. Qed.

Lemma keeps_fail {A} e : keeps (st_fail e : DB A).
Proof. intros w Hwf. split; [done|reflexivity]. Qed.

Lemma keeps_bind {A B} (m : DB A) (k : A -> DB B) :
  keeps m -> (forall a, keeps (k a)) -> keeps (m ≫= k).
Proof.
  intros Hm Hk w Hwf. unfold mbind, St_bind. destruct (Hm w Hwf) as [H1 H2].
  destruct (m w) as [[e|a] w1]; simpl in *; [done|].
  destruct (Hk a w1 H1) as [H3 H4]. split; [done|]. by transitivity (w_seqs w1).
Qed.

Lemma commits_bind {A B} (m : DB A) (k : A -> DB B) :
  commits m -> (forall a, commits (k a)) -> commits (m ≫= k).
Proof.
  intros Hm Hk w Hwf. unfold mbind, St_bind. destruct (Hm w Hwf) as [H1 H2].
  destruct (m w) as [[e|a] w1] eqn:Hrun; simpl in *; [done|].
  destruct (Hk a w1 (H2 a w1 eq_refl)) as [H3 H4]. split; [by transitivity (w_seqs w1)|done].
Qed.

Lemma keeps_for {A} (xs : list A) (body : A -> DB unit) :
  (forall x, keeps (body x)) -> keeps (st_for xs body).
Proof.
  intros Hb. induction xs as [|x xs IH]; simpl; [apply keeps_ret|]. by apply keeps_bind.
Qed.

Lemma commits_collect {A B} (xs : list A) (body : A -> DB B) :
  (forall x, commits (body x)) -> commits (st_collect xs body).
Proof.
  intros Hb. induction xs as [|x xs IH]; simpl; [apply keeps_commits, keeps_ret|].
  apply commits_bind; [done|]. intros y. apply commits_bind; [done|]. intros ys.
  apply keeps_commits, keeps_ret.
Qed.

Lemma db_wf_tick w : db_wf (next_tick w) <-> db_wf w.
Proof. done. Qed.

Section calls.
Context `{Env : StoreEnv}.

(** What a round trip can do. *)
Lemma call_cases {A} (stmt : DB A) w res w' :
  call stmt w = (res, w') ->
  (exists e, res = inl e /\ w' = next_tick w) \/
  (exists res0, stmt (next_tick w) = (res0, w') /\ (res = res0 \/ exists e, res = inl e)).
Proof.
  unfold call. destruct (fault_at (w_tick w)) as [[e|e]|]; intros Hr.
  - injection Hr as <- <-. eauto.
  - right. destruct (stmt (next_tick w)) as [res0 w0]. injection Hr as <- <-. eauto.
  - eauto.
Qed.

(** A call that succeeds ran its statement. *)
Lemma call_inr {A} (stmt : DB A) w a w' :
  call stmt w = (inr a, w') -> stmt (next_tick w) = (inr a, w').
Proof.
  intros Hr. apply call_cases in Hr as [(e & ? & _)|(res & Hs & [<-|[e ?]])]; done.
Qed.

Lemma keeps_call {A} (stmt : DB A) : keeps stmt -> keeps (call stmt).
Proof.
  intros Hk w Hwf. unfold call. destruct (Hk (next_tick w) Hwf) as [H1 H2].
  destruct (fault_at (w_tick w)) as [[]|]; [split; [done|reflexivity]|done..].
Qed.

Lemma keeps_now : keeps time_Now.
Proof. intros w Hwf. split; [done|reflexivity]. Qed.

Lemma keeps_uuid : keeps gen_random_uuid.
Proof. intros w Hwf. split; [done|reflexivity]. Qed.

(** Binding the parameters only fails or succeeds. *)
Lemma params_run texts ints w : exists res, params texts ints w = (res, w).
Proof. unfold params. repeat case_match; by eexists. Qed.

Lemma keeps_params texts ints : keeps (params texts ints).
Proof. unfold params. repeat case_match; auto using keeps_ret, keeps_fail. Qed.

Lemma keeps_normalizeTime t : keeps (normalizeTime t).
Proof. unfold normalizeTime. case_match; auto using keeps_ret, keeps_now. Qed.

(** Reads the tables and replaces them. *)
Lemma keeps_update {A} (k : Tables -> DB A) :
  (forall w, db_wf w -> db_wf (k (w_tables w) w).2 /\ seqs_le (w_seqs w) (w_seqs (k (w_tables w) w).2)) ->
  keeps (get_tables ≫= k).
Proof. intros Hk w Hwf. exact (Hk w Hwf). Qed.

Lemma keeps_put w t :
  db_wf w -> tables_wf t -> seqs_ok t (w_seqs w) ->
  db_wf (put_tables t w).2 /\ seqs_le (w_seqs w) (w_seqs (put_tables t w).2).
Proof. intros Hwf Ht Hq. split; [by split|reflexivity]. Qed.

Lemma keeps_tx {A} (body : DB A) : commits body -> keeps (with_tx body).
Proof.
  intros Hb w Hwf. unfold with_tx, call, mret, St_ret. simpl.
  assert (Hback : forall w2, seqs_le (w_seqs w) (w_seqs w2) ->
    db_wf (set_tables (w_tables w) w2) /\ seqs_le (w_seqs w) (w_seqs w2)).
  { intros w2 Hle. destruct Hwf as [Ht Hq]. split; [|done]. split; [done|].
    by eapply seqs_ok_mono. }
  destruct (fault_at (w_tick w)) as [[]|]; [split; [done|reflexivity]..|].
  destruct (Hb (next_tick w) Hwf) as [H1 H2].
  destruct (body (next_tick w)) as [[e|a] w2]; simpl in *; [by apply Hback|].
  specialize (H2 a w2 eq_refl).
  destruct (fault_at (w_tick w2)) as [[]|]; simpl; [by apply (Hback (next_tick w2))|done..].
Qed.
End calls.

#[export] Hint Resolve keeps_ret keeps_fail keeps_bind keeps_for keeps_call keeps_now keeps_uuid
  keeps_params keeps_normalizeTime keeps_tx keeps_commits commits_bind commits_collect : store.

(** * Table updates *)

Lemma update_where_none `{Countable K} {V} (f : K -> V -> bool) g (m : gmap K V) :
  (forall k v, m !! k = Some v -> f k v = false) -> update_where f g m = m.
Proof.
  intros Hn. apply map_eq. intros k. rewrite lookup_update_where.
  destruct (m !! k) eqn:Hl; [|done]. simpl. by rewrite (Hn k v Hl).
Qed.

(** An update in place keeps the identity of the rows. *)
Lemma update_notifs_row f g (m : gmap Z NotificationRow) k n' :
  (forall n, n_incident_id (g n) = n_incident_id n /\ n_event (g n) = n_event n) ->
  update_where f g m !! k = Some n' ->
  exists n, m !! k = Some n /\ n_incident_id n' = n_incident_id n /\ n_event n' = n_event n.
Proof.
  intros Hkeep Hl. apply lookup_update_where_Some in Hl as (n & Hl & ->). exists n.
  destruct (Hkeep n). by destruct (f k n).
Qed.

(** An update of notification rows in place. *)
Lemma tables_wf_update_notifs t f g :
  tables_wf t ->
  (forall n, n_incident_id (g n) = n_incident_id n /\ n_event (g n) = n_event n) ->
  (forall k n, t_notifications t !! k = Some n -> f k n = true -> notif_ok t n -> notif_ok t (g n)) ->
  tables_wf (set_t_notifications (update_where f g (t_notifications t)) t).
Proof.
  intros [Hn Hi Hs Ho He Hc] Hkeep Hok.
  split; simpl; [|done|done|done| |done].
  - intros k n' Hl. apply lookup_update_where_Some in Hl as (n & Hl & ->).
    specialize (Hn k n Hl). destruct (f k n) eqn:Hf; [by eapply Hok|done].
  - intros a b n m Ha Hb Hid Hev.
    apply update_notifs_row in Ha as (x0 & Hx & Ex1 & Ex2); [|done].
    apply update_notifs_row in Hb as (y0 & Hy & Ey1 & Ey2); [|done].
    eapply He; [exact Hx|exact Hy|congruence..].
Qed.

Lemma seqs_ok_update_notifs t q f g :
  seqs_ok t q -> seqs_ok (set_t_notifications (update_where f g (t_notifications t)) t) q.
Proof.
  intros [Hi Hn]. split; [done|]. simpl. intros id Hid. apply Hn.
  by rewrite lookup_update_where, fmap_is_Some in Hid.
Qed.

(** A new notification for an incident that has none for the event. *)
Lemma tables_wf_insert_notif t id n :
  tables_wf t -> t_notifications t !! id = None -> notif_ok t n ->
  notified (n_incident_id n) (n_event n) t = false ->
  tables_wf (set_t_notifications (<[id := n]> (t_notifications t)) t).
Proof.
  intros [Hn Hi Hs Ho He Hc] Hfresh Hok Hnew.
  assert (Hno : forall k m, t_notifications t !! k = Some m ->
    ~ (n_incident_id m = n_incident_id n /\ n_event m = n_event n)).
  { intros k m Hl [E1 E2]. unfold notified in Hnew.
    rewrite has_row_false in Hnew. specialize (Hnew k m Hl). simpl in Hnew.
    rewrite E1, E2, Z.eqb_refl, bool_decide_eq_true_2 in Hnew by done. done. }
  split; simpl; [by apply map_Forall_insert_2|done..| |done].
  intros a b x y Ha Hb E1 E2. rewrite !lookup_insert_Some in *.
  destruct Ha as [[<- <-]|[Hna Ha]], Hb as [[<- <-]|[Hnb Hb]]; [done|..].
  - exfalso. by eapply Hno.
  - exfalso. by eapply Hno.
  - by eapply He.
Qed.

(** A new incident of an active check without an open one. *)
Lemma tables_wf_insert_incident t id i c :
  tables_wf t -> t_incidents t !! id = None ->
  t_checks t !! i_check_id i = Some c -> c_deleted_at c = None ->
  open_incident (i_check_id i) t = false ->
  tables_wf (set_t_incidents (<[id := i]> (t_incidents t)) t).
Proof.
  intros [Hn Hi Hs Ho He Hc] Hfresh Hcheck Hact Hopen.
  assert (Hnone : forall k j, t_incidents t !! k = Some j ->
    i_check_id j = i_check_id i -> i_resolved_at j <> None).
  { intros k j Hl E1 E2. unfold open_incident in Hopen. rewrite has_row_false in Hopen.
    specialize (Hopen k j Hl). unfold is_open_of in Hopen. rewrite E1 in Hopen.
    by rewrite !bool_decide_eq_true_2 in Hopen. }
  split; simpl; [| |done| |done|done].
  - intros k n Hl. destruct (Hn k n Hl) as (j & Hj & Hrest). exists j. simpl.
    rewrite lookup_insert_ne by congruence. done.
  - apply map_Forall_insert_2; [|exact Hi]. split; [by eexists|].
    intros (c' & Hc' & Hd). simpl in Hc'. congruence.
  - intros a b x y Ha Hb E1 E2 E3. rewrite !lookup_insert_Some in *.
    destruct Ha as [[<- <-]|[Hna Ha]], Hb as [[<- <-]|[Hnb Hb]]; [done|..].
    + exfalso. by eapply Hnone.
    + exfalso. by eapply Hnone.
    + by eapply Ho.
Qed.

(** The open incident of a check is unique. *)
Lemma is_open_of_true checkID i :
  is_open_of checkID i = true <-> i_check_id i = checkID /\ i_resolved_at i = None.
Proof. unfold is_open_of. by rewrite andb_true_iff, !bool_decide_eq_true. Qed.

Lemma open_is_head t checkID id :
  tables_wf t -> head (select (fun _ i => is_open_of checkID i) (t_incidents t)).*1 = Some id ->
  (exists i, t_incidents t !! id = Some i /\ is_open_of checkID i = true) /\
  (forall k j, t_incidents t !! k = Some j -> is_open_of checkID j = true -> k = id).
Proof.
  intros Hwf Hhead.
  assert (Hid : exists i, t_incidents t !! id = Some i /\ is_open_of checkID i = true).
  { destruct (select _ (t_incidents t)) as [|[k i] l] eqn:Hsel; [done|].
    injection Hhead as ->. exists i. apply (elem_of_select (fun _ i => is_open_of checkID i)).
    rewrite Hsel. left. }
  split; [done|]. intros k j Hj Ho. destruct Hid as (i & Hi & Hoi).
  apply is_open_of_true in Ho as [<- Hr], Hoi as [Hc Hr']. by eapply (wf_open_unique t Hwf).
Qed.

Lemma resolve_incidents_row t checkID at_ k j' :
  t_incidents (resolve_incidents checkID at_ t) !! k = Some j' ->
  exists j, t_incidents t !! k = Some j /\ i_check_id j' = i_check_id j /\
    (is_open_of checkID j = false -> j' = j) /\ (i_resolved_at j' = None -> j' = j).
Proof.
  intros Hl. apply lookup_update_where_Some in Hl as (j & Hj & ->). exists j.
  destruct (is_open_of checkID j); by split_and!.
Qed.

(** Everything but the pages of the resolved incident stays in order. *)
Lemma resolve_incidents_wf t checkID at_ :
  tables_wf t ->
  let t1 := resolve_incidents checkID at_ t in
  map_Forall (fun _ i => incident_ok t1 i) (t_incidents t1) /\
  (forall a b i j,
    t_incidents t1 !! a = Some i -> t_incidents t1 !! b = Some j ->
    i_check_id i = i_check_id j -> i_resolved_at i = None -> i_resolved_at j = None -> a = b) /\
  (forall n, notif_ok t n ->
    (forall j, t_incidents t !! n_incident_id n = Some j -> is_open_of checkID j = true ->
       n_event n = notificationEventDown -> terminal n) -> notif_ok t1 n).
Proof.
  intros Hwf t1. split_and!.
  - intros k j' Hl. destruct (resolve_incidents_row _ _ _ _ _ Hl) as (j & Hj & E & _ & Hun).
    destruct (wf_incidents t Hwf k j Hj) as [H1 H2]. unfold incident_ok. rewrite E.
    split; [done|]. intros Hdl Hnone. rewrite (Hun Hnone) in Hnone. by apply H2.
  - intros a b x y Ha Hb E1 E2 E3.
    destruct (resolve_incidents_row _ _ _ _ _ Ha) as (x0 & Hx0 & _ & _ & Hx).
    destruct (resolve_incidents_row _ _ _ _ _ Hb) as (y0 & Hy0 & _ & _ & Hy).
    pose proof (Hx E2). pose proof (Hy E3). subst x0 y0. by eapply (wf_open_unique t Hwf).
  - intros n (j & Hj & Hev & Hst & Hnx & Hla & Hd & Hdel & Hup) Hterm.
    exists (if is_open_of checkID j then set_resolved at_ j else j).
    split; [simpl; by rewrite lookup_update_where, Hj|]. split_and!; [done..| | |].
    + intros Hdown Hr. destruct (is_open_of checkID j) eqn:Ho; [by eapply Hterm|by apply Hd].
    + intros Hdl. apply Hdel. by destruct (is_open_of checkID j).
    + intros Hu. destruct (is_open_of checkID j); [done|by apply Hup].
Qed.

Lemma set_n_state_ids st nx at_ n :
  n_incident_id (set_n_state st nx at_ n) = n_incident_id n /\
  n_event (set_n_state st nx at_ n) = n_event n.
Proof. done. Qed.

(** A page of the incident that is resolved may be superseded. *)
Lemma superseded_ok t checkID at_ at2 n :
  tables_wf t -> notif_ok t n ->
  (forall i, t_incidents t !! n_incident_id n = Some i -> i_check_id i = checkID) ->
  notif_ok (resolve_incidents checkID at_ t) (set_n_state notificationStateSuperseded None at2 n).
Proof.
  intros Hwf (i & Hi & Hev & _ & _ & _ & _ & _ & _) Hc. specialize (Hc i Hi).
  exists (if is_open_of checkID i then set_resolved at_ i else i). simpl.
  split; [by rewrite lookup_update_where, Hi|].
  split_and!; [done|done|by intros [?|?]|done|by right|by right|].
  intros _. destruct (is_open_of checkID i) eqn:Ho; [done|]. intros Hn.
  by rewrite (proj2 (is_open_of_true checkID i)) in Ho.
Qed.

(** Resolving the open incident of a check together with its outage page. *)
Lemma tables_wf_resolve t checkID id at_ at2 :
  tables_wf t -> head (select (fun _ i => is_open_of checkID i) (t_incidents t)).*1 = Some id ->
  tables_wf (supersede_down id at2 (resolve_incidents checkID at_ t)).
Proof.
  intros Hwf Hhead. destruct (open_is_head t checkID id Hwf Hhead) as [(i & Hid & Hoi) Huniq].
  destruct (resolve_incidents_wf t checkID at_ Hwf) as (Hi & Ho & Hn).
  pose proof Hwf as [Hn0 _ Hs _ He Hc]. split; simpl; [|exact Hi|exact Hs|exact Ho| |exact Hc].
  - intros k n' Hl. apply lookup_update_where_Some in Hl as (n & Hl & ->).
    specialize (Hn0 k n Hl). simpl in Hn0. case_match eqn:Hf.
    + apply (superseded_ok t checkID at_ at2 n Hwf Hn0). intros j Hj.
      apply andb_true_iff in Hf as [[Hk _]%andb_true_iff _]. apply Z.eqb_eq in Hk. rewrite Hk in Hj.
      apply is_open_of_true in Hoi as [Hoi _]. congruence.
    + apply (Hn n Hn0). intros j Hj Hoj Hdown. left.
      apply Huniq in Hj; [|done]. rewrite Hj, Z.eqb_refl, bool_decide_eq_true_2 in Hf by done.
      simpl in Hf. by apply negb_false_iff, bool_decide_eq_true in Hf.
  - intros a b x y Ha Hb E1 E2.
    apply update_notifs_row in Ha as (x0 & Hx & Ex1 & Ex2); [|apply set_n_state_ids].
    apply update_notifs_row in Hb as (y0 & Hy & Ey1 & Ey2); [|apply set_n_state_ids].
    eapply He; [exact Hx|exact Hy|congruence..].
Qed.

Lemma seqs_ok_resolve t q checkID at_ :
  seqs_ok t q -> seqs_ok (resolve_incidents checkID at_ t) q.
Proof.
  intros [Hi Hn]. split; [|done]. simpl. intros id Hid. apply Hi.
  by rewrite lookup_update_where, fmap_is_Some in Hid.
Qed.

(** * The statements *)

Section statements.
Context `{Env : StoreEnv}.

(** One statement that updates notification rows in place. *)
Lemma keeps_notifs f g :
  (forall t n, n_incident_id (g t n) = n_incident_id n /\ n_event (g t n) = n_event n) ->
  (forall t k n, f t k n = true -> notif_ok t n -> notif_ok t (g t n)) ->
  keeps (t ← get_tables;
         put_tables (set_t_notifications (update_where (f t) (g t) (t_notifications t)) t)).
Proof.
  intros Hid Hok. apply keeps_update. intros w Hwf. apply keeps_put; [done|..].
  - apply tables_wf_update_notifs; [apply Hwf|done|]. intros k n _ Hf Hn. by eapply Hok.
  - apply seqs_ok_update_notifs, Hwf.
Qed.

Lemma null_le_some a b : null_le a b = true -> a <> None.
Proof. by destruct a. Qed.

Lemma claim_row_ok now stale t n :
  due_row now stale t n = true -> notif_ok t n -> notif_ok t (claim_row now n).
Proof.
  unfold due_row. intros Hdue (i & Hi & Hev & Hst & Hnx & Hla & Hd & Hdel & Hup). rewrite Hi in Hdue.
  apply andb_true_iff in Hdue as [Hdue Hne]. apply andb_true_iff in Hdue as [_ Hdue].
  assert (Hlive : ~ terminal n).
  { intros [Ht|Ht]; rewrite Ht in Hdue; vm_compute in Hdue; done. }
  exists i. simpl. split_and!; [done|done|done|by intros [?|?]|done|..].
  - intros Hdown Hres. by destruct Hlive, (Hd Hdown Hres); [left|right].
  - intros Hdl. by destruct Hlive, (Hdel Hdl); [left|right].
  - intros [Hu|Hbad]; [by apply Hup; left|done].
Qed.

Lemma elem_of_due_rows now stale limit t k n :
  (k, n) ∈ due_rows now stale limit t ->
  t_notifications t !! k = Some n /\ due_row now stale t n = true.
Proof.
  intros Hin. apply elem_of_take in Hin as (j & Hj & _). apply list_elem_of_lookup_2 in Hj.
  rewrite merge_sort_Permutation in Hj.
  by apply (elem_of_select (fun _ n => due_row now stale t n)) in Hj.
Qed.

Lemma elem_of_due_ids now stale limit t k n :
  t_notifications t !! k = Some n -> k ∈ (due_rows now stale limit t).*1 ->
  due_row now stale t n = true.
Proof.
  intros Hl Hin. apply list_elem_of_fmap in Hin as ([k' n'] & -> & Hin).
  apply elem_of_due_rows in Hin as [Hl' Hd]. simpl in Hl. by simplify_eq.
Qed.

Lemma claim_keeps now stale limit : keeps (ClaimDueIncidentNotifications now stale limit).
Proof.
  apply keeps_call, keeps_update. intros w Hwf. cbv zeta.
  set (due := due_rows _ _ _ _). destruct (negb _); [by apply keeps_fail|].
  split; [|reflexivity]. simpl.
  split; simpl; [|apply seqs_ok_update_notifs, Hwf].
  apply tables_wf_update_notifs; [apply Hwf|done|]. intros k n Hl Hin.
  apply bool_decide_eq_true, (elem_of_due_ids _ _ _ _ _ _ Hl) in Hin. by eapply claim_row_ok.
Qed.

Lemma delivered_keeps id at_ : keeps (MarkIncidentNotificationDelivered id at_).
Proof.
  apply keeps_call. apply (keeps_notifs (fun _ k n => _) (fun _ n => _)); [done|].
  intros t k n _ (i & Hi & Hev & _ & _ & _ & _ & _ & Hup). exists i. simpl.
  split_and!; [done|done|done|by intros [?|?]|done|by left|by left|].
  intros [Hu|Hbad]; [by apply Hup; left|done].
Qed.

Lemma retry_keeps id a n e : keeps (MarkIncidentNotificationRetry id a n e).
Proof.
  apply keeps_call, keeps_bind; [apply keeps_params|]. intros [].
  apply (keeps_notifs (fun t k n => _) (fun t n => _)); [done|].
  intros t k row Hf (i & Hi & Hev & Hst & Hnx & Hla & Hd & Hdel & Hup). exists i.
  unfold outdated. rewrite Hi. simpl.
  apply andb_true_iff in Hf as [_ Hnd]. apply negb_true_iff, bool_decide_eq_false in Hnd.
  destruct ((n_state row == notificationStateSuperseded) ||
            ((n_event row == notificationEventDown) && bool_decide (is_Some (i_resolved_at i))))
    eqn:Hsup.
  - split_and!; [done|done|done|by intros [?|?]|done|by right|by right|].
    intros _. apply orb_true_iff in Hsup as [Hs|Hs]; [apply Hup; right; by apply bool_decide_eq_true in Hs|].
    apply andb_true_iff in Hs as [_ [x Hx]%bool_decide_eq_true]. by rewrite Hx.
  - apply orb_false_iff in Hsup as [Hns Hdn]. apply bool_decide_eq_false in Hns.
    assert (Hlive : ~ terminal row) by (by intros [?|?]).
    split_and!; [done|done|done|done|done|..].
    + intros Hdown Hres. by destruct Hlive, (Hd Hdown Hres); [left|right].
    + intros Hdl. by destruct Hlive, (Hdel Hdl); [left|right].
    + intros [Hu|Hbad]; [by apply Hup; left|done].
Qed.

(** One statement that replaces the tables. *)
Lemma call_put_run (F : Tables -> Tables) w res w' :
  call (t ← get_tables; put_tables (F t)) w = (res, w') ->
  w_seqs w' = w_seqs w /\ (forall a, res = inr a -> w_tables w' = F (w_tables w)).
Proof.
  intros Hrun. apply call_cases in Hrun as [(e & -> & ->)|(row0 & Hrun & Hrow)]; [done|].
  by injection Hrun as <- <-.
Qed.

(** A page may be added for an incident of an active check, about the outage only
    while it lasts. *)
Definition may_page (event : string) (id : Z) (t : Tables) : Prop :=
  event_ok event = true /\
  exists i, t_incidents t !! id = Some i /\ ~ deleted t (i_check_id i) /\
    (event = notificationEventDown -> i_resolved_at i = None) /\
    (event = notificationEventUp -> i_resolved_at i <> None).

Lemma insert_row_keeps w id event url payload now :
  db_wf w -> may_page event id (w_tables w) ->
  let w' := (insert_notification_row id event url payload now w).2 in
  db_wf w' /\ seqs_le (w_seqs w) (w_seqs w').
Proof.
  intros [Ht [Hqi Hqn]] (Hev & i & Hi & Hact & Hdown & Hup). cbv zeta.
  unfold insert_notification_row, mbind, St_bind, nextval_notifications, get_tables. simpl.
  set (w1 := set_seqs _ w).
  assert (Hle : seqs_le (w_seqs w) (w_seqs w1)) by (split; simpl; lia).
  assert (Hq1 : seqs_ok (w_tables w1) (w_seqs w1)) by (by eapply seqs_ok_mono).
  rewrite Hev. simpl. destruct (notified id event (w_tables w)) eqn:Hnew; [done|].
  rewrite Hi. simpl. case_bool_decide as Hfresh; [done|]. apply eq_None_not_Some in Hfresh.
  split; [|done]. split; simpl.
  - apply tables_wf_insert_notif; [done|done| |done]. exists i. simpl.
    split_and!; [done|done|done|done|done| |done|].
    + intros -> Hres. by rewrite Hdown in Hres.
    + intros [Hu|Hbad]; [by apply Hup|done].
  - split; simpl; [done|]. intros k. rewrite lookup_insert_is_Some.
    intros [<-|[_ Hk]]; [lia|]. specialize (Hqn k Hk). lia.
Qed.

Lemma insert_notification_keeps w id event req now :
  db_wf w -> may_page event id (w_tables w) ->
  let w' := (insertIncidentNotification id event req now w).2 in
  db_wf w' /\ seqs_le (w_seqs w) (w_seqs w').
Proof.
  intros Hwf Hmay. cbv zeta. unfold insertIncidentNotification.
  destruct req as [req|]; [|by apply keeps_ret]. destruct (_ || _); [by apply keeps_ret|].
  assert (Hstmt : forall p, let w' := (insert_notification_row id event (nr_WebhookURL req) p now
    (next_tick w)).2 in db_wf w' /\ seqs_le (w_seqs w) (w_seqs w')).
  { intros p. by apply (insert_row_keeps (next_tick w)). }
  unfold call, mbind, St_bind.
  destruct (params_run [event; notificationStatePending; nr_WebhookURL req; nr_Payload req] []
              (next_tick w)) as [e ->].
  destruct (fault_at (w_tick w)) as [[]|], e, (jsonb_in (nr_Payload req));
    try apply Hstmt; (split; [exact Hwf|reflexivity]).
Qed.

Lemma not_deleted t checkID c :
  t_checks t !! checkID = Some c -> c_deleted_at c = None -> ~ deleted t checkID.
Proof. intros Hc Ha (c' & Hc' & Hd). congruence. Qed.

(** The INSERT of an incident. *)
Lemma insert_incident_wf checkID now w row w' :
  db_wf w -> insert_incident_row checkID now w = (row, w') ->
  db_wf w' /\ seqs_le (w_seqs w) (w_seqs w') /\
  (forall id, row = inr (Some id) -> may_page notificationEventDown id (w_tables w')).
Proof.
  intros [Ht Hq]. unfold insert_incident_row, mbind, St_bind, get_tables. simpl.
  assert (Hsame : db_wf w /\ seqs_le (w_seqs w) (w_seqs w)) by done.
  destruct (t_checks (w_tables w) !! checkID) as [c|] eqn:Hc; [|by intros [= <- <-]].
  case_bool_decide as Hdel; [by intros [= <- <-]|]. apply eq_None_not_Some in Hdel. simpl.
  set (w1 := set_seqs _ w).
  assert (Hle : seqs_le (w_seqs w) (w_seqs w1)) by (split; simpl; lia).
  assert (Hq1 : seqs_ok (w_tables w1) (w_seqs w1)) by (by eapply seqs_ok_mono).
  destruct (open_incident checkID (w_tables w)) eqn:Ho; [by intros [= <- <-]|].
  case_bool_decide as Hfresh; intros [= <- <-]; [done|]. apply eq_None_not_Some in Hfresh.
  split_and!; [split; simpl| |].
  - eapply tables_wf_insert_incident; done.
  - destruct Hq as [Hqi Hqn]. split; simpl; [|done]. intros k. rewrite lookup_insert_is_Some.
    intros [<-|[_ Hk]]; [lia|]. specialize (Hqi k Hk). lia.
  - done.
  - intros id [= <-]. split; [done|]. eexists. simpl. rewrite lookup_insert_eq.
    split_and!; [done| |done|done]. by eapply not_deleted.
Qed.

Lemma open_call_wf checkID (now : Time) w row w' :
  db_wf w ->
  call (insert_incident_row checkID now) w = (row, w') ->
  db_wf w' /\ seqs_le (w_seqs w) (w_seqs w') /\
  (forall id, row = inr (Some id) -> may_page notificationEventDown id (w_tables w')).
Proof.
  intros Hwf Hrun. apply call_cases in Hrun as [(e & -> & ->)|(row0 & Hrun & Hrow)]; [done|].
  destruct (insert_incident_wf _ _ (next_tick w) _ _ Hwf Hrun) as (? & ? & Hpage).
  split_and!; [done|done|]. intros id ->. apply Hpage.
  by destruct Hrow as [->|[e ?]].
Qed.

Lemma open_commits checkID req now : commits (openIncidentWithNotificationByCheckIDTx checkID req now).
Proof.
  intros w Hwf. unfold openIncidentWithNotificationByCheckIDTx, mbind, St_bind.
  destruct (call (insert_incident_row checkID now) w) as [row w1] eqn:Hcall.
  destruct (open_call_wf _ _ _ _ _ Hwf Hcall) as (Hwf1 & Hle1 & Hpage).
  destruct row as [e|[id|]]; [done| |by split; [|intros a w' [= _ <-]]].
  destruct (insert_notification_keeps w1 id notificationEventDown req now Hwf1 (Hpage id eq_refl))
    as [Hwf2 Hle2].
  destruct (insertIncidentNotification _ _ _ _ w1) as [[e|[]] w2]; simpl in *;
    (split; [by transitivity (w_seqs w1)|]); [done|by intros a w' [= _ <-]].
Qed.

(** Resolving and superseding, as far as it gets. *)
Lemma resolve_body_seqs checkID now w row w1 :
  call (resolve_open_row checkID now) w = (row, w1) ->
  w_seqs w1 = w_seqs w /\
  (forall a, row = inr a -> w_tables w1 = resolve_incidents checkID (timestamptz now) (w_tables w) /\
     a = head (select (fun _ i => is_open_of checkID i) (t_incidents (w_tables w))).*1).
Proof.
  intros Hrun. apply call_cases in Hrun as [(e & -> & ->)|(row0 & Hrun & Hrow)]; [done|].
  injection Hrun as <- <-. split; [done|]. intros a ->.
  destruct Hrow as [[= ->]|[e ?]]; done.
Qed.

Lemma resolve_may_page t checkID id at_ at2 :
  tables_wf t -> head (select (fun _ i => is_open_of checkID i) (t_incidents t)).*1 = Some id ->
  may_page notificationEventUp id (supersede_down id at2 (resolve_incidents checkID at_ t)).
Proof.
  intros Hwf Hhead. destruct (open_is_head t checkID id Hwf Hhead) as [(i & Hi & Ho) _].
  split; [done|]. exists (set_resolved at_ i). simpl. rewrite lookup_update_where, Hi. simpl.
  rewrite Ho. split_and!; [done| |done|done]. intros Hd.
  destruct (wf_incidents t Hwf id i Hi) as [_ Hres].
  apply is_open_of_true in Ho as [_ Hr]. by apply Hres.
Qed.

Lemma update_none_open t checkID at_ :
  head (select (fun _ i => is_open_of checkID i) (t_incidents t)).*1 = None ->
  resolve_incidents checkID at_ t = t.
Proof.
  intros Hhead. unfold resolve_incidents. rewrite update_where_none; [by destruct t|].
  intros k j Hj. destruct (is_open_of checkID j) eqn:Ho; [|done]. exfalso.
  assert (Hin : (k, j) ∈ select (fun _ i => is_open_of checkID i) (t_incidents t))
    by (by apply elem_of_select).
  destruct (select _ (t_incidents t)); [by apply not_elem_of_nil in Hin|done].
Qed.

Lemma resolve_commits checkID req now :
  commits (resolveIncidentWithNotificationByCheckIDTx checkID req now).
Proof.
  intros w [Ht Hq]. unfold resolveIncidentWithNotificationByCheckIDTx, mbind, St_bind.
  destruct (call (resolve_open_row checkID now) w) as [row w1] eqn:Hcall.
  destruct (resolve_body_seqs _ _ _ _ _ Hcall) as [Hs1 Ht1].
  destruct row as [e|[id|]]; [simpl; by rewrite Hs1| |].
  - destruct (Ht1 _ eq_refl) as [Htab1 Hhead].
    destruct (call _ w1) as [[e|[]] w2] eqn:Hcall2;
      destruct (call_put_run (supersede_down id (timestamptz now)) _ _ _ Hcall2) as [Hs2 Ht2]; [simpl; by rewrite Hs2, Hs1|].
    specialize (Ht2 tt eq_refl). rewrite Htab1 in Ht2.
    assert (Hwf2 : db_wf w2).
    { split; rewrite Ht2; [by apply tables_wf_resolve|]. rewrite Hs2, Hs1.
      by apply seqs_ok_update_notifs, seqs_ok_resolve. }
    destruct (insert_notification_keeps w2 id notificationEventUp req now Hwf2) as [Hwf3 Hle3].
    { rewrite Ht2. by apply resolve_may_page. }
    destruct (insertIncidentNotification _ _ _ _ w2) as [[e|[]] w3]; simpl in *;
      rewrite Hs2, Hs1 in Hle3; (split; [done|]); [done|by intros a w' [= _ <-]].
  - simpl. rewrite Hs1. split; [done|]. intros a w' [= _ <-]. destruct (Ht1 _ eq_refl) as [Htab1 Hhead].
    split; rewrite Htab1, update_none_open by done; [done|by rewrite Hs1].
Qed.
End statements.

#[export] Hint Resolve claim_keeps delivered_keeps retry_keeps open_commits resolve_commits : store.

(** * Monitoring writes *)

Section monitoring.
Context `{Env : StoreEnv}.

Lemma normalizeCheckStateWrite_keeps s : keeps (normalizeCheckStateWrite s).
Proof. unfold normalizeCheckStateWrite. cbv zeta. repeat case_match; auto with store. Qed.

Lemma tables_wf_states t x :
  tables_wf t -> map_Forall (fun k _ => is_Some (t_checks t !! k.1)) x -> tables_wf (set_t_states x t).
Proof. by intros [] Hx. Qed.

Lemma upsert_keeps s : keeps (upsertCheckStateTx s).
Proof.
  unfold upsertCheckStateTx. apply keeps_bind; [apply normalizeCheckStateWrite_keeps|].
  intros s'. destruct (normalizeCheckID _) as [e|id]; [apply keeps_fail|]. cbv zeta.
  apply keeps_bind; [|auto with store]. apply keeps_call, keeps_bind; [auto with store|].
  intros []. apply keeps_update. intros w Hwf.
  destruct (negb (_ && _ && _)); [by apply keeps_fail|].
  case_bool_decide as Hc; [|by apply keeps_fail]. apply keeps_put; [done| |apply Hwf].
  apply tables_wf_states; [apply Hwf|]. by apply map_Forall_insert_2, Hwf.
Qed.

Lemma heartbeat_keeps p at_ : keeps (updateProbeHeartbeatTx p at_).
Proof.
  unfold updateProbeHeartbeatTx. apply keeps_bind; [auto with store|]. intros h.
  apply keeps_bind; [|auto with store]. apply keeps_call, keeps_bind; [auto with store|].
  intros []. apply keeps_update. intros w [[] Hq]. by apply keeps_put.
Qed.

Lemma incident_commits c resolve req : commits (applyMonitoringIncidentTx c resolve req).
Proof.
  unfold applyMonitoringIncidentTx. case_match; [auto with store|].
  case_match; [auto with store|]. apply commits_bind; [auto with store|]. intros now.
  destruct resolve; auto with store.
Qed.

Lemma validate_keeps wr : keeps (validateMonitoringWrite wr).
Proof.
  unfold validateMonitoringWrite. repeat case_match; [auto with store..|].
  apply keeps_for. intros s. apply keeps_bind; [apply normalizeCheckStateWrite_keeps|auto with store].
Qed.

Lemma write_commits wr : commits (persistMonitoringWriteTx wr).
Proof.
  unfold persistMonitoringWriteTx. apply commits_bind; [apply keeps_commits, validate_keeps|].
  intros _. case_match; [auto with store|].
  apply commits_bind; [apply commits_collect; intros; apply keeps_commits, upsert_keeps|]. intros saved.
  apply commits_bind; [case_match; auto using heartbeat_keeps with store|]. intros h.
  apply commits_bind; [apply incident_commits|auto with store].
Qed.

Lemma batch_keeps wrs : keeps (PersistMonitoringBatch wrs).
Proof.
  unfold PersistMonitoringBatch. apply keeps_bind; [apply keeps_for, validate_keeps|]. intros _.
  case_match; [auto with store|]. apply keeps_tx, commits_collect, write_commits.
Qed.

Lemma write_keeps wr : keeps (PersistMonitoringWrite wr).
Proof. apply keeps_bind; [apply batch_keeps|auto with store]. Qed.

(** * Check definitions *)

(** An insert or update of check rows that keeps who is deleted. *)
Lemma tables_wf_checks t x :
  tables_wf t ->
  (forall k, is_Some (t_checks t !! k) -> is_Some (x !! k)) ->
  (forall k, deleted (set_t_checks x t) k -> is_Some (t_checks t !! k) -> deleted t k) ->
  (forall a b c d, x !! a = Some c -> x !! b = Some d ->
    c_deleted_at c = None -> c_deleted_at d = None ->
    default 0%Z (c_user_id c) = default 0%Z (c_user_id d) -> c_name c = c_name d -> a = b) ->
  tables_wf (set_t_checks x t).
Proof.
  intros [Hn Hi Hs Ho He Hc] Hsub Hdel Hname. split; simpl; [| | |done|done|done].
  - intros k n Hl. destruct (Hn k n Hl) as (i & Hik & ? & ? & ? & ? & ? & Hd & ?).
    destruct (Hi _ _ Hik) as [Hck _]. exists i. split_and!; auto.
  - intros k i Hl. destruct (Hi k i Hl) as [Hck Hd]. split; [by apply Hsub|]. auto.
  - intros k s Hl. apply Hsub. by apply (Hs k s).
Qed.

Lemma name_taken_false user name t :
  name_taken user name t = false ->
  forall k c, t_checks t !! k = Some c -> c_deleted_at c = None ->
    default 0%Z (c_user_id c) = default 0%Z user -> c_name c <> name.
Proof.
  unfold name_taken. rewrite has_row_false. intros Hn k c Hc Ha Hu E. specialize (Hn k c Hc).
  unfold is_active in Hn. rewrite Hu, Z.eqb_refl in Hn. by rewrite !bool_decide_eq_true_2 in Hn.
Qed.

Lemma insert_check_keeps c user (on_conflict : DB (option string)) :
  keeps on_conflict -> keeps (insert_check c user on_conflict).
Proof.
  intros Hconf. unfold insert_check. apply keeps_bind; [auto with store|]. intros [].
  apply keeps_bind; [auto with store|]. intros id. apply keeps_update. intros w Hwf.
  destruct (_ || _) eqn:Hc; [by apply Hconf|]. apply orb_false_iff in Hc as [Hfresh Hname].
  apply bool_decide_eq_false, eq_None_not_Some in Hfresh.
  split; [|reflexivity]. simpl. split; [|apply Hwf]. simpl.
  pose proof (name_taken_false _ _ _ Hname) as Hno.
  apply tables_wf_checks; [apply Hwf|..].
  - intros k Hk. rewrite lookup_insert_is_Some'. by right.
  - intros k (c' & Hc' & Hd) Hk. simpl in Hc'. rewrite lookup_insert_ne in Hc'; [by exists c'|].
    intros <-. rewrite Hfresh in Hk. by destruct Hk.
  - intros a b x y Ha Hb Dx Dy Hu Hn. rewrite !lookup_insert_Some in *.
    destruct Ha as [[<- <-]|[Hna Ha]], Hb as [[<- <-]|[Hnb Hb]]; [done|..].
    + exfalso. by eapply Hno.
    + exfalso. by eapply Hno.
    + by eapply (wf_name_unique _ (proj1 Hwf)).
Qed.

Lemma seed_keeps cs user : keeps (SeedChecks cs user).
Proof.
  apply keeps_for. intros c. apply keeps_bind; [|auto with store].
  apply keeps_call, insert_check_keeps. auto with store.
Qed.

Lemma create_keeps c user : keeps (CreateCheck c user).
Proof.
  apply keeps_bind; [|auto with store]. apply keeps_call, insert_check_keeps. auto with store.
Qed.

Lemma update_keeps c user : keeps (UpdateCheck c user).
Proof.
  apply keeps_call, keeps_bind; [auto with store|]. intros []. apply keeps_update. intros w Hwf.
  apply keeps_put; [done| |apply Hwf]. set (x := update_where _ _ _).
  assert (Hrow : forall k r, x !! k = Some r -> exists r0, t_checks (w_tables w) !! k = Some r0 /\
    c_deleted_at r = c_deleted_at r0 /\ c_user_id r = c_user_id r0 /\ c_name r = c_name r0).
  { intros k r Hr. apply lookup_update_where_Some in Hr as (r0 & Hr0 & ->). exists r0.
    by destruct (named _ _ r0). }
  apply tables_wf_checks; [apply Hwf|..].
  - intros k Hk. unfold x. by rewrite lookup_update_where, fmap_is_Some.
  - intros k (r & Hr & Hd) _. destruct (Hrow k r Hr) as (r0 & Hr0 & E & _). exists r0. by rewrite <-E.
  - intros a b r s Ha Hb Dr Ds Hu Hn.
    destruct (Hrow a r Ha) as (r0 & Ha0 & E1 & E2 & E3), (Hrow b s Hb) as (s0 & Hb0 & F1 & F2 & F3).
    eapply (wf_name_unique _ (proj1 Hwf)); [exact Ha0|exact Hb0|congruence..].
Qed.
End monitoring.

#[export] Hint Resolve batch_keeps write_keeps seed_keeps create_keeps update_keeps : store.

Section delete.
Context `{Env : StoreEnv}.

Definition supersede_all_t (checkID : string) (at_ : Time) (t : Tables) : Tables :=
  set_t_notifications
    (update_where
       (fun _ n => bool_decide (i_check_id <$> t_incidents t !! n_incident_id n = Some checkID) &&
                   negb ((n_state n == notificationStateSuperseded) ||
                         (n_state n == notificationStateDelivered)))
       (set_n_state notificationStateSuperseded None at_) (t_notifications t)) t.

Definition delete_states_t (checkID : string) (t : Tables) : Tables :=
  set_t_states (delete_where (fun k _ => k.1 == checkID) (t_states t)) t.

Definition mark_deleted_t (checkID : string) (at_ : Time) (t : Tables) : Tables :=
  set_t_checks
    (update_where (fun k _ => k == checkID)
       (fun c => MkCheckRow (c_name c) (c_type c) (c_target c) (c_webhook c) (c_user_id c)
          (c_interval_seconds c) (Some at_))
       (t_checks t)) t.

Definition delete_check_t (checkID : string) (at_ : Time) (t : Tables) : Tables :=
  mark_deleted_t checkID at_ (delete_states_t checkID
    (resolve_incidents checkID at_ (supersede_all_t checkID at_ t))).

(** After the first statement no page of the check is waiting. *)
Lemma supersede_all_terminal t checkID at_ k n i :
  t_notifications (supersede_all_t checkID at_ t) !! k = Some n ->
  t_incidents t !! n_incident_id n = Some i -> i_check_id i = checkID -> terminal n.
Proof.
  intros Hl Hi Hc. apply lookup_update_where_Some in Hl as (n0 & Hl & ->).
  destruct (bool_decide _ && _) eqn:Hf; [by right|].
  rewrite Hi in Hf. simpl in Hf. rewrite Hc, bool_decide_eq_true_2 in Hf by done.
  apply negb_false_iff, orb_true_iff in Hf as [Hf|Hf]; apply bool_decide_eq_true in Hf;
    [by right|by left].
Qed.

(** The pages of the check are superseded and its incidents resolved. *)
Lemma supersede_resolve_wf t checkID at_ :
  tables_wf t -> tables_wf (resolve_incidents checkID at_ (supersede_all_t checkID at_ t)).
Proof.
  intros Hwf. destruct (resolve_incidents_wf t checkID at_ Hwf) as (Hi & Ho & Hn).
  pose proof Hwf as [Hn0 _ Hs _ He Hc]. split; simpl; [|exact Hi|exact Hs|exact Ho| |exact Hc].
  - intros k n' Hl. pose proof Hl as Hl0. apply lookup_update_where_Some in Hl as (n & Hl & ->).
    specialize (Hn0 k n Hl). simpl in Hn0. destruct (bool_decide _ && _) eqn:Hf.
    + apply (superseded_ok t checkID at_ at_ n Hwf Hn0). intros i Hik.
      apply andb_true_iff in Hf as [Hf%bool_decide_eq_true _]. rewrite Hik in Hf. by injection Hf.
    + apply (Hn n Hn0). intros j Hj Hoj _. apply is_open_of_true in Hoj as [Hoj _].
      eapply supersede_all_terminal; [exact Hl0|exact Hj|exact Hoj].
  - intros a b x y Ha Hb E1 E2.
    apply update_notifs_row in Ha as (x0 & Hx & Ex1 & Ex2); [|apply set_n_state_ids].
    apply update_notifs_row in Hb as (y0 & Hy & Ey1 & Ey2); [|apply set_n_state_ids].
    eapply He; [exact Hx|exact Hy|congruence..].
Qed.

(** Deleting the check is safe once its incidents are resolved as well. *)
Lemma mark_deleted_wf t checkID at_ :
  tables_wf t ->
  (forall k n i, t_notifications t !! k = Some n -> t_incidents t !! n_incident_id n = Some i ->
     i_check_id i = checkID -> terminal n) ->
  (forall k i, t_incidents t !! k = Some i -> i_check_id i = checkID -> i_resolved_at i <> None) ->
  tables_wf (mark_deleted_t checkID at_ t).
Proof.
  intros [Hn Hi Hs Ho He Hc] Hterm Hres.
  assert (Hdel : forall k, k <> checkID -> deleted (mark_deleted_t checkID at_ t) k -> deleted t k).
  { intros k Hne (c & Hl & Hd). apply lookup_update_where_Some in Hl as (c0 & Hl & ->).
    rewrite bool_decide_eq_false_2 in Hd by done. by exists c0. }
  split; simpl; [| | |done|done|].
  - intros k n Hl. destruct (Hn k n Hl) as (i & Hik & ? & ? & ? & ? & ? & Hd & ?). exists i.
    split_and!; [done..| |done]. intros Hdl.
    destruct (decide (i_check_id i = checkID)) as [Heq|Hne]; [by eapply Hterm|auto].
  - intros k i Hl. destruct (Hi k i Hl) as [Hck Hd]. split.
    + simpl. by rewrite lookup_update_where, fmap_is_Some.
    + intros Hdl. destruct (decide (i_check_id i = checkID)); [by eapply Hres|auto].
  - intros k s Hl. rewrite lookup_update_where, fmap_is_Some. by apply (Hs k s).
  - intros a b c d Ha Hb Dc Dd Hu Hnm.
    apply lookup_update_where_Some in Ha as (c0 & Ha & ->), Hb as (d0 & Hb & ->).
    destruct (a == checkID), (b == checkID); try done. by eapply Hc.
Qed.

Lemma delete_check_t_wf t checkID at_ : tables_wf t -> tables_wf (delete_check_t checkID at_ t).
Proof.
  intros Hwf. set (t1 := supersede_all_t checkID at_ t).
  assert (Hterm : forall k n i, t_notifications t1 !! k = Some n ->
    t_incidents t1 !! n_incident_id n = Some i -> i_check_id i = checkID -> terminal n).
  { intros k n i Hl Hi. by eapply supersede_all_terminal. }
  assert (Hwf2 : tables_wf (resolve_incidents checkID at_ t1)).
  { by apply supersede_resolve_wf. }
  apply mark_deleted_wf.
  - apply tables_wf_states; [done|]. intros k s Hl. apply lookup_delete_where_Some in Hl as [Hl _].
    by apply (wf_states _ Hwf2 k s).
  - intros k n i Hl Hi Hc. destruct (resolve_incidents_row _ _ _ _ _ Hi) as (i0 & Hi0 & E & _).
    eapply Hterm; [exact Hl|exact Hi0|congruence].
  - intros k i Hi Hc Hnone.
    destruct (resolve_incidents_row _ _ _ _ _ Hi) as (i0 & Hi0 & E & _ & Hun).
    pose proof (Hun Hnone). subst i0. simpl in Hi. rewrite lookup_update_where in Hi.
    simpl in Hi0. rewrite Hi0 in Hi. simpl in Hi.
    rewrite (proj2 (is_open_of_true checkID i)) in Hi by done.
    injection Hi as Hi. by rewrite <-Hi in Hnone.
Qed.

Lemma delete_check_t_seqs t q checkID at_ : seqs_ok t q -> seqs_ok (delete_check_t checkID at_ t) q.
Proof. intros Hq. by apply seqs_ok_resolve, seqs_ok_update_notifs. Qed.

(** The body of [DeleteCheck] after the check was found. *)
Lemma delete_body checkID now w res w' :
  (call (supersede_all checkID now);; call (resolve_all checkID now);;
   call (delete_states checkID);; call (mark_deleted checkID now);; mret (true, checkID)) w = (res, w') ->
  w_seqs w' = w_seqs w /\
  (forall a, res = inr a -> a = (true, checkID) /\
     w_tables w' = delete_check_t checkID (timestamptz now) (w_tables w)).
Proof.
  unfold mbind, St_bind.
  destruct (call (supersede_all checkID now) w) as [[e|?] w1] eqn:H1;
    apply (call_put_run (supersede_all_t checkID (timestamptz now))) in H1 as [S1 T1];
    [by intros [= <- <-]|].
  destruct (call (resolve_all checkID now) w1) as [[e|?] w2] eqn:H2;
    apply (call_put_run (resolve_incidents checkID (timestamptz now))) in H2 as [S2 T2];
    [intros [= <- <-]; split; [congruence|done]|].
  destruct (call (delete_states checkID) w2) as [[e|?] w3] eqn:H3;
    apply (call_put_run (delete_states_t checkID)) in H3 as [S3 T3];
    [intros [= <- <-]; split; [congruence|done]|].
  destruct (call (mark_deleted checkID now) w3) as [[e|?] w4] eqn:H4;
    apply (call_put_run (mark_deleted_t checkID (timestamptz now))) in H4 as [S4 T4];
    intros [= <- <-]; (split; [congruence|]); [done|].
  intros a [= <-]. split; [done|].
  by rewrite (T4 _ eq_refl), (T3 _ eq_refl), (T2 _ eq_refl), (T1 _ eq_refl).
Qed.

(** Finding the check only reads. *)
Lemma delete_find name userID w res w' :
  call (params [name] [userID];; t ← get_tables;
        mret (head (select (fun _ c => named name userID c) (t_checks t)).*1)) w = (res, w') ->
  w_tables w' = w_tables w /\ w_seqs w' = w_seqs w /\
  (forall a, res = inr a ->
     a = head (select (fun _ c => named name userID c) (t_checks (w_tables w))).*1).
Proof.
  intros Hrun. apply call_cases in Hrun as [(e & -> & ->)|(row0 & Hrun & Hrow)]; [done|].
  unfold mbind, St_bind in Hrun. destruct (params_run [name] [userID] (next_tick w)) as [[e|u] Hp];
    rewrite Hp in Hrun; injection Hrun as <- <-; (split_and!; [done|done|]); intros a ->;
    destruct Hrow as [Hrow|[? ?]]; try done. by injection Hrow as ->.
Qed.

Lemma delete_keeps name userID : keeps (DeleteCheck name userID).
Proof.
  apply keeps_tx, commits_intro. intros w res w' [Ht Hq]. unfold mbind at 1, St_bind at 1.
  destruct (call _ w) as [[e|row] w1] eqn:Hfind;
    destruct (delete_find _ _ _ _ _ Hfind) as (T1 & S1 & Hrow); [intros [= <- <-]; by rewrite S1|].
  assert (Hwf1 : db_wf w1) by (split; rewrite T1, ?S1; done).
  destruct row as [checkID|]; [|intros [= <- <-]; by rewrite S1].
  unfold mbind at 1, St_bind at 1, time_Now. intros Hbody.
  destruct (delete_body checkID _ _ _ _ Hbody) as [S2 T2]. simpl in S2, T2.
  rewrite S2, S1. split; [done|]. intros a ->. destruct (T2 a eq_refl) as [_ T3].
  split; rewrite T3; [by apply delete_check_t_wf, Hwf1|].
  rewrite S2. by apply delete_check_t_seqs, Hwf1.
Qed.
End delete.

#[export] Hint Resolve delete_keeps : store.

(** * Probes *)

Section probes.
Context `{Env : StoreEnv}.

Lemma keeps_set_probes F :
  keeps (t ← get_tables; put_tables (set_t_probes (F t) t)).
Proof. apply keeps_update. intros w [[] Hq]. by apply keeps_put. Qed.

Lemma token_keeps size : keeps (randomHexToken size).
Proof. intros w Hwf. unfold randomHexToken. case_match; (split; [done|reflexivity]). Qed.
#[local] Hint Resolve keeps_set_probes token_keeps : store.

Lemma seed_probes_keeps probes : keeps (SeedProbes probes).
Proof.
  unfold SeedProbes. case_bool_decide; [auto with store|].
  apply keeps_bind; [apply keeps_for; intros p; apply keeps_bind; [auto with store|intros now]|].
  { apply keeps_call, keeps_bind; [auto with store|]. intros []. apply keeps_set_probes. }
  intros []. apply keeps_bind.
  { apply keeps_call, keeps_update. intros w Hwf. split; [done|reflexivity]. }
  intros ids. apply keeps_for. intros id. case_bool_decide; [auto with store|].
  apply keeps_bind; [auto with store|]. intros now. apply keeps_call, keeps_bind; [auto with store|].
  intros []. apply keeps_set_probes.
Qed.

Lemma insert_credential_keeps id : keeps (insertProbeCredential id).
Proof.
  unfold insertProbeCredential. cbv zeta. case_match; [auto with store|].
  apply keeps_bind; [auto with store|]. intros secret. apply keeps_bind; [auto with store|].
  intros now. apply keeps_bind; [|intros [x|]; auto with store].
  apply keeps_call, keeps_bind; [auto with store|]. intros []. apply keeps_update. intros w Hwf.
  case_bool_decide; [by apply keeps_ret|]. destruct Hwf as [[] Hq]. by apply keeps_put.
Qed.

Lemma generate_keeps fuel : keeps (generate_credential fuel).
Proof.
  induction fuel as [|fuel IH]; cbn [generate_credential]; [auto with store|].
  apply keeps_bind; [unfold randomProbeID; auto with store|]. intros id w Hwf. unfold if_taken.
  destruct (insert_credential_keeps id w Hwf) as [H1 H2].
  destruct (insertProbeCredential id w) as [[e|c] w1]; [|done]. case_match; [|done].
  destruct (IH w1 H1) as [H3 H4]. split; [done|by transitivity (w_seqs w1)].
Qed.

Lemma create_probe_keeps id : keeps (CreateProbeCredential id).
Proof.
  unfold CreateProbeCredential. cbv zeta. case_match; [apply insert_credential_keeps|apply generate_keeps].
Qed.

Lemma register_keeps id version : keeps (RegisterProbe id version).
Proof.
  unfold RegisterProbe. apply keeps_bind; [auto with store|]. intros now.
  apply keeps_call, keeps_bind; [auto with store|]. intros []. apply keeps_set_probes.
Qed.
End probes.

#[export] Hint Resolve seed_probes_keeps create_probe_keeps register_keeps : store.
