(* ===== verification/StoreProperties.v ===== *)
(** What the store's calls promise: integrity on every path,
    pages that end for good, claims that lose no page, deletion. *)

From S2P Require Import Prelude GoStrings Types Database StoreNotifications StoreMonitoring.
From S2P Require Import StoreChecks StoreProbes StoreInvariant.

(** * The store as a transition system *)

Inductive StoreOp :=
| OpPersistBatch (writes : list MonitoringWrite)
| OpPersistWrite (write : MonitoringWrite)
| OpClaimDue (now staleBefore : Time) (limit : Z)
| OpMarkDelivered (id : Z) (deliveredAt : Time)
| OpMarkRetry (id : Z) (attemptedAt nextAttemptAt : Time) (lastError : string)
| OpSeedChecks (checks : list Check) (userID : Z)
| OpCreateCheck (c : Check) (userID : Z)
| OpUpdateCheck (c : Check) (userID : Z)
| OpDeleteCheck (name : string) (userID : Z)
| OpSeedProbes (probes : list ProbeSeed)
| OpCreateProbe (requestedProbeID : string)
| OpRegisterProbe (probeID version : string).

Definition exec_store `{StoreEnv} (op : StoreOp) (w : World) : World :=
  match op with
  | OpPersistBatch ws => (PersistMonitoringBatch ws w).2
  | OpPersistWrite wr => (PersistMonitoringWrite wr w).2
  | OpClaimDue n s l => (ClaimDueIncidentNotifications n s l w).2
  | OpMarkDelivered id t => (MarkIncidentNotificationDelivered id t w).2
  | OpMarkRetry id a n e => (MarkIncidentNotificationRetry id a n e w).2
  | OpSeedChecks cs u => (SeedChecks cs u w).2
  | OpCreateCheck c u => (CreateCheck c u w).2
  | OpUpdateCheck c u => (UpdateCheck c u w).2
  | OpDeleteCheck n u => (DeleteCheck n u w).2
  | OpSeedProbes ps => (SeedProbes ps w).2
  | OpCreateProbe id => (CreateProbeCredential id w).2
  | OpRegisterProbe id v => (RegisterProbe id v w).2
  end.

Inductive store_step `{StoreEnv} : World -> World -> Prop :=
| store_step_op op w : store_step w (exec_store op w).

Lemma exec_store_wf `{StoreEnv} op w : db_wf w -> db_wf (exec_store op w).
Proof.
  intros Hwf. destruct op; simpl;
    match goal with |- db_wf (?m w).2 => assert (keeps m) as Hk by auto with store end;
    apply (Hk w Hwf).
Qed.

(** * Calls that only move forward *)

(** [R] holds between the tables before and after the call, on every path. *)
Definition respects (R : relation Tables) {A} (m : DB A) : Prop :=
  forall w, R (w_tables w) (w_tables (m w).2).

Section respects.
Context (R : relation Tables) `{!PreOrder R} `{Env : StoreEnv}.

Lemma respects_ret {A} (a : A) : respects R (mret a).
Proof. intros w. reflexivity. Qed.
Lemma respects_fail {A} e : respects R (st_fail e : DB A).
Proof. intros w. reflexivity. Qed.
Lemma respects_now : respects R time_Now.
Proof. intros w. reflexivity. Qed.
Lemma respects_uuid : respects R gen_random_uuid.
Proof. intros w. reflexivity. Qed.
Lemma respects_nextval_i : respects R nextval_incidents.
Proof. intros w. reflexivity. Qed.
Lemma respects_nextval_n : respects R nextval_notifications.
Proof. intros w. reflexivity. Qed.
Lemma respects_params texts ints : respects R (params texts ints).
Proof. intros w. destruct (params_run texts ints w) as [res ->]. reflexivity. Qed.

Lemma respects_bind {A B} (m : DB A) (k : A -> DB B) :
  respects R m -> (forall a, respects R (k a)) -> respects R (m ≫= k).
Proof.
  intros Hm Hk w. unfold mbind, St_bind. specialize (Hm w).
  destruct (m w) as [[e|a] w1]; simpl in *; [done|]. etransitivity; [exact Hm|apply Hk].
Qed.

Lemma respects_call {A} (stmt : DB A) : respects R stmt -> respects R (call stmt).
Proof.
  intros Hs w. unfold call. destruct (fault_at (w_tick w)) as [[]|]; [simpl; reflexivity|..];
    exact (Hs (next_tick w)).
Qed.

Lemma respects_tx {A} (body : DB A) : respects R body -> respects R (with_tx body).
Proof.
  intros Hb w. unfold with_tx, call, mret, St_ret. specialize (Hb (next_tick w)).
  destruct (fault_at (w_tick w)) as [[]|]; [simpl; reflexivity..|].
  destruct (body (next_tick w)) as [[e|a] w2]; simpl in *; [reflexivity|].
  destruct (fault_at (w_tick w2)) as [[]|]; simpl; [reflexivity|done..].
Qed.

Lemma respects_for {A} (xs : list A) (body : A -> DB unit) :
  (forall x, respects R (body x)) -> respects R (st_for xs body).
Proof.
  intros Hb. induction xs as [|x xs IH]; simpl; [apply respects_ret|]. by apply respects_bind.
Qed.

Lemma respects_collect {A B} (xs : list A) (body : A -> DB B) :
  (forall x, x ∈ xs -> respects R (body x)) -> respects R (st_collect xs body).
Proof.
  induction xs as [|x xs IH]; intros Hb; simpl; [apply respects_ret|].
  apply respects_bind; [apply Hb; left|]. intros y.
  apply respects_bind; [apply IH; intros z Hz; apply Hb; by right|]. intros. apply respects_ret.
Qed.

(** Reading the tables and then writing them. *)
Lemma respects_update {A} (k : Tables -> DB A) :
  (forall w, R (w_tables w) (w_tables (k (w_tables w) w).2)) -> respects R (get_tables ≫= k).
Proof. intros Hk w. exact (Hk w). Qed.

Lemma respects_put (F : Tables -> Tables) :
  (forall t, R t (F t)) -> respects R (t ← get_tables; put_tables (F t)).
Proof. intros HF. apply respects_update. intros w. apply HF. Qed.
End respects.

(** Follows the structure of a call down to its statements. *)
Ltac frame :=
  repeat (lazymatch goal with
  | |- forall _, _ => intros ?
  | |- respects _ (mret _) => apply respects_ret; apply _
  | |- respects _ (st_fail _) => apply respects_fail; apply _
  | |- respects _ time_Now => apply respects_now; apply _
  | |- respects _ gen_random_uuid => apply respects_uuid; apply _
  | |- respects _ nextval_incidents => apply respects_nextval_i; apply _
  | |- respects _ nextval_notifications => apply respects_nextval_n; apply _
  | |- respects _ (params _ _) => apply respects_params; apply _
  | |- respects _ (call _) => apply respects_call; [apply _|]
  | |- respects _ (with_tx _) => apply respects_tx; [apply _|]
  | |- respects _ (st_for _ _) => apply respects_for; [apply _|]
  | |- respects _ (st_collect _ _) => apply respects_collect; [apply _|]
  | |- respects _ (get_tables ≫= _) => apply respects_update; intros ?
  | |- respects _ (_ ≫= _) => apply respects_bind; [apply _| |]
  | |- respects _ (match _ with _ => _ end) => case_match
  | |- respects _ _ => solve [auto with store]
  end).

(** * Calls about probes touch no other table *)

Definition probes_only : relation Tables := fun t t' => t' = set_t_probes (t_probes t') t.

#[global] Instance probes_only_preorder : PreOrder probes_only.
Proof.
  split; [by intros []|]. intros t1 t2 t3 H12 H23. unfold probes_only in *.
  rewrite H23, H12 at 1. done.
Qed.

Section probes.
Context `{Env : StoreEnv}.

Lemma probes_token size : respects probes_only (randomHexToken size).
Proof. intros w. unfold randomHexToken. case_match; reflexivity. Qed.

Lemma probes_insert id : respects probes_only (insertProbeCredential id).
Proof.
  unfold insertProbeCredential. cbv zeta. frame; [apply probes_token|].
  unfold insert_probe. frame. case_bool_decide; [reflexivity|done].
Qed.

Lemma probes_generate fuel : respects probes_only (generate_credential fuel).
Proof.
  induction fuel as [|fuel IH]; cbn [generate_credential]; [frame|].
  unfold randomProbeID. frame; [apply probes_token|]. intros w. unfold if_taken.
  pose proof (probes_insert a w) as Hi. destruct (insertProbeCredential a w) as [[e|c] w1]; [|done].
  case_match; [|done]. etransitivity; [exact Hi|apply IH].
Qed.

Lemma probes_store op w :
  match op with OpSeedProbes _ | OpCreateProbe _ | OpRegisterProbe _ _ => True | _ => False end ->
  probes_only (w_tables w) (w_tables (exec_store op w)).
Proof.
  destruct op; try done; intros _; simpl.
  - unfold SeedProbes. case_bool_decide; [reflexivity|].
    apply (respects_bind probes_only); [unfold seed_probe; frame; done|].
    intros []. unfold revoke_probe. frame; done.
  - unfold CreateProbeCredential. cbv zeta. case_match; [apply probes_insert|apply probes_generate].
  - unfold RegisterProbe. apply (respects_bind probes_only); frame; done.
Qed.
End probes.

(** * What happens to a page

    [Q k] relates page [k] before a call and after it. *)

Definition rows_follow (Q : Z -> relation NotificationRow) : relation Tables := fun t t' =>
  forall k n, t_notifications t !! k = Some n ->
  exists n', t_notifications t' !! k = Some n' /\ Q k n n'.

#[global] Instance rows_follow_preorder Q : (forall k, PreOrder (Q k)) -> PreOrder (rows_follow Q).
Proof.
  intros HQ. split; [intros t k n Hl; exists n; split; [done|reflexivity]|].
  intros t1 t2 t3 H12 H23 k n Hl. destruct (H12 k n Hl) as (n2 & Hl2 & HQ2).
  destruct (H23 k n2 Hl2) as (n3 & Hl3 & HQ3). exists n3. split; [done|by etransitivity].
Qed.

Section follow.
Context `{Env : StoreEnv} (Q : Z -> relation NotificationRow) `{HQ : !forall k, PreOrder (Q k)}.

Lemma follow_same t t' : t_notifications t' = t_notifications t -> rows_follow Q t t'.
Proof. intros E k n Hl. rewrite E. exists n. split; [done|reflexivity]. Qed.

Lemma follow_update t f g :
  (forall k n, f k n = true -> Q k n (g n)) ->
  rows_follow Q t (set_t_notifications (update_where f g (t_notifications t)) t).
Proof.
  intros Hg k n Hl. simpl. rewrite lookup_update_where, Hl. simpl. eexists. split; [done|].
  destruct (f k n) eqn:Hf; [by apply Hg|reflexivity].
Qed.

Lemma follow_insert_notification id event req now :
  respects (rows_follow Q) (insertIncidentNotification id event req now).
Proof.
  unfold insertIncidentNotification, insert_notification_row. frame.
  destruct (negb _); [reflexivity|]. destruct (notified _ _ _); [reflexivity|].
  destruct (negb _); [reflexivity|].
  match goal with |- context [t_notifications (w_tables ?w) !! ?k] =>
    destruct (bool_decide (is_Some (t_notifications (w_tables w) !! k))) eqn:Hfresh end; [reflexivity|].
  apply bool_decide_eq_false, eq_None_not_Some in Hfresh.
  intros k n' Hl. simpl. rewrite lookup_insert_ne by congruence. exists n'. split; [done|reflexivity].
Qed.
#[local] Hint Resolve follow_insert_notification : store.

Lemma follow_open c req now : respects (rows_follow Q) (openIncidentWithNotificationByCheckIDTx c req now).
Proof.
  unfold openIncidentWithNotificationByCheckIDTx, insert_incident_row. frame.
  case_match; [|reflexivity]. case_bool_decide; [reflexivity|].
  unfold mbind, St_bind. simpl. destruct (open_incident _ _); [simpl; reflexivity|].
  case_bool_decide; [simpl; reflexivity|]. by apply follow_same.
Qed.

Lemma follow_normalize s : respects (rows_follow Q) (normalizeCheckStateWrite s).
Proof. unfold normalizeCheckStateWrite, normalizeTime. cbv zeta. frame. Qed.
#[local] Hint Resolve follow_open follow_normalize : store.

Lemma follow_upsert s : respects (rows_follow Q) (upsertCheckStateTx s).
Proof. unfold upsertCheckStateTx. frame. repeat case_match; by apply follow_same. Qed.

Lemma follow_heartbeat p at_ : respects (rows_follow Q) (updateProbeHeartbeatTx p at_).
Proof. unfold updateProbeHeartbeatTx, normalizeTime. frame. by apply follow_same. Qed.

Lemma follow_validate wr : respects (rows_follow Q) (validateMonitoringWrite wr).
Proof. unfold validateMonitoringWrite. frame. Qed.
#[local] Hint Resolve follow_upsert follow_heartbeat follow_validate : store.

Lemma follow_insert_check c user conf :
  respects (rows_follow Q) conf -> respects (rows_follow Q) (insert_check c user conf).
Proof.
  intros Hc. unfold insert_check. frame. destruct (_ || _); [apply Hc|by apply follow_same].
Qed.

(** Superseding is the one thing a check's own calls do to a page. *)
Hypothesis Q_supersede : forall k n at_,
  n_state n <> notificationStateDelivered -> Q k n (set_n_state notificationStateSuperseded None at_ n).

Lemma follow_resolve c req now :
  respects (rows_follow Q) (resolveIncidentWithNotificationByCheckIDTx c req now).
Proof.
  unfold resolveIncidentWithNotificationByCheckIDTx, resolve_open_row. frame; simpl.
  - by apply follow_same.
  - apply follow_update. intros k n Hf. apply andb_true_iff in Hf as [_ Hnd].
    apply negb_true_iff, bool_decide_eq_false in Hnd. by apply Q_supersede.
Qed.
#[local] Hint Resolve follow_resolve : store.

Lemma follow_write wr : respects (rows_follow Q) (persistMonitoringWriteTx wr).
Proof. unfold persistMonitoringWriteTx, applyMonitoringIncidentTx. frame. Qed.
#[local] Hint Resolve follow_write : store.

Lemma follow_batch ws : respects (rows_follow Q) (PersistMonitoringBatch ws).
Proof. unfold PersistMonitoringBatch. frame. Qed.

Lemma follow_delete name userID : respects (rows_follow Q) (DeleteCheck name userID).
Proof.
  unfold DeleteCheck, supersede_all, resolve_all, delete_states, mark_deleted.
  frame; simpl; try (by apply follow_same).
  apply follow_update. intros k n Hf. apply andb_true_iff in Hf as [_ Hn].
  apply negb_true_iff, orb_false_iff in Hn as [_ Hd]. apply bool_decide_eq_false in Hd.
  by apply Q_supersede.
Qed.

Lemma follow_claim now stale limit :
  (forall k n t, due_row now stale t n = true -> Q k n (claim_row now n)) ->
  respects (rows_follow Q) (ClaimDueIncidentNotifications now stale limit).
Proof.
  intros Hclaim. unfold ClaimDueIncidentNotifications. frame. cbv zeta.
  destruct (negb _); [reflexivity|].
  set (due := due_rows _ _ _ _). intros k n Hl. simpl. rewrite lookup_update_where, Hl. simpl.
  eexists. split; [done|]. case_bool_decide as Hin; [|reflexivity].
  apply (elem_of_due_ids _ _ _ _ _ _ Hl) in Hin. by eapply Hclaim.
Qed.

Lemma follow_delivered id at_ :
  (forall n, n_state n = notificationStateProcessing -> Q id n (deliver_row (timestamptz at_) n)) ->
  respects (rows_follow Q) (MarkIncidentNotificationDelivered id at_).
Proof.
  intros Hd. unfold MarkIncidentNotificationDelivered. frame. apply follow_update. intros k n Hf.
  apply andb_true_iff in Hf as [Hk Hp]. apply bool_decide_eq_true in Hp. apply Z.eqb_eq in Hk as ->.
  by apply Hd.
Qed.

Lemma follow_retry id a nx e :
  (forall n t, n_state n <> notificationStateDelivered ->
     Q id n (retry_row (outdated t n) (timestamptz a) (timestamptz nx) (truncateError e) n)) ->
  respects (rows_follow Q) (MarkIncidentNotificationRetry id a nx e).
Proof.
  intros Hd. unfold MarkIncidentNotificationRetry. frame. apply follow_update. intros k n Hf.
  apply andb_true_iff in Hf as [Hf Hp]. apply andb_true_iff in Hf as [Hk _].
  apply negb_true_iff, bool_decide_eq_false in Hp. apply Z.eqb_eq in Hk as ->. by apply Hd.
Qed.

(** The calls of the sender. *)
Definition sender_row (op : StoreOp) (k : Z) (n n' : NotificationRow) : Prop :=
  match op with
  | OpClaimDue now stale _ => (exists t, due_row now stale t n = true) /\ n' = claim_row now n
  | OpMarkDelivered id at_ =>
      k = id /\ n_state n = notificationStateProcessing /\ n' = deliver_row (timestamptz at_) n
  | OpMarkRetry id a nx e =>
      k = id /\ n_state n <> notificationStateDelivered /\
      exists t, n' = retry_row (outdated t n) (timestamptz a) (timestamptz nx) (truncateError e) n
  | _ => False
  end.

Lemma follow_store op w :
  (forall k n n', sender_row op k n n' -> Q k n n') ->
  rows_follow Q (w_tables w) (w_tables (exec_store op w)).
Proof.
  intros Hop. destruct op; simpl.
  - apply follow_batch.
  - apply (respects_bind (rows_follow Q)); [apply follow_batch|frame].
  - apply follow_claim. intros k n t Ht. apply Hop. simpl. eauto.
  - apply follow_delivered. intros n Hn. by apply Hop.
  - apply follow_retry. intros n t Hn. apply Hop. simpl. eauto.
  - apply (respects_for (rows_follow Q)). intros c. frame. apply follow_insert_check. frame.
  - apply (respects_bind (rows_follow Q)); frame. apply follow_insert_check. frame.
  - unfold UpdateCheck. apply (respects_call (rows_follow Q)). frame. by apply follow_same.
  - apply follow_delete.
  - apply follow_same. exact (f_equal t_notifications (probes_store (OpSeedProbes probes) w I)).
  - apply follow_same. exact (f_equal t_notifications (probes_store (OpCreateProbe requestedProbeID) w I)).
  - apply follow_same. exact (f_equal t_notifications (probes_store (OpRegisterProbe probeID version) w I)).
Qed.
End follow.

(** * Ended pages stay ended *)

(** A delivered or superseded page keeps its state, its attempts and its delivery
    time. *)
Definition kept_if_ended (k : Z) : relation NotificationRow := fun n n' =>
  terminal n -> n_state n' = n_state n /\ n_attempts n' = n_attempts n /\
    n_delivered_at n' = n_delivered_at n.

#[global] Instance kept_if_ended_preorder k : PreOrder (kept_if_ended k).
Proof.
  split; [by intros n|]. intros n1 n2 n3 H12 H23 Ht. destruct (H12 Ht) as (S2 & A2 & D2).
  destruct H23 as (S3 & A3 & D3); [unfold terminal in *; by rewrite S2|]. split_and!; congruence.
Qed.

Lemma terminal_live n st :
  terminal n -> n_state n = st ->
  st <> notificationStateDelivered -> st <> notificationStateSuperseded -> False.
Proof. intros [Ht|Ht] E Hd Hs; congruence. Qed.

Lemma due_live `{StoreEnv} now stale t n : due_row now stale t n = true -> ~ terminal n.
Proof.
  unfold due_row. case_match; [|done]. intros Hd Ht. revert Hd.
  destruct Ht as [-> | ->]; simpl; by rewrite andb_false_r.
Qed.

Lemma ended_store `{StoreEnv} op w :
  rows_follow kept_if_ended (w_tables w) (w_tables (exec_store op w)).
Proof.
  apply follow_store; [apply _|intros k n at_ Hd [?|Ht]; [done|by rewrite Ht]|].
  intros k n n' Hr Ht. destruct op; simpl in Hr; try done.
  - destruct Hr as [[t Hd] _]. by apply due_live in Hd.
  - destruct Hr as (_ & Hp & _). exfalso. by eapply terminal_live.
  - destruct Hr as (_ & Hd & t & ->). destruct Ht as [?|Ht]; [done|].
    unfold outdated. by rewrite Ht.
Qed.

(** * Claims *)

#[global] Instance due_le_trans : Transitive due_le.
Proof. intros [i a] [j b] [k c]. unfold due_le. simpl. repeat case_match; intros; simplify_eq; lia. Qed.

#[global] Instance due_le_total : Total due_le.
Proof. intros [i a] [j b]. unfold due_le. simpl. repeat case_match; simplify_eq; lia. Qed.

Definition limit_of (limit : Z) : Z := if (limit <=? 0)%Z then 1%Z else limit.

Section claims.
Context `{Env : StoreEnv}.

(** All the rows a claim could take, in the order it takes them. *)
Definition all_due (now stale : Time) (t : Tables) : list (Z * NotificationRow) :=
  merge_sort due_le (select (fun _ n => due_row now stale t n) (t_notifications t)).

Lemma all_due_sorted now stale t : StronglySorted due_le (all_due now stale t).
Proof. apply StronglySorted_merge_sort; apply _. Qed.

Lemma NoDup_all_due now stale t : NoDup (all_due now stale t).*1.
Proof.
  assert (Hp : (all_due now stale t).*1 ≡ₚ
    (select (fun _ n => due_row now stale t n) (t_notifications t)).*1)
    by (apply fmap_Permutation, merge_sort_Permutation).
  rewrite Hp. apply NoDup_fst_filter, NoDup_fst_map_to_list.
Qed.

Lemma sorted_take_drop {A} (R : relation A) (l : list A) n x y :
  StronglySorted R l -> x ∈ take n l -> y ∈ drop n l -> R x y.
Proof.
  revert n. induction l as [|a l IH]; intros n Hs Hx Hy;
    [by rewrite take_nil in Hx; apply not_elem_of_nil in Hx|].
  apply StronglySorted_inv in Hs as [Hs Ha]. destruct n as [|n]; [by apply not_elem_of_nil in Hx|].
  simpl in *. apply elem_of_cons in Hx as [->|Hx]; [|by eapply IH].
  rewrite Forall_forall in Ha. apply Ha. apply list_elem_of_In.
  rewrite <-(take_drop n l). apply elem_of_app. by right.
Qed.

(** A due page is not about an outage that is over. *)
Lemma due_row_incident now stale t n :
  due_row now stale t n = true ->
  exists i, t_incidents t !! n_incident_id n = Some i /\
    (n_event n = notificationEventDown -> i_resolved_at i = None).
Proof.
  unfold due_row. destruct (t_incidents t !! n_incident_id n) as [i|]; [|done].
  intros Hd. exists i. split; [done|]. intros Hev. apply andb_true_iff in Hd as [_ Hd].
  rewrite Hev in Hd. by destruct (i_resolved_at i).
Qed.

(** What the limit leaves behind. *)
Lemma left_behind now stale t lim k n :
  let due := take lim (all_due now stale t) in
  t_notifications t !! k = Some n -> due_row now stale t n = true -> k ∉ due.*1 ->
  length due = lim /\ forall k' n', (k', n') ∈ due -> due_le (k', n') (k, n).
Proof.
  intros due Hl Hd Hk.
  assert (Hin : (k, n) ∈ all_due now stale t).
  { unfold all_due. rewrite merge_sort_Permutation.
    by apply (elem_of_select (fun _ n => due_row now stale t n)). }
  assert (Hdrop : (k, n) ∈ drop lim (all_due now stale t)).
  { rewrite <-(take_drop lim), elem_of_app in Hin. destruct Hin as [Hin|Hin]; [|done].
    exfalso. apply Hk. apply list_elem_of_fmap. by exists (k, n). }
  split.
  - assert (Hne : length (drop lim (all_due now stale t)) <> 0)
      by (destruct (drop lim _); [by apply not_elem_of_nil in Hdrop|done]).
    unfold due. rewrite length_drop in Hne. rewrite length_take. lia.
  - intros k' n' Hj. by eapply sorted_take_drop; [apply all_due_sorted|exact Hj|].
Qed.

Lemma claim_run now stale limit w jobs w' :
  ClaimDueIncidentNotifications now stale limit w = (inr jobs, w') ->
  let t := w_tables w in
  let due := take (Z.to_nat (limit_of limit)) (all_due now stale t) in
  jobs = (fun kn => job_of t kn.1 (claim_row now kn.2)) <$> due /\
  w_tables w' = set_t_notifications
    (update_where (fun id _ => bool_decide (id ∈ due.*1)) (claim_row now) (t_notifications t)) t.
Proof.
  intros Hrun. apply call_inr in Hrun. revert Hrun.
  unfold mbind, St_bind, get_tables. simpl. fold (limit_of limit).
  change (due_rows now stale (limit_of limit) (w_tables w))
    with (take (Z.to_nat (limit_of limit)) (all_due now stale (w_tables w))).
  destruct (negb _); [done|]. intros [= <- <-]. done.
Qed.

Lemma claim_spec now stale limit w jobs w' :
  ClaimDueIncidentNotifications now stale limit w = (inr jobs, w') ->
  let rows := t_notifications (w_tables w) in
  let rows' := t_notifications (w_tables w') in
  (Z.of_nat (length jobs) <= limit_of limit)%Z /\
  NoDup (nj_ID <$> jobs) /\
  (forall job, job ∈ jobs -> exists n i, rows !! nj_ID job = Some n /\
     due_row now stale (w_tables w) n = true /\
     t_incidents (w_tables w) !! n_incident_id n = Some i /\
     (n_event n = notificationEventDown -> i_resolved_at i = None) /\
     job = job_of (w_tables w) (nj_ID job) (claim_row now n) /\
     nj_Attempts job = (n_attempts n + 1)%Z /\
     rows' !! nj_ID job = Some (claim_row now n)) /\
  (forall k, k ∉ (nj_ID <$> jobs) -> rows' !! k = rows !! k) /\
  (forall k n, rows !! k = Some n -> due_row now stale (w_tables w) n = true ->
     k ∉ (nj_ID <$> jobs) ->
     Z.of_nat (length jobs) = limit_of limit /\
     forall job m, job ∈ jobs -> rows !! nj_ID job = Some m -> due_le (nj_ID job, m) (k, n)).
Proof.
  intros Hrun. destruct (claim_run _ _ _ _ _ _ Hrun) as [-> Htab]. cbv zeta.
  set (t := w_tables w) in *. set (lim := Z.to_nat (limit_of limit)) in *.
  set (due := take lim (all_due now stale t)) in *.
  assert (Hlim : (0 < limit_of limit)%Z) by (unfold limit_of; case_match; lia).
  assert (Hids : nj_ID <$> ((fun kn => job_of t kn.1 (claim_row now kn.2)) <$> due) = due.*1)
    by (rewrite <-list_fmap_compose; done).
  assert (Hdue : forall k n, (k, n) ∈ due ->
    t_notifications t !! k = Some n /\ due_row now stale t n = true)
    by (intros k n; apply elem_of_due_rows).
  assert (Hnd : NoDup due.*1).
  { unfold due. rewrite fmap_take. eapply sublist_NoDup; [apply NoDup_all_due|apply sublist_take]. }
  rewrite Hids, Htab. simpl. split_and!.
  - rewrite length_fmap. unfold due. rewrite length_take. lia.
  - exact Hnd.
  - intros job Hin. apply list_elem_of_fmap in Hin as ([k n] & -> & Hin). simpl.
    destruct (Hdue k n Hin) as [Hl Hd].
    destruct (due_row_incident _ _ _ _ Hd) as (i & Hi & Hres). exists n, i. split_and!; try done.
    rewrite lookup_update_where, Hl. simpl. rewrite bool_decide_eq_true_2; [done|].
    apply list_elem_of_fmap. by exists (k, n).
  - intros k Hk. rewrite lookup_update_where. rewrite bool_decide_eq_false_2 by done.
    by destruct (t_notifications t !! k).
  - intros k n Hl Hd Hk.
    destruct (left_behind now stale t lim k n Hl Hd Hk) as [Hlen Hle]. fold due in Hlen, Hle. split.
    + rewrite length_fmap, Hlen. lia.
    + intros job m Hj Hm. apply list_elem_of_fmap in Hj as ([k' n'] & -> & Hj). simpl in *.
      destruct (Hdue k' n' Hj) as [Hl' _]. simplify_eq. by apply Hle.
Qed.

(** A claim takes the pages that are due and nothing else.  When
    [ClaimDueIncidentNotifications] succeeds it returns at most [limit] jobs (one
    if [limit] is not positive), for distinct rows; every job's row existed and
    was due, its incident is not a recovered one if the page is about the outage,
    and it is now in processing with one more attempt, which the job carries;
    every other row is as it was; a due row that was left behind is not before
    a claimed one in the queue's order, and is left behind only when the limit
    was reached. *)
Lemma claim_takes_earliest_due now stale limit w jobs w' :
  ClaimDueIncidentNotifications now stale limit w = (inr jobs, w') ->
  let rows := t_notifications (w_tables w) in
  let rows' := t_notifications (w_tables w') in
  (Z.of_nat (length jobs) <= limit_of limit)%Z /\
  NoDup (nj_ID <$> jobs) /\
  (forall job, job ∈ jobs -> exists n i, rows !! nj_ID job = Some n /\
     due_row now stale (w_tables w) n = true /\
     t_incidents (w_tables w) !! n_incident_id n = Some i /\
     (n_event n = notificationEventDown -> i_resolved_at i = None) /\
     job = job_of (w_tables w) (nj_ID job) (claim_row now n) /\
     nj_Attempts job = (n_attempts n + 1)%Z /\
     rows' !! nj_ID job = Some (claim_row now n)) /\
  (forall k, k ∉ (nj_ID <$> jobs) -> rows' !! k = rows !! k) /\
  (forall k n, rows !! k = Some n -> due_row now stale (w_tables w) n = true ->
     k ∉ (nj_ID <$> jobs) ->
     Z.of_nat (length jobs) = limit_of limit /\
     forall job m, job ∈ jobs -> rows !! nj_ID job = Some m -> due_le (nj_ID job, m) (k, n)).
Proof. apply claim_spec. Qed.
End claims.

(** * Properties of call sequences *)

Section sequences.
Context `{Env : StoreEnv}.

Lemma steps_wf w w' : rtc store_step w w' -> db_wf w -> db_wf w'.
Proof.
  intros Hr. induction Hr as [w0|w0 w1 w2 Hs _ IH]; intros Hwf; [done|]. apply IH. destruct Hs.
  by apply exec_store_wf.
Qed.

(** C9. The tables' integrity.  After any sequence of store calls from an empty
    database, with any arguments and whatever faults the driver reports before or
    after the server did the work, a check has at most one open incident, an
    incident at most one page per event, active checks of one owner distinct
    names, every page waiting for delivery a due time and every page in flight an
    attempt time, no page about the outage is waiting once the incident is
    resolved, none about the recovery exists before it, only pages of resolved
    incidents are superseded, and a deleted check has neither an open incident nor
    a waiting page. *)
Theorem store_reachable_wf w : rtc store_step empty_world w -> db_wf w.
Proof. intros Hr. eapply steps_wf; [exact Hr|apply empty_world_wf]. Qed.

Lemma ended_steps w w' : rtc store_step w w' -> rows_follow kept_if_ended (w_tables w) (w_tables w').
Proof.
  intros Hr. induction Hr as [w|w w1 w2 Hs _ IH]; [reflexivity|].
  transitivity (w_tables w1); [|done]. destruct Hs. apply ended_store.
Qed.

(** C11. A page that ended has ended for good.  Whatever store calls follow, a
    delivered page stays delivered and a superseded one superseded, with the same
    number of attempts and the same delivery time, so it is never claimed
    again. *)
Theorem ended_pages_stay_ended w w' k n :
  rtc store_step w w' -> t_notifications (w_tables w) !! k = Some n -> terminal n ->
  exists n', t_notifications (w_tables w') !! k = Some n' /\ n_state n' = n_state n /\
    n_attempts n' = n_attempts n /\ n_delivered_at n' = n_delivered_at n.
Proof.
  intros Hr Hl Ht. destruct (ended_steps _ _ Hr k n Hl) as (n' & Hl' & HQ). exists n'. split; [done|by apply HQ].
Qed.

(** The time from which a page that waits or is in flight is due. *)
Definition due_time (n : NotificationRow) : Time :=
  Z.max (default 0%Z (n_next_attempt_at n)) (default 0%Z (n_last_attempt_at n)).

Lemma live_is_due w k n now stale :
  db_wf w -> t_notifications (w_tables w) !! k = Some n -> ~ terminal n ->
  (due_time n <= timestamptz now)%Z -> (due_time n <= timestamptz stale)%Z ->
  due_row now stale (w_tables w) n = true.
Proof.
  intros Hwf Hl Hlive Hnow Hstale. unfold due_time in *.
  destruct (wf_notifs _ (proj1 Hwf) k n Hl) as (i & Hi & _ & Hst & Hnx & Hla & Hd & _).
  destruct (wf_incidents _ (proj1 Hwf) _ i Hi) as [Hc _].
  unfold due_row. rewrite Hi, bool_decide_eq_true_2 by done. simpl.
  assert (Hnd : ((n_event n == notificationEventDown) && bool_decide (is_Some (i_resolved_at i))) = false).
  { case_bool_decide as Hev; [|done]. simpl. apply bool_decide_eq_false. intros [x Hx].
    apply Hlive, Hd; [done|]. by rewrite Hx. }
  rewrite Hnd, andb_true_r. unfold state_ok in Hst. unfold terminal in Hlive.
  destruct (n_state n == "pending") eqn:E1; [|destruct (n_state n == "processing") eqn:E2;
    [|destruct (n_state n == "retrying") eqn:E3]].
  - apply bool_decide_eq_true in E1. rewrite E1. simpl.
    destruct (n_next_attempt_at n) as [x|]; [|by destruct Hnx; [left|]].
    simpl in *. apply orb_true_iff. left. apply Z.leb_le. lia.
  - apply bool_decide_eq_true in E2. rewrite E2. simpl.
    destruct (n_last_attempt_at n) as [x|]; [|by destruct Hla]. simpl in *. apply Z.leb_le. lia.
  - apply bool_decide_eq_true in E3. rewrite E3. simpl.
    destruct (n_next_attempt_at n) as [x|]; [|by destruct Hnx; [right|]].
    simpl in *. apply orb_true_iff. left. apply Z.leb_le. lia.
  - exfalso. simpl in Hst. apply orb_true_iff in Hst as [Hst|Hst];
      apply bool_decide_eq_true in Hst; apply Hlive; auto.
Qed.

(** No page is stranded.  In a database the store can reach, every page that
    has not ended, a page a crashed sender left in processing included, is due
    from some time on: there is a time after which every claim considers it. *)
Lemma live_pages_become_due w k n :
  rtc store_step empty_world w -> t_notifications (w_tables w) !! k = Some n -> ~ terminal n ->
  exists T, forall now stale, (T <= timestamptz now)%Z -> (T <= timestamptz stale)%Z ->
    due_row now stale (w_tables w) n = true.
Proof.
  intros Hr Hl Hlive. exists (due_time n). intros now stale. eapply live_is_due; [|done..].
  eapply steps_wf; [exact Hr|apply empty_world_wf].
Qed.
End sequences.

(** * Transactions *)

Section transactions.
Context `{Env : StoreEnv}.

(** A transaction that fails changed nothing, unless only its commit's
    acknowledgement was lost. *)
Lemma tx_error {A} (body : DB A) w e w' :
  with_tx body w = (inl e, w') ->
  w_tables w' = w_tables w \/
  exists a w2, body (next_tick w) = (inr a, w2) /\ w_tables w' = w_tables w2 /\
    exists msg, e = ErrDriver msg /\ fault_at (w_tick w2) = Some (FaultAfter msg).
Proof.
  unfold with_tx, call, mret, St_ret.
  destruct (fault_at (w_tick w)) as [[]|]; [by intros [= _ <-]; left..|].
  destruct (body (next_tick w)) as [[e'|a] w2] eqn:Hb; [by intros [= _ <-]; left|].
  destruct (fault_at (w_tick w2)) as [[]|] eqn:Hf; [by intros [= _ <-]; left| |done].
  intros [= <- <-]. right. eauto 10.
Qed.

Lemma tx_ok {A} (body : DB A) w a w' :
  with_tx body w = (inr a, w') ->
  exists w2, body (next_tick w) = (inr a, w2) /\ w' = next_tick w2.
Proof.
  unfold with_tx, call, mret, St_ret. destruct (fault_at (w_tick w)) as [[]|]; [done..|].
  destruct (body (next_tick w)) as [[e'|a'] w2]; [done|].
  destruct (fault_at (w_tick w2)) as [[]|]; [done..|]. intros [= -> <-]. eauto.
Qed.

(** Checking the writes reads nothing and changes nothing. *)
Lemma validate_tables wr : respects (=) (validateMonitoringWrite wr).
Proof.
  unfold validateMonitoringWrite, normalizeCheckStateWrite, normalizeTime. cbv zeta. frame.
Qed.

Lemma validate_all_tables ws : respects (=) (st_for ws validateMonitoringWrite).
Proof. apply respects_for; [apply _|]. apply validate_tables. Qed.

Lemma head_select {K} `{Countable K} {V} (f : K -> V -> bool) (m : gmap K V) k :
  head (select f m).*1 = Some k -> exists v, m !! k = Some v /\ f k v = true.
Proof.
  intros Hh. destruct (select f m) as [|[k' v] l] eqn:Hs; [done|]. injection Hh as ->.
  exists v. apply (elem_of_select f). rewrite Hs. left.
Qed.

Lemma head_select_None {K} `{Countable K} {V} (f : K -> V -> bool) (m : gmap K V) k v :
  None = head (select f m).*1 -> m !! k = Some v -> f k v = false.
Proof.
  intros Hh Hl. destruct (f k v) eqn:Hf; [|done]. exfalso.
  assert (Hin : (k, v) ∈ select f m) by (by apply elem_of_select).
  destruct (select f m); [by apply not_elem_of_nil in Hin|done].
Qed.

Lemma none_named name userID t k c :
  None = head (select (fun _ c => named name userID c) (t_checks t)).*1 ->
  t_checks t !! k = Some c -> named name userID c = false.
Proof. intros Hh Hl. by eapply (head_select_None (fun _ c => named name userID c)). Qed.

(** What deletion leaves in the tables. *)
Lemma deleted_tables t checkID at_ :
  tables_wf t -> is_Some (t_checks t !! checkID) ->
  let t' := delete_check_t checkID at_ t in
  active_check t' checkID = false /\
  open_incident checkID t' = false /\
  (forall k n i, t_notifications t' !! k = Some n ->
     t_incidents t' !! n_incident_id n = Some i -> i_check_id i = checkID -> terminal n) /\
  (forall p, t_states t' !! (checkID, p) = None) /\
  (forall c, c <> checkID -> t_checks t' !! c = t_checks t !! c) /\
  (forall c p, c <> checkID -> t_states t' !! (c, p) = t_states t !! (c, p)).
Proof.
  intros Hwf [row Hrow] t'. pose proof (delete_check_t_wf t checkID at_ Hwf) as Hwf'.
  assert (Hdel : deleted t' checkID).
  { eexists. simpl. rewrite lookup_update_where. simpl. rewrite Hrow. simpl.
    by rewrite bool_decide_eq_true_2. }
  split_and!.
  - destruct Hdel as (c & Hc & Hd). unfold active_check. rewrite Hc. by apply bool_decide_eq_false_2.
  - apply has_row_false. intros k i Hl. destruct (wf_incidents _ Hwf' k i Hl) as [_ Hr].
    destruct (is_open_of checkID i) eqn:Ho; [|done]. apply is_open_of_true in Ho as [Hck Hn].
    subst checkID. by destruct (Hr Hdel).
  - intros k n i Hl Hi Hck. destruct (wf_notifs _ Hwf' k n Hl) as (i' & Hi' & Hrest).
    pose proof (eq_trans (eq_sym Hi) Hi') as [= <-]. apply Hrest. by rewrite Hck.
  - intros p. apply eq_None_not_Some. intros [s Hs].
    apply lookup_delete_where_Some in Hs as [_ Hs]. simpl in Hs. by rewrite bool_decide_eq_true_2 in Hs.
  - intros c Hc. simpl. rewrite lookup_update_where. rewrite bool_decide_eq_false_2 by done.
    by destruct (t_checks t !! c).
  - intros c p Hc. apply option_eq. intros s. simpl. rewrite lookup_delete_where_Some. simpl.
    rewrite bool_decide_eq_false_2 by done. split; [by intros [? _]|done].
Qed.

(** Deleting by name again finds nothing: the name was unique among the active
    checks of the user. *)
Lemma delete_again t checkID at_ name userID c :
  tables_wf t -> t_checks t !! checkID = Some c -> named name userID c = true ->
  select (fun _ c => named name userID c) (t_checks (delete_check_t checkID at_ t)) = [].
Proof.
  intros Hwf Hc Hn. destruct (select _ _) as [|[k d] l] eqn:Hs; [done|]. exfalso.
  assert (Hin : (k, d) ∈ select (fun _ c => named name userID c)
    (t_checks (delete_check_t checkID at_ t))) by (rewrite Hs; left).
  apply (elem_of_select (fun _ c => named name userID c)) in Hin as [Hl Hd].
  unfold named, owned_by, is_active in *. rewrite !andb_true_iff, !bool_decide_eq_true in *.
  destruct Hd as [[Hd1 Hd2] Hd3], Hn as [[Hn1 Hn2] Hn3].
  destruct (deleted_tables t checkID at_ Hwf) as (Ha & _ & _ & _ & Hother & _); [by eexists|].
  destruct (decide (k = checkID)) as [->|Hne].
  - unfold active_check in Ha. rewrite Hl in Ha. by rewrite bool_decide_eq_true_2 in Ha.
  - rewrite (Hother k Hne) in Hl. apply Hne.
    eapply (wf_name_unique t Hwf); [exact Hl|exact Hc|done|done|congruence..].
Qed.

(** C12. Deleting a check ends everything about it.  When [DeleteCheck] reports a
    deletion, the check it names was active and owned by the user; afterwards it
    is inactive, has no open incident, no page waiting and no current-state row,
    other checks and their rows are untouched, and deleting it again succeeds as
    a no-op; when it reports none, no such check was active and nothing
    changed. *)
Theorem delete_check_ends_everything name userID w res w' :
  db_wf w -> DeleteCheck name userID w = (inr res, w') ->
  match res with
  | (true, checkID) =>
      (exists c, t_checks (w_tables w) !! checkID = Some c /\ named name userID c = true) /\
      active_check (w_tables w') checkID = false /\
      open_incident checkID (w_tables w') = false /\
      (forall k n i, t_notifications (w_tables w') !! k = Some n ->
         t_incidents (w_tables w') !! n_incident_id n = Some i -> i_check_id i = checkID -> terminal n) /\
      (forall p, t_states (w_tables w') !! (checkID, p) = None) /\
      (forall c, c <> checkID -> t_checks (w_tables w') !! c = t_checks (w_tables w) !! c) /\
      (forall c p, c <> checkID -> t_states (w_tables w') !! (c, p) = t_states (w_tables w) !! (c, p)) /\
      (forall w2, w_tables w2 = w_tables w' -> forall res2 w3,
         DeleteCheck name userID w2 = (inr res2, w3) -> res2 = (false, ""))
  | (false, id) =>
      id = "" /\ w_tables w' = w_tables w /\
      forall k c, t_checks (w_tables w) !! k = Some c -> named name userID c = false
  end.
Proof.
  intros Hwf Hrun. apply tx_ok in Hrun as (w2 & Hrun & ->).
  apply bind_inr in Hrun as (row & w1 & Hfind & Hrun).
  apply delete_find in Hfind as (T1 & S1 & Hrow). specialize (Hrow row eq_refl).
  destruct row as [checkID|].
  - apply bind_inr in Hrun as (now & w1' & Hnow & Hrun). injection Hnow as <- <-.
    apply delete_body in Hrun as [_ Ht]. destruct (Ht _ eq_refl) as [-> Htab].
    simpl in Htab. rewrite T1 in Htab. simpl. rewrite Htab.
    destruct (head_select (fun _ c => named name userID c) _ _ (eq_sym Hrow)) as (c & Hc & Hn).
    destruct (deleted_tables _ checkID (timestamptz (now_at (w_tick w1))) (proj1 Hwf))
      as (H1 & H2 & H3 & H4 & H5 & H6); [by eexists|].
    split_and!; [by eexists|done..|].
    intros w3 Hw3 res2 w4 Hrun. apply tx_ok in Hrun as (w5 & Hrun & _).
    apply bind_inr in Hrun as (row2 & w6 & Hfind & Hrun).
    apply delete_find in Hfind as (_ & _ & Hrow2). specialize (Hrow2 row2 eq_refl). simpl in Hrow2.
    rewrite Hw3, (delete_again _ _ _ _ _ c (proj1 Hwf)) in Hrow2 by done.
    subst row2. by injection Hrun as <- _.
  - injection Hrun as <- <-. split_and!; [done|exact T1|].
    intros k c Hc. by eapply none_named.
Qed.
End transactions.

(** * Witnesses *)

Lemma exec_store_steps `{StoreEnv} ops w :
  rtc store_step w (fold_left (fun w op => exec_store op w) ops w).
Proof.
  revert w. induction ops as [|op ops IH]; intros w; simpl; [constructor|].
  eapply rtc_l; [constructor|apply IH].
Qed.

Definition ex_check : Check :=
  MkCheck "" "web" "http" "https://example.com" "https://hook.example" 30.
Definition ex_id : string := "a0b1c2d3-e4f5-4678-89ab-cdef01234567".
Definition ex_open : MonitoringWrite :=
  MkMonitoringWrite [MkCheckStateWrite ex_id "p1" 5 "down" 2 65 "down" "timeout"] "" 0 ex_id false
    (Some (MkNotificationRequest "https://hook.example" "{}")).
Definition ex_close : MonitoringWrite :=
  MkMonitoringWrite [] "" 0 ex_id true (Some (MkNotificationRequest "https://hook.example" "{}")).

Definition run_store (ops : list StoreOp) : World :=
  fold_left (fun w op => @exec_store calm_env op w) ops empty_world.

Definition ex_opened : World := run_store [OpCreateCheck ex_check 7; OpPersistWrite ex_open].
Definition ex_late : Time := (2000 * Second)%Z.

Definition ex_closed : World :=
  run_store [OpCreateCheck ex_check 7; OpPersistWrite ex_open; OpPersistWrite ex_close].

Lemma store_reachable_wf_witness : db_wf ex_closed.
Proof.
  apply (@store_reachable_wf calm_env ex_closed).
  apply (@exec_store_steps calm_env [OpCreateCheck ex_check 7; OpPersistWrite ex_open;
    OpPersistWrite ex_close] empty_world).
Defined.

Definition ex_page (w : World) (k : Z) : option NotificationRow := t_notifications (w_tables w) !! k.

Lemma ended_pages_stay_ended_witness :
  exists n, ex_page ex_closed 1 = Some n /\ n_state n = notificationStateSuperseded /\
  exists n', ex_page (@exec_store calm_env (OpMarkRetry 1 ex_late ex_late "late failure") ex_closed) 1
               = Some n' /\ n_state n' = n_state n.
Proof.
  destruct (ex_page ex_closed 1) as [n|] eqn:Hn; [|vm_compute in Hn; discriminate].
  assert (Hst : n_state n = notificationStateSuperseded)
    by (vm_compute in Hn; injection Hn as <-; vm_compute; reflexivity).
  exists n. split; [reflexivity|]. split; [exact Hst|].
  destruct (@ended_pages_stay_ended calm_env ex_closed
    (@exec_store calm_env (OpMarkRetry 1 ex_late ex_late "late failure") ex_closed) 1 n)
    as (n' & Hn' & Hs & _).
  - apply (@exec_store_steps calm_env [OpMarkRetry 1 ex_late ex_late "late failure"] ex_closed).
  - exact Hn.
  - right. exact Hst.
  - exists n'. split; [exact Hn'|exact Hs].
Defined.

Lemma live_pages_become_due_run :
  exists n T, ex_page ex_opened 1 = Some n /\
    forall now stale, (T <= @timestamptz calm_env now)%Z -> (T <= @timestamptz calm_env stale)%Z ->
      @due_row calm_env now stale (w_tables ex_opened) n = true.
Proof.
  destruct (ex_page ex_opened 1) as [n|] eqn:Hn; [|vm_compute in Hn; discriminate].
  destruct (@live_pages_become_due calm_env ex_opened 1 n) as [T HT].
  - apply (@exec_store_steps calm_env [OpCreateCheck ex_check 7; OpPersistWrite ex_open] empty_world).
  - exact Hn.
  - vm_compute in Hn. injection Hn as <-. intros [Hs|Hs]; vm_compute in Hs; discriminate.
  - exists n, T. split; [reflexivity|exact HT].
Qed.

Lemma claim_takes_earliest_due_run :
  exists jobs w', @ClaimDueIncidentNotifications calm_env ex_late 0 10 ex_opened = (inr jobs, w') /\
    jobs <> [] /\ NoDup (nj_ID <$> jobs).
Proof.
  assert (Hres : match (@ClaimDueIncidentNotifications calm_env ex_late 0 10 ex_opened).1 with
                 | inr (_ :: _) => true | _ => false end = true) by (vm_compute; reflexivity).
  destruct (@ClaimDueIncidentNotifications calm_env ex_late 0 10 ex_opened) as [[e|jobs] w'] eqn:Hrun;
    [discriminate Hres|].
  exists jobs, w'. split; [reflexivity|].
  destruct (@claim_takes_earliest_due calm_env ex_late 0%Z 10%Z ex_opened jobs w' Hrun)
    as (_ & Hnd & _).
  split; [|exact Hnd]. intros ->. discriminate Hres.
Qed.

(** The second write of the batch names a check that does not exist. *)
Definition ex_bad_batch : list MonitoringWrite :=
  [ex_close; MkMonitoringWrite [MkCheckStateWrite "01234567-89ab-4cde-8f01-23456789abcd" "p1" 5 "up" 1
                                  65 "missing" ""] "" 0 "" false None].

Lemma delete_check_ends_everything_witness :
  exists w', @DeleteCheck calm_env "web" 7 ex_opened = (inr (true, ex_id), w') /\
    open_incident ex_id (w_tables ex_opened) = true /\ open_incident ex_id (w_tables w') = false.
Proof.
  assert (Hres : (@DeleteCheck calm_env "web" 7 ex_opened).1 = inr (true, ex_id))
    by (vm_compute; reflexivity).
  destruct (@DeleteCheck calm_env "web" 7 ex_opened) as [res w'] eqn:Hrun. simpl in Hres.
  subst res. exists w'. split; [reflexivity|]. split; [vm_compute; reflexivity|].
  refine (proj1 (proj2 (proj2 (@delete_check_ends_everything calm_env "web" 7%Z ex_opened
            (true, ex_id) w' _ Hrun)))).
  eapply (@steps_wf calm_env); [|exact empty_world_wf].
  apply (@exec_store_steps calm_env [OpCreateCheck ex_check 7; OpPersistWrite ex_open] empty_world).
Defined.
