(* ===== verification/ProbeProperties.v ===== *)
(** What the store's probe credentials promise. *)

From S2P Require Import Prelude GoStrings Sha256 Database StoreProbes StoreInvariant StoreProperties.
From Stdlib Require Import Ascii NArith.

(** * IDs are plain text *)

Lemma id_char_text a : id_char a = true -> (code a <? 128)%N = true /\ (code a =? 0)%N = false.
Proof.
  unfold id_char, alnum, between. rewrite !orb_true_iff, !andb_true_iff, ?N.leb_le, ?N.eqb_eq.
  intros H. rewrite N.ltb_lt, N.eqb_neq. lia.
Qed.

Lemma id_tail_text s : id_tail s = true -> pg_text_ok s = true.
Proof.
  induction s as [|a s IH]; [done|]. simpl. rewrite andb_true_iff. intros [Ha Hs].
  destruct (id_char_text a Ha) as [-> ->]. by apply IH.
Qed.

Lemma probe_id_text s : probeIDPattern_Match s = true -> pg_text_ok s = true.
Proof.
  destruct s as [|a s]; [done|]. cbn [probeIDPattern_Match]. rewrite !andb_true_iff. intros [[Ha Hs] _].
  apply (id_tail_text (String a s)). simpl. unfold id_char. by rewrite Ha, Hs.
Qed.

Section credentials.
Context `{Env : StoreEnv}.

(** A new API credential. *)
Definition issued (cred : ProbeCredential) (w w' : World) : Prop :=
  probeIDPattern_Match (pcr_ProbeID cred) = true /\
  t_probes (w_tables w) !! pcr_ProbeID cred = None /\
  exists now, t_probes (w_tables w') =
    <[pcr_ProbeID cred := MkProbeRow (sha256_hex (pcr_Secret cred)) "api" "" (timestamptz now) None None None]>
      (t_probes (w_tables w)).

Lemma token_run size w res w' : randomHexToken size w = (res, w') -> w_tables w' = w_tables w.
Proof. unfold randomHexToken. case_match; by intros [= _ <-]. Qed.

Lemma insert_probe_run id hash now w res w' :
  call (insert_probe id hash now) w = (inr res, w') ->
  match res with
  | None => is_Some (t_probes (w_tables w) !! id) /\ t_probes (w_tables w') = t_probes (w_tables w)
  | Some x => x = id /\ t_probes (w_tables w) !! id = None /\ t_probes (w_tables w') =
      <[id := MkProbeRow hash "api" "" (timestamptz now) None None None]> (t_probes (w_tables w))
  end.
Proof.
  intros Hrun. apply call_inr in Hrun. unfold insert_probe in Hrun.
  apply bind_inr in Hrun as ([] & w1 & Hp & Hrun).
  destruct (params_run [id; hash] [] (next_tick w)) as [res0 Hp']. rewrite Hp in Hp'.
  injection Hp' as <- ->. unfold mbind, St_bind, get_tables in Hrun. simpl in Hrun.
  destruct (bool_decide (is_Some (t_probes (w_tables w) !! id))) eqn:Hs.
  - injection Hrun as <- <-. apply bool_decide_eq_true in Hs. done.
  - injection Hrun as <- <-. apply bool_decide_eq_false, eq_None_not_Some in Hs. done.
Qed.

Lemma insert_probe_error id hash now w e w' :
  call (insert_probe id hash now) w = (inl e, w') -> exists msg, e = ErrDriver msg.
Proof.
  unfold call, insert_probe, mbind, St_bind, params, st_fail, mret, St_ret, get_tables, put_tables.
  destruct (fault_at (w_tick w)) as [[]|]; [intros [= <- _]; eauto..|].
  destruct (negb _); [intros [= <- _]; by eexists|]. simpl. by case_bool_decide.
Qed.

(** The insert issues the trimmed ID; it reports a taken ID only if it is. *)
Lemma insert_credential_run id w res w' :
  insertProbeCredential id w = (res, w') ->
  match res with
  | inr cred => pcr_ProbeID cred = TrimSpace id /\ issued cred w w'
  | inl e => errors_Is e ErrProbeAlreadyExists = true -> t_probes (w_tables w') = t_probes (w_tables w)
  end.
Proof.
  unfold insertProbeCredential. cbv zeta. destruct (negb _) eqn:Hpat.
  { by intros [= <- <-]. }
  apply negb_false_iff in Hpat. unfold mbind, St_bind.
  destruct (randomHexToken 32 w) as [[e|secret] w1] eqn:Ht.
  { pose proof (token_run _ _ _ _ Ht) as E. intros [= <- <-] _. by rewrite E. }
  apply token_run in Ht. unfold time_Now. set (w2 := next_tick w1). set (now := now_at (w_tick w1)).
  assert (Hw2 : w_tables w2 = w_tables w) by exact Ht.
  destruct (call (insert_probe _ _ _) w2) as [[e|ins] w3] eqn:Hi.
  - apply insert_probe_error in Hi as [msg ->]. by intros [= <- <-].
  - apply insert_probe_run in Hi. destruct ins as [x|]; intros [= <- <-].
    + destruct Hi as (-> & Hfree & Hrows). rewrite Hw2 in Hfree, Hrows. split; [done|].
      split_and!; [done|done|by exists now].
    + intros _. destruct Hi as [_ ->]. by rewrite Hw2.
Qed.

Lemma generate_run fuel : forall w cred w',
  generate_credential fuel w = (inr cred, w') -> exists w0,
    t_probes (w_tables w0) = t_probes (w_tables w) /\ issued cred w0 w'.
Proof.
  induction fuel as [|fuel IH]; intros w cred w'; cbn [generate_credential]; [done|].
  intros Hrun. apply bind_inr in Hrun as (id & w1 & Hid & Hrun).
  unfold randomProbeID in Hid. apply bind_inr in Hid as (suffix & w2 & Ht & Hid).
  apply token_run in Ht. injection Hid as <- <-. unfold if_taken in Hrun.
  destruct (insertProbeCredential _ w2) as [[e|c] w3] eqn:Hi; apply insert_credential_run in Hi.
  - destruct (errors_Is e ErrProbeAlreadyExists); [|done]. specialize (Hi eq_refl).
    apply IH in Hrun as (w0 & E & Hiss). exists w0. split; [congruence|done].
  - injection Hrun as <- <-. exists w2. split; [congruence|apply Hi].
Qed.

Lemma authenticate_run id secret w :
  pg_text_ok id = true -> fault_at (w_tick w) = None ->
  (AuthenticateProbe id secret w).1 = inr (
    match t_probes (w_tables w) !! id with
    | Some p => if bool_decide (p_revoked_at p = None) && (p_secret_hash p == hashProbeSecret secret)
                then Some (MkProbe id (p_version p) (p_registered_at p) (p_last_seen_at p)) else None
    | None => None
    end).
Proof.
  intros Hid Hf. unfold AuthenticateProbe, call, mbind, St_bind, params. rewrite Hf. simpl.
  rewrite Hid. simpl. set (f := fun (k : string) p => (k == id) && bool_decide (p_revoked_at p = None)).
  destruct (select f (t_probes (w_tables w))) as [|[k p] l] eqn:Hs; simpl.
  - destruct (t_probes (w_tables w) !! id) as [p|] eqn:Hl; [|done]. simpl.
    destruct (bool_decide (p_revoked_at p = None)) eqn:Hr; [|done]. exfalso.
    assert (Hin : (id, p) ∈ select f (t_probes (w_tables w))).
    { apply elem_of_select. split; [done|]. unfold f.
      rewrite (bool_decide_eq_true_2 (id = id)) by done. by rewrite Hr. }
    rewrite Hs in Hin. by apply not_elem_of_nil in Hin.
  - assert (Hin : (k, p) ∈ select f (t_probes (w_tables w))) by (rewrite Hs; left).
    apply elem_of_select in Hin as [Hl Hk]. unfold f in Hk. apply andb_true_iff in Hk as [Hk Hr].
    apply bool_decide_eq_true in Hk as ->. rewrite Hl, Hr. simpl. by destruct (bool_decide (p_secret_hash p = _)).
Qed.

(** C22. An issued credential works, and only it does.  When
    [CreateProbeCredential] succeeds, the ID is well formed, the requested one if
    one was requested, and was not in use; no other probe changed; and with the
    database in that state [AuthenticateProbe] accepts the ID with exactly the
    secrets that have the issued secret's SHA-256 hash. *)
Theorem credential_roundtrip requested w cred w1 :
  CreateProbeCredential requested w = (inr cred, w1) ->
  probeIDPattern_Match (pcr_ProbeID cred) = true /\
  (TrimSpace requested <> "" -> pcr_ProbeID cred = TrimSpace requested) /\
  t_probes (w_tables w) !! pcr_ProbeID cred = None /\
  (forall k, k <> pcr_ProbeID cred -> t_probes (w_tables w1) !! k = t_probes (w_tables w) !! k) /\
  (forall w2 secret, w_tables w2 = w_tables w1 -> fault_at (w_tick w2) = None ->
     (AuthenticateProbe (pcr_ProbeID cred) secret w2).1 =
     inr (if sha256_hex secret == sha256_hex (pcr_Secret cred)
          then Some (MkProbe (pcr_ProbeID cred) "" None None) else None)).
Proof.
  intros Hrun.
  assert (Hiss : (TrimSpace requested <> "" -> pcr_ProbeID cred = TrimSpace requested) /\
    exists w0, t_probes (w_tables w0) = t_probes (w_tables w) /\ issued cred w0 w1).
  { unfold CreateProbeCredential in Hrun. destruct (negb _) eqn:Hne.
    - apply insert_credential_run in Hrun as [E Hiss]. rewrite TrimSpace_idemp in E. eauto.
    - apply negb_false_iff, bool_decide_eq_true in Hne. split; [done|]. by apply generate_run in Hrun. }
  destruct Hiss as (Hid & w0 & E & Hpat & Hfree & now & Hrows). rewrite E in Hfree, Hrows.
  split_and!; [done|done|done| |].
  - intros k Hk. rewrite Hrows. by rewrite lookup_insert_ne.
  - intros w2 secret Hw2 Hf. rewrite authenticate_run; [|by apply probe_id_text|done].
    rewrite Hw2, Hrows, lookup_insert_eq. simpl. f_equal. unfold hashProbeSecret.
    by rewrite (bool_decide_ext (sha256_hex (pcr_Secret cred) = sha256_hex secret) _ (symmetry_iff eq _ _)).
Qed.
End credentials.


(** * Seeding *)

(** The secret of the last seed for an ID. *)
Fixpoint last_secret (probes : list ProbeSeed) (id : string) : option string :=
  match probes with
  | [] => None
  | s :: probes =>
      match last_secret probes id with
      | Some secret => Some secret
      | None => if id == sd_ProbeID s then Some (sd_Secret s) else None
      end
  end.

Lemma last_secret_Some probes id :
  is_Some (last_secret probes id) <-> id ∈ sd_ProbeID <$> probes.
Proof.
  induction probes as [|s probes IH]; simpl.
  - split; [by intros []|by intros ?%not_elem_of_nil].
  - rewrite elem_of_cons, <-IH. destruct (last_secret probes id); [split; eauto|].
    case_bool_decide as E; [split; eauto|]. split; [by intros []|]. intros [?|[? ?]]; done.
Qed.

(** Everything about a probe but its credential. *)
Definition same_metadata (p p' : ProbeRow) : Prop :=
  p_version p' = p_version p /\ p_created_at p' = p_created_at p /\
  p_registered_at p' = p_registered_at p /\ p_last_seen_at p' = p_last_seen_at p.

(** A probe with this secret in the configuration. *)
Definition configured (secret : string) (old : option ProbeRow) (p' : ProbeRow) : Prop :=
  p_secret_hash p' = sha256_hex secret /\ p_provisioned_by p' = "config" /\ p_revoked_at p' = None /\
  forall p, old = Some p -> same_metadata p p'.

Definition seeded (probes : list ProbeSeed) (rows rows' : gmap string ProbeRow) : Prop :=
  forall id, match last_secret probes id with
  | Some secret => exists p', rows' !! id = Some p' /\ configured secret (rows !! id) p'
  | None => rows' !! id = rows !! id
  end.

Lemma configured_again `{StoreEnv} s0 s1 now old p' :
  configured s1 (Some (seed_row s0 now old)) p' -> configured s1 old p'.
Proof.
  intros (H1 & H2 & H3 & H4). split_and!; [done..|]. intros p ->. by destruct (H4 _ eq_refl) as (? & ? & ? & ?).
Qed.

Section seeding.
Context `{Env : StoreEnv}.

Lemma seed_one s now w w' :
  call (seed_probe s now) w = (inr tt, w') ->
  t_probes (w_tables w') = <[sd_ProbeID s := seed_row (sha256_hex (sd_Secret s)) now
    (t_probes (w_tables w) !! sd_ProbeID s)]> (t_probes (w_tables w)).
Proof.
  intros Hrun. apply call_inr in Hrun. unfold seed_probe in Hrun.
  apply bind_inr in Hrun as ([] & w1 & Hp & Hrun).
  destruct (params_run [sd_ProbeID s; hashProbeSecret (sd_Secret s)] [] (next_tick w)) as [res0 Hp'].
  rewrite Hp in Hp'. injection Hp' as <- ->. by injection Hrun as <-.
Qed.

Lemma seed_all probes : forall w w',
  st_for probes (fun probe => now ← time_Now; call (seed_probe probe now)) w = (inr tt, w') ->
  seeded probes (t_probes (w_tables w)) (t_probes (w_tables w')).
Proof.
  induction probes as [|s probes IH]; intros w w' Hrun; cbn [st_for] in Hrun;
    [by injection Hrun as <-|].
  apply bind_inr in Hrun as ([] & w1 & H1 & Hrun). apply bind_inr in H1 as (now & w0 & Hnow & H1).
  injection Hnow as <- <-. apply seed_one in H1. simpl in H1. apply IH in Hrun. rewrite H1 in Hrun.
  intros id. specialize (Hrun id). cbn [last_secret]. destruct (last_secret probes id) as [secret|].
  - destruct Hrun as (p' & Hl & Hc). exists p'. split; [done|].
    destruct (decide (id = sd_ProbeID s)) as [->|Hne].
    + rewrite lookup_insert_eq in Hc. by eapply configured_again.
    + by rewrite lookup_insert_ne in Hc.
  - case_bool_decide as E.
    + subst id. rewrite lookup_insert_eq in Hrun. eexists. split; [exact Hrun|].
      unfold configured, seed_row. destruct (t_probes _ !! sd_ProbeID s); simpl; split_and!; try done.
      by intros p0 [= <-].
    + by rewrite lookup_insert_ne in Hrun.
Qed.

(** The rows after the loop that revokes. *)
Definition revoked (gone : string -> bool) (rows rows' : gmap string ProbeRow) : Prop :=
  forall id, match rows !! id with
  | None => rows' !! id = None
  | Some p => if gone id then exists now, rows' !! id = Some (revoke_row now p) else rows' !! id = Some p
  end.

Lemma revoke_one id now w w' :
  call (revoke_probe id now) w = (inr tt, w') ->
  t_probes (w_tables w') = update_where (fun k _ => k == id) (revoke_row now) (t_probes (w_tables w)).
Proof.
  intros Hrun. apply call_inr in Hrun. unfold revoke_probe in Hrun.
  apply bind_inr in Hrun as ([] & w1 & Hp & Hrun).
  destruct (params_run [id] [] (next_tick w)) as [res0 Hp'].
  rewrite Hp in Hp'. injection Hp' as <- ->. by injection Hrun as <-.
Qed.

Lemma revoke_all (keep : list string) ids : forall w w',
  st_for ids (fun id => if bool_decide (id ∈ keep) then mret tt
                        else now ← time_Now; call (revoke_probe id now)) w = (inr tt, w') ->
  revoked (fun id => bool_decide (id ∈ ids) && negb (bool_decide (id ∈ keep)))
    (t_probes (w_tables w)) (t_probes (w_tables w')).
Proof.
  induction ids as [|i ids IH]; intros w w' Hrun; cbn [st_for] in Hrun.
  { injection Hrun as <-. intros id. by destruct (t_probes _ !! id). }
  apply bind_inr in Hrun as ([] & w1 & H1 & Hrun). apply IH in Hrun.
  intros id. specialize (Hrun id). rewrite (bool_decide_ext _ _ (elem_of_cons ids id i)).
  destruct (bool_decide (i ∈ keep)) eqn:Hk.
  - injection H1 as <-. destruct (t_probes (w_tables w) !! id) as [p|]; [|done].
    destruct (decide (id = i)) as [->|Hne].
    + rewrite Hk in *. rewrite andb_false_r in *. done.
    + assert (E : bool_decide (id = i \/ id ∈ ids) = bool_decide (id ∈ ids))
        by (apply bool_decide_ext; naive_solver). by rewrite E.
  - apply bind_inr in H1 as (now & w0 & Hnow & H1). injection Hnow as <- <-. apply revoke_one in H1.
    simpl in H1. rewrite H1, lookup_update_where in Hrun.
    destruct (t_probes (w_tables w) !! id) as [p|]; [|done]. simpl in Hrun.
    destruct (decide (id = i)) as [->|Hne].
    + rewrite (bool_decide_eq_true_2 (i = i)) in Hrun by done. rewrite Hk.
      rewrite (bool_decide_eq_true_2 (i = i \/ _)) by auto. simpl.
      rewrite Hk, andb_true_r in Hrun. destruct (bool_decide (i ∈ ids)); [|eauto].
      destruct Hrun as [now' Hl]. exists now'. by rewrite Hl.
    + rewrite (bool_decide_eq_false_2 (id = i)) in Hrun by done.
      assert (E : bool_decide (id = i \/ id ∈ ids) = bool_decide (id ∈ ids))
        by (apply bool_decide_ext; naive_solver). by rewrite E.
Qed.

Lemma elem_of_config (rows : gmap string ProbeRow) id :
  id ∈ (select (fun _ p => p_provisioned_by p == "config") rows).*1 <->
  exists p, rows !! id = Some p /\ p_provisioned_by p = "config".
Proof.
  rewrite list_elem_of_fmap. split.
  - intros ([k p] & -> & Hin).
    apply (elem_of_select (fun _ p => p_provisioned_by p == "config")) in Hin as [Hl Hc].
    apply bool_decide_eq_true in Hc. eauto.
  - intros (p & Hl & Hc). exists (id, p). split; [done|].
    apply (elem_of_select (fun _ p => p_provisioned_by p == "config")). by rewrite bool_decide_eq_true_2.
Qed.

(** Seeding makes the configured probes the configuration's.  When
    [SeedProbes] with a non-empty list succeeds, every listed probe is active,
    owned by the configuration and has the hash of its (last) secret, and if it
    existed its version and timestamps are kept; every probe of the configuration
    that is not listed is revoked and otherwise unchanged; a probe provisioned
    over the API that is not listed is untouched; and no other probe appears. *)
Lemma seed_probes_reconciles probes w w' :
  probes <> [] -> SeedProbes probes w = (inr tt, w') ->
  let rows := t_probes (w_tables w) in
  let rows' := t_probes (w_tables w') in
  forall id,
    match last_secret probes id with
    | Some secret => exists p', rows' !! id = Some p' /\ configured secret (rows !! id) p'
    | None =>
        match rows !! id with
        | None => rows' !! id = None
        | Some p => if p_provisioned_by p == "config"
                    then exists now, rows' !! id = Some (revoke_row now p)
                    else rows' !! id = Some p
        end
    end.
Proof.
  intros Hne Hrun rows rows' id. unfold SeedProbes in Hrun.
  rewrite bool_decide_eq_false_2 in Hrun by (by destruct probes).
  apply bind_inr in Hrun as ([] & w1 & Hseed & Hrun). apply bind_inr in Hrun as (ids & w2 & Hids & Hrun).
  apply call_inr in Hids. injection Hids as <- <-.
  apply seed_all in Hseed. specialize (Hseed id). apply revoke_all in Hrun. specialize (Hrun id).
  simpl in Hrun. fold rows rows' in Hseed, Hrun. pose proof (last_secret_Some probes id) as Hkeep.
  pose proof (elem_of_config (t_probes (w_tables w1)) id) as Hcfg.
  destruct (last_secret probes id) as [secret|].
  - destruct Hseed as (p' & Hl & Hc). rewrite Hl in Hrun.
    rewrite (bool_decide_eq_true_2 (id ∈ sd_ProbeID <$> probes)), andb_false_r in Hrun by (apply Hkeep; eauto).
    eauto.
  - rewrite (bool_decide_eq_false_2 (id ∈ sd_ProbeID <$> probes)), andb_true_r in Hrun
      by (intros Hin; by apply Hkeep in Hin as []).
    rewrite Hseed in Hrun, Hcfg. destruct (rows !! id) as [p|]; [|done].
    destruct (decide (p_provisioned_by p = "config")) as [E|E].
    + rewrite bool_decide_eq_true_2 in Hrun by (apply Hcfg; eauto). by rewrite bool_decide_eq_true_2.
    + rewrite bool_decide_eq_false_2 in Hrun by (rewrite Hcfg; naive_solver).
      by rewrite bool_decide_eq_false_2.
Qed.
End seeding.

(** * Witnesses *)

Definition ex_cred_run := @CreateProbeCredential calm_env " eu-west.1 " empty_world.

Lemma credential_roundtrip_witness :
  exists cred w1, ex_cred_run = (inr cred, w1) /\ pcr_ProbeID cred = "eu-west.1" /\
    (@AuthenticateProbe calm_env "eu-west.1" (pcr_Secret cred) w1).1
      = inr (Some (MkProbe "eu-west.1" "" None None)).
Proof.
  assert (Hok : match ex_cred_run.1 with inr c => pcr_ProbeID c == "eu-west.1" | _ => false end = true)
    by (vm_compute; reflexivity).
  destruct ex_cred_run as [[e|cred] w1] eqn:Hrun; [discriminate Hok|]. simpl in Hok.
  apply bool_decide_eq_true in Hok. exists cred, w1. split; [reflexivity|]. split; [exact Hok|].
  destruct (@credential_roundtrip calm_env " eu-west.1 " empty_world cred w1 Hrun)
    as (_ & _ & _ & _ & Hauth).
  rewrite <-Hok at 1 2. rewrite (Hauth w1 (pcr_Secret cred) eq_refl eq_refl).
  rewrite bool_decide_eq_true_2; reflexivity.
Defined.

Definition ex_seed_run := @SeedProbes calm_env [MkProbeSeed "eu" "s3cret"] empty_world.

Lemma seed_probes_reconciles_run :
  exists w', ex_seed_run = (inr tt, w') /\
    exists p', t_probes (w_tables w') !! "eu" = Some p' /\ configured "s3cret" None p'.
Proof.
  assert (Hok : ex_seed_run.1 = inr tt) by (vm_compute; reflexivity).
  destruct ex_seed_run as [res w'] eqn:Hrun. simpl in Hok. subst res.
  exists w'. split; [reflexivity|].
  exact (@seed_probes_reconciles calm_env [MkProbeSeed "eu" "s3cret"] empty_world w'
           (fun E => match E with eq_refl => I end) Hrun "eu").
Qed.
