(* ===== verification/StoreAuth.v ===== *)
(** internal/store/auth.go: users, sessions and the sign-up requests.

    bcrypt, the toolchain's Unicode tables and the default of
    [users.public_status_slug] are parameters ([AuthEnv]).  ([randomHexToken] is
    in StoreProbes.v.) *)

From S2P Require Import Prelude GoStrings Sha256 Database StoreProbes.
From Stdlib Require Import NArith.

Definition signupStatusPending : string := "pending".
Definition signupStatusApproved : string := "approved".
Definition signupStatusRejected : string := "rejected".
Definition signupStatusCompleted : string := "completed".

Definition signupRetryWindow : Duration := (24 * Hour)%Z.
Definition setupTokenTTL : Duration := (24 * Hour)%Z.

Record User := MkUser {
  us_ID : Z;
  us_Email : string;
  us_PasswordHash : string;
  us_PublicStatusSlug : string;
  us_IsAdmin : bool;
  us_CreatedAt : Time
}.

Record SignupRequest := MkSignupRequest {
  sr_ID : Z;
  sr_UserID : option Z;
  sr_Email : string;
  sr_RequestedAt : Time;
  sr_ApprovedAt : option Time;
  sr_RejectedAt : option Time;
  sr_CompletedAt : option Time;
  sr_SetupTokenExpiresAt : option Time;
  sr_SetupTokenUsedAt : option Time;
  sr_Status : string
}.

Record SignupApproval := MkSignupApproval {
  sa_Email : string;
  sa_SetupToken : string;
  sa_ExpiresAt : Time
}.

Record SetupPasswordOutcome := MkSetupPasswordOutcome {
  so_Email : string;
  so_SessionToken : string
}.

Definition no_approval : SignupApproval := MkSignupApproval "" "" zeroTime.
Definition no_outcome : SetupPasswordOutcome := MkSetupPasswordOutcome "" "".

Class AuthEnv : Type := {
  (** the [n]-th call: an error's text or the hash *)
  bcrypt_GenerateFromPassword : nat -> string -> string + string;
  (** [bcrypt.CompareHashAndPassword(hash, password) == nil] *)
  bcrypt_Compare : string -> string -> bool;
  unicode_ToLower : N -> N;
  (** [md5(random()::text || clock_timestamp()::text)] *)
  random_slug_at : nat -> string
}.

(** bcrypt accepts the password a hash was generated from. *)
Class AuthEnvLaws `{AuthEnv} : Prop := {
  bcrypt_accepts n password hash :
    bcrypt_GenerateFromPassword n password = inr hash -> bcrypt_Compare hash password = true
}.

(** A transaction that the function may leave without [Commit] and without an
    error: [None] is that exit, and the deferred [Rollback] undoes the body. *)
Definition with_tx_opt `{StoreEnv} {A} (body : DB (option A)) : DB (option A) := fun w =>
  match call (mret tt) w with
  | (inl e, w1) => (inl e, w1)
  | (inr _, w1) =>
      match body w1 with
      | (inl e, w2) => (inl e, set_tables (w_tables w1) w2)
      | (inr None, w2) => (inr None, set_tables (w_tables w1) w2)
      | (inr (Some a), w2) =>
          match fault_at (w_tick w2) with
          | None => (inr (Some a), next_tick w2)
          | Some (FaultBefore msg) => (inl (ErrDriver msg), set_tables (w_tables w1) (next_tick w2))
          | Some (FaultAfter msg) => (inl (ErrDriver msg), next_tick w2)
          end
      end
  end.

Definition scan_user (row : Z * UserRow) : User :=
  let '(id, u) := row in
  MkUser id (u_email u) (u_password_hash u) (u_public_status_slug u) (u_is_admin u) (u_created_at u).

(** [scanSignupRequest]; a nullable column is an option already
    ([nullInt64Pointer], [nullTimePointer]). *)
Definition scanSignupRequest (row : Z * SignupRow) : SignupRequest :=
  let '(id, r) := row in
  MkSignupRequest id (su_user_id r) (su_email r) (su_requested_at r) (su_approved_at r)
    (su_rejected_at r) (su_completed_at r) (su_setup_token_expires_at r)
    (su_setup_token_used_at r) (su_status r).

Definition hashSetupToken (token : string) : string := sha256_hex token.

Section auth.
Context `{Env : StoreEnv} `{AE : AuthEnv}.

Definition normalizeEmail (email : string) : string := ToLower unicode_ToLower (TrimSpace email).

Definition nextval_users : DB Z := fun w =>
  let q := w_seqs w in
  (inr (sq_users q),
   set_seqs (MkSequences (sq_incidents q) (sq_notifications q) (sq_users q + 1)
               (sq_signup_requests q)) w).
Definition nextval_signup_requests : DB Z := fun w =>
  let q := w_seqs w in
  (inr (sq_signup_requests q),
   set_seqs (MkSequences (sq_incidents q) (sq_notifications q) (sq_users q)
               (sq_signup_requests q + 1)) w).
Definition random_slug : DB string := fun w => (inr (random_slug_at (w_tick w)), next_tick w).

Definition hashPassword (password : string) : DB string := fun w =>
  match bcrypt_GenerateFromPassword (w_tick w) password with
  | inl msg => (inl (ErrDriver msg), next_tick w)
  | inr hash => (inr hash, next_tick w)
  end.

(** * Users *)

Definition insert_user (email passwordHash : string) (isAdmin : bool) (now : Time) : DB (Z * string) :=
  params [email; passwordHash] [];;
  id ← nextval_users;
  slug ← random_slug;
  t ← get_tables;
  if bool_decide (is_Some (t_users t !! id)) ||
     has_row (fun _ u => (u_email u == email) || (u_public_status_slug u == slug)) (t_users t)
  then st_fail err_unique
  else
    put_tables (set_t_users
      (<[id := MkUserRow email passwordHash slug (timestamptz now) isAdmin]> (t_users t)) t);;
    mret (id, slug).

Definition createUserWithPasswordHash (email passwordHash : string) (isAdmin : bool) (now : Time) : DB User :=
  row ← call (insert_user email passwordHash isAdmin now);
  mret (MkUser row.1 email passwordHash row.2 isAdmin now).

Definition createUserWithPlaceholderPassword (email : string) (isAdmin : bool) (now : Time) : DB User :=
  placeholder ← randomHexToken 32;
  hash ← hashPassword placeholder;
  createUserWithPasswordHash email hash isAdmin now.

Definition CreateUser (email password : string) (isAdmin : bool) : DB User :=
  hash ← hashPassword password;
  now ← time_Now;
  createUserWithPasswordHash (normalizeEmail email) hash isAdmin now.

Definition CreateAdminUser (email password : string) : DB User := CreateUser email password true.

Definition user_by_email (email : string) : DB (option (Z * UserRow)) :=
  params [email] [];;
  t ← get_tables;
  mret (head (select (fun _ u => u_email u == email) (t_users t))).

Definition AuthenticateUser (email password : string) : DB (option User) :=
  row ← call (user_by_email (normalizeEmail email));
  match row with
  | None => mret None
  | Some row =>
      if negb (bcrypt_Compare (u_password_hash row.2) password) then mret None
      else mret (Some (scan_user row))
  end.

Definition UserExists : DB bool :=
  call (t ← get_tables; mret (0 <? Z.of_nat (size (t_users t)))%Z).

Definition userExistsByEmail (email : string) : DB bool :=
  call (
    params [email] [];;
    t ← get_tables;
    mret (has_row (fun _ u => u_email u == email) (t_users t))).

Definition lookupUserIDByEmail (email : string) : DB (option Z) :=
  call (row ← user_by_email email; mret (fst <$> row)).

Definition set_password_hash (hash : string) (u : UserRow) : UserRow :=
  MkUserRow (u_email u) hash (u_public_status_slug u) (u_created_at u) (u_is_admin u).

Definition setUserPassword (userID : Z) (newPassword : string) : DB unit :=
  hash ← hashPassword newPassword;
  call (
    params [hash] [];;
    t ← get_tables;
    put_tables (set_t_users (update_where (fun k _ => k == userID) (set_password_hash hash) (t_users t)) t)).

Definition UpdateUserPassword (userID : Z) (currentPassword newPassword : string) : DB bool :=
  hash ← call (t ← get_tables;
               match t_users t !! userID with
               | None => st_fail ErrNoRows
               | Some u => mret (u_password_hash u)
               end);
  if negb (bcrypt_Compare hash currentPassword) then mret false
  else setUserPassword userID newPassword;; mret true.

(** * Sessions *)

Definition insert_session (token : string) (userID : Z) (now : Time) : DB unit :=
  params [token] [userID];;
  t ← get_tables;
  if bool_decide (is_Some (t_sessions t !! token)) then st_fail err_unique
  else if negb (bool_decide (is_Some (t_users t !! userID))) then st_fail err_foreign_key
  else
    put_tables (set_t_sessions
      (<[token := MkSessionRow userID (timestamptz now) (timestamptz (time_Add now (30 * 24 * Hour)%Z))]>
         (t_sessions t)) t).

Definition createSessionInQuerier (userID : Z) (now : Time) : DB string :=
  token ← randomHexToken 32;
  call (insert_session token userID now);;
  mret token.

Definition CreateSession (userID : Z) : DB string :=
  now ← time_Now;
  createSessionInQuerier userID now.

(** The rows of [sessions JOIN users] for a token that are not expired. *)
Definition session_user (token : string) (now : Time) (t : Tables) : option (Z * UserRow) :=
  match t_sessions t !! token with
  | None => None
  | Some s =>
      if After (ss_expires_at s) (timestamptz now)
      then (fun u => (ss_user_id s, u)) <$> t_users t !! ss_user_id s
      else None
  end.

Definition GetSessionUser (token : string) : DB (option User) :=
  now ← time_Now;
  call (
    params [token] [];;
    t ← get_tables;
    mret (scan_user <$> session_user token now t)).

Definition DeleteSession (token : string) : DB unit :=
  call (
    params [token] [];;
    t ← get_tables;
    put_tables (set_t_sessions (delete token (t_sessions t)) t)).

(** * Sign-up requests *)

Definition select_signup (f : SignupRow -> bool) : DB (option SignupRequest) :=
  t ← get_tables;
  mret (scanSignupRequest <$> head (select (fun _ r => f r) (t_signup_requests t))).

Definition getSignupRequestByEmailForUpdate (email : string) : DB (option SignupRequest) :=
  call (params [email] [];; select_signup (fun r => su_email r == email)).

Definition getSignupRequestByIDForUpdate (id : Z) : DB (option SignupRequest) :=
  call (t ← get_tables;
        mret ((fun r => scanSignupRequest (id, r)) <$> t_signup_requests t !! id)).

Definition getSignupRequestBySetupTokenHashForUpdate (tokenHash : string) : DB (option SignupRequest) :=
  call (params [tokenHash] [];; select_signup (fun r => bool_decide (su_setup_token_hash r = Some tokenHash))).

Definition insert_signup (email : string) (now : Time) : DB unit :=
  params [email] [];;
  id ← nextval_signup_requests;
  t ← get_tables;
  if has_row (fun _ r => su_email r == email) (t_signup_requests t) then mret tt
  else if bool_decide (is_Some (t_signup_requests t !! id)) then st_fail err_unique
  else
    put_tables (set_t_signup_requests
      (<[id := MkSignupRow email (timestamptz now) None None None None None None None signupStatusPending]>
         (t_signup_requests t)) t).

(** The rows [UPDATE signup_requests ... WHERE id = $1] leaves. *)
Definition update_signup (id : Z) (g : SignupRow -> SignupRow) : DB unit :=
  t ← get_tables;
  put_tables (set_t_signup_requests (update_where (fun k _ => k == id) g (t_signup_requests t)) t).

Definition reopen_row (now : Time) (r : SignupRow) : SignupRow :=
  MkSignupRow (su_email r) (timestamptz now) None None None (su_user_id r) None None None
    signupStatusPending.

(** The [switch]: may the existing row be reopened? *)
Definition may_reopen (request : SignupRequest) (now : Time) : bool :=
  if (sr_Status request == signupStatusPending) || (sr_Status request == signupStatusCompleted) then false
  else if sr_Status request == signupStatusRejected then
    match sr_RejectedAt request with
    | None => false
    | Some at_ => negb (After (time_Add at_ signupRetryWindow) now)
    end
  else if sr_Status request == signupStatusApproved then
    match sr_SetupTokenUsedAt request, sr_SetupTokenExpiresAt request with
    | Some _, _ => false
    | None, None => false
    | None, Some expires => negb (After expires now)
    end
  else false.

Definition CreateSignupRequest (email : string) : DB unit :=
  let email := normalizeEmail email in
  if email == "" then mret tt
  else
    now ← time_Now;
    with_tx (
      request ← getSignupRequestByEmailForUpdate email;
      match request with
      | None =>
          userExists ← userExistsByEmail email;
          if userExists : bool then mret tt else call (insert_signup email now)
      | Some request =>
          if may_reopen request now then call (update_signup (sr_ID request) (reopen_row now))
          else mret tt
      end).

Definition requested_le (a b : Z * SignupRow) : bool :=
  (su_requested_at a.2 <=? su_requested_at b.2)%Z.

Definition ListPendingSignupRequests : DB (list SignupRequest) :=
  call (
    t ← get_tables;
    mret (scanSignupRequest <$> order_by requested_le
            (select (fun _ r => su_status r == signupStatusPending) (t_signup_requests t)))).

Definition approve_row (userID : Z) (now : Time) (hash : string) (expiresAt : Time) (r : SignupRow)
    : SignupRow :=
  MkSignupRow (su_email r) (su_requested_at r) (Some (timestamptz now)) None None (Some userID)
    (Some hash) (Some (timestamptz expiresAt)) None signupStatusApproved.

(** The update, with the unique index on [setup_token_hash] and the reference to
    [users]. *)
Definition approve_signup (id userID : Z) (now : Time) (hash : string) (expiresAt : Time) : DB unit :=
  params [hash] [];;
  t ← get_tables;
  if bool_decide (is_Some (t_signup_requests t !! id)) &&
     has_row (fun k r => negb (k == id) && bool_decide (su_setup_token_hash r = Some hash))
       (t_signup_requests t)
  then st_fail err_unique
  else if bool_decide (is_Some (t_signup_requests t !! id)) &&
          negb (bool_decide (is_Some (t_users t !! userID)))
  then st_fail err_foreign_key
  else update_signup id (approve_row userID now hash expiresAt).

(** The user of the request's email, created if there is none. *)
Definition approved_user (email : string) (now : Time) : DB Z :=
  userID ← lookupUserIDByEmail email;
  match userID with
  | Some userID => mret userID
  | None => user ← createUserWithPlaceholderPassword email false now; mret (us_ID user)
  end.

Definition ApproveSignupRequest (id : Z) : DB SignupApproval :=
  now ← time_Now;
  approval ← with_tx_opt (
    request ← getSignupRequestByIDForUpdate id;
    match request with
    | None => mret None
    | Some request =>
        if sr_Status request != signupStatusPending then mret None
        else
          userID ← approved_user (sr_Email request) now;
          setupToken ← randomHexToken 32;
          let expiresAt := time_Add now setupTokenTTL in
          call (approve_signup (sr_ID request) userID now (hashSetupToken setupToken) expiresAt);;
          mret (Some (MkSignupApproval (sr_Email request) setupToken expiresAt))
    end);
  mret (default no_approval approval).

Definition reject_row (now : Time) (r : SignupRow) : SignupRow :=
  MkSignupRow (su_email r) (su_requested_at r) None (Some (timestamptz now)) None (su_user_id r)
    None None None signupStatusRejected.

Definition RejectSignupRequest (id : Z) : DB bool :=
  now ← time_Now;
  call (
    t ← get_tables;
    let rejected k r := (k == id) && (su_status r == signupStatusPending) in
    put_tables (set_t_signup_requests
      (update_where rejected (reject_row now) (t_signup_requests t)) t);;
    mret (has_row rejected (t_signup_requests t))).

Definition complete_row (now : Time) (r : SignupRow) : SignupRow :=
  MkSignupRow (su_email r) (su_requested_at r) (su_approved_at r) (su_rejected_at r)
    (Some (timestamptz now)) (su_user_id r) None None (Some (timestamptz now)) signupStatusCompleted.

(** The request a setup token opens, if the token may be used. *)
Definition token_usable (request : SignupRequest) (now : Time) : option Z :=
  if sr_Status request != signupStatusApproved then None
  else match sr_UserID request, sr_SetupTokenUsedAt request, sr_SetupTokenExpiresAt request with
       | Some userID, None, Some expires => if negb (After expires now) then None else Some userID
       | _, _, _ => None
       end.

Definition SetupPassword (token newPassword : string) : DB SetupPasswordOutcome :=
  let token := TrimSpace token in
  if (token == "") || (newPassword == "") then mret no_outcome
  else
    now ← time_Now;
    outcome ← with_tx_opt (
      request ← getSignupRequestBySetupTokenHashForUpdate (hashSetupToken token);
      match request with
      | None => mret None
      | Some request =>
          match token_usable request now with
          | None => mret None
          | Some userID =>
              setUserPassword userID newPassword;;
              sessionToken ← createSessionInQuerier userID now;
              call (update_signup (sr_ID request) (complete_row now));;
              mret (Some (MkSetupPasswordOutcome (sr_Email request) sessionToken))
          end
      end);
    mret (default no_outcome outcome).
End auth.
