(* ===== verification/AuthInvariant.v ===== *)
(** The accounts part of the database: its integrity, the life of a sign-up
    request, and that every call of internal/store/auth.go keeps to them. *)

From S2P Require Import Prelude GoStrings Sha256 Database StoreProbes StoreInvariant StoreAuth.

(** * The life of a sign-up request *)

Inductive SignupPhase :=
| Pending
| Approved (user : Z) (hash : string) (expires : Time)
| Rejected (at_ : Time)
| Completed (user : Z).

(** The phase a row is in; [None] for columns that do not fit together. *)
Definition phase (r : SignupRow) : option SignupPhase :=
  if su_status r == signupStatusPending then
    match su_approved_at r, su_rejected_at r, su_completed_at r, su_setup_token_hash r,
          su_setup_token_expires_at r, su_setup_token_used_at r with
    | None, None, None, None, None, None => Some Pending
    | _, _, _, _, _, _ => None
    end
  else if su_status r == signupStatusApproved then
    match su_approved_at r, su_rejected_at r, su_completed_at r, su_user_id r, su_setup_token_hash r,
          su_setup_token_expires_at r, su_setup_token_used_at r with
    | Some _, None, None, Some u, Some h, Some e, None => Some (Approved u h e)
    | _, _, _, _, _, _, _ => None
    end
  else if su_status r == signupStatusRejected then
    match su_approved_at r, su_rejected_at r, su_completed_at r, su_setup_token_hash r,
          su_setup_token_expires_at r, su_setup_token_used_at r with
    | None, Some at_, None, None, None, None => Some (Rejected at_)
    | _, _, _, _, _, _ => None
    end
  else if su_status r == signupStatusCompleted then
    match su_approved_at r, su_rejected_at r, su_completed_at r, su_user_id r, su_setup_token_hash r,
          su_setup_token_expires_at r, su_setup_token_used_at r with
    | Some _, None, Some _, Some u, None, None, Some _ => Some (Completed u)
    | _, _, _, _, _, _, _ => None
    end
  else None.

Section lifecycle.
Context `{Env : StoreEnv}.

(** A setup token drawn from the random source at its [k]-th request or later. *)
Definition drawn (k : nat) (token : string) : Prop :=
  exists n bytes, k <= n /\ rand_Read n 32 = inr bytes /\ token = hex_encode bytes.

(** One move at time [now]. *)
Inductive phase_step (k : nat) (now : Time) : SignupPhase -> SignupPhase -> Prop :=
| step_approve u token : drawn k token ->
    phase_step k now Pending (Approved u (hashSetupToken token) (timestamptz (now + setupTokenTTL)%Z))
| step_reject : phase_step k now Pending (Rejected (timestamptz now))
| step_retry at_ : (at_ + signupRetryWindow <= now)%Z -> phase_step k now (Rejected at_) Pending
| step_expire u h e : (e <= now)%Z -> phase_step k now (Approved u h e) Pending
| step_complete u h e : (now < e)%Z -> phase_step k now (Approved u h e) (Completed u).

(** A request stays as it is, is new and pending, or makes one move, with the
    environment's answers from the [k]-th on; it never disappears and keeps its
    email. *)
Definition moves (k : nat) (r r' : option SignupRow) : Prop :=
  r' = r \/
  match r, r' with
  | None, Some r' => phase r' = Some Pending
  | Some r, Some r' => su_email r' = su_email r /\
      exists n p p', k <= n /\ phase r = Some p /\ phase r' = Some p' /\ phase_step k (now_at n) p p'
  | _, None => False
  end.

Definition lifecycle (k : nat) (m m' : gmap Z SignupRow) : Prop := forall id, moves k (m !! id) (m' !! id).

(** * Integrity *)

Definition signup_ok (users : gmap Z UserRow) (r : SignupRow) : Prop :=
  su_email r <> "" /\ is_Some (phase r) /\
  forall u, su_user_id r = Some u -> exists row, users !! u = Some row /\ u_email row = su_email r.

Record accounts_wf (t : Tables) (q : Sequences) : Prop := {
  acc_emails i j u v : t_users t !! i = Some u -> t_users t !! j = Some v ->
    u_email u = u_email v -> i = j;
  acc_sessions k s : t_sessions t !! k = Some s -> is_Some (t_users t !! ss_user_id s);
  acc_signup_emails i j r s : t_signup_requests t !! i = Some r -> t_signup_requests t !! j = Some s ->
    su_email r = su_email s -> i = j;
  acc_hashes i j r s h : t_signup_requests t !! i = Some r -> t_signup_requests t !! j = Some s ->
    su_setup_token_hash r = Some h -> su_setup_token_hash s = Some h -> i = j;
  acc_rows i r : t_signup_requests t !! i = Some r -> signup_ok (t_users t) r;
  acc_user_ids i : is_Some (t_users t !! i) -> (i < sq_users q)%Z;
  acc_signup_ids i : is_Some (t_signup_requests t !! i) -> (i < sq_signup_requests q)%Z
}.

Definition users_grow (m m' : gmap Z UserRow) : Prop :=
  forall i u, m !! i = Some u -> exists u', m' !! i = Some u' /\ u_email u' = u_email u.

#[global] Instance users_grow_preorder : PreOrder users_grow.
Proof.
  split; [intros m i u Hu; eauto|]. intros m1 m2 m3 H1 H2 i u Hu.
  destruct (H1 i u Hu) as (u2 & Hu2 & E2). destruct (H2 i u2 Hu2) as (u3 & Hu3 & E3).
  exists u3. split; congruence.
Qed.

(** What the other components read is untouched, the sequences and the clock only
    advance, and users keep their emails. *)
Record auth_frame (w w' : World) : Prop := {
  fr_probes : t_probes (w_tables w') = t_probes (w_tables w);
  fr_checks : t_checks (w_tables w') = t_checks (w_tables w);
  fr_states : t_states (w_tables w') = t_states (w_tables w);
  fr_incidents : t_incidents (w_tables w') = t_incidents (w_tables w);
  fr_notifications : t_notifications (w_tables w') = t_notifications (w_tables w);
  fr_seqs : sq_incidents (w_seqs w') = sq_incidents (w_seqs w) /\
            sq_notifications (w_seqs w') = sq_notifications (w_seqs w) /\
            (sq_users (w_seqs w) <= sq_users (w_seqs w'))%Z /\
            (sq_signup_requests (w_seqs w) <= sq_signup_requests (w_seqs w'))%Z;
  fr_tick : w_tick w <= w_tick w';
  fr_users : users_grow (t_users (w_tables w)) (t_users (w_tables w'))
}.

#[global] Instance auth_frame_preorder : PreOrder auth_frame.
Proof.
  split.
  - intros w. by split.
  - intros w1 w2 w3 [] []. split; try congruence; [|lia|].
    + destruct fr_seqs0 as (?&?&?&?), fr_seqs1 as (?&?&?&?). split_and!; try congruence; lia.
    + by etransitivity.
Qed.

Definition accounts (w : World) : Prop := accounts_wf (w_tables w) (w_seqs w).
Definition signups (w : World) : gmap Z SignupRow := t_signup_requests (w_tables w).

(** A run from [w] keeps the integrity and relates the requests by [R]. *)
Definition sound (R : relation (gmap Z SignupRow)) {A} (m : DB A) (w : World) : Prop :=
  accounts w -> accounts (m w).2 /\ auth_frame w (m w).2 /\ R (signups w) (signups (m w).2).

Lemma lifecycle_refl k m : lifecycle k m m.
Proof. intros id. by left. Qed.

Lemma sound_eq_lifecycle k {A} (m : DB A) w : sound eq m w -> sound (lifecycle k) m w.
Proof. intros Hs Hw. destruct (Hs Hw) as (? & ? & <-). split_and!; [done..|apply lifecycle_refl]. Qed.

Lemma sound_ret R {A} (a : A) w : Reflexive R -> sound R (mret a) w.
Proof. intros HR Hw. by split_and!. Qed.

Lemma sound_fail R {A} e w : Reflexive R -> sound R (st_fail e : DB A) w.
Proof. intros HR Hw. by split_and!. Qed.

Lemma sound_bind R {A B} (m : DB A) (k : A -> DB B) w :
  Reflexive R -> sound eq m w -> (forall a w1, m w = (inr a, w1) -> sound R (k a) w1) ->
  sound R (m ≫= k) w.
Proof.
  intros HR Hm Hk Hw. destruct (Hm Hw) as (Hw1 & Hf & He). unfold mbind, St_bind.
  destruct (m w) as [[e|a] w1]; simpl in *.
  - split_and!; [done|done|]. by rewrite He.
  - destruct (Hk a w1 eq_refl Hw1) as (? & Hf2 & HR2). split_and!; [done|by etransitivity|].
    by rewrite He.
Qed.

(** The same, with what is known of the state in between. *)
Lemma sound_seq R {A B} (m : DB A) (k : A -> DB B) w :
  Reflexive R -> sound eq m w ->
  (forall a w1, m w = (inr a, w1) -> accounts w -> signups w1 = signups w ->
     w_tick w <= w_tick w1 -> sound R (k a) w1) ->
  sound R (m ≫= k) w.
Proof.
  intros HR Hm Hk Hw. destruct (Hm Hw) as (Hw1 & Hf & He). unfold mbind, St_bind.
  destruct (m w) as [[e|a] w1]; simpl in *.
  - split_and!; [done|done|]. by rewrite He.
  - destruct (Hk a w1 eq_refl Hw (eq_sym He) (fr_tick _ _ Hf) Hw1) as (? & Hf2 & HR2).
    split_and!; [done|by etransitivity|]. by rewrite He.
Qed.

(** The last call of a function may move the requests. *)
Lemma sound_bind_last R {A B} (m : DB A) (k : A -> DB B) w :
  Reflexive R -> sound R m w -> (forall a w1, sound eq (k a) w1) -> sound R (m ≫= k) w.
Proof.
  intros HR Hm Hk Hw. destruct (Hm Hw) as (Hw1 & Hf & He). unfold mbind, St_bind.
  destruct (m w) as [[e|a] w1]; simpl in *; [by split_and!|].
  destruct (Hk a w1 Hw1) as (? & Hf2 & HR2). split_and!; [done|by etransitivity|]. by rewrite <-HR2.
Qed.

(** A state that differs in its position in the environment only. *)
Lemma accounts_tick w : accounts w -> accounts (next_tick w).
Proof. exact id. Qed.

Lemma frame_tick w : auth_frame w (next_tick w).
Proof. split; simpl; try done. lia. Qed.

Lemma sound_call R {A} (stmt : DB A) w :
  Reflexive R -> sound R stmt (next_tick w) -> sound R (call stmt) w.
Proof.
  intros HR Hs Hw. destruct (Hs (accounts_tick w Hw)) as (Ha & Hf & Hr).
  pose proof (frame_tick w) as Ht. unfold call.
  destruct (fault_at (w_tick w)) as [[]|]; simpl; split_and!; try done; by etransitivity.
Qed.

Lemma sound_now w : sound eq time_Now w.
Proof. intros Hw. split_and!; [done|apply frame_tick|done]. Qed.

Lemma sound_params texts ints w : sound eq (params texts ints) w.
Proof. intros Hw. destruct (params_run texts ints w) as [res ->]. by split_and!. Qed.

Lemma accounts_seqs t q q' :
  (sq_users q <= sq_users q')%Z -> (sq_signup_requests q <= sq_signup_requests q')%Z ->
  accounts_wf t q -> accounts_wf t q'.
Proof.
  intros H1 H2 []. split; try done.
  - intros i Hi. specialize (acc_user_ids0 i Hi). lia.
  - intros i Hi. specialize (acc_signup_ids0 i Hi). lia.
Qed.

(** Undoing a transaction. *)
Lemma sound_undo w w2 :
  accounts w -> auth_frame w w2 ->
  accounts (set_tables (w_tables w) w2) /\ auth_frame w (set_tables (w_tables w) w2).
Proof.
  intros Hw [? ? ? ? ? (?&?&?&?) ? ?]. split.
  - by apply (accounts_seqs _ (w_seqs w)).
  - by split.
Qed.

Lemma call_nothing w :
  (exists e, call (mret tt) w = (inl e, next_tick w)) \/ call (mret tt) w = (inr tt, next_tick w).
Proof. unfold call. destruct (fault_at (w_tick w)) as [[]|]; eauto. Qed.

Lemma sound_tx R {A} (body : DB A) w :
  Reflexive R -> sound R body (next_tick w) -> sound R (with_tx body) w.
Proof.
  intros HR Hb Hw. pose proof (frame_tick w) as Ht. unfold with_tx.
  destruct (call_nothing w) as [[e ->]| ->]; [by split_and!|].
  destruct (Hb (accounts_tick w Hw)) as (Ha & Hf & Hr).
  destruct (sound_undo (next_tick w) (body (next_tick w)).2) as [Hu Hfu]; [done|done|].
  assert (Hf2 : auth_frame w (body (next_tick w)).2) by (by etransitivity).
  assert (Hfu2 : auth_frame w (set_tables (w_tables w) (body (next_tick w)).2))
    by (etransitivity; [exact Ht|exact Hfu]).
  destruct (body (next_tick w)) as [[e|a] w2]; simpl in *; [by split_and!|].
  pose proof (frame_tick w2) as Ht2.
  pose proof (frame_tick (set_tables (w_tables w) w2)) as Ht3.
  destruct (fault_at (w_tick w2)) as [[]|]; simpl; (split; [done|split; [|done]]).
  - etransitivity; [exact Hfu2|exact Ht3].
  - etransitivity; [exact Hf2|exact Ht2].
  - etransitivity; [exact Hf2|exact Ht2].
Qed.

Lemma with_tx_opt_as {A} (body : DB (option A)) w :
  (exists w2, body (next_tick w) = (inr None, w2) /\
     ((exists e, with_tx_opt body w = (inl e, next_tick w)) \/
      with_tx_opt body w = (inr None, set_tables (w_tables w) w2))) \/
  with_tx_opt body w = with_tx body w.
Proof.
  unfold with_tx_opt, with_tx. destruct (call_nothing w) as [[e ->]| ->]; [by right|].
  destruct (body (next_tick w)) as [[e|[a|]] w2]; [by right..|]. left. eauto.
Qed.

Lemma sound_tx_opt R {A} (body : DB (option A)) w :
  Reflexive R -> sound R body (next_tick w) -> sound R (with_tx_opt body) w.
Proof.
  intros HR Hb Hw. destruct (with_tx_opt_as body w) as [(w2 & Hrun & [[e ->]| ->])| ->].
  - split_and!; [done|apply frame_tick|done].
  - destruct (Hb (accounts_tick w Hw)) as (_ & Hf & _). rewrite Hrun in Hf. simpl in Hf.
    destruct (sound_undo (next_tick w) w2) as [Hu Hfu]; [done|done|].
    split_and!; [done| |done]. etransitivity; [apply frame_tick|exact Hfu].
  - by apply sound_tx.
Qed.

Lemma sound_get R {A} (k : Tables -> DB A) w :
  sound R (k (w_tables w)) w -> sound R (get_tables ≫= k) w.
Proof. exact id. Qed.
End lifecycle.

Create HintDb accounts.
#[export] Hint Resolve sound_ret sound_fail sound_now sound_params : accounts.
#[export] Hint Extern 1 (Reflexive (lifecycle ?k)) => exact (lifecycle_refl k) : accounts.
#[export] Hint Extern 1 (Reflexive eq) => exact eq_Reflexive : accounts.

Section statements.
Context `{Env : StoreEnv} `{AE : AuthEnv}.

(** * Rows and phases *)

Lemma has_row_none `{Countable K} {V} (f : K -> V -> bool) (m : gmap K V) k v :
  has_row f m = false -> m !! k = Some v -> f k v = false.
Proof. intros Hn. by apply has_row_false. Qed.

Lemma phase_inv r p :
  phase r = Some p ->
  match p with
  | Pending => su_status r = signupStatusPending /\ su_setup_token_hash r = None
  | Approved u h e => su_status r = signupStatusApproved /\ su_user_id r = Some u /\
      su_setup_token_hash r = Some h /\ su_setup_token_expires_at r = Some e /\
      su_setup_token_used_at r = None /\ su_rejected_at r = None /\ is_Some (su_approved_at r)
  | Rejected at_ => su_status r = signupStatusRejected /\ su_rejected_at r = Some at_ /\
      su_setup_token_hash r = None
  | Completed u => su_status r = signupStatusCompleted /\ su_user_id r = Some u /\
      su_setup_token_hash r = None
  end.
Proof.
  unfold phase. intros Hp.
  repeat (case_bool_decide || case_match); simplify_eq; split_and!; eauto.
Qed.

Ltac status_clash :=
  unfold signupStatusPending, signupStatusApproved, signupStatusRejected, signupStatusCompleted in *;
  congruence.

(** Cases on the phase of a sound row. *)
Lemma ok_phase users r : signup_ok users r -> exists p, phase r = Some p.
Proof. intros (_ & [p Hp] & _). eauto. Qed.

Lemma pending_phase users r :
  signup_ok users r -> su_status r = signupStatusPending -> phase r = Some Pending.
Proof.
  intros Hok Hs. destruct (ok_phase _ _ Hok) as [p Hp]. pose proof (phase_inv _ _ Hp) as Hi.
  destruct p; [done|..]; destruct Hi as (Hi & _); status_clash.
Qed.

Lemma may_reopen_step k id r users now :
  signup_ok users r -> may_reopen (scanSignupRequest (id, r)) now = true ->
  exists p, phase r = Some p /\ phase_step k now p Pending.
Proof.
  intros Hok Hm. destruct (ok_phase _ _ Hok) as [p Hp]. pose proof (phase_inv _ _ Hp) as Hi.
  exists p. split; [done|]. revert Hm. unfold may_reopen, After, time_Add. simpl.
  destruct p; destruct_and? Hi; simplify_eq; repeat match goal with H : _ = _ |- _ => rewrite H end; simpl.
  - done.
  - intros Hm. apply step_expire. lia.
  - intros Hm. apply step_retry. lia.
  - done.
Qed.

Lemma token_usable_phase id r users now u h :
  signup_ok users r -> su_setup_token_hash r = Some h ->
  token_usable (scanSignupRequest (id, r)) now = Some u ->
  exists e, phase r = Some (Approved u h e) /\ (now < e)%Z.
Proof.
  intros Hok Hh Hm. destruct (ok_phase _ _ Hok) as [p Hp]. pose proof (phase_inv _ _ Hp) as Hi.
  destruct p; destruct_and? Hi; try congruence. revert Hm. unfold token_usable, After. simpl.
  repeat match goal with H : _ = _ |- _ => rewrite H end. simpl.
  case_match eqn:E; [done|]. intros [= <-]. simplify_eq. exists expires. split; [done|lia].
Qed.
(** * Changes of one table *)

Lemma signup_ok_users users users' r : users_grow users users' -> signup_ok users r -> signup_ok users' r.
Proof.
  intros Hg (He & Hp & Hu). split_and!; [done|done|]. intros u Hr.
  destruct (Hu u Hr) as (row & Hl & Hrow). destruct (Hg u row Hl) as (row' & Hl' & E).
  exists row'. split; congruence.
Qed.

Lemma accounts_users t q users' q' :
  users_grow (t_users t) users' ->
  (forall i j u v, users' !! i = Some u -> users' !! j = Some v -> u_email u = u_email v -> i = j) ->
  (forall i, is_Some (users' !! i) -> i < sq_users q')%Z ->
  sq_signup_requests q' = sq_signup_requests q ->
  accounts_wf t q -> accounts_wf (set_t_users users' t) q'.
Proof.
  intros Hg He Hi Hq []. split; simpl; try done.
  - intros k s' Hs. destruct (acc_sessions0 k s' Hs) as [u Hu]. destruct (Hg _ _ Hu) as (u' & Hu' & _). eauto.
  - intros i r Hr. by apply (signup_ok_users (t_users t)), (acc_rows0 i).
  - by rewrite Hq.
Qed.

Lemma frame_users w users' q' :
  users_grow (t_users (w_tables w)) users' ->
  sq_incidents q' = sq_incidents (w_seqs w) -> sq_notifications q' = sq_notifications (w_seqs w) ->
  (sq_users (w_seqs w) <= sq_users q')%Z -> sq_signup_requests q' = sq_signup_requests (w_seqs w) ->
  forall n, w_tick w <= n ->
  auth_frame w (MkWorld (set_t_users users' (w_tables w)) q' n).
Proof. intros Hg ? ? ? Hq n Hn. split; simpl; try done. rewrite Hq. split_and!; try done. Qed.

Lemma insert_user_sound email hash admin now w : sound eq (insert_user email hash admin now) w.
Proof.
  unfold insert_user. apply sound_bind; [auto with accounts..|]. intros [] w1 _ Hw.
  unfold mbind, St_bind, nextval_users, random_slug, get_tables. simpl.
  set (q' := MkSequences _ _ _ _). set (id := sq_users (w_seqs w1)).
  destruct (_ || _) eqn:Hc; simpl.
  - split; [|split; [|done]].
    + apply (accounts_seqs _ (w_seqs w1)); simpl; [lia|lia|done].
    + split; simpl; try done; [split_and!; lia|lia].
  - apply orb_false_iff in Hc as [Hid Hrow]. apply bool_decide_eq_false in Hid.
    assert (Hnone : t_users (w_tables w1) !! id = None) by (by apply eq_None_not_Some).
    set (row := MkUserRow _ _ _ _ _).
    assert (Hg : users_grow (t_users (w_tables w1)) (<[id := row]> (t_users (w_tables w1)))).
    { intros i u Hu. exists u. rewrite lookup_insert_ne by congruence. done. }
    assert (Hother : forall i u, t_users (w_tables w1) !! i = Some u -> u_email u <> email).
    { intros i u Hu. pose proof (has_row_none _ _ _ _ Hrow Hu) as Hf. simpl in Hf.
      apply orb_false_iff in Hf as [Hf _]. by apply bool_decide_eq_false in Hf. }
    split; [|split; [|done]].
    + apply (accounts_users (w_tables w1) (w_seqs w1)); [done| | |done|done].
      * intros i j u v [[<- <-]|[_ Hu]]%lookup_insert_Some [[<- <-]|[_ Hv]]%lookup_insert_Some E;
          [done| | |by eapply (acc_emails _ _ Hw)].
        -- destruct (Hother j v Hv). by rewrite <-E.
        -- by destruct (Hother i u Hu).
      * intros i [u [[<- _]|[_ Hu]]%lookup_insert_Some]; simpl; [lia|].
        pose proof (acc_user_ids _ _ Hw i (mk_is_Some _ _ Hu)). lia.
    + apply (frame_users w1 _ q' Hg); simpl; try done; lia.
Qed.

Lemma set_password_sound id hash w :
  sound eq (t ← get_tables;
            put_tables (set_t_users (update_where (fun k _ => k == id) (set_password_hash hash) (t_users t)) t)) w.
Proof.
  intros Hw. unfold mbind, St_bind. simpl. set (users' := update_where _ _ _).
  assert (Hrow : forall i u', users' !! i = Some u' ->
    exists u, t_users (w_tables w) !! i = Some u /\ u_email u' = u_email u).
  { intros i u' (u & Hu & ->)%lookup_update_where_Some. exists u. split; [done|]. by case_match. }
  assert (Hg : users_grow (t_users (w_tables w)) users').
  { intros i u Hu. eexists. unfold users'. rewrite lookup_update_where, Hu. split; [done|].
    simpl. by case_match. }
  split; [|split; [|done]].
  - apply (accounts_users (w_tables w) (w_seqs w)); [done| | |done|done].
    + intros i j u v (u0 & Hu & Eu)%Hrow (v0 & Hv & Ev)%Hrow E.
      eapply (acc_emails _ _ Hw); [done|done|congruence].
    + intros i [u (u0 & Hu & _)%Hrow]. apply (acc_user_ids _ _ Hw). eauto.
  - destruct w. apply (frame_users (MkWorld _ _ _)); simpl; try done; lia.
Qed.

Lemma frame_sessions w x : auth_frame w (set_tables (set_t_sessions x (w_tables w)) w).
Proof. by split. Qed.

Lemma sessions_sound (x : Tables -> gmap string SessionRow) w :
  (forall k s, x (w_tables w) !! k = Some s ->
     t_sessions (w_tables w) !! k = Some s \/ is_Some (t_users (w_tables w) !! ss_user_id s)) ->
  sound eq (put_tables (set_t_sessions (x (w_tables w)) (w_tables w))) w.
Proof.
  intros Hx Hw. split; [|split; [apply frame_sessions|done]]. destruct Hw. split; simpl; try done.
  intros k s' Hs. destruct (Hx k s' Hs); eauto.
Qed.

Lemma insert_session_sound token user now w : sound eq (insert_session token user now) w.
Proof.
  unfold insert_session. apply sound_bind; [auto with accounts..|]. intros [] w1 _.
  apply sound_get. case_bool_decide as Hs; [auto with accounts|].
  case_bool_decide as Hu; simpl; [|auto with accounts].
  apply (sessions_sound (fun t => <[token := _]> (t_sessions t))).
  intros k s' [[<- <-]|[_ H]]%lookup_insert_Some; auto.
Qed.

Lemma delete_session_sound token w : sound eq (DeleteSession token) w.
Proof.
  apply sound_call; [auto with accounts|]. apply sound_bind; [auto with accounts..|]. intros [] w1 _.
  apply sound_get. apply (sessions_sound (fun t => delete token (t_sessions t))).
  intros k s' [_ H]%lookup_delete_Some. auto.
Qed.

Lemma frame_signups w x n : w_tick w <= n ->
  forall q', sq_incidents q' = sq_incidents (w_seqs w) -> sq_notifications q' = sq_notifications (w_seqs w) ->
  sq_users q' = sq_users (w_seqs w) -> (sq_signup_requests (w_seqs w) <= sq_signup_requests q')%Z ->
  auth_frame w (MkWorld (set_t_signup_requests x (w_tables w)) q' n).
Proof. intros Hn q' ? ? ? ?. split; simpl; try done; split_and!; try done; lia. Qed.

(** The requests after a change of some rows and additions. *)
Lemma accounts_signups t q x q' :
  sq_users q' = sq_users q ->
  (forall i j r s, x !! i = Some r -> x !! j = Some s -> su_email r = su_email s -> i = j) ->
  (forall i j r s h, x !! i = Some r -> x !! j = Some s ->
     su_setup_token_hash r = Some h -> su_setup_token_hash s = Some h -> i = j) ->
  (forall i r, x !! i = Some r -> signup_ok (t_users t) r /\ i < sq_signup_requests q')%Z ->
  accounts_wf t q -> accounts_wf (set_t_signup_requests x t) q'.
Proof.
  intros Hq He Hh Hr []. split; simpl; try done.
  - intros i r Hi. by apply (Hr i r Hi).
  - by rewrite Hq.
  - intros i [r Hi]. by apply (Hr i r Hi).
Qed.

Lemma insert_signup_sound k email (n : nat) w :
  email <> "" -> sound (lifecycle k) (insert_signup email (now_at n)) w.
Proof.
  intros Hne. unfold insert_signup. apply sound_bind; [auto with accounts..|]. intros [] w1 _ Hw.
  unfold mbind, St_bind, nextval_signup_requests, get_tables. simpl.
  set (q' := MkSequences _ _ _ _). set (id := sq_signup_requests (w_seqs w1)).
  assert (Hsame : accounts (set_seqs q' w1) /\ auth_frame w1 (set_seqs q' w1)).
  { split; [apply (accounts_seqs _ (w_seqs w1)); simpl; [lia|lia|done]|].
    split; simpl; try done; split_and!; lia. }
  destruct (has_row _ _) eqn:Hc; simpl; [split_and!; [apply Hsame..|apply lifecycle_refl]|].
  case_bool_decide as Hid; simpl; [split_and!; [apply Hsame..|apply lifecycle_refl]|].
  apply eq_None_not_Some in Hid. set (row := MkSignupRow _ _ _ _ _ _ _ _ _ _).
  assert (Hother : forall i r, t_signup_requests (w_tables w1) !! i = Some r -> su_email r <> email).
  { intros i r Hr. pose proof (has_row_none _ _ _ _ Hc Hr) as Hf. by apply bool_decide_eq_false in Hf. }
  split_and!.
  - apply (accounts_signups (w_tables w1) (w_seqs w1)); [done|..|done].
    + intros i j r s' [[<- <-]|[_ Hu]]%lookup_insert_Some [[<- <-]|[_ Hv]]%lookup_insert_Some E;
        [done| | |by eapply (acc_signup_emails _ _ Hw)].
      * destruct (Hother j s' Hv). by rewrite <-E.
      * by destruct (Hother i r Hu).
    + intros i j r s' h [[<- <-]|[_ Hu]]%lookup_insert_Some [[<- <-]|[_ Hv]]%lookup_insert_Some E1 E2;
        [done|done|done|by eapply (acc_hashes _ _ Hw)].
    + intros i r [[<- <-]|[_ Hu]]%lookup_insert_Some; simpl; [split; [|lia]; by split_and!|].
      split; [by apply (acc_rows _ _ Hw i)|].
      pose proof (acc_signup_ids _ _ Hw i (mk_is_Some _ _ Hu)). lia.
  - apply frame_signups; simpl; try done; lia.
  - intros i. unfold signups. simpl. destruct (decide (i = id)) as [->|Hne']; [|left; by rewrite lookup_insert_ne].
    rewrite lookup_insert_eq, Hid. by right.
Qed.

(** A row may be changed so: one move, same email, a user with that email, a
    token that no other row has. *)
Definition good_change (t : Tables) (k n : nat) (id : Z) (r r' : SignupRow) : Prop :=
  su_email r' = su_email r /\
  (exists p p', k <= n /\ phase r = Some p /\ phase r' = Some p' /\ phase_step k (now_at n) p p') /\
  (forall u, su_user_id r' = Some u ->
     exists row, t_users t !! u = Some row /\ u_email row = su_email r') /\
  (forall h, su_setup_token_hash r' = Some h -> forall j s,
     t_signup_requests t !! j = Some s -> su_setup_token_hash s = Some h -> j = id).

Lemma change_sound k f g id n w :
  (accounts w -> forall i r, t_signup_requests (w_tables w) !! i = Some r -> f i r = true ->
     i = id /\ good_change (w_tables w) k n id r (g r)) ->
  sound (lifecycle k) (put_tables (set_t_signup_requests
    (update_where f g (t_signup_requests (w_tables w))) (w_tables w))) w.
Proof.
  intros Hgood Hw. specialize (Hgood Hw). set (m := t_signup_requests (w_tables w)) in *.
  assert (Hrow : forall i r', update_where f g m !! i = Some r' -> exists r, m !! i = Some r /\
    (r' = r \/ i = id /\ r' = g r /\ good_change (w_tables w) k n id r (g r))).
  { intros i r' (r & Hr & ->)%lookup_update_where_Some. exists r. split; [done|].
    destruct (f i r) eqn:Hf; [right|by left]. destruct (Hgood i r Hr Hf) as [-> ?]. done. }
  split_and!.
  - apply (accounts_signups (w_tables w) (w_seqs w)); [done|..|exact Hw].
    + intros i j r' s' (r & Hr & Hcr)%Hrow (s & Hs & Hcs)%Hrow E.
      assert (Er : su_email r' = su_email r) by (destruct Hcr as [->|(_ & -> & ? & _)]; done).
      assert (Es : su_email s' = su_email s) by (destruct Hcs as [->|(_ & -> & ? & _)]; done).
      eapply (acc_signup_emails _ _ Hw); [done|done|congruence].
    + intros i j r' s' h (r & Hr & Hcr)%Hrow (s & Hs & Hcs)%Hrow E1 E2.
      destruct Hcr as [->|(-> & -> & _ & _ & _ & Hh)], Hcs as [->|(-> & -> & _ & _ & _ & Hh')];
        [by eapply (acc_hashes _ _ Hw)|by eapply Hh'|symmetry; by eapply Hh|done].
    + intros i r' (r & Hr & Hcr)%Hrow. split.
      * destruct (acc_rows _ _ Hw i r Hr) as (He & Hp & Hu).
        destruct Hcr as [->|(_ & -> & E & (p & p' & _ & _ & Hp' & _) & Hu' & _)]; [done|].
        split_and!; [by rewrite E|by eauto|done].
      * apply (acc_signup_ids _ _ Hw i). eauto.
  - destruct w. apply (frame_signups (MkWorld _ _ _)); simpl; try done; lia.
  - intros i. unfold signups. simpl. fold m. rewrite lookup_update_where.
    destruct (m !! i) as [r|] eqn:Hr; simpl; [|by left]. destruct (f i r) eqn:Hf; [right|by left].
    destruct (Hgood i r Hr Hf) as (_ & E & (p & p' & ? & ? & ? & ?) & _). split; [done|]. eauto 10.
Qed.

Lemma update_signup_sound k id g n w :
  (accounts w -> forall r, t_signup_requests (w_tables w) !! id = Some r -> good_change (w_tables w) k n id r (g r)) ->
  sound (lifecycle k) (update_signup id g) w.
Proof.
  intros Hg. apply sound_get. apply (change_sound _ _ _ id n).
  intros Hw i r Hr Hk. apply bool_decide_eq_true in Hk as ->. auto.
Qed.

Lemma ok_user t q i r u :
  accounts_wf t q -> t_signup_requests t !! i = Some r -> su_user_id r = Some u ->
  exists row, t_users t !! u = Some row /\ u_email row = su_email r.
Proof. intros Hw Hr. apply (acc_rows _ _ Hw i r Hr). Qed.

Lemma reject_sound k id w : k <= w_tick w -> sound (lifecycle k) (RejectSignupRequest id) w.
Proof.
  intros Hk0. apply sound_bind; [auto with accounts..|]. intros now w1 [= <- <-].
  apply sound_call; [auto with accounts|]. apply sound_get.
  apply sound_bind_last; [auto with accounts| |auto with accounts].
  apply (change_sound _ _ _ id (w_tick w)). intros Hw i r Hr Hf.
  apply andb_true_iff in Hf as [Hk Hs]. apply bool_decide_eq_true in Hk as ->, Hs.
  split; [done|]. split_and!; [done| | |done].
  - eexists _, _. split_and!; [done|by eapply pending_phase; [apply (acc_rows _ _ Hw id)|]|done|constructor].
  - intros u Hu. exact (ok_user _ _ id r u Hw Hr Hu).
Qed.

Lemma select_signup_inv f w request w1 :
  select_signup f w = (inr (Some request), w1) ->
  w1 = w /\ exists id r, signups w !! id = Some r /\ f r = true /\ request = scanSignupRequest (id, r).
Proof.
  unfold select_signup, mbind, St_bind. simpl. intros [= H <-]. split; [done|].
  apply fmap_Some in H as ([id r] & Hh & ->). exists id, r.
  apply head_Some_elem_of, elem_of_select in Hh as [? ?]. done.
Qed.

Lemma select_signup_sound f w : sound eq (select_signup f) w.
Proof. apply sound_get. auto with accounts. Qed.

(** A read by key through [call]: the row is the table's, in the state after. *)
Lemma call_read {A} (stmt : DB A) w a w1 :
  call stmt w = (inr a, w1) -> stmt (next_tick w) = (inr a, w1).
Proof. apply call_inr. Qed.

Lemma create_signup_sound k email w : k <= w_tick w -> sound (lifecycle k) (CreateSignupRequest email) w.
Proof.
  intros Hk. unfold CreateSignupRequest. case_bool_decide as He; [auto with accounts|].
  apply sound_bind; [auto with accounts..|]. intros now w1 [= <- <-].
  apply sound_tx; [auto with accounts|]. apply sound_bind; [auto with accounts| |].
  { apply sound_call; [auto with accounts|]. apply sound_bind; [auto with accounts..|].
    intros. apply select_signup_sound. }
  intros [request|] w2 Hreq; cycle 1.
  - apply sound_bind; [auto with accounts| |].
    { apply sound_call; [auto with accounts|]. apply sound_bind; [auto with accounts..|].
      intros. apply sound_get. auto with accounts. }
    intros [] w3 _; [auto with accounts|]. apply sound_call; [auto with accounts|].
    by apply insert_signup_sound.
  - destruct (may_reopen request (now_at (w_tick w))) eqn:Hm; [|auto with accounts].
    apply call_read, bind_inr in Hreq as ([] & w3 & _ & Hreq).
    apply select_signup_inv in Hreq as (-> & id & r & Hr & _ & ->).
    apply sound_call; [auto with accounts|]. apply (update_signup_sound _ _ _ (w_tick w)).
    intros Hw r' Hr'. assert (r' = r) as -> by (simpl in Hr'; unfold signups in Hr; congruence).
    destruct (may_reopen_step k id r _ _ (acc_rows _ _ Hw id r Hr) Hm) as (p & Hp & Hstep).
    split_and!; [done|by eauto 10| |done]. intros u Hu. exact (ok_user _ _ id r u Hw Hr Hu).
Qed.

(** Requests to the environment. *)
Lemma env_sound {A} (m : DB A) w : (exists res, m w = (res, next_tick w)) -> sound eq m w.
Proof. intros [res E] Hw. rewrite E. split_and!; [done|apply frame_tick|done]. Qed.

Lemma token_ticks size w : exists res, randomHexToken size w = (res, next_tick w).
Proof. unfold randomHexToken. destruct (rand_Read _ _); eauto. Qed.

Lemma token_drawn k size w token w1 :
  randomHexToken size w = (inr token, w1) -> size = 32 -> k <= w_tick w -> drawn k token /\ w1 = next_tick w.
Proof.
  unfold randomHexToken. destruct (rand_Read _ _) as [msg|bytes] eqn:E; [done|]. intros [= <- <-] -> Hk.
  split; [|done]. by exists (w_tick w), bytes.
Qed.

Lemma hash_ticks password w : exists res, hashPassword password w = (res, next_tick w).
Proof. unfold hashPassword. destruct (bcrypt_GenerateFromPassword _ _); eauto. Qed.

Lemma create_user_sound email hash admin now w :
  sound eq (createUserWithPasswordHash email hash admin now) w.
Proof.
  apply sound_bind; [auto with accounts| |auto with accounts].
  apply sound_call; [auto with accounts|]. apply insert_user_sound.
Qed.

Lemma CreateUser_sound email password admin w : sound eq (CreateUser email password admin) w.
Proof.
  apply sound_bind; [auto with accounts|apply env_sound, hash_ticks|]. intros hash w1 _.
  apply sound_bind; [auto with accounts..|]. intros. apply create_user_sound.
Qed.

Lemma user_by_email_run email w :
  user_by_email email w = (inl err_encoding, w) \/
  user_by_email email w =
    (inr (head (select (fun _ u => u_email u == email) (t_users (w_tables w)))), w).
Proof. unfold user_by_email, params. simpl. repeat case_match; auto. Qed.

Lemma user_by_email_sound email w : sound eq (user_by_email email) w.
Proof. intros Hw. destruct (user_by_email_run email w) as [-> | ->]; by split_and!. Qed.

Lemma placeholder_sound email admin now w :
  sound eq (createUserWithPlaceholderPassword email admin now) w.
Proof.
  apply sound_bind; [auto with accounts|apply env_sound, token_ticks|]. intros tok w1 _.
  apply sound_bind; [auto with accounts|apply env_sound, hash_ticks|]. intros hash w2 _.
  apply create_user_sound.
Qed.

Lemma lookup_user_sound email w : sound eq (lookupUserIDByEmail email) w.
Proof.
  apply sound_call; [auto with accounts|].
  apply sound_bind; [auto with accounts|apply user_by_email_sound|auto with accounts].
Qed.

Lemma approved_user_sound email now w : sound eq (approved_user email now) w.
Proof.
  apply sound_bind; [auto with accounts|apply lookup_user_sound|]. intros [u|] w1 _; [auto with accounts|].
  apply sound_bind; [auto with accounts|apply placeholder_sound|auto with accounts].
Qed.

(** The row a successful insertion leaves. *)
Lemma create_user_row email hash admin now w user w' :
  createUserWithPasswordHash email hash admin now w = (inr user, w') ->
  exists row, t_users (w_tables w') !! us_ID user = Some row /\ u_email row = email.
Proof.
  intros Hrun. apply bind_inr in Hrun as ([id slug] & w1 & Hrun & [= <- <-]).
  apply call_read, bind_inr in Hrun as ([] & w2 & _ & Hrun). revert Hrun.
  unfold mbind, St_bind, nextval_users, random_slug, get_tables. simpl.
  destruct (_ || _); simpl; [done|]. intros [= <- <- <-]. simpl. rewrite lookup_insert_eq. eauto.
Qed.

Lemma approved_user_row email now w u w' :
  approved_user email now w = (inr u, w') ->
  exists row, t_users (w_tables w') !! u = Some row /\ u_email row = email.
Proof.
  intros Hrun. apply bind_inr in Hrun as (found & w1 & Hfound & Hrun). destruct found as [u'|].
  - injection Hrun as -> ->. apply call_read, bind_inr in Hfound as (row & w2 & Hq & [= E ->]).
    destruct (user_by_email_run email (next_tick w)) as [Hr|Hr]; rewrite Hr in Hq; [done|].
    injection Hq as <- <-. apply fmap_Some in E as ([i urow] & Hh & ->).
    apply head_Some_elem_of, elem_of_select in Hh as [Hl Hf]. apply bool_decide_eq_true in Hf. eauto.
  - apply bind_inr in Hrun as (user & w2 & Hp & [= <- <-]).
    apply bind_inr in Hp as (tok & w3 & _ & Hp). apply bind_inr in Hp as (hash & w4 & _ & Hp).
    by eapply create_user_row.
Qed.

Lemma by_id_inv id w request w1 :
  getSignupRequestByIDForUpdate id w = (inr (Some request), w1) ->
  w1 = next_tick w /\ exists r, signups w !! id = Some r /\ request = scanSignupRequest (id, r).
Proof.
  intros H. apply call_read in H. unfold mbind, St_bind in H. simpl in H. injection H as H <-.
  split; [done|]. apply fmap_Some in H as (r & Hr & ->). eauto.
Qed.

(** The tables are the same after an environment request. *)
Lemma env_tables {A} (m : DB A) w a w1 :
  (exists res, m w = (res, next_tick w)) -> m w = (inr a, w1) -> w1 = next_tick w.
Proof. intros [res E] H. congruence. Qed.

Lemma approve_signup_sound k id u n token r row w :
  k <= n -> drawn k token ->
  signups w !! id = Some r -> phase r = Some Pending ->
  t_users (w_tables w) !! u = Some row -> u_email row = su_email r ->
  sound (lifecycle k) (approve_signup id u (now_at n) (hashSetupToken token) (time_Add (now_at n) setupTokenTTL)) w.
Proof.
  intros Hk Hd Hr Hp Hu He. set (hash := hashSetupToken token). unfold approve_signup.
  apply sound_bind; [auto with accounts..|]. intros [] w1 Hw1.
  destruct (params_run [hash] [] w) as [res E]. rewrite E in Hw1. injection Hw1 as _ <-.
  apply sound_get. destruct (_ && has_row _ _) eqn:Hc; [auto with accounts|].
  destruct (_ && negb _); [auto with accounts|]. apply (update_signup_sound _ _ _ n).
  intros Hw r' Hr'. assert (r' = r) as -> by (unfold signups in Hr; congruence).
  split_and!; [done| | |].
  - eexists _, _. split_and!; [done|exact Hp|reflexivity|]. by apply step_approve.
  - simpl. intros u' [= <-]. eauto.
  - simpl. intros h [= <-] j s' Hs Hh. rewrite bool_decide_eq_true_2 in Hc by (by eexists). simpl in Hc.
    pose proof (has_row_none _ _ _ _ Hc Hs) as Hf. simpl in Hf.
    rewrite (bool_decide_eq_true_2 (su_setup_token_hash s' = Some hash)) in Hf by done.
    rewrite andb_true_r in Hf. apply negb_false_iff, bool_decide_eq_true in Hf. done.
Qed.

Lemma approve_sound k id w : k <= w_tick w -> sound (lifecycle k) (ApproveSignupRequest id) w.
Proof.
  intros Hk. apply sound_bind; [auto with accounts..|]. intros now w1 [= <- <-].
  apply sound_bind_last; [auto with accounts| |auto with accounts].
  apply sound_tx_opt; [auto with accounts|].
  apply sound_bind; [auto with accounts| |].
  { apply sound_call; [auto with accounts|]. apply sound_get. auto with accounts. }
  intros [request|] w2 Hreq; [|auto with accounts].
  apply by_id_inv in Hreq as (-> & r & Hr & ->). cbn [sr_Status sr_Email sr_ID scanSignupRequest].
  destruct (su_status r == signupStatusPending) eqn:Hs; simpl; [|auto with accounts].
  apply bool_decide_eq_true in Hs. intros Hw.
  assert (Hpend : phase r = Some Pending) by (eapply pending_phase; [apply (acc_rows _ _ Hw id)|]; done).
  revert Hw.
  apply sound_seq; [auto with accounts|apply approved_user_sound|]. intros u w4 Hu _ Hr4 Htick.
  destruct (approved_user_row _ _ _ _ _ Hu) as (row & Hrow & He).
  apply sound_bind; [auto with accounts|apply env_sound, token_ticks|]. intros token w5 Hw5.
  destruct (token_drawn k 32 _ _ _ Hw5 eq_refl) as [Hd ->]; [simpl in Htick; lia|].
  apply sound_bind_last; [auto with accounts| |auto with accounts].
  apply sound_call; [auto with accounts|].
  apply (approve_signup_sound _ _ _ (w_tick w) _ r row); [done| | |done|done|done].
  - exact Hd.
  - change (signups w4 !! id = Some r). rewrite Hr4. exact Hr.
Qed.

Lemma set_user_password_sound u password w : sound eq (setUserPassword u password) w.
Proof.
  apply sound_bind; [auto with accounts|apply env_sound, hash_ticks|]. intros hash w1 _.
  apply sound_call; [auto with accounts|]. apply sound_bind; [auto with accounts..|].
  intros [] w2 _. apply set_password_sound.
Qed.

Lemma create_session_sound u now w : sound eq (createSessionInQuerier u now) w.
Proof.
  apply sound_bind; [auto with accounts|apply env_sound, token_ticks|]. intros token w1 _.
  apply sound_bind; [auto with accounts| |auto with accounts].
  apply sound_call; [auto with accounts|]. apply insert_session_sound.
Qed.

Lemma by_hash_inv hash w request w1 :
  getSignupRequestBySetupTokenHashForUpdate hash w = (inr (Some request), w1) ->
  w1 = next_tick w /\ exists id r, signups w !! id = Some r /\
    su_setup_token_hash r = Some hash /\ request = scanSignupRequest (id, r).
Proof.
  intros H. apply call_read, bind_inr in H as ([] & w2 & Hp & H).
  destruct (params_run [hash] [] (next_tick w)) as [res E]. rewrite E in Hp. injection Hp as _ <-.
  apply select_signup_inv in H as (-> & id & r & Hr & Hh & ->). apply bool_decide_eq_true in Hh.
  split; [done|]. eauto.
Qed.

Lemma by_hash_sound hash w : sound eq (getSignupRequestBySetupTokenHashForUpdate hash) w.
Proof.
  apply sound_call; [auto with accounts|]. apply sound_bind; [auto with accounts..|].
  intros. apply select_signup_sound.
Qed.

Lemma complete_change t q k n id r u h e :
  k <= n ->
  accounts_wf t q -> t_signup_requests t !! id = Some r -> phase r = Some (Approved u h e) ->
  (now_at n < e)%Z -> good_change t k n id r (complete_row (now_at n) r).
Proof.
  intros Hk Hw Hr Hp He. pose proof (phase_inv _ _ Hp) as (_ & Hu & _ & _ & _ & Hrej & [at_ Happ]).
  split_and!; [done| | |done].
  - exists (Approved u h e), (Completed u). split_and!; [done|done| |by constructor].
    unfold phase. simpl. by rewrite Happ, Hrej, Hu.
  - intros u' Hu'. exact (ok_user _ _ id r u' Hw Hr Hu').
Qed.

Lemma setup_sound k token password w : k <= w_tick w -> sound (lifecycle k) (SetupPassword token password) w.
Proof.
  intros Hk. unfold SetupPassword. destruct (_ || _); [auto with accounts|].
  apply sound_bind; [auto with accounts..|]. intros now w1 [= <- <-].
  apply sound_bind_last; [auto with accounts| |auto with accounts].
  apply sound_tx_opt; [auto with accounts|].
  apply sound_bind; [auto with accounts|apply by_hash_sound|].
  intros [request|] w2 Hreq; [|auto with accounts].
  apply by_hash_inv in Hreq as (-> & id & r & Hr & Hh & ->).
  destruct (token_usable _ _) as [u|] eqn:Hu; [|auto with accounts]. intros Hw.
  destruct (token_usable_phase id r _ _ u _ (acc_rows _ _ Hw id r Hr) Hh Hu) as (e & Hp & He).
  revert Hw. apply sound_seq; [auto with accounts|apply set_user_password_sound|].
  intros [] w3 _ _ Hs3 _. apply sound_seq; [auto with accounts|apply create_session_sound|].
  intros session w4 _ _ Hs4 _. apply sound_bind_last; [auto with accounts| |auto with accounts].
  apply sound_call; [auto with accounts|]. apply (update_signup_sound _ _ _ (w_tick w)).
  intros Hw r' Hr'. change (signups w4 !! id = Some r') in Hr'. rewrite Hs4, Hs3 in Hr'.
  assert (r' = r) as -> by exact (Some_inj _ _ (eq_trans (eq_sym Hr') Hr)).
  apply (complete_change _ (w_seqs w4) _ _ _ _ u (hashSetupToken (TrimSpace token)) e Hk Hw); [|exact Hp|done].
  change (signups w4 !! id = Some r). by rewrite Hs4, Hs3.
Qed.

Lemma update_password_sound u cur new w : sound eq (UpdateUserPassword u cur new) w.
Proof.
  apply sound_bind; [auto with accounts| |].
  { apply sound_call; [auto with accounts|]. apply sound_get. case_match; auto with accounts. }
  intros hash w1 _. case_match; [auto with accounts|].
  apply sound_bind; [auto with accounts|apply set_user_password_sound|auto with accounts].
Qed.
End statements.
