(* ===== verification/AuthProperties.v ===== *)
(** What the accounts part of the store promises: integrity and the life of
    sign-up requests, setup tokens that work once, and the way from an approved
    request to a session. *)

From S2P Require Import Prelude GoStrings Sha256 Database StoreProbes StoreInvariant StoreAuth AuthInvariant.

(** * Accounts as a transition system *)

Inductive AuthOp :=
| OpCreateUser (email password : string) (isAdmin : bool)
| OpAuthenticateUser (email password : string)
| OpUserExists
| OpCreateSession (userID : Z)
| OpGetSessionUser (token : string)
| OpDeleteSession (token : string)
| OpUpdateUserPassword (userID : Z) (currentPassword newPassword : string)
| OpCreateSignupRequest (email : string)
| OpListPendingSignupRequests
| OpApproveSignupRequest (id : Z)
| OpRejectSignupRequest (id : Z)
| OpSetupPassword (token newPassword : string).

Section system.
Context `{Env : StoreEnv} `{AE : AuthEnv}.

Definition exec_auth (op : AuthOp) (w : World) : World :=
  match op with
  | OpCreateUser e p a => (CreateUser e p a w).2
  | OpAuthenticateUser e p => (AuthenticateUser e p w).2
  | OpUserExists => (UserExists w).2
  | OpCreateSession u => (CreateSession u w).2
  | OpGetSessionUser t => (GetSessionUser t w).2
  | OpDeleteSession t => (DeleteSession t w).2
  | OpUpdateUserPassword u c n => (UpdateUserPassword u c n w).2
  | OpCreateSignupRequest e => (CreateSignupRequest e w).2
  | OpListPendingSignupRequests => (ListPendingSignupRequests w).2
  | OpApproveSignupRequest id => (ApproveSignupRequest id w).2
  | OpRejectSignupRequest id => (RejectSignupRequest id w).2
  | OpSetupPassword t p => (SetupPassword t p w).2
  end.

(** The other components leave the tables of accounts alone. *)
Definition other_step (w w' : World) : Prop :=
  t_users (w_tables w') = t_users (w_tables w) /\
  t_sessions (w_tables w') = t_sessions (w_tables w) /\
  t_signup_requests (w_tables w') = t_signup_requests (w_tables w) /\
  sq_users (w_seqs w') = sq_users (w_seqs w) /\
  sq_signup_requests (w_seqs w') = sq_signup_requests (w_seqs w) /\
  w_tick w <= w_tick w'.

Inductive auth_step : World -> World -> Prop :=
| auth_step_op op w : auth_step w (exec_auth op w)
| auth_step_other w w' : other_step w w' -> auth_step w w'.

Lemma authenticate_sound email password w : sound eq (AuthenticateUser email password) w.
Proof.
  apply sound_bind; [auto with accounts| |].
  { apply sound_call; [auto with accounts|]. apply user_by_email_sound. }
  intros [row|] w1 _; [|auto with accounts]. case_match; auto with accounts.
Qed.

Lemma exec_auth_sound op w :
  accounts w ->
  accounts (exec_auth op w) /\ auth_frame w (exec_auth op w) /\
  lifecycle (w_tick w) (signups w) (signups (exec_auth op w)).
Proof.
  destruct op; simpl.
  - apply sound_eq_lifecycle, CreateUser_sound.
  - apply sound_eq_lifecycle, authenticate_sound.
  - apply sound_eq_lifecycle. apply sound_call; [auto with accounts|]. apply sound_get. auto with accounts.
  - apply sound_eq_lifecycle. apply sound_bind; [auto with accounts..|]. intros. apply create_session_sound.
  - apply sound_eq_lifecycle. apply sound_bind; [auto with accounts..|]. intros now w1 _.
    apply sound_call; [auto with accounts|]. apply sound_bind; [auto with accounts..|]. intros.
    apply sound_get. auto with accounts.
  - apply sound_eq_lifecycle, delete_session_sound.
  - apply sound_eq_lifecycle, update_password_sound.
  - by apply create_signup_sound.
  - apply sound_eq_lifecycle. apply sound_call; [auto with accounts|]. apply sound_get. auto with accounts.
  - by apply approve_sound.
  - by apply reject_sound.
  - by apply setup_sound.
Qed.

Lemma empty_accounts : accounts empty_world.
Proof. split; simpl; intros *; rewrite ?lookup_empty; try done; by intros [? ?]. Qed.

Lemma other_accounts w w' : other_step w w' -> accounts w -> accounts w'.
Proof.
  intros (Hu & Hs & Hr & Hq1 & Hq2 & _) []. split; rewrite ?Hu, ?Hs, ?Hr, ?Hq1, ?Hq2; done.
Qed.

Lemma steps_accounts w w' : rtc auth_step w w' -> accounts w -> accounts w'.
Proof.
  induction 1 as [|w1 w2 w3 Hstep _ IH]; [done|]. intros Hw. apply IH.
  destruct Hstep as [op w|w w' Ho]; [by apply exec_auth_sound|by eapply other_accounts].
Qed.

(** C30. In every database the accounts calls can reach from an empty one, in any
    order, with any faults and interleaved with other components, emails and
    setup tokens are unique, sessions and approved requests belong to users, and
    the columns of a sign-up request fit together.  Each further call moves each
    request by at most one step of its life: pending to approved (with a token
    just drawn, for 24 hours) or to rejected, rejected back to pending after 24
    hours, approved back to pending after its token expired, approved to
    completed before; requests never disappear or change their email, and the
    tables of the other components stay as they are. *)
Theorem signup_requests_follow_lifecycle (op : AuthOp) (w : World)
    (Hreach : rtc auth_step empty_world w) :
  accounts w /\ accounts (exec_auth op w) /\ auth_frame w (exec_auth op w) /\
  lifecycle (w_tick w) (signups w) (signups (exec_auth op w)).
Proof.
  assert (Hw : accounts w) by exact (steps_accounts _ _ Hreach empty_accounts).
  split; [done|]. by apply exec_auth_sound.
Qed.

(** * Successful runs *)

Lemma with_tx_opt_inr {A} (body : DB (option A)) w a w' :
  with_tx_opt body w = (inr a, w') ->
  exists w2, body (next_tick w) = (inr a, w2) /\
    w_tables w' = if a is Some _ then w_tables w2 else w_tables w.
Proof.
  unfold with_tx_opt. destruct (call_nothing w) as [[e ->]| ->]; [done|].
  destruct (body (next_tick w)) as [[e|[b|]] w2]; [done| |intros [= <- <-]; eauto].
  destruct (fault_at (w_tick w2)) as [[]|]; [done..|]. intros [= <- <-]. eauto.
Qed.

Lemma set_password_run u password w w' :
  setUserPassword u password w = (inr tt, w') ->
  exists hash, bcrypt_GenerateFromPassword (w_tick w) password = inr hash /\
    w_tables w' = set_t_users (update_where (fun k _ => k == u) (set_password_hash hash)
      (t_users (w_tables w))) (w_tables w).
Proof.
  intros Hrun. apply bind_inr in Hrun as (hash & w1 & Hh & Hrun). exists hash.
  unfold hashPassword in Hh. destruct (bcrypt_GenerateFromPassword _ _); [done|].
  injection Hh as -> <-. split; [done|].
  apply call_read, bind_inr in Hrun as ([] & w2 & Hp & Hrun).
  destruct (params_run [hash] [] (next_tick (next_tick w))) as [res E]. rewrite E in Hp.
  injection Hp as _ <-. unfold mbind, St_bind in Hrun. simpl in Hrun. by injection Hrun as <-.
Qed.

Lemma create_session_run u now w token w' :
  createSessionInQuerier u now w = (inr token, w') ->
  drawn (w_tick w) token /\ t_sessions (w_tables w) !! token = None /\
  w_tables w' = set_t_sessions (<[token := MkSessionRow u (timestamptz now)
    (timestamptz (time_Add now (30 * 24 * Hour)%Z))]> (t_sessions (w_tables w))) (w_tables w).
Proof.
  intros Hrun. apply bind_inr in Hrun as (token' & w1 & Ht & Hrun).
  destruct (token_drawn (w_tick w) 32 _ _ _ Ht eq_refl) as [Hd ->]; [done|].
  apply bind_inr in Hrun as ([] & w2 & Hrun & [= -> <-]). split; [done|].
  apply call_read, bind_inr in Hrun as ([] & w3 & Hp & Hrun).
  destruct (params_run [token] [u] (next_tick (next_tick w))) as [res E]. rewrite E in Hp.
  injection Hp as _ <-. revert Hrun. unfold mbind, St_bind, get_tables. simpl.
  case_bool_decide as Hs; [done|]. case_match; [done|]. intros [= <-].
  split; [by apply eq_None_not_Some|done].
Qed.

(** What [SetupPassword] leaves when it does something. *)
Definition setup_tables (now : Time) (id u : Z) (hash session : string) (t : Tables) : Tables :=
  let t1 := set_t_users (update_where (fun k _ => k == u) (set_password_hash hash) (t_users t)) t in
  let t2 := set_t_sessions (<[session := MkSessionRow u (timestamptz now)
    (timestamptz (time_Add now (30 * 24 * Hour)%Z))]> (t_sessions t)) t1 in
  set_t_signup_requests (update_where (fun k _ => k == id) (complete_row now) (t_signup_requests t)) t2.

Lemma by_hash_none hash w w1 id r :
  getSignupRequestBySetupTokenHashForUpdate hash w = (inr None, w1) ->
  signups w !! id = Some r -> su_setup_token_hash r <> Some hash.
Proof.
  intros H Hr Hh. apply call_read, bind_inr in H as ([] & w2 & Hp & H).
  destruct (params_run [hash] [] (next_tick w)) as [res E]. rewrite E in Hp. injection Hp as _ <-.
  unfold select_signup, mbind, St_bind in H. simpl in H. injection H as H _.
  apply fmap_None, head_None in H.
  assert (Hin : (id, r) ∈ select (fun _ r => bool_decide (su_setup_token_hash r = Some hash)) (signups w)).
  { apply elem_of_select. by rewrite bool_decide_eq_true_2. }
  unfold signups in Hin. rewrite H in Hin. by apply not_elem_of_nil in Hin.
Qed.

Lemma setup_run token password w out w' :
  accounts w -> SetupPassword token password w = (inr out, w') ->
  (out = no_outcome /\ w_tables w' = w_tables w /\
   ((TrimSpace token == "") || (password == "") = true \/
    forall id r, signups w !! id = Some r ->
      su_setup_token_hash r = Some (hashSetupToken (TrimSpace token)) ->
      token_usable (scanSignupRequest (id, r)) (now_at (w_tick w)) = None)) \/
  exists id r u n hash session, let now := now_at (w_tick w) in
    signups w !! id = Some r /\
    su_setup_token_hash r = Some (hashSetupToken (TrimSpace token)) /\
    token_usable (scanSignupRequest (id, r)) now = Some u /\
    bcrypt_GenerateFromPassword n password = inr hash /\ drawn 0 session /\
    t_sessions (w_tables w) !! session = None /\
    out = MkSetupPasswordOutcome (su_email r) session /\
    w_tables w' = setup_tables now id u hash session (w_tables w).
Proof.
  intros Hacc.
  unfold SetupPassword. destruct (_ || _) eqn:Hempty; [intros [= <- <-]; left; auto|]. intros Hrun.
  apply bind_inr in Hrun as (now & w1 & [= <- <-] & Hrun).
  apply bind_inr in Hrun as (res & w2 & Hrun & [= <- <-]).
  apply with_tx_opt_inr in Hrun as (w3 & Hrun & Ht). rewrite Ht. clear Ht.
  apply bind_inr in Hrun as (request & w4 & Hreq & Hrun).
  destruct request as [request|]; cycle 1.
  { injection Hrun as <- <-. left. split_and!; [done|done|]. right. intros id r Hr Hh.
    by destruct (by_hash_none _ _ _ id r Hreq Hr). }
  apply by_hash_inv in Hreq as (-> & id & r & Hr & Hh & ->).
  destruct (token_usable _ _) as [u|] eqn:Hu; cycle 1.
  { injection Hrun as <- <-. left. split_and!; [done|done|]. right. intros i r' Hr' Hh'.
    assert (i = id) as -> by (by eapply (acc_hashes _ _ Hacc)).
    assert (r' = r) as -> by (change (signups w !! id = Some r) in Hr; congruence). done. }
  apply bind_inr in Hrun as ([] & w5 & Hpw & Hrun). apply set_password_run in Hpw as (hash & Hg & T5).
  apply bind_inr in Hrun as (session & w6 & Hs & Hrun). pose proof Hs as Hs'.
  apply create_session_run in Hs as (Hd & Hnew & T6).
  apply bind_inr in Hrun as ([] & w7 & Hup & [= <- <-]). apply call_read in Hup.
  unfold update_signup, mbind, St_bind in Hup. simpl in Hup. injection Hup as <-.
  right. exists id, r, u, (w_tick (next_tick (next_tick (next_tick w)))), hash, session. simpl.
  split_and!; try done.
  - destruct Hd as (n & bytes & _ & ?). exists n, bytes. split; [lia|done].
  - by rewrite T5 in Hnew.
  - rewrite T6, T5. done.
Qed.

(** * Setup tokens *)

Definition token_absent (h : string) (w : World) : Prop :=
  forall id r, signups w !! id = Some r -> su_setup_token_hash r <> Some h.

Lemma phase_hash r p h :
  phase r = Some p -> su_setup_token_hash r = Some h -> exists u e, p = Approved u h e.
Proof.
  intros Hp Hh. pose proof (phase_inv _ _ Hp) as Hi. destruct p; destruct_and? Hi; try congruence.
  simplify_eq. eauto.
Qed.

(** A token that is gone comes back only if it is drawn again. *)
Lemma absent_lifecycle k h w w' :
  (forall token, drawn k token -> hashSetupToken token <> h) ->
  accounts w' -> lifecycle k (signups w) (signups w') -> token_absent h w -> token_absent h w'.
Proof.
  intros Hfresh Hw' Hlife Habs id r' Hr' Hh. destruct (acc_rows _ _ Hw' id r' Hr') as (_ & [p' Hp'] & _).
  destruct (phase_hash _ _ _ Hp' Hh) as (u & e & ->). specialize (Hlife id). rewrite Hr' in Hlife.
  destruct Hlife as [E|Hm]; [symmetry in E; by apply (Habs id r' E)|].
  destruct (signups w !! id) as [r|] eqn:Hr; [|congruence].
  destruct Hm as (_ & n & p & p2 & _ & Hp & Hp2 & Hstep). simplify_eq.
  inversion Hstep; subst. by eapply Hfresh.
Qed.

Lemma steps_tick w w' : rtc auth_step w w' -> accounts w -> w_tick w <= w_tick w'.
Proof.
  induction 1 as [|w1 w2 w3 Hstep _ IH]; [done|]. intros Hw.
  assert (accounts w2) by (apply (steps_accounts w1); [by apply rtc_once|done]).
  etransitivity; [|by apply IH]. destruct Hstep as [op w|w w' Ho]; [|apply Ho].
  by apply exec_auth_sound.
Qed.

Lemma drawn_mono k k' token : k <= k' -> drawn k' token -> drawn k token.
Proof. intros Hk (n & bytes & Hn & ?). exists n, bytes. split; [lia|done]. Qed.

Lemma absent_steps h k w w' :
  rtc auth_step w w' -> k <= w_tick w -> accounts w ->
  (forall token, drawn k token -> hashSetupToken token <> h) ->
  token_absent h w -> token_absent h w'.
Proof.
  intros Hsteps Hk Hw Hfresh. revert Hk Hw. induction Hsteps as [|w1 w2 w3 Hstep Hsteps IH]; [done|].
  intros Hk Hw Habs. assert (Hw2 : accounts w2) by (apply (steps_accounts w1); [by apply rtc_once|done]).
  assert (Ht : w_tick w1 <= w_tick w2) by (apply steps_tick; [by apply rtc_once|done]).
  apply IH; [lia|done|]. destruct Hstep as [op w|w w' Ho].
  - destruct (exec_auth_sound op w Hw) as (_ & _ & Hlife).
    apply (absent_lifecycle (w_tick w) h w); [|done|done|done].
    intros token Hd. apply Hfresh. by apply (drawn_mono _ (w_tick w)).
  - intros id r Hr. destruct Ho as (_ & _ & E & _). apply (Habs id). unfold signups in *. congruence.
Qed.

Lemma setup_absent token password w out w' :
  accounts w -> token_absent (hashSetupToken (TrimSpace token)) w ->
  SetupPassword token password w = (inr out, w') -> out = no_outcome /\ w_tables w' = w_tables w.
Proof.
  intros Hw Habs Hrun. apply setup_run in Hrun as [(? & ? & _)|(id & r & _ & _ & _ & _ & Hr & Hh & _)]; [done| |done].
  by destruct (Habs id r Hr).
Qed.

(** C31. A setup token works once.  After a [SetupPassword] that set a password,
    and any further calls in any order and with any faults, the same token is
    refused and nothing is changed, unless the random source draws a token with
    the same hash again. *)
Theorem setup_token_used_once token password password' w out w1 w2 out' w3
    (Hw : accounts w) (Hrun : SetupPassword token password w = (inr out, w1))
    (Hdone : out <> no_outcome) (Hsteps : rtc auth_step w1 w2)
    (Hfresh : forall token', drawn (w_tick w1) token' ->
       hashSetupToken token' <> hashSetupToken (TrimSpace token))
    (Hagain : SetupPassword token password' w2 = (inr out', w3)) :
  out' = no_outcome /\ w_tables w3 = w_tables w2.
Proof.
  assert (Hw1 : accounts w1).
  { destruct (exec_auth_sound (OpSetupPassword token password) w Hw) as (H & _). simpl in H.
    by rewrite Hrun in H. }
  apply (setup_absent token password'); [by apply (steps_accounts w1)| |done].
  apply (absent_steps _ (w_tick w1) w1); [done|done|done|done|].
  apply setup_run in Hrun as [[? _]|(id & r & u & n & hash & session & Hr & Hh & _ & _ & _ & _ & _ & T)];
    [done| |done]. intros i r' Hr'. unfold signups in Hr'. rewrite T in Hr'. simpl in Hr'.
  apply lookup_update_where_Some in Hr' as (r0 & Hr0 & ->).
  case_bool_decide as E; [done|]. intros Hh0. apply E. by eapply (acc_hashes _ _ Hw).
Qed.
End system.
