(* ===== verification/StoreFrame.v ===== *)
(** The store's monitoring calls leave the accounts alone. *)

From S2P Require Import Prelude GoStrings Types Database StoreNotifications StoreMonitoring.
From S2P Require Import StoreChecks StoreProbes StoreInvariant StoreProperties StoreAuth AuthInvariant AuthProperties.

#[global] Instance other_step_preorder : PreOrder other_step.
Proof.
  split; [by intros w|]. intros w1 w2 w3 (?&?&?&?&?&?) (?&?&?&?&?&?).
  unfold other_step. split_and!; try congruence; lia.
Qed.

(** A call under which the accounts stay as they are, on every path. *)
Definition aside {A} (m : DB A) : Prop := forall w, other_step w (m w).2.

Section aside.
Context `{Env : StoreEnv}.

Lemma aside_tick w : other_step w (next_tick w).
Proof. unfold other_step. simpl. split_and!; try done. lia. Qed.

Lemma aside_same {A} (m : DB A) : (forall w, (m w).2 = w \/ (m w).2 = next_tick w) -> aside m.
Proof. intros Hm w. destruct (Hm w) as [-> | ->]; [reflexivity|apply aside_tick]. Qed.

Lemma aside_ret {A} (a : A) : aside (mret a).
Proof. apply aside_same. by left. Qed.
Lemma aside_fail {A} e : aside (st_fail e : DB A).
Proof. apply aside_same. by left. Qed.
Lemma aside_now : aside time_Now.
Proof. apply aside_same. by right. Qed.
Lemma aside_uuid : aside gen_random_uuid.
Proof. apply aside_same. by right. Qed.
Lemma aside_token size : aside (randomHexToken size).
Proof. apply aside_same. intros w. destruct (token_ticks size w) as [res ->]. by right. Qed.
Lemma aside_params texts ints : aside (params texts ints).
Proof. apply aside_same. intros w. destruct (params_run texts ints w) as [res ->]. by left. Qed.
Lemma aside_nextval_i : aside nextval_incidents.
Proof. intros w. by split_and!. Qed.
Lemma aside_nextval_n : aside nextval_notifications.
Proof. intros w. by split_and!. Qed.

Lemma aside_bind {A B} (m : DB A) (k : A -> DB B) : aside m -> (forall a, aside (k a)) -> aside (m ≫= k).
Proof.
  intros Hm Hk w. unfold mbind, St_bind. specialize (Hm w).
  destruct (m w) as [[e|a] w1]; simpl in *; [done|]. etransitivity; [exact Hm|apply Hk].
Qed.

Lemma aside_call {A} (stmt : DB A) : aside stmt -> aside (call stmt).
Proof.
  intros Hs w. pose proof (aside_tick w) as Ht. unfold call.
  destruct (fault_at (w_tick w)) as [[]|]; simpl; [done|..]; (etransitivity; [exact Ht|apply Hs]).
Qed.

Lemma aside_undo w w2 : other_step w w2 -> other_step w (set_tables (w_tables w) w2).
Proof. intros (_&_&_&?&?&?). by split_and!. Qed.

Lemma aside_tx {A} (body : DB A) : aside body -> aside (with_tx body).
Proof.
  intros Hb w. pose proof (aside_tick w) as Ht. unfold with_tx.
  destruct (call_nothing w) as [[e ->]| ->]; [done|]. specialize (Hb (next_tick w)).
  pose proof (aside_undo _ _ Hb) as Hu. etransitivity; [exact Ht|].
  destruct (body (next_tick w)) as [[e|a] w2]; simpl in *; [done|].
  destruct (fault_at (w_tick w2)) as [[]|]; simpl.
  - etransitivity; [exact Hu|apply (aside_tick (set_tables (w_tables w) w2))].
  - etransitivity; [exact Hb|apply aside_tick].
  - etransitivity; [exact Hb|apply aside_tick].
Qed.

Lemma aside_for {A} (xs : list A) (body : A -> DB unit) : (forall x, aside (body x)) -> aside (st_for xs body).
Proof. intros Hb. induction xs as [|x xs IH]; simpl; [apply aside_ret|by apply aside_bind]. Qed.

Lemma aside_collect {A B} (xs : list A) (body : A -> DB B) :
  (forall x, aside (body x)) -> aside (st_collect xs body).
Proof.
  intros Hb. induction xs as [|x xs IH]; simpl; [apply aside_ret|].
  apply aside_bind; [done|]. intros y. apply aside_bind; [done|]. intros. apply aside_ret.
Qed.

(** Reading the tables and then going on. *)
Lemma aside_get {A} (k : Tables -> DB A) :
  (forall w, other_step w (k (w_tables w) w).2) -> aside (get_tables ≫= k).
Proof. intros Hk w. exact (Hk w). Qed.
End aside.

(** Follows the structure of a call down to its statements. *)
Ltac stand_aside :=
  repeat (lazymatch goal with
  | |- forall _, _ => intros ?
  | |- aside (mret _) => apply aside_ret
  | |- aside (st_fail _) => apply aside_fail
  | |- aside time_Now => apply aside_now
  | |- aside gen_random_uuid => apply aside_uuid
  | |- aside (randomHexToken _) => apply aside_token
  | |- aside nextval_incidents => apply aside_nextval_i
  | |- aside nextval_notifications => apply aside_nextval_n
  | |- aside (params _ _) => apply aside_params
  | |- aside (call _) => apply aside_call
  | |- aside (with_tx _) => apply aside_tx
  | |- aside (st_for _ _) => apply aside_for
  | |- aside (st_collect _ _) => apply aside_collect
  | |- aside (get_tables ≫= _) => apply aside_get; intros ?
  | |- aside (_ ≫= _) => apply aside_bind
  | |- aside (match _ with _ => _ end) => case_match
  | |- aside _ => progress (auto with aside)
  | |- other_step ?w (put_tables _ ?w).2 => by split_and!
  | |- other_step ?w (mret _ ?w).2 => reflexivity
  | |- other_step ?w (st_fail _ ?w).2 => reflexivity
  | |- other_step _ ((match _ with _ => _ end) _).2 => case_match
  | |- other_step ?w ((nextval_incidents ≫= _) ?w).2 =>
      unfold mbind, St_bind; simpl; repeat (case_match; simpl); by split_and!
  | |- other_step ?w ((put_tables _ ≫= _) ?w).2 => unfold mbind, St_bind; simpl; by split_and!
  end).

Create HintDb aside.

Section store.
Context `{Env : StoreEnv}.

Lemma aside_normalizeTime t : aside (normalizeTime t).
Proof. unfold normalizeTime. stand_aside. Qed.
#[local] Hint Resolve aside_normalizeTime : aside.

Lemma aside_notification id ev req now : aside (insertIncidentNotification id ev req now).
Proof. unfold insertIncidentNotification, insert_notification_row. stand_aside. Qed.
#[local] Hint Resolve aside_notification : aside.

Lemma aside_open c req now : aside (openIncidentWithNotificationByCheckIDTx c req now).
Proof. unfold openIncidentWithNotificationByCheckIDTx, insert_incident_row. stand_aside. Qed.

Lemma aside_resolve c req now : aside (resolveIncidentWithNotificationByCheckIDTx c req now).
Proof. unfold resolveIncidentWithNotificationByCheckIDTx, resolve_open_row. stand_aside. Qed.
#[local] Hint Resolve aside_open aside_resolve : aside.

Lemma aside_normalize s : aside (normalizeCheckStateWrite s).
Proof. unfold normalizeCheckStateWrite. cbv zeta. stand_aside. Qed.
#[local] Hint Resolve aside_normalize : aside.

Lemma aside_upsert s : aside (upsertCheckStateTx s).
Proof. unfold upsertCheckStateTx. stand_aside. Qed.

Lemma aside_heartbeat p at_ : aside (updateProbeHeartbeatTx p at_).
Proof. unfold updateProbeHeartbeatTx. stand_aside. Qed.

Lemma aside_incident c r req : aside (applyMonitoringIncidentTx c r req).
Proof. unfold applyMonitoringIncidentTx. stand_aside. Qed.

Lemma aside_validate wr : aside (validateMonitoringWrite wr).
Proof. unfold validateMonitoringWrite. stand_aside. Qed.
#[local] Hint Resolve aside_upsert aside_heartbeat aside_incident aside_validate : aside.

Lemma aside_write wr : aside (persistMonitoringWriteTx wr).
Proof. unfold persistMonitoringWriteTx. stand_aside. Qed.
#[local] Hint Resolve aside_write : aside.

Lemma aside_batch ws : aside (PersistMonitoringBatch ws).
Proof. unfold PersistMonitoringBatch. stand_aside. Qed.
#[local] Hint Resolve aside_batch : aside.

Lemma aside_insert_check c user conflict : aside conflict -> aside (insert_check c user conflict).
Proof. intros Hc. unfold insert_check. stand_aside. apply Hc. Qed.

Lemma aside_insert_probe id : aside (insertProbeCredential id).
Proof. unfold insertProbeCredential, insert_probe. cbv zeta. stand_aside. Qed.

Lemma aside_generate fuel : aside (generate_credential fuel).
Proof.
  induction fuel as [|fuel IH]; cbn [generate_credential]; [stand_aside|].
  unfold randomProbeID. stand_aside. intros w. unfold if_taken.
  pose proof (aside_insert_probe a w) as Hi.
  destruct (insertProbeCredential a w) as [[e|c] w1]; [|done].
  case_match; [|done]. etransitivity; [exact Hi|apply IH].
Qed.

(** Every call of the store's monitoring part. *)
Lemma store_aside op w : other_step w (exec_store op w).
Proof.
  destruct op; simpl;
    match goal with |- other_step w (?m w).2 => assert (aside m) as Hm; [|apply Hm] end.
  - auto with aside.
  - unfold PersistMonitoringWrite. stand_aside.
  - unfold ClaimDueIncidentNotifications. cbv zeta. stand_aside.
  - unfold MarkIncidentNotificationDelivered. stand_aside.
  - unfold MarkIncidentNotificationRetry. stand_aside.
  - unfold SeedChecks. stand_aside. apply aside_insert_check. stand_aside.
  - unfold CreateCheck. stand_aside. apply aside_insert_check. stand_aside.
  - unfold UpdateCheck. stand_aside.
  - unfold DeleteCheck, supersede_all, resolve_all, delete_states, mark_deleted. stand_aside.
  - unfold SeedProbes, seed_probe, revoke_probe. stand_aside.
  - unfold CreateProbeCredential. cbv zeta. case_match; [apply aside_insert_probe|apply aside_generate].
  - unfold RegisterProbe. stand_aside.
Qed.
End store.
