(* ===== verification/RateLimiter.v ===== *)
(** The rate limiter of internal/server/auth.go, with its defaults from
    internal/config/config.go.

    [time.Now] is [clock], read at increasing positions; the state carries the
    position.  The map holds pointers to buckets that nothing else refers to. *)

From S2P Require Import Prelude GoStrings.

Definition DefaultAuthRateLimitRequests : Z := 10.
Definition DefaultAuthRateLimitWindow : Duration := Minute.

Record tokenBucket := MkBucket { tb_count : Z; tb_resetAt : Time }.

Record rateLimiter := MkRateLimiter {
  rl_tokens : gmap string tokenBucket;
  rl_limit : Z;
  rl_window : Duration;
  rl_tick : nat
}.

Definition newRateLimiter (limit : Z) (window : Duration) : rateLimiter :=
  let limit := if (limit <=? 0)%Z then DefaultAuthRateLimitRequests else limit in
  let window := if (window <=? 0)%Z then DefaultAuthRateLimitWindow else window in
  MkRateLimiter ∅ limit window 0.

Definition set_bucket (ip : string) (b : tokenBucket) (tick : nat) (rl : rateLimiter) : rateLimiter :=
  MkRateLimiter (<[ip := b]> (rl_tokens rl)) (rl_limit rl) (rl_window rl) tick.

Section clock.
Context (clock : nat -> Time).

(** A fresh bucket, from the clock's reading at [tick]. *)
Definition open_bucket (ip : string) (tick : nat) (rl : rateLimiter) : bool * rateLimiter :=
  (true, set_bucket ip (MkBucket 1 (time_Add (clock tick) (rl_window rl))) (S tick) rl).

Definition allow (ip : string) (rl : rateLimiter) : bool * rateLimiter :=
  let tick := rl_tick rl in
  match rl_tokens rl !! ip with
  | None => open_bucket ip tick rl
  | Some b =>
      if After (clock tick) (tb_resetAt b) then open_bucket ip (S tick) rl
      else if (rl_limit rl <=? tb_count b)%Z then
        (false, MkRateLimiter (rl_tokens rl) (rl_limit rl) (rl_window rl) (S tick))
      else (true, set_bucket ip (MkBucket (wrap64 (tb_count b + 1)) (tb_resetAt b)) (S tick) rl)
  end.

(** The answer of a rate-limited route: [None] for a limiter that is nil;
    [Some 429] without calling the handler, or the handler's. *)
Definition rateLimited {R} (ip : string) (next : R) (too_many : R) (rl : option rateLimiter)
    : R * option rateLimiter :=
  match rl with
  | None => (next, None)
  | Some rl => let '(ok, rl) := allow ip rl in (if ok then next else too_many, Some rl)
  end.

(** * Requests over time *)

(** The limiter with, for each address, the times of its allowed requests, the
    newest first. *)
Record Traffic := MkTraffic {
  tr_limiter : rateLimiter;
  tr_allowed : gmap string (list Time)
}.

Definition log_of (s : Traffic) (ip : string) : list Time := default [] (tr_allowed s !! ip).

(** A request is logged at the last reading [allow] makes for it, the one a new
    bucket's window starts at. *)
Definition request (ip : string) (s : Traffic) : Traffic :=
  let '(ok, rl) := allow ip (tr_limiter s) in
  MkTraffic rl (if ok then <[ip := clock (pred (rl_tick rl)) :: log_of s ip]> (tr_allowed s)
                else tr_allowed s).

Definition serve (ips : list string) (limit : Z) (window : Duration) : Traffic :=
  foldl (fun s ip => request ip s) (MkTraffic (newRateLimiter limit window) ∅) ips.

(** * Invariant *)

Hypothesis clock_monotone : forall n m, n <= m -> (clock n <= clock m)%Z.

(** The log of an address against its bucket: the bucket's [count] newest requests
    were allowed since it was opened, the others before; those before the bucket
    that preceded it are older than a window. *)
Record log_ok (limit : Z) (window : Duration) (now : Time) (b : option tokenBucket) (log : list Time) : Prop := {
  lg_none : b = None -> log = [];
  lg_past : Forall (fun t => t <= now)%Z log;
  lg_bucket c : b = Some c -> exists opened,
    (1 <= tb_count c <= limit)%Z /\ tb_resetAt c = (opened + window)%Z /\ (opened <= now)%Z /\
    (tb_count c <= Z.of_nat (length log))%Z /\
    (forall i t, log !! i = Some t -> (Z.of_nat i < tb_count c)%Z -> (opened <= t)%Z) /\
    (forall i t, log !! i = Some t -> (tb_count c <= Z.of_nat i)%Z -> (t <= opened)%Z) /\
    (forall i t, log !! i = Some t -> (tb_count c + limit <= Z.of_nat i)%Z -> (t + window < opened)%Z);
  lg_spread i j t t' : log !! i = Some t -> log !! j = Some t' ->
    (Z.of_nat i + 2 * limit <= Z.of_nat j)%Z -> (t' + window < t)%Z
}.

Definition limits_ok (rl : rateLimiter) : Prop := (0 < rl_limit rl < 2 ^ 63)%Z /\ (0 < rl_window rl)%Z.

(** [now] is the last reading. *)
Definition traffic_ok (now : Time) (s : Traffic) : Prop :=
  limits_ok (tr_limiter s) /\
  (forall n, rl_tick (tr_limiter s) <= n -> (now <= clock n)%Z) /\
  forall ip, log_ok (rl_limit (tr_limiter s)) (rl_window (tr_limiter s)) now
               (rl_tokens (tr_limiter s) !! ip) (log_of s ip).

Lemma log_ok_later limit window now now' b log :
  (now <= now')%Z -> log_ok limit window now b log -> log_ok limit window now' b log.
Proof.
  intros Hn []. split; [done| | |done].
  - eapply Forall_impl; [|exact lg_past0]. simpl. lia.
  - intros c Hc. destruct (lg_bucket0 c Hc) as (o & ?). exists o. intuition lia.
Qed.

(** A first request, or one after the window. *)
Lemma log_ok_open limit window now now' b log :
  (0 < limit)%Z -> log_ok limit window now b log -> (now <= now')%Z ->
  (forall c, b = Some c -> (tb_resetAt c < now')%Z) ->
  log_ok limit window now' (Some (MkBucket 1 (now' + window))) (now' :: log).
Proof.
  intros Hl [Hnone Hpast Hbucket Hspread] Hn Hafter.
  assert (Hall : forall i t, log !! i = Some t -> (t <= now)%Z).
  { intros i t Ht. rewrite Forall_lookup in Hpast. eauto. }
  assert (Hold : forall i t, log !! i = Some t -> (limit <= Z.of_nat i)%Z -> (t + window < now')%Z).
  { intros i t Ht Hi. destruct b as [c|]; [|by rewrite (Hnone eq_refl) in Ht].
    destruct (Hbucket c eq_refl) as (o & Hc & Ho & _ & _ & _ & Hbefore & _).
    specialize (Hbefore i t Ht). specialize (Hafter c eq_refl). lia. }
  split.
  - done.
  - constructor; [lia|]. eapply Forall_impl; [|exact Hpast]. simpl. lia.
  - intros c [= <-]. exists now'. cbn [tb_count tb_resetAt length]. split_and!; try lia.
    + intros [|i] t; simpl; [intros [= <-]; lia|]. intros Ht Hi. lia.
    + intros [|i] t; simpl; [lia|]. intros Ht _. specialize (Hall i t Ht). lia.
    + intros [|i] t; simpl; [lia|]. intros Ht Hi. apply (Hold i t Ht). lia.
  - intros [|i] [|j] t t'; simpl; try lia.
    + intros [= <-] Ht Hj. apply (Hold j t' Ht). lia.
    + intros Hi Hj Hd. apply (Hspread i j t t' Hi Hj). lia.
Qed.

(** A further request within the window. *)
Lemma log_ok_count limit window now now' c log :
  log_ok limit window now (Some c) log -> (now <= now')%Z -> (tb_count c < limit)%Z ->
  log_ok limit window now' (Some (MkBucket (tb_count c + 1) (tb_resetAt c))) (now' :: log).
Proof.
  intros [_ Hpast Hbucket Hspread] Hn Hlt.
  destruct (Hbucket c eq_refl) as (o & Hc & Ho & Hon & Hlen & Hin & Hbefore & Hold). split.
  - done.
  - constructor; [lia|]. eapply Forall_impl; [|exact Hpast]. simpl. lia.
  - intros c' [= <-]. exists o. cbn [tb_count tb_resetAt length]. split_and!; try lia.
    + intros [|i] t; simpl; [intros [= <-]; lia|]. intros Ht Hi. apply (Hin i t Ht). lia.
    + intros [|i] t; simpl; [lia|]. intros Ht Hi. apply (Hbefore i t Ht). lia.
    + intros [|i] t; simpl; [lia|]. intros Ht Hi. apply (Hold i t Ht). lia.
  - intros [|i] [|j] t t'; simpl; try lia.
    + intros [= <-] Ht Hj. assert (t' + window < o)%Z by (apply (Hold j t' Ht); lia).
      lia.
    + intros Hi Hj Hd. apply (Hspread i j t t' Hi Hj). lia.
Qed.

Lemma log_of_insert s ip log ip' rl :
  log_of (MkTraffic rl (<[ip := log]> (tr_allowed s))) ip' = if ip' == ip then log else log_of s ip'.
Proof.
  unfold log_of. simpl. case_bool_decide as E; [subst; by rewrite lookup_insert_eq|by rewrite lookup_insert_ne].
Qed.

(** Only the address of the request changes. *)
Lemma traffic_set now now' s ip b log tick :
  traffic_ok now s -> (now <= now')%Z -> (forall n, tick <= n -> (now' <= clock n)%Z) ->
  log_ok (rl_limit (tr_limiter s)) (rl_window (tr_limiter s)) now' (Some b) log ->
  traffic_ok now' (MkTraffic (set_bucket ip b tick (tr_limiter s)) (<[ip := log]> (tr_allowed s))).
Proof.
  intros (Hlim & _ & Hlog) Hn Htick Hok. split; [exact Hlim|split; [done|]].
  intros ip'. rewrite log_of_insert. simpl. case_bool_decide as E; [subst; by rewrite lookup_insert_eq|].
  rewrite lookup_insert_ne by done. by apply (log_ok_later _ _ now).
Qed.

Lemma request_ok ip now s : traffic_ok now s -> exists now', traffic_ok now' (request ip s).
Proof.
  intros Hs. pose proof Hs as ([Hlim Hwin] & Htick & Hlog). set (tick := rl_tick (tr_limiter s)) in *.
  assert (Hnow : (now <= clock tick)%Z) by (by apply Htick). pose proof (Hlog ip) as Hip.
  unfold request, allow. fold tick.
  assert (Hmono : forall n m, n <= m -> (clock n <= clock m)%Z) by apply clock_monotone.
  destruct (rl_tokens (tr_limiter s) !! ip) as [b|] eqn:Hb; rewrite ?Hb in Hip.
  - unfold After. destruct (tb_resetAt b <? clock tick)%Z eqn:Ha;
      [|destruct (rl_limit (tr_limiter s) <=? tb_count b)%Z eqn:Hc].
    + pose proof (Hmono tick (S tick) ltac:(lia)) as Hs1. exists (clock (S tick)).
      apply (traffic_set now); [done|lia|intros n Hn; apply Hmono; lia|].
      apply (log_ok_open _ _ now _ (Some b)); [lia|done|lia|intros c [= <-]; lia].
    + exists (clock tick). split; [done|split; [intros n Hn; apply Hmono; simpl in Hn; lia|]].
      intros ip'. by apply (log_ok_later _ _ now).
    + exists (clock tick). apply (traffic_set now); [done|done|intros n Hn; apply Hmono; lia|].
      rewrite wrap64_id; [|destruct (lg_bucket _ _ _ _ _ Hip b eq_refl) as (o & ? & _); lia].
      apply (log_ok_count _ _ now); [done|done|lia].
  - exists (clock tick). apply (traffic_set now); [done|done|intros n Hn; apply Hmono; lia|].
    apply (log_ok_open _ _ now _ None); [lia|done|done|done].
Qed.

Lemma serve_ok ips limit window :
  (limit < 2 ^ 63)%Z -> exists now, traffic_ok now (serve ips limit window).
Proof.
  intros Hlim. unfold serve.
  assert (H0 : exists now, traffic_ok now (MkTraffic (newRateLimiter limit window) ∅)).
  { exists (clock 0). split; [|split; [intros n _; apply clock_monotone; lia|]].
    - unfold limits_ok, newRateLimiter, DefaultAuthRateLimitRequests, DefaultAuthRateLimitWindow,
        Minute, Second. simpl. split; case_match; lia.
    - intros ip. simpl. rewrite lookup_empty. unfold log_of. simpl. rewrite lookup_empty. simpl. by split. }
  revert H0. generalize (MkTraffic (newRateLimiter limit window) ∅). induction ips as [|ip ips IH]; [done|].
  intros s [now Hs]. simpl. apply IH. by eapply request_ok.
Qed.

Lemma serve_limits ips limit window :
  rl_limit (tr_limiter (serve ips limit window)) = rl_limit (newRateLimiter limit window) /\
  rl_window (tr_limiter (serve ips limit window)) = rl_window (newRateLimiter limit window).
Proof.
  unfold serve. generalize (eq_refl (rl_limit (newRateLimiter limit window))).
  assert (Hstep : forall ip s, rl_limit (tr_limiter (request ip s)) = rl_limit (tr_limiter s) /\
    rl_window (tr_limiter (request ip s)) = rl_window (tr_limiter s)).
  { intros ip s. unfold request, allow, open_bucket. repeat case_match; by simplify_eq. }
  intros _. set (s0 := MkTraffic (newRateLimiter limit window) ∅).
  change (newRateLimiter limit window) with (tr_limiter s0). generalize s0.
  induction ips as [|ip ips IH]; [done|]. intros s. simpl. rewrite !(proj1 (IH _)), !(proj2 (IH _)).
  apply Hstep.
Qed.

(** C33. The rate limiter, for any sequence of requests of any addresses and a
    clock that does not go back: of the requests of one address that were let
    through, any [2 * limit + 1] in a row span more than the window, so no window
    lets more than twice the limit through; and a request is refused only if the
    [limit] requests of its address let through last all lie within the window that
    ends with it, so nobody is locked out for longer than a window. *)
Theorem rate_limiter_bounds_traffic (ips : list string) (limit : Z) (window : Duration)
    (Hlim : (limit < 2 ^ 63)%Z) (ip : string) :
  let s := serve ips limit window in
  let now := clock (rl_tick (tr_limiter s)) in
  let '(limit, window) := (rl_limit (newRateLimiter limit window), rl_window (newRateLimiter limit window)) in
  (forall i j t t', log_of s ip !! i = Some t -> log_of s ip !! j = Some t' ->
     (Z.of_nat i + 2 * limit <= Z.of_nat j)%Z -> (t' + window < t)%Z) /\
  ((allow ip (tr_limiter s)).1 = false ->
   forall i, (Z.of_nat i < limit)%Z ->
     exists t, log_of s ip !! i = Some t /\ (now - window <= t <= now)%Z).
Proof.
  cbv zeta. destruct (serve_limits ips limit window) as [El Ew].
  destruct (serve_ok ips limit window Hlim) as (now & _ & Htick & Hlog). specialize (Hlog ip).
  specialize (Htick _ (Nat.le_refl _)).
  rewrite El, Ew in Hlog. split; [exact (lg_spread _ _ _ _ _ Hlog)|].
  unfold allow. destruct (rl_tokens _ !! ip) as [b|] eqn:Hb; [|done]. destruct (After _ _) eqn:Ha; [done|].
  destruct (_ <=? _)%Z eqn:Hc; [|done]. intros _ i Hi. rewrite El in Hc. unfold After in Ha.
  destruct (lg_bucket _ _ _ _ _ Hlog b eq_refl) as (o & Hcount & Hreset & _ & Hlen & Hin & _).
  destruct (lookup_lt_is_Some_2 (log_of (serve ips limit window) ip) i) as [t Ht]; [lia|].
  exists t. split; [done|]. assert (o <= t)%Z by (apply (Hin i t Ht); lia).
  pose proof (lg_past _ _ _ _ _ Hlog) as Hpast. rewrite Forall_lookup in Hpast. specialize (Hpast i t Ht).
  simpl in Hpast. lia.
Qed.
End clock.

(** Two requests in five seconds, one request a second: the third is refused, the
    seventh opens a new bucket. *)
Lemma rate_limiter_bounds_traffic_witness :
  let clock n := (Z.of_nat n * Second)%Z in
  let s := serve clock (replicate 3 "10.0.0.1") 2 (5 * Second) in
  (allow clock "10.0.0.1" (tr_limiter s)).1 = false /\
  (exists t, log_of s "10.0.0.1" !! 1 = Some t /\ (3 * Second - 5 * Second <= t <= 3 * Second)%Z) /\
  log_of (serve clock (replicate 7 "10.0.0.1") 2 (5 * Second)) "10.0.0.1" = [7 * Second; Second; 0]%Z.
Proof.
  intros clock s. assert (Hmono : forall n m, n <= m -> (clock n <= clock m)%Z)
    by (intros n m H; unfold clock, Second; lia).
  assert (Href : (allow clock "10.0.0.1" (tr_limiter s)).1 = false) by (vm_compute; reflexivity).
  split; [exact Href|]. split; [|vm_compute; reflexivity].
  destruct (rate_limiter_bounds_traffic clock Hmono (replicate 3 "10.0.0.1") 2 (5 * Second) ltac:(lia) "10.0.0.1")
    as [_ Hw]. destruct (Hw Href 1) as (t & Ht & Hr); [vm_compute; reflexivity|].
  exists t. split; [exact Ht|exact Hr].
Defined.
