(* ===== verification/Config.v ===== *)
(** internal/config: the configuration of server and probe, and the database's
    address.

    What reading a file gives and what the YAML library makes of it are arguments.
    A nil slice is [None]. *)

From S2P Require Import Prelude GoStrings GoNet ClientIP Types RateLimiter.
From stdpp Require Import pretty.

Definition DefaultProbeOfflineAfter : Duration := 90 * Second.
Definition DefaultProbeHeartbeatInterval : Duration := 30 * Second.
Definition DefaultProbeResultFlushInterval : Duration := 10 * Second.
Definition DefaultTrustedProxies : list string := ["127.0.0.1/8"; "::1/128"].

Record SeedUser := MkSeedUser { seed_Email : string; seed_Password : string }.
Record ProbeAuth := MkProbeAuth { pa_ID : string; pa_Secret : string }.
Record RateLimit := MkRateLimit { lim_Requests : Z; lim_Window : Duration }.

Record ServerConfig := MkServerConfig {
  cfg_Probes : list ProbeAuth;
  cfg_Checks : list Check;
  cfg_SeedUser : SeedUser;
  cfg_AllowPrivateTargets : bool;
  cfg_AuthRateLimit : RateLimit;
  cfg_TrustedProxies : option (list string);
  cfg_ProbeOfflineAfter : Duration;
  cfg_TrustedProxyCIDRs : list Prefix
}.

Record ProbeConfig := MkProbeConfig {
  pcfg_Secret : string;
  pcfg_Server : string;
  pcfg_ProbeID : string;
  pcfg_HeartbeatInterval : Duration;
  pcfg_ResultFlushInterval : Duration;
  pcfg_AllowPrivateTargets : bool
}.

(** [i] formatted by [%d]. *)
Definition at_index (field : string) (i : nat) : string := field +:+ "[" +:+ pretty i +:+ "]".

(** The loop over the probes; [seen] holds the IDs so far. *)
Fixpoint check_probes (i : nat) (seen : list string) (probes : list ProbeAuth) : option GoError :=
  match probes with
  | [] => None
  | probe :: probes =>
      if pa_ID probe == "" then Some (Errorf ("config: " +:+ at_index "probes" i +:+ ".id is required"))
      else if pa_Secret probe == "" then Some (Errorf ("config: " +:+ at_index "probes" i +:+ ".secret is required"))
      else if bool_decide (pa_ID probe ∈ seen) then Some (Errorf "config: duplicate probe id")
      else check_probes (S i) (pa_ID probe :: seen) probes
  end.

(** The loop over the trusted proxies. *)
Fixpoint parse_proxies (i : nat) (cidrs : list string) : GoError + list Prefix :=
  match cidrs with
  | [] => inr []
  | cidr :: cidrs =>
      match ParsePrefix cidr with
      | None => inl (Errorf ("config: " +:+ at_index "trusted_proxies" i +:+ " invalid CIDR"))
      | Some prefix =>
          match parse_proxies (S i) cidrs with
          | inl err => inl err
          | inr prefixes => inr (Masked prefix :: prefixes)
          end
      end
  end.

(** The defaults. *)
Definition or_default (d v : Z) : Z := if (v <=? 0)%Z then d else v.

Section load.
Context (unmarshal_server : string -> GoError + ServerConfig) (unmarshal_probe : string -> GoError + ProbeConfig).

Definition LoadServer (file : GoError + string) : GoError + ServerConfig :=
  match file with
  | inl err => inl (Wrapf "read config" err)
  | inr data =>
      match unmarshal_server data with
      | inl err => inl (Wrapf "parse config" err)
      | inr cfg =>
          match check_probes 0 [] (cfg_Probes cfg) with
          | Some err => inl err
          | None =>
              let proxies := default DefaultTrustedProxies (cfg_TrustedProxies cfg) in
              match parse_proxies 0 proxies with
              | inl err => inl err
              | inr prefixes =>
                  inr (MkServerConfig (cfg_Probes cfg) (cfg_Checks cfg) (cfg_SeedUser cfg) (cfg_AllowPrivateTargets cfg)
                    (MkRateLimit (or_default DefaultAuthRateLimitRequests (lim_Requests (cfg_AuthRateLimit cfg)))
                                 (or_default DefaultAuthRateLimitWindow (lim_Window (cfg_AuthRateLimit cfg))))
                    (Some proxies) (or_default DefaultProbeOfflineAfter (cfg_ProbeOfflineAfter cfg)) prefixes)
              end
          end
      end
  end.

Definition LoadProbe (file : GoError + string) : GoError + ProbeConfig :=
  match file with
  | inl err => inl (Wrapf "read config" err)
  | inr data =>
      match unmarshal_probe data with
      | inl err => inl (Wrapf "parse config" err)
      | inr cfg =>
          if pcfg_Secret cfg == "" then inl (Errorf "config: secret is required")
          else if pcfg_Server cfg == "" then inl (Errorf "config: server is required")
          else if pcfg_ProbeID cfg == "" then inl (Errorf "config: probe_id is required")
          else inr (MkProbeConfig (pcfg_Secret cfg) (pcfg_Server cfg) (pcfg_ProbeID cfg)
            (if (pcfg_HeartbeatInterval cfg =? 0)%Z then DefaultProbeHeartbeatInterval else pcfg_HeartbeatInterval cfg)
            (or_default DefaultProbeResultFlushInterval (pcfg_ResultFlushInterval cfg))
            (pcfg_AllowPrivateTargets cfg))
      end
  end.
End load.

(** [ResolveDatabaseDSN] with the environment and the files as functions. *)
Definition EnvDatabaseDSN : string := "WACHT_DATABASE_DSN".
Definition EnvDatabaseDSNFile : string := "WACHT_DATABASE_DSN_FILE".
Definition ResolveDatabaseDSN (getenv : string -> string) (read : string -> GoError + string) : GoError + string :=
  let dsn := TrimSpace (getenv EnvDatabaseDSN) in
  if dsn != "" then inr dsn
  else
    let path := TrimSpace (getenv EnvDatabaseDSNFile) in
    if path == "" then
      inl (Errorf ("database DSN is required; set " +:+ EnvDatabaseDSN +:+ " or " +:+ EnvDatabaseDSNFile))
    else match read path with
    | inl err => inl (Wrapf "read database DSN file" err)
    | inr data =>
        let dsn := TrimSpace data in
        if dsn == "" then inl (Errorf "database DSN file is empty") else inr dsn
    end.

(** * What a loaded configuration promises *)

Definition probes_ok (probes : list ProbeAuth) : Prop :=
  NoDup (pa_ID <$> probes) /\ Forall (fun p => pa_ID p <> "" /\ pa_Secret p <> "") probes.

Lemma check_probes_spec probes : forall i seen,
  check_probes i seen probes = None <->
  probes_ok probes /\ Forall (fun p => pa_ID p ∉ seen) probes.
Proof.
  unfold probes_ok. induction probes as [|p probes IH]; intros i seen; simpl.
  { split; [|done]. intros _. split; [split|]; constructor. }
  rewrite !list.Forall_cons, list.NoDup_cons.
  case_bool_decide as H1; [naive_solver|]. case_bool_decide as H2; [naive_solver|].
  case_bool_decide as H3; [naive_solver|]. rewrite IH.
  assert (Hs : Forall (fun q => pa_ID q ∉ pa_ID p :: seen) probes <->
    (pa_ID p ∉ (pa_ID <$> probes)) /\ Forall (fun q => pa_ID q ∉ seen) probes).
  { rewrite !Forall_forall. split.
    - intros Hq. split.
      + intros (q & E & Hin)%list_elem_of_fmap. apply (Hq q Hin). rewrite E. left.
      + intros q Hin Hs. apply (Hq q Hin). by right.
    - intros [Hni Hq] q Hin [E|Hs]%elem_of_cons; [|by apply (Hq q Hin)].
      apply Hni, list_elem_of_fmap. by exists q. }
  rewrite Hs. naive_solver.
Qed.

Lemma parse_proxies_spec cidrs : forall i,
  match parse_proxies i cidrs with
  | inr prefixes => Forall2 (fun cidr px => exists q, ParsePrefix cidr = Some q /\ px = Masked q) cidrs prefixes
  | inl _ => Exists (fun cidr => ParsePrefix cidr = None) cidrs
  end.
Proof.
  induction cidrs as [|c cidrs IH]; intros i; simpl; [constructor|].
  destruct (ParsePrefix c) as [q|] eqn:Hc; [|by left]. specialize (IH (S i)).
  destruct (parse_proxies (S i) cidrs) as [e|l]; [by right|]. constructor; eauto.
Qed.

(** Clearing the low bits of a prefix does not change what it contains. *)
Lemma shiftr_clear a k : (0 <= k)%Z -> Z.shiftr (Z.shiftl (Z.shiftr a k) k) k = Z.shiftr a k.
Proof. intros Hk. rewrite Z.shiftr_shiftl_r, Z.sub_diag by done. done. Qed.

Lemma masked_contains p ip :
  (0 <= px_bits p <= match px_ip p with IP4 _ => 32 | IP6 _ _ => 128 end)%Z -> Contains (Masked p) ip = Contains p ip.
Proof.
  intros Hb. unfold Masked, Contains. simpl. destruct (px_ip p) as [n|n z], ip as [a|a z']; try done;
    rewrite !Z.shiftr_lxor, shiftr_clear by lia; done.
Qed.

Lemma parse_prefix_bits s p :
  ParsePrefix s = Some p -> (0 <= px_bits p <= match px_ip p with IP4 _ => 32 | IP6 _ _ => 128 end)%Z.
Proof.
  unfold ParsePrefix. destruct (LastIndexByte 47 s); [|done]. destruct (ParseAddr _) as [ip|]; [|done].
  destruct (_ || _); [done|]. destruct (Atoi _) as [bits|]; [|done]. destruct (_ || _) eqn:E; [done|].
  intros [= <-]. simpl. apply orb_false_iff in E as [E1 E2]. apply Z.ltb_ge in E1, E2. lia.
Qed.

Lemma parsed_prefixes cidrs prefixes ip :
  Forall2 (fun cidr px => exists q, ParsePrefix cidr = Some q /\ px = Masked q) cidrs prefixes ->
  ipInPrefixes ip prefixes = true <->
  exists cidr p, cidr ∈ cidrs /\ ParsePrefix cidr = Some p /\ Contains p (Unmap ip) = true.
Proof.
  unfold ipInPrefixes. induction 1 as [|cidr px cidrs prefixes (q & Hq & ->) _ IH]; simpl.
  { split; [done|]. by intros (? & ? & ?%not_elem_of_nil & _). }
  rewrite orb_true_iff, IH, masked_contains by (by eapply parse_prefix_bits). split.
  - intros [Hc|(c & p & Hin & Hp)]; [exists cidr, q; split; [left|done]|exists c, p; split; [by right|done]].
  - intros (c & p & [->|Hin]%elem_of_cons & Hp & Hc); [left; congruence|right; eauto].
Qed.

Section sound.
Context (unmarshal : string -> GoError + ServerConfig).

(** A loaded configuration can be run.  [LoadServer] fails only if the file
    cannot be read or parsed, if a probe's ID or secret is blank or an ID is given
    twice, or if a trusted proxy is no CIDR; otherwise the probes have distinct
    IDs and secrets, the rate limit, its window and the time until a probe counts
    as offline are positive, the rest is as the file says, and the trusted
    prefixes match exactly the addresses the configured ones match, the loopback
    ones where none are configured. *)
Lemma loaded_config_is_sound file data cfg :
  file = inr data -> unmarshal data = inr cfg ->
  match LoadServer unmarshal file with
  | inl _ => ~ probes_ok (cfg_Probes cfg) \/
      exists cidr, cidr ∈ default DefaultTrustedProxies (cfg_TrustedProxies cfg) /\ ParsePrefix cidr = None
  | inr cfg' =>
      probes_ok (cfg_Probes cfg') /\ cfg_Probes cfg' = cfg_Probes cfg /\ cfg_Checks cfg' = cfg_Checks cfg /\
      cfg_SeedUser cfg' = cfg_SeedUser cfg /\ cfg_AllowPrivateTargets cfg' = cfg_AllowPrivateTargets cfg /\
      (0 < lim_Requests (cfg_AuthRateLimit cfg'))%Z /\ (0 < lim_Window (cfg_AuthRateLimit cfg'))%Z /\
      (0 < cfg_ProbeOfflineAfter cfg')%Z /\
      forall ip, ipInPrefixes ip (cfg_TrustedProxyCIDRs cfg') = true <->
        exists cidr p, cidr ∈ default DefaultTrustedProxies (cfg_TrustedProxies cfg) /\
          ParsePrefix cidr = Some p /\ Contains p (Unmap ip) = true
  end.
Proof.
  intros -> Hc. unfold LoadServer. rewrite Hc.
  pose proof (check_probes_spec (cfg_Probes cfg) 0 []) as Hp.
  destruct (check_probes 0 [] (cfg_Probes cfg)).
  { left. intros Hok. assert (Some g = None) by (apply Hp; split; [done|]; apply Forall_forall; intros ??;
      apply not_elem_of_nil). done. }
  destruct (proj1 Hp eq_refl) as [Hok _].
  pose proof (parse_proxies_spec (default DefaultTrustedProxies (cfg_TrustedProxies cfg)) 0) as Hx.
  destruct (parse_proxies _ _) as [e|prefixes].
  { right. apply Exists_exists in Hx as (cidr & Hin & E). by exists cidr. }
  simpl. split_and!; [done..| | | |]; try (unfold or_default; case_match; [done|lia]).
  intros ip. by apply parsed_prefixes.
Qed.
End sound.

Definition ex_server_yaml (data : string) : GoError + ServerConfig :=
  inr (MkServerConfig [MkProbeAuth "a" "s"; MkProbeAuth "b" "t"] [] (MkSeedUser "" "") false
    (MkRateLimit 0 0) None 0 []).

(** An almost empty file. *)
Lemma loaded_config_is_sound_run :
  exists cfg, LoadServer ex_server_yaml (inr "") = inr cfg /\ cfg_ProbeOfflineAfter cfg = (90 * Second)%Z /\
    forall ip, ipInPrefixes ip (cfg_TrustedProxyCIDRs cfg) = true <->
      exists cidr p, cidr ∈ DefaultTrustedProxies /\ ParsePrefix cidr = Some p /\ Contains p (Unmap ip) = true.
Proof.
  pose proof (loaded_config_is_sound ex_server_yaml (inr "") "" _ eq_refl eq_refl) as Hl.
  destruct (LoadServer ex_server_yaml (inr "")) as [e|cfg] eqn:E; [vm_compute in E; discriminate|].
  exists cfg. split; [reflexivity|]. split; [vm_compute in E; injection E as <-; reflexivity|].
  destruct Hl as (_ & _ & _ & _ & _ & _ & _ & _ & Hip). exact Hip.
Qed.

(** A negative heartbeat interval is accepted; [time.NewTicker] panics on it. *)
Example negative_heartbeat_accepted :
  exists cfg, LoadProbe (fun _ => inr (MkProbeConfig "s" "http://server" "p" (-1) (-1) false)) (inr "") = inr cfg /\
    pcfg_HeartbeatInterval cfg = (-1)%Z /\ pcfg_ResultFlushInterval cfg = DefaultProbeResultFlushInterval.
Proof. eexists. split; [reflexivity|]. by split. Qed.
