(* ===== verification/Sender.v ===== *)
(** internal/alert/sender.go and [Fire] of webhook.go: the workers that deliver
    queued pages.

    The sender knows the store by the interface [notificationStore].  The clock,
    the outcome of the [n]-th delivery and the state of the stop channel are the
    sender's environment.  An error of a delivery is its text, which is all the
    sender uses of it.  Log lines are not modelled. *)

From S2P Require Import Prelude GoStrings Types Database StoreNotifications.
From stdpp Require Import pretty.

Definition defaultWebhookWorkers : Z := 2.
Definition defaultWebhookClaimBatch : Z := 1.
Definition defaultWebhookPollInterval : Duration := Second.
Definition defaultWebhookStaleAfter : Duration := (20 * Second)%Z.
Definition maxWebhookRetryDelay : Duration := (5 * Minute)%Z.
Definition webhookTimeout : Duration := (5 * Second)%Z.

Class NotificationStore (W : Type) : Type := {
  ns_Claim : Time -> Time -> Z -> St W (list NotificationJob);
  ns_Delivered : Z -> Time -> St W unit;
  ns_Retry : Z -> Time -> Time -> string -> St W unit
}.

(** A delivery, numbered, as the error's text or nothing. *)
Definition sendFunc : Type := nat -> string -> string -> option string.

(** [http.Client.Do] of a POST: the error's text or the status code. *)
Definition Client : Type := nat -> string -> string -> string + Z.

Class SenderEnv : Type := {
  sender_now : nat -> Time;              (** [time.Now] *)
  stop_taken : nat -> bool;              (** does the select take the stop case? *)
  http_NewRequest : string -> option string  (** the error's text for a URL *)
}.

Inductive batchResult := batchIdle | batchProcessed | batchStopped.

Record Sender := MkSender {
  sd_send : sendFunc;
  sd_pollInterval : Duration;
  sd_staleAfter : Duration;
  sd_claimBatch : Z
}.

(** The store, the deliveries made so far and the position in the environment. *)
Record SenderState (W : Type) := MkSenderState {
  sn_store : W;
  sn_sent : list (string * string);
  sn_tick : nat
}.
Arguments MkSenderState {W} _ _ _.
Arguments sn_store {W} _.
Arguments sn_sent {W} _.
Arguments sn_tick {W} _.

(** The stop channel and the [sync.Once] of a sender: is the channel closed, and
    has the function of [Close] run? *)
Record Lifetime := MkLifetime { lf_stopped : bool; lf_closed : bool }.

Inductive CloseOutcome := CloseReturns | ClosePanics.

(** [close(s.stop)] panics on a closed channel.  [s.wg.Wait()] returns when the
    workers have ended. *)
Definition Close (s : option Lifetime) : CloseOutcome * option Lifetime :=
  match s with
  | None => (CloseReturns, s)
  | Some l =>
      if lf_closed l then (CloseReturns, s)
      else if lf_stopped l then (ClosePanics, Some (MkLifetime true true))
      else (CloseReturns, Some (MkLifetime true true))
  end.

Definition nextRetryDelayWithBackoff (attempt : Z) : Duration :=
  let attempt := if (attempt <? 1)%Z then 1%Z else attempt in
  let delay := wrap64 (Z.shiftl Second (Z.min (wrap64 (attempt - 1)) 10)) in
  if (maxWebhookRetryDelay <? delay)%Z then maxWebhookRetryDelay else delay.

Section sender.
Context `{SE : SenderEnv}.

Definition Fire (client : option Client) : sendFunc := fun n url body =>
  match client with
  | None => Some "webhook: client is required"
  | Some client_Do =>
      match http_NewRequest url with
      | Some e => Some e
      | None =>
          match client_Do n url body with
          | inl e => Some e
          | inr status =>
              if (status <? 200)%Z || (300 <=? status)%Z
              then Some ("webhook: unexpected status " +:+ pretty status +:+ " from " +:+ url)
              else None
          end
      end
  end.

(** The sender and the number of workers it starts. *)
Definition newSender (store_given : bool) (client : Client) (workers claimBatch : Z)
    (pollInterval staleAfter : Duration) (send : option sendFunc) : Sender * Z :=
  let workers := if (workers <? 0)%Z then 1%Z else workers in
  let claimBatch := if (claimBatch <=? 0)%Z then 1%Z else claimBatch in
  let pollInterval := if (pollInterval <=? 0)%Z then Second else pollInterval in
  let staleAfter := if (staleAfter <=? 0)%Z then (4 * webhookTimeout)%Z else staleAfter in
  let send := match send with Some send => send | None => Fire (Some client) end in
  (MkSender send pollInterval staleAfter claimBatch, if store_given then workers else 0%Z).

Definition NewSender (store_given : bool) (client : Client) : Sender * Z :=
  newSender store_given client defaultWebhookWorkers defaultWebhookClaimBatch
    defaultWebhookPollInterval defaultWebhookStaleAfter None.

Context `{NS : NotificationStore W}.

(** A request to the clock or the stop channel. *)
Definition ask {A} (answer : nat -> A) (s : SenderState W) : A * SenderState W :=
  (answer (sn_tick s), MkSenderState (sn_store s) (sn_sent s) (S (sn_tick s))).

Definition on_store {A} (m : St W A) (s : SenderState W) : (GoError + A) * SenderState W :=
  let '(res, w') := m (sn_store s) in (res, MkSenderState w' (sn_sent s) (sn_tick s)).

Definition deliver (sd : Sender) (url payload : string) (s : SenderState W)
    : option string * SenderState W :=
  (sd_send sd (sn_tick s) url payload,
   MkSenderState (sn_store s) (sn_sent s ++ [(url, payload)]) (S (sn_tick s))).

(** A failed [Mark...] call is only logged. *)
Definition dispatch (sd : Sender) (job : NotificationJob) (s : SenderState W) : SenderState W :=
  let '(err, s) := deliver sd (nj_WebhookURL job) (nj_Payload job) s in
  match err with
  | Some err =>
      let '(attemptedAt, s) := ask sender_now s in
      let nextAttemptAt := time_Add attemptedAt (nextRetryDelayWithBackoff (nj_Attempts job)) in
      (on_store (ns_Retry (nj_ID job) attemptedAt nextAttemptAt err) s).2
  | None =>
      let '(deliveredAt, s) := ask sender_now s in
      (on_store (ns_Delivered (nj_ID job) deliveredAt) s).2
  end.

(** The loop over the claimed jobs. *)
Fixpoint dispatch_all (sd : Sender) (jobs : list NotificationJob) (s : SenderState W)
    : batchResult * SenderState W :=
  match jobs with
  | [] => (batchProcessed, s)
  | job :: jobs =>
      let '(stopped, s) := ask stop_taken s in
      if stopped then (batchStopped, s) else dispatch_all sd jobs (dispatch sd job s)
  end.

(** A nil sender is [None]; [store_given] says whether its store is not nil. *)
Definition runBatch (sender : option Sender) (store_given : bool) (s : SenderState W)
    : batchResult * SenderState W :=
  match sender with
  | None => (batchIdle, s)
  | Some sd =>
      if negb store_given then (batchIdle, s)
      else
        let '(now, s) := ask sender_now s in
        match on_store (ns_Claim now (time_Add now (- sd_staleAfter sd)) (sd_claimBatch sd)) s with
        | (inl _, s) => (batchIdle, s)
        | (inr [], s) => (batchIdle, s)
        | (inr jobs, s) => dispatch_all sd jobs s
        end
  end.

(** [worker]: rounds until the stop channel is seen closed; the result is whether
    the worker ended within [rounds] rounds. *)
Fixpoint worker (rounds : nat) (sender : option Sender) (store_given : bool) (s : SenderState W)
    : bool * SenderState W :=
  match rounds with
  | 0 => (false, s)
  | S rounds =>
      match runBatch sender store_given s with
      | (batchStopped, s) => (true, s)
      | (batchProcessed, s) => worker rounds sender store_given s
      | (batchIdle, s) =>
          let '(stopped, s) := ask stop_taken s in
          if stopped then (true, s) else worker rounds sender store_given s
      end
  end.
End sender.

(** * Closing *)

(** However often a sender is closed, the channel is closed once, by the first call. *)
Lemma close_never_panics n :
  0 < n ->
  Nat.iter n (fun '(outcomes, s) => let '(o, s') := Close s in (o :: outcomes, s')) ([], Some (MkLifetime false false))
  = (replicate n CloseReturns, Some (MkLifetime true true)).
Proof.
  induction n as [|[|n] IH]; intros Hn; [lia|done|]. rewrite Nat.iter_succ, IH by lia. done.
Qed.

(** * Backoff *)

Lemma retry_delay_eq attempt :
  (- 2 ^ 63 <= attempt < 2 ^ 63)%Z ->
  nextRetryDelayWithBackoff attempt = Z.min (5 * Minute) (Second * 2 ^ (Z.max attempt 1 - 1)).
Proof.
  intros Ha. unfold nextRetryDelayWithBackoff, maxWebhookRetryDelay.
  set (a := if (attempt <? 1)%Z then 1%Z else attempt).
  assert (Ea : a = Z.max attempt 1) by (unfold a; case_match; lia).
  rewrite (wrap64_id (a - 1)) by lia. rewrite <-Ea. rewrite Z.shiftl_mul_pow2 by lia.
  assert (Hb : (2 ^ 0 <= 2 ^ Z.min (a - 1) 10 <= 2 ^ 10)%Z)
    by (split; apply Z.pow_le_mono_r; lia).
  change (2 ^ 10)%Z with 1024%Z in Hb. change (2 ^ 0)%Z with 1%Z in Hb.
  rewrite wrap64_id by (unfold Second; lia).
  destruct (Z.le_gt_cases (a - 1) 10) as [Hs|Hs].
  - rewrite Z.min_l by lia. case_match; unfold Minute, Second in *; lia.
  - rewrite (Z.min_r (a - 1) 10) by lia. change (2 ^ 10)%Z with 1024%Z.
    assert (1024 <= 2 ^ (a - 1))%Z by (change 1024%Z with (2 ^ 10)%Z; apply Z.pow_le_mono_r; lia).
    case_match; unfold Minute, Second in *; lia.
Qed.

(** The retry backoff.  For every attempt number an [int] can hold, no shift
    overflows and the delay is the smaller of five minutes and one second doubled
    for every attempt after the first: never shorter than a second, never longer
    than five minutes, and never decreasing with the attempts. *)
Lemma retry_backoff_bounded attempt :
  (- 2 ^ 63 <= attempt < 2 ^ 63)%Z ->
  nextRetryDelayWithBackoff attempt =
    Z.min (5 * Minute) (Second * 2 ^ (Z.max attempt 1 - 1)) /\
  (Second <= nextRetryDelayWithBackoff attempt <= 5 * Minute)%Z /\
  (forall attempt', attempt <= attempt' < 2 ^ 63 ->
     nextRetryDelayWithBackoff attempt <= nextRetryDelayWithBackoff attempt')%Z.
Proof.
  intros Ha. rewrite retry_delay_eq by done. split_and!; [done| |apply Z.le_min_l|].
  - apply Z.min_glb; [unfold Minute, Second; lia|].
    assert (1 <= 2 ^ (Z.max attempt 1 - 1))%Z by (apply (Z.pow_le_mono_r 2 0); lia).
    unfold Second. lia.
  - intros attempt' Ha'. rewrite retry_delay_eq by lia. apply Z.min_le_compat_l.
    apply Z.mul_le_mono_nonneg_l; [done|]. apply Z.pow_le_mono_r; lia.
Qed.

Lemma retry_backoff_bounded_run :
  nextRetryDelayWithBackoff 3 = (4 * Second)%Z /\ nextRetryDelayWithBackoff 40 = (5 * Minute)%Z /\
  (Second <= nextRetryDelayWithBackoff 40)%Z.
Proof.
  split; [reflexivity|]. split; [reflexivity|].
  apply (retry_backoff_bounded 40). split; vm_compute; congruence.
Qed.
