(* ===== verification/SenderProperties.v ===== *)
(** The sender on the real store: what a round of a worker does to the queue,
    and that a page in flight is not handed to another worker. *)

From S2P Require Import Prelude GoStrings Types Database StoreNotifications StoreMonitoring.
From S2P Require Import StoreChecks StoreInvariant StoreProperties Sender.
From stdpp Require Import pretty.
From Stdlib Require Import Ascii String.

#[global] Instance store_notifications `{StoreEnv} : NotificationStore World := {|
  ns_Claim := ClaimDueIncidentNotifications;
  ns_Delivered := MarkIncidentNotificationDelivered;
  ns_Retry := MarkIncidentNotificationRetry
|}.

(** * Cutting a text *)

(** Is byte [n] inside a character? *)
Definition splits_char (n : nat) (s : string) : bool :=
  match String.get n s with Some a => cont (code a) | None => false end.

Lemma between_spec lo hi n : GoStrings.between lo hi n = true <-> (lo <= n <= hi)%N.
Proof. unfold GoStrings.between. rewrite andb_true_iff, !N.leb_le. done. Qed.

Lemma ascii_not_cont a : (code a <? 128)%N = true -> cont (code a) = false.
Proof. intros H. apply not_true_iff_false. unfold cont. rewrite between_spec. apply N.ltb_lt in H. lia. Qed.

Lemma utf8_2_bytes a b : utf8_2 a b = true -> cont a = false /\ cont b = true.
Proof.
  unfold utf8_2. rewrite andb_true_iff, between_spec. intros [Ha Hb]. split; [|done].
  apply not_true_iff_false. unfold cont. rewrite between_spec. lia.
Qed.

Ltac bytes := unfold cont in *; repeat rewrite ?andb_true_iff, ?orb_true_iff, ?between_spec, ?N.eqb_eq in *.

Lemma utf8_3_bytes a b c : utf8_3 a b c = true -> cont a = false /\ cont b = true /\ cont c = true.
Proof.
  unfold utf8_3. intros H. split; [apply not_true_iff_false|]; bytes; lia.
Qed.

Lemma utf8_4_bytes a b c d :
  utf8_4 a b c d = true -> cont a = false /\ cont b = true /\ cont c = true /\ cont d = true.
Proof.
  unfold utf8_4. intros H. split; [apply not_true_iff_false|]; bytes; lia.
Qed.

Lemma slice_cons n a s : slice_to (S n) (String a s) = String a (slice_to n s).
Proof. done. Qed.
Lemma slice_0 s : slice_to 0 s = "".
Proof. by destruct s. Qed.

(** A valid text may be cut anywhere but inside a character. *)
Lemma pg_text_cut_aux m : forall s n, String.length s <= m ->
  pg_text_ok s = true -> n <= String.length s -> pg_text_ok (slice_to n s) = negb (splits_char n s).
Proof.
  induction m as [|m IH]; intros s n Hm Hok Hn.
  { destruct s; [|simpl in Hm; lia]. by destruct n. }
  destruct s as [|a s1]; [by destruct n|]. destruct n as [|n].
  - rewrite slice_0. unfold splits_char. cbn [String.get]. symmetry. apply negb_true_iff.
    revert Hok. cbn [pg_text_ok]. destruct (code a <? 128)%N eqn:Ha; [intros _; by apply ascii_not_cont|].
    destruct s1 as [|b s2]; [done|]. destruct (utf8_2 _ _) eqn:E2; [intros _; by destruct (utf8_2_bytes _ _ E2)|].
    destruct s2 as [|c s3]; [done|]. destruct (utf8_3 _ _ _) eqn:E3; [intros _; by destruct (utf8_3_bytes _ _ _ E3)|].
    destruct s3 as [|d s4]; [done|]. intros [E4 _]%andb_true_iff. by destruct (utf8_4_bytes _ _ _ _ E4).
  - rewrite slice_cons. unfold splits_char. cbn [String.get]. fold (splits_char n s1).
    simpl in Hm, Hn. revert Hok. cbn [pg_text_ok]. destruct (code a <? 128)%N eqn:Ha.
    { intros [-> Hok]%andb_true_iff. apply IH; [lia|done|lia]. }
    destruct s1 as [|b s2]; [done|]. destruct (utf8_2 (code a) (code b)) eqn:E2.
    { intros Hok. destruct n as [|n]; [|simpl in Hm, Hn].
      - rewrite slice_0. unfold splits_char. simpl. by destruct (utf8_2_bytes _ _ E2) as [_ ->].
      - rewrite slice_cons, E2. unfold splits_char. cbn [String.get]. apply IH; [lia|done|lia]. }
    destruct s2 as [|c s3]; [done|]. destruct (utf8_3 (code a) (code b) (code c)) eqn:E3.
    { intros Hok. destruct (utf8_3_bytes _ _ _ E3) as (_ & Hb & Hc). destruct n as [|[|n]]; [| |simpl in Hm, Hn].
      - rewrite slice_0. unfold splits_char. simpl. by rewrite Hb.
      - rewrite slice_cons, slice_0, E2. unfold splits_char. simpl. by rewrite Hc.
      - rewrite !slice_cons, E2, E3. unfold splits_char. cbn [String.get]. apply IH; [lia|done|lia]. }
    destruct s3 as [|d s4]; [done|]. intros [E4 Hok]%andb_true_iff.
    destruct (utf8_4_bytes _ _ _ _ E4) as (_ & Hb & Hc & Hd). destruct n as [|[|[|n]]]; [| | |simpl in Hm, Hn].
    + rewrite slice_0. unfold splits_char. simpl. by rewrite Hb.
    + rewrite slice_cons, slice_0, E2. unfold splits_char. simpl. by rewrite Hc.
    + rewrite !slice_cons, slice_0, E2, E3. unfold splits_char. simpl. by rewrite Hd.
    + rewrite !slice_cons, E2, E3, E4. unfold splits_char. cbn [String.get andb]. apply IH; [lia|done|lia].
Qed.

(** Does [truncateError] cut the text inside a character? *)
Definition cut_inside (message : string) : bool := negb (len message <=? 512)%Z && splits_char 512 message.

Lemma truncate_storable message :
  pg_text_ok message = true -> pg_text_ok (truncateError message) = negb (cut_inside message).
Proof.
  intros Hok. unfold truncateError, cut_inside. destruct (Z.leb_spec (len message) 512) as [|Hl]; [done|].
  cbn [negb andb]. apply (pg_text_cut_aux (String.length message)); [done|done|]. unfold len in Hl. lia.
Qed.

(** * One round of a worker *)

Section round.
Context `{Env : StoreEnv} `{SE : SenderEnv} (sd : Sender).

(** The row of a page after its delivery was tried at [tick]: an error text that the
    database refuses leaves it in processing. *)
Definition settled (job : NotificationJob) (tick : nat) (n : NotificationRow) : NotificationRow :=
  let at_ := sender_now (S tick) in
  match sd_send sd tick (nj_WebhookURL job) (nj_Payload job) with
  | None => deliver_row (timestamptz at_) n
  | Some err =>
      if pg_text_ok (truncateError err) then
        retry_row false (timestamptz at_)
          (timestamptz (time_Add at_ (nextRetryDelayWithBackoff (nj_Attempts job))))
          (truncateError err) n
      else n
  end.

(** A page in flight that is still worth sending. *)
Definition in_flight (t : Tables) (n : NotificationRow) : Prop :=
  n_state n = notificationStateProcessing /\ is_Some (t_incidents t !! n_incident_id n) /\
  outdated t n = false.

(** A text the database refuses is recorded nowhere. *)
Lemma retry_refused id a nx err w :
  pg_text_ok (truncateError err) = false -> exists e w',
  MarkIncidentNotificationRetry id a nx err w = (inl e, w') /\ w_tables w' = w_tables w.
Proof.
  intros Hbad. unfold MarkIncidentNotificationRetry, call, mbind, St_bind, params.
  set (ok := forallb pg_text_ok _).
  assert (ok = false) as -> by (subst ok; cbn [forallb]; rewrite Hbad; by rewrite ?andb_false_r).
  simpl. destruct (fault_at (w_tick w)) as [[]|]; eauto.
Qed.

Hypothesis calm : forall n, fault_at n = None.

Lemma calm_call {A} (m : DB A) w : call m w = m (next_tick w).
Proof. unfold call. by rewrite calm. Qed.

Lemma update_one (f : Z -> NotificationRow -> bool) g (m : gmap Z NotificationRow) k n :
  m !! k = Some n -> f k n = true -> (forall k' n', f k' n' = true -> k' = k) ->
  update_where f g m = <[k := g n]> m.
Proof.
  intros Hl Hf Honly. apply map_eq. intros k'. rewrite lookup_update_where.
  destruct (decide (k' = k)) as [->|Hne]; [by rewrite Hl, lookup_insert_eq; simpl; rewrite Hf|].
  rewrite lookup_insert_ne by done. destruct (m !! k') as [n'|] eqn:Hl'; [|done]. simpl.
  destruct (f k' n') eqn:Hf'; [|done]. by apply Honly in Hf'.
Qed.

Lemma set_same_notifications t : set_t_notifications (t_notifications t) t = t.
Proof. by destruct t. Qed.

Lemma dispatch_run job s n :
  let t := w_tables (sn_store s) in
  t_notifications t !! nj_ID job = Some n -> in_flight t n ->
  let s' := dispatch sd job s in
  sn_sent s' = sn_sent s ++ [(nj_WebhookURL job, nj_Payload job)] /\
  w_tables (sn_store s') =
    set_t_notifications (<[nj_ID job := settled job (sn_tick s) n]> (t_notifications t)) t.
Proof.
  intros t Hl (Hp & Hi & Ho). unfold dispatch, settled. simpl.
  destruct (sd_send sd _ _ _) as [err|] eqn:Hsend; unfold on_store; simpl.
  - destruct (pg_text_ok (truncateError err)) eqn:Htext.
    2: { match goal with |- context [MarkIncidentNotificationRetry ?i ?a ?x ?e ?w] =>
           destruct (retry_refused i a x e w Htext) as (e' & w' & -> & Ht) end.
         simpl. split; [done|]. rewrite insert_id by done. rewrite Ht. symmetry. apply set_same_notifications. }
    unfold MarkIncidentNotificationRetry. rewrite calm_call. unfold params. simpl.
    rewrite Htext. simpl. split; [done|]. f_equal.
    rewrite (update_one _ _ _ _ n Hl).
    + fold t. by rewrite Ho.
    + rewrite Z.eqb_refl, bool_decide_eq_true_2 by done. by rewrite Hp.
    + intros k' n' Hf. apply andb_true_iff in Hf as [Hf _]. apply andb_true_iff in Hf as [Hf _].
      by apply Z.eqb_eq in Hf.
  - unfold MarkIncidentNotificationDelivered. rewrite calm_call. simpl. split; [done|]. f_equal.
    rewrite (update_one _ _ _ _ n Hl); [done| |].
    + rewrite Z.eqb_refl. by rewrite Hp.
    + intros k' n' Hf. apply andb_true_iff in Hf as [Hf _]. by apply Z.eqb_eq in Hf.
Qed.

Lemma dispatch_tick job s : sn_tick s <= sn_tick (dispatch sd job s).
Proof.
  unfold dispatch. simpl. destruct (sd_send sd _ _ _); unfold on_store; simpl;
    [destruct (MarkIncidentNotificationRetry _ _ _ _ _)|destruct (MarkIncidentNotificationDelivered _ _ _)];
    simpl; lia.
Qed.

(** [rows'] is [rows] with the pages of [jobs] settled, none before [from]. *)
Definition all_settled (from : nat) (jobs : list NotificationJob) (rows rows' : gmap Z NotificationRow) : Prop :=
  (forall job, job ∈ jobs -> exists n tick, from <= tick /\
     rows !! nj_ID job = Some n /\ rows' !! nj_ID job = Some (settled job tick n)) /\
  (forall k, k ∉ nj_ID <$> jobs -> rows' !! k = rows !! k).

Lemma all_settled_cons from from' job jobs rows rows' n tick :
  from <= from' -> from <= tick -> rows !! nj_ID job = Some n -> nj_ID job ∉ nj_ID <$> jobs ->
  all_settled from' jobs (<[nj_ID job := settled job tick n]> rows) rows' ->
  all_settled from (job :: jobs) rows rows'.
Proof.
  intros Hf Ht Hl Hni [Hin Hout]. split.
  - intros job' Hj. apply elem_of_cons in Hj as [->|Hj].
    + exists n, tick. split_and!; [done|done|]. rewrite Hout by done. by rewrite lookup_insert_eq.
    + destruct (Hin job' Hj) as (n' & tick' & Ht' & Hl' & Hr). exists n', tick'.
      split_and!; [lia| |done]. rewrite lookup_insert_ne in Hl'; [done|]. intros E. apply Hni. rewrite E.
      by apply list_elem_of_fmap_2.
  - intros k Hk. rewrite fmap_cons, not_elem_of_cons in Hk. destruct Hk as [Hk1 Hk2].
    rewrite Hout by done. by rewrite lookup_insert_ne.
Qed.

Lemma all_settled_mono from from' jobs rows rows' :
  from <= from' -> all_settled from' jobs rows rows' -> all_settled from jobs rows rows'.
Proof.
  intros Hf [Hin Hout]. split; [|done]. intros job Hj. destruct (Hin job Hj) as (n & tick & Ht & Hr).
  exists n, tick. split; [lia|done].
Qed.

Lemma dispatch_all_run jobs : forall s r s',
  let t := w_tables (sn_store s) in
  NoDup (nj_ID <$> jobs) ->
  (forall job, job ∈ jobs -> exists n, t_notifications t !! nj_ID job = Some n /\ in_flight t n) ->
  dispatch_all sd jobs s = (r, s') ->
  exists sent rest, jobs = sent ++ rest /\
    r = match rest with [] => batchProcessed | _ => batchStopped end /\
    sn_sent s' = sn_sent s ++ ((fun job => (nj_WebhookURL job, nj_Payload job)) <$> sent) /\
    all_settled (sn_tick s) sent (t_notifications t) (t_notifications (w_tables (sn_store s'))).
Proof.
  induction jobs as [|job jobs IH]; intros s r s' t Hnd Hfl; cbn [dispatch_all].
  { intros [= <- <-]. exists [], []. split_and!; [done|done|by rewrite app_nil_r|].
    split; [by intros ? ?%not_elem_of_nil|done]. }
  rewrite fmap_cons, list.NoDup_cons in Hnd. destruct Hnd as [Hni Hnd].
  unfold ask. destruct (stop_taken (sn_tick s)).
  { intros [= <- <-]. exists [], (job :: jobs). split_and!; [done|done|by rewrite app_nil_r|].
    split; [by intros ? ?%not_elem_of_nil|done]. }
  set (s1 := MkSenderState (sn_store s) (sn_sent s) (S (sn_tick s))).
  destruct (Hfl job) as (n & Hl & Hn); [left|].
  destruct (dispatch_run job s1 n Hl Hn) as [Hsent Htab]. change (w_tables (sn_store s1)) with t in Htab.
  intros Hrun. apply IH in Hrun as (sent & rest & -> & -> & Hs' & Hset); [|done|].
  - exists (job :: sent), rest. split_and!; [done|done| |].
    + rewrite Hs', Hsent. simpl. by rewrite <-app_assoc.
    + rewrite Htab in Hset. eapply all_settled_cons; [|by apply Nat.le_succ_diag_r|done| |exact Hset];
        [pose proof (dispatch_tick job s1); simpl in *; lia|].
      intros Hin. apply Hni. rewrite fmap_app. apply elem_of_app. by left.
  - intros job' Hj. destruct (Hfl job') as (n' & Hl' & Hn'); [by right|]. exists n'.
    rewrite Htab. split; [|exact Hn']. simpl. rewrite lookup_insert_ne; [done|].
    intros E. apply Hni. rewrite E. by apply list_elem_of_fmap_2.
Qed.

Lemma run_batch_run s r s' :
  runBatch (Some sd) true s = (r, s') ->
  let now := sender_now (sn_tick s) in
  match ClaimDueIncidentNotifications now (now - sd_staleAfter sd)%Z (sd_claimBatch sd) (sn_store s) with
  | (inl _, w1) => r = batchIdle /\ sn_sent s' = sn_sent s /\ sn_store s' = w1
  | (inr jobs, w1) => exists sent rest, jobs = sent ++ rest /\
      r = match jobs, rest with
          | [], _ => batchIdle | _, [] => batchProcessed | _, _ => batchStopped end /\
      sn_sent s' = sn_sent s ++ ((fun job => (nj_WebhookURL job, nj_Payload job)) <$> sent) /\
      all_settled (sn_tick s) sent (t_notifications (w_tables w1)) (t_notifications (w_tables (sn_store s')))
  end.
Proof.
  unfold runBatch, ask, on_store. simpl. unfold time_Add. rewrite <-Z.sub_opp_r, Z.opp_involutive.
  destruct (ClaimDueIncidentNotifications _ _ _ (sn_store s)) as [[e|jobs] w1] eqn:Hclaim.
  { by intros [= <- <-]. }
  destruct jobs as [|job jobs].
  { intros [= <- <-]. exists [], []. split_and!; [done|done|by rewrite app_nil_r|].
    split; [by intros ? ?%not_elem_of_nil|done]. }
  intros Hrun. destruct (claim_spec _ _ _ _ _ _ Hclaim) as (_ & Hnd & Hjobs & _ & _).
  destruct (claim_run _ _ _ _ _ _ Hclaim) as [_ Htab].
  apply dispatch_all_run in Hrun as (sent & rest & Hj & -> & Hs & Hset); [|done|].
  - exists sent, rest. split_and!; [done|by destruct rest|done|].
    eapply all_settled_mono; [|exact Hset]. simpl. lia.
  - intros j Hin. destruct (Hjobs j Hin) as (n & i & Hl & Hd & Hi & Hres & _ & _ & Hl').
    exists (claim_row (sender_now (sn_tick s)) n). split; [done|]. simpl. rewrite Htab. split_and!.
    + done.
    + simpl. by rewrite Hi.
    + unfold outdated. simpl. rewrite Hi. simpl. apply andb_false_iff.
      destruct (decide (n_event n = notificationEventDown)) as [E|E]; [right|left].
      * by rewrite Hres.
      * by apply bool_decide_eq_false_2.
Qed.

(** C19. A worker's round settles every page it sends.  With a database that answers,
    a round of a worker that claims [jobs] sends them in order, each once, up to
    the one before which the stop channel was closed; every page sent is
    afterwards delivered if the webhook accepted it; if it refused, the page waits
    to be retried after the backoff for its attempt with the error on record, or,
    where the database does not store the error text, is still in processing as
    the claim left it; every other page is as the claim left it, the claimed ones
    that were not sent still in processing. *)
Theorem run_batch_settles s r s' :
  runBatch (Some sd) true s = (r, s') ->
  let now := sender_now (sn_tick s) in
  match ClaimDueIncidentNotifications now (now - sd_staleAfter sd)%Z (sd_claimBatch sd) (sn_store s) with
  | (inl _, w1) => r = batchIdle /\ sn_sent s' = sn_sent s /\ sn_store s' = w1
  | (inr jobs, w1) => exists sent rest, jobs = sent ++ rest /\
      r = match jobs, rest with
          | [], _ => batchIdle | _, [] => batchProcessed | _, _ => batchStopped end /\
      sn_sent s' = sn_sent s ++ ((fun job => (nj_WebhookURL job, nj_Payload job)) <$> sent) /\
      all_settled (sn_tick s) sent (t_notifications (w_tables w1)) (t_notifications (w_tables (sn_store s')))
  end.
Proof. apply run_batch_run. Qed.
End round.

(** * A page in flight *)

Section held.
Context `{Env : StoreEnv}.

(** Sent no earlier than [t0], or ended. *)
Definition held (t0 : Time) (n : NotificationRow) : Prop :=
  terminal n \/
  (n_state n = notificationStateProcessing /\ exists at_, n_last_attempt_at n = Some at_ /\ (t0 <= at_)%Z).

(** Calls that leave page [id], claimed at [t0], to its worker: the worker has
    not reported a failure, and no claim counts [t0] as stale. *)
Definition leaves_page (id : Z) (t0 : Time) (op : StoreOp) : Prop :=
  match op with
  | OpMarkRetry id' _ _ _ => id' <> id
  | OpClaimDue _ stale _ => (timestamptz stale < t0)%Z
  | _ => True
  end.

Lemma held_not_due now stale t t0 n :
  held t0 n -> (timestamptz stale < t0)%Z -> due_row now stale t n = false.
Proof.
  intros Hh Hs. apply not_true_is_false. intros Hd.
  destruct Hh as [Ht|(Hp & at_ & Ha & Hle)]; [by apply due_live in Hd|].
  revert Hd. unfold due_row. case_match; [|done]. rewrite Hp, Ha. simpl.
  assert ((at_ <=? timestamptz stale)%Z = false) as -> by lia. simpl.
  by rewrite andb_false_r.
Qed.

Definition stays_held (id : Z) (t0 : Time) (k : Z) : relation NotificationRow :=
  fun n n' => k = id -> held t0 n -> held t0 n'.

#[global] Instance stays_held_preorder id t0 k : PreOrder (stays_held id t0 k).
Proof. split; [by intros n ?|]. intros n1 n2 n3 H12 H23 E Hh. auto. Qed.

Lemma held_step id t0 op w :
  leaves_page id t0 op ->
  rows_follow (stays_held id t0) (w_tables w) (w_tables (exec_store op w)).
Proof.
  intros Hop. apply follow_store; [apply _|intros k n at_ _ _ _; left; by right|].
  intros k n n' Hr -> Hh. destruct op; simpl in Hr, Hop; try done.
  - destruct Hr as [[t Hd] _]. by rewrite (held_not_due _ _ _ _ _ Hh Hop) in Hd.
  - destruct Hr as (_ & _ & ->). left. by left.
  - by destruct Hr as [-> _].
Qed.

Lemma held_run ops : forall id t0 w n,
  Forall (leaves_page id t0) ops -> t_notifications (w_tables w) !! id = Some n -> held t0 n ->
  exists n', t_notifications (w_tables (fold_left (fun w op => exec_store op w) ops w)) !! id = Some n' /\
    held t0 n'.
Proof.
  induction ops as [|op ops IH]; intros id t0 w n Hall Hl Hh; cbn [fold_left]; [eauto|].
  apply Forall_cons_1 in Hall as [Hop Hall].
  destruct (held_step id t0 op w Hop id n Hl) as (n1 & Hl1 & HQ). by eapply IH; [|exact Hl1|apply HQ].
Qed.

(** C20. A page in flight belongs to one worker.  After a claim at [now] returned
    a page, let any store calls follow, other workers' claims and the deletion or
    recovery of its check included, except a report that this delivery failed and
    claims that count [now] as stale: a further claim that does not count [now]
    as stale does not return the page, whatever faults occurred. *)
Theorem claimed_page_is_held now stale limit w jobs w1 job ops now2 stale2 limit2 jobs2 w3 :
  ClaimDueIncidentNotifications now stale limit w = (inr jobs, w1) -> job ∈ jobs ->
  Forall (leaves_page (nj_ID job) (timestamptz now)) ops ->
  (timestamptz stale2 < timestamptz now)%Z ->
  ClaimDueIncidentNotifications now2 stale2 limit2 (fold_left (fun w op => exec_store op w) ops w1)
    = (inr jobs2, w3) ->
  nj_ID job ∉ nj_ID <$> jobs2.
Proof.
  intros Hclaim Hj Hall Hst Hclaim2 Hin.
  destruct (claim_spec _ _ _ _ _ _ Hclaim) as (_ & _ & Hjobs & _ & _).
  destruct (Hjobs job Hj) as (n & i & _ & _ & _ & _ & _ & _ & Hl).
  destruct (held_run ops _ _ _ _ Hall Hl) as (n2 & Hl2 & Hh2).
  { right. split; [done|]. by eexists. }
  destruct (claim_spec _ _ _ _ _ _ Hclaim2) as (_ & _ & Hjobs2 & _ & _).
  apply list_elem_of_fmap in Hin as (job2 & E & Hin).
  destruct (Hjobs2 job2 Hin) as (n3 & i3 & Hl3 & Hd3 & _).
  rewrite <-E, Hl2 in Hl3. injection Hl3 as <-. by rewrite (held_not_due _ _ _ _ _ Hh2 Hst) in Hd3.
Qed.
End held.

(** * An error text that cannot be stored *)

Definition ex_long_url : string :=
  "https://example.com/" +:+ string_of_list_ascii (replicate 455 "a"%char)
    +:+ String (ascii_of_nat 195) (String (ascii_of_nat 188) "/hook").

(** C21. An error text cut inside a character is never recorded.  When a webhook
    refuses a page with an error that is valid text: if [truncateError]'s limit of
    512 bytes falls inside a character, the report of the failure changes nothing,
    whatever the state of the page and of the database, so the page stays in
    processing without its backoff and without the error on record; any other
    error is recorded, cut or not, with the backoff for its attempt, where the
    database answers and the page is in flight. *)
Theorem cut_error_is_never_recorded `{Env : StoreEnv} `{SE : SenderEnv} sd job s err :
  sd_send sd (sn_tick s) (nj_WebhookURL job) (nj_Payload job) = Some err -> pg_text_ok err = true ->
  let t := w_tables (sn_store s) in
  let t' := w_tables (sn_store (dispatch sd job s)) in
  (cut_inside err = true -> t' = t) /\
  (cut_inside err = false -> (forall n, fault_at n = None) ->
   forall n, t_notifications t !! nj_ID job = Some n -> in_flight t n ->
   let at_ := sender_now (S (sn_tick s)) in
   t' = set_t_notifications (<[nj_ID job := retry_row false (timestamptz at_)
          (timestamptz (time_Add at_ (nextRetryDelayWithBackoff (nj_Attempts job)))) (truncateError err) n]>
          (t_notifications t)) t).
Proof.
  intros Hsend Hok t t'. pose proof (truncate_storable err Hok) as Hstore. split; intros Hcut; rewrite Hcut in Hstore.
  - subst t'. unfold dispatch. simpl. rewrite Hsend. unfold on_store. simpl.
    match goal with |- context [MarkIncidentNotificationRetry ?i ?a ?x ?e ?w] =>
      destruct (retry_refused i a x e w Hstore) as (e' & w' & -> & Ht) end. exact Ht.
  - intros calm n Hl Hn. destruct (dispatch_run sd calm job s n Hl Hn) as [_ Htab].
    unfold settled in Htab. rewrite Hsend in Htab. by rewrite Hstore in Htab.
Qed.

(** * Witnesses *)

Definition ex_sender_env : SenderEnv := {|
  sender_now _ := ex_late;
  stop_taken _ := false;
  http_NewRequest _ := None
|}.

(** The webhook refuses the first delivery. *)
Definition ex_sender : Sender :=
  MkSender (fun n _ _ => if decide (n < 10) then Some "webhook: connection refused" else None)
    Second (20 * Second) 1.

Lemma run_batch_settles_witness :
  exists r s', @runBatch ex_sender_env World (@store_notifications calm_env) (Some ex_sender) true
    (MkSenderState ex_opened [] 0) = (r, s') /\ r = batchProcessed /\
    sn_sent s' = [("https://hook.example", "{}")].
Proof.
  assert (Hres : (@runBatch ex_sender_env World (@store_notifications calm_env) (Some ex_sender) true
    (MkSenderState ex_opened [] 0)).1 = batchProcessed) by (vm_compute; reflexivity).
  destruct (@runBatch ex_sender_env World (@store_notifications calm_env) (Some ex_sender) true
    (MkSenderState ex_opened [] 0)) as [r s'] eqn:Hrun. simpl in Hres. subst r.
  exists batchProcessed, s'. split; [reflexivity|]. split; [reflexivity|].
  pose proof (@run_batch_settles calm_env ex_sender_env ex_sender (fun _ => eq_refl)
    (MkSenderState ex_opened [] 0) batchProcessed s' Hrun) as Hset. cbv zeta in Hset.
  assert (Hjobs : match (@ClaimDueIncidentNotifications calm_env ex_late (ex_late - 20 * Second) 1
    ex_opened).1 with
    | inr [job] => (nj_WebhookURL job == "https://hook.example") && (nj_Payload job == "{}")
    | _ => false end = true) by (vm_compute; reflexivity).
  change (@sender_now ex_sender_env _) with ex_late in Hset.
  change (sn_store (MkSenderState ex_opened [] 0)) with ex_opened in Hset.
  change (sd_staleAfter ex_sender) with (20 * Second)%Z in Hset.
  change (sd_claimBatch ex_sender) with 1%Z in Hset.
  destruct (@ClaimDueIncidentNotifications calm_env ex_late (ex_late - 20 * Second) 1 ex_opened)
    as [[e|[|job [|job2 jobs]]] w1]; try discriminate Hjobs.
  destruct Hset as (sent & rest & Hj & Hr & Hs & _).
  apply andb_true_iff in Hjobs as [H1 H2]. apply bool_decide_eq_true in H1, H2.
  destruct rest as [|x rest]; [|discriminate Hr]. rewrite app_nil_r in Hj. subst sent.
  rewrite Hs. simpl. rewrite H1, H2. reflexivity.
Defined.

Lemma claimed_page_is_held_witness :
  exists jobs w1, @ClaimDueIncidentNotifications calm_env ex_late 0 10 ex_opened = (inr jobs, w1) /\
    forall jobs2 w3, @ClaimDueIncidentNotifications calm_env (ex_late + Second) (ex_late - Second) 10
      (@exec_store calm_env (OpPersistWrite ex_close) w1) = (inr jobs2, w3) ->
    forall job, job ∈ jobs -> nj_ID job ∉ nj_ID <$> jobs2.
Proof.
  assert (Hres : match (@ClaimDueIncidentNotifications calm_env ex_late 0 10 ex_opened).1 with
                 | inr _ => true | _ => false end = true) by (vm_compute; reflexivity).
  destruct (@ClaimDueIncidentNotifications calm_env ex_late 0 10 ex_opened) as [[e|jobs] w1] eqn:Hrun;
    [discriminate Hres|].
  exists jobs, w1. split; [reflexivity|]. intros jobs2 w3 Hrun2 job Hj.
  refine (@claimed_page_is_held calm_env ex_late 0%Z 10%Z ex_opened jobs w1 job [OpPersistWrite ex_close]
    (ex_late + Second)%Z (ex_late - Second)%Z 10%Z jobs2 w3 Hrun Hj _ _ Hrun2).
  - repeat constructor.
  - vm_compute. reflexivity.
Defined.

(** A webhook with such a URL answers 500. *)
Definition ex_long_sender : Sender :=
  MkSender (@Fire ex_sender_env (Some (fun _ _ _ => inr 500%Z))) Second (20 * Second) 1.
Definition ex_long_job : NotificationJob := MkNotificationJob 1 1 ex_id "down" ex_long_url "{}" 1.

Lemma cut_error_is_never_recorded_witness :
  exists err, @Fire ex_sender_env (Some (fun _ _ _ => inr 500%Z)) 0 ex_long_url "{}" = Some err /\
    pg_text_ok ex_long_url = true /\
    w_tables (sn_store (@dispatch ex_sender_env World (@store_notifications calm_env) ex_long_sender ex_long_job
      (MkSenderState ex_opened [] 0))) = w_tables ex_opened.
Proof.
  eexists. split; [reflexivity|]. split; [vm_compute; reflexivity|].
  refine (proj1 (@cut_error_is_never_recorded calm_env ex_sender_env ex_long_sender ex_long_job
    (MkSenderState ex_opened [] 0) _ eq_refl _) _); vm_compute; reflexivity.
Defined.
