(* ===== verification/Delivery.v ===== *)
(** A worker of the sender empties the queue: once the webhooks accept, every page
    that waits or was left in flight is delivered, in a bounded number of rounds
    after the clock has passed the times the pages wait for. *)

From S2P Require Import Prelude GoStrings Types Database StoreNotifications StoreMonitoring.
From S2P Require Import StoreChecks StoreInvariant StoreProperties Sender SenderProperties.

#[global] Instance terminal_dec n : Decision (terminal n).
Proof. unfold terminal. apply _. Defined.

(** The pages that have not ended. *)
Definition live_pages (t : Tables) : gmap Z NotificationRow :=
  filter (fun kn => ~ terminal kn.2) (t_notifications t).

Lemma lookup_live t k n :
  live_pages t !! k = Some n <-> t_notifications t !! k = Some n /\ ~ terminal n.
Proof. unfold live_pages. by rewrite map_lookup_filter_Some. Qed.

(** * A round of the worker *)

Section steps.
Context `{Env : StoreEnv} `{SE : SenderEnv} (sd : Sender).

(** One round of [worker] while the stop channel is open. *)
Definition worker_round (s : SenderState World) : SenderState World :=
  match runBatch (Some sd) true s with
  | (batchIdle, s) => (ask stop_taken s).2
  | (_, s) => s
  end.

Definition rounds (n : nat) (s : SenderState World) : SenderState World := Nat.iter n worker_round s.

(** What a worker does to the store is a sequence of store calls. *)
Definition by_store (s s' : SenderState World) : Prop :=
  rtc store_step (sn_store s) (sn_store s') /\ sn_tick s <= sn_tick s'.

#[global] Instance by_store_preorder : PreOrder by_store.
Proof.
  split; [by intros s|]. intros s1 s2 s3 [H1 T1] [H2 T2]. split; [by etransitivity|lia].
Qed.

Lemma dispatch_by_store job s : by_store s (dispatch sd job s).
Proof.
  split; [|by apply dispatch_tick]. unfold dispatch. simpl.
  destruct (sd_send sd _ _ _) as [err|]; unfold on_store; simpl.
  - match goal with |- context [MarkIncidentNotificationRetry ?i ?a ?n ?e ?w] =>
      pose proof (store_step_op (OpMarkRetry i a n e) w) as Hs; simpl in Hs;
      destruct (MarkIncidentNotificationRetry i a n e w) end. by apply rtc_once.
  - match goal with |- context [MarkIncidentNotificationDelivered ?i ?a ?w] =>
      pose proof (store_step_op (OpMarkDelivered i a) w) as Hs; simpl in Hs;
      destruct (MarkIncidentNotificationDelivered i a w) end. by apply rtc_once.
Qed.

Lemma dispatch_all_by_store jobs : forall s, by_store s (dispatch_all sd jobs s).2.
Proof.
  induction jobs as [|job jobs IH]; intros s; cbn [dispatch_all]; [reflexivity|].
  unfold ask. assert (Ha : by_store s (MkSenderState (sn_store s) (sn_sent s) (S (sn_tick s))))
    by (split; simpl; [reflexivity|lia]).
  destruct (stop_taken (sn_tick s)); [exact Ha|].
  etransitivity; [exact Ha|]. etransitivity; [apply dispatch_by_store|apply IH].
Qed.

Lemma round_by_store s : by_store s (worker_round s) /\ sn_tick s < sn_tick (worker_round s).
Proof.
  unfold worker_round, runBatch, ask, on_store. simpl.
  match goal with |- context [ClaimDueIncidentNotifications ?n ?st ?l ?w] =>
    pose proof (store_step_op (OpClaimDue n st l) w) as Hs; simpl in Hs;
    destruct (ClaimDueIncidentNotifications n st l w) as [[e|jobs] w1] end; simpl in Hs.
  { simpl. split; [split; simpl; [by apply rtc_once|lia]|simpl; lia]. }
  destruct jobs as [|job jobs].
  { simpl. split; [split; simpl; [by apply rtc_once|lia]|simpl; lia]. }
  match goal with |- context [dispatch_all sd ?js ?s0] =>
    pose proof (dispatch_all_by_store js s0) as [Hd Ht]; destruct (dispatch_all sd js s0) as [r s'] end.
  simpl in *. assert (Hgo : by_store s s' /\ sn_tick s < sn_tick s').
  { split; [split|]; [|lia..]. eapply rtc_l; [exact Hs|exact Hd]. }
  destruct r; simpl; [|done..]. destruct Hgo as [[H1 H2] H3]. split; [split|]; simpl; [done|lia..].
Qed.

Lemma rounds_by_store n s : by_store s (rounds n s) /\ sn_tick s + n <= sn_tick (rounds n s).
Proof.
  induction n as [|n [IH1 IH2]]; [split; [reflexivity|simpl; lia]|].
  destruct (round_by_store (rounds n s)) as [H1 H2]. split; [by etransitivity|].
  change (rounds (S n) s) with (worker_round (rounds n s)). lia.
Qed.

Lemma rounds_add m n s : rounds (m + n) s = rounds m (rounds n s).
Proof. unfold rounds. by rewrite Nat.iter_add. Qed.

(** ** Stopping *)

(** A round that begins when the channel is closed sends nothing and ends the
    worker. *)
Lemma stopped_round_ends n0 m s :
  (forall n, n0 <= n -> stop_taken n = true) -> n0 <= sn_tick s ->
  exists s', worker (S m) (Some sd) true s = (true, s') /\ sn_sent s' = sn_sent s /\ by_store s s'.
Proof.
  intros Hstop Hn. cbn [worker]. pose proof (round_by_store s) as [Hby _]. revert Hby.
  unfold worker_round, runBatch, ask, on_store. simpl.
  destruct (ClaimDueIncidentNotifications _ _ _ _) as [[e|[|job jobs]] w1]; simpl.
  - rewrite Hstop by (simpl; lia). eauto.
  - rewrite Hstop by (simpl; lia). eauto.
  - rewrite Hstop by (simpl; lia). eauto.
Qed.

Lemma stopped_worker_ends n0 : forall m s,
  (forall n, n0 <= n -> stop_taken n = true) -> n0 - sn_tick s < m ->
  exists s', worker m (Some sd) true s = (true, s') /\ by_store s s'.
Proof.
  intros m. induction m as [|m IH]; intros s Hstop Hm; [lia|].
  destruct (decide (n0 <= sn_tick s)) as [Hn|Hn].
  { destruct (stopped_round_ends n0 m s Hstop Hn) as (s' & -> & _ & Hby). eauto. }
  cbn [worker]. pose proof (round_by_store s) as [Hby Ht]. revert Hby Ht. unfold worker_round.
  destruct (runBatch (Some sd) true s) as [[] s1]; simpl; intros Hby Ht.
  - destruct (stop_taken (sn_tick s1)); [eauto|].
    destruct (IH (MkSenderState (sn_store s1) (sn_sent s1) (S (sn_tick s1))) Hstop) as (s' & Hw & Hby');
      [simpl in *; lia|]. exists s'. split; [exact Hw|by etransitivity].
  - destruct (IH s1 Hstop) as (s' & Hw & Hby'); [lia|]. exists s'. split; [exact Hw|by etransitivity].
  - eauto.
Qed.

(** C18. [Close] returns.  Once the stop channel is closed, whatever the store, the
    clock and the webhooks do, a worker ends: after no more rounds than the
    requests to its environment that came before the closing, and one; if it had
    not begun a round before, it sends nothing.  The store has seen only whole
    calls, so that its tables stay sound and the work that is left stays queued. *)
Theorem closed_sender_ends n0 s :
  (forall n, n0 <= n -> stop_taken n = true) ->
  exists s', worker (S (n0 - sn_tick s)) (Some sd) true s = (true, s') /\
    (n0 <= sn_tick s -> sn_sent s' = sn_sent s) /\
    (db_wf (sn_store s) -> db_wf (sn_store s')) /\
    (forall k n, t_notifications (w_tables (sn_store s)) !! k = Some n ->
       is_Some (t_notifications (w_tables (sn_store s')) !! k)).
Proof.
  intros Hstop. destruct (stopped_worker_ends n0 (S (n0 - sn_tick s)) s Hstop) as (s' & Hw & Hby & _); [lia|].
  exists s'. split_and!; [done| | |].
  - intros Hn. destruct (stopped_round_ends n0 (n0 - sn_tick s) s Hstop Hn) as (s1 & Hw1 & Hs1 & _).
    rewrite Hw in Hw1. by injection Hw1 as <-.
  - intros Hwf. by eapply steps_wf.
  - intros k n Hl. destruct (ended_steps _ _ Hby k n Hl) as (n' & Hl' & _). eauto.
Qed.

(** ** Running *)

Hypothesis running : forall n, stop_taken n = false.

Lemma dispatch_all_running jobs : forall s, (dispatch_all sd jobs s).1 = batchProcessed.
Proof.
  induction jobs as [|job jobs IH]; intros s; cbn [dispatch_all]; [done|].
  unfold ask. rewrite running. apply IH.
Qed.

Lemma batch_running s : (runBatch (Some sd) true s).1 <> batchStopped.
Proof.
  unfold runBatch, ask, on_store. simpl.
  destruct (ClaimDueIncidentNotifications _ _ _ _) as [[e|[|job jobs]] w1]; [done..|].
  rewrite dispatch_all_running. done.
Qed.

Lemma worker_rounds n : forall s, worker n (Some sd) true s = (false, rounds n s).
Proof.
  induction n as [|n IH]; intros s; [done|]. cbn [worker].
  assert (E : rounds (S n) s = rounds n (worker_round s))
    by (rewrite <-Nat.add_1_r; apply rounds_add).
  rewrite E. unfold worker_round. pose proof (batch_running s) as Hs.
  destruct (runBatch (Some sd) true s) as [[] s1]; [|by rewrite IH|done].
  unfold ask. rewrite running. by rewrite IH.
Qed.
End steps.

(** * What a round does to the pages *)

Section settling.
Context `{Env : StoreEnv} `{SE : SenderEnv} (sd : Sender).

Hypothesis calm : forall n, fault_at n = None.
Hypothesis texts : forall n url payload err,
  sd_send sd n url payload = Some err -> pg_text_ok (truncateError err) = true.
Hypothesis running : forall n, stop_taken n = false.

(** The attempts of every page fit their column once more. *)
Definition room (s : SenderState World) : Prop := forall k n,
  t_notifications (w_tables (sn_store s)) !! k = Some n -> ~ terminal n ->
  (0 <= n_attempts n < 2 ^ 31 - 1)%Z.

Lemma room_claims s now stale limit :
  room s -> exists jobs w1, ClaimDueIncidentNotifications now stale limit (sn_store s) = (inr jobs, w1).
Proof.
  intros Hp. unfold ClaimDueIncidentNotifications. rewrite (calm_call calm).
  unfold mbind, St_bind, get_tables. simpl.
  set (due := due_rows _ _ _ _).
  assert (Hfit : forallb (fun kn => fits_int32 (n_attempts kn.2 + 1)) due = true).
  { apply forallb_forall. intros [k n] Hin. apply list_elem_of_In, elem_of_due_rows in Hin as [Hl Hd].
    pose proof (Hp k n Hl (due_live _ _ _ _ Hd)). unfold fits_int32. simpl.
    apply andb_true_iff. split; [apply Z.leb_le|apply Z.ltb_lt]; lia. }
  rewrite Hfit. simpl. eauto.
Qed.

(** A round claims some pages and settles them all. *)
Lemma round_settles s :
  room s ->
  let s' := worker_round sd s in
  let now := sender_now (sn_tick s) in
  exists jobs w1,
    ClaimDueIncidentNotifications now (now - sd_staleAfter sd)%Z (sd_claimBatch sd) (sn_store s) = (inr jobs, w1) /\
    sn_sent s' = sn_sent s ++ ((fun job => (nj_WebhookURL job, nj_Payload job)) <$> jobs) /\
    all_settled sd (sn_tick s) jobs (t_notifications (w_tables w1)) (t_notifications (w_tables (sn_store s'))).
Proof.
  intros Hp s' now.
  destruct (room_claims s now (now - sd_staleAfter sd)%Z (sd_claimBatch sd) Hp) as (jobs & w1 & Hclaim).
  exists jobs, w1. split; [done|]. subst s'. unfold worker_round. pose proof (batch_running sd running s) as Hns.
  destruct (runBatch (Some sd) true s) as [r s1] eqn:Hrun.
  pose proof (run_batch_run sd calm s r s1 Hrun) as Hset. cbv zeta in Hset. fold now in Hset.
  rewrite Hclaim in Hset. destruct Hset as (sent & rest & Hj & Hr & Hsent & Hset).
  assert (rest = []) as ->.
  { destruct rest as [|x rest]; [done|]. subst r. exfalso. apply Hns. rewrite Hj. by destruct sent. }
  rewrite app_nil_r in Hj. subst sent. by destruct r.
Qed.

(** A page is left alone, or was claimed: then it is delivered, or refused and
    waits for its backoff. *)
Inductive page_round (s s' : SenderState World) (n : NotificationRow) : NotificationRow -> Prop :=
| page_left : page_round s s' n n
| page_delivered tick now :
    ~ terminal n -> sn_tick s <= tick -> (n_webhook_url n, n_payload n) ∈ sn_sent s' ->
    page_round s s' n (deliver_row (timestamptz (sender_now (S tick))) (claim_row now n))
| page_retried tick err now :
    ~ terminal n -> sn_tick s <= tick -> sd_send sd tick (n_webhook_url n) (n_payload n) = Some err ->
    page_round s s' n (retry_row false (timestamptz (sender_now (S tick)))
      (timestamptz (time_Add (sender_now (S tick)) (nextRetryDelayWithBackoff (n_attempts n + 1))))
      (truncateError err) (claim_row now n)).

Lemma round_job s jobs w1 job n :
  let s' := worker_round sd s in
  let now := sender_now (sn_tick s) in
  ClaimDueIncidentNotifications now (now - sd_staleAfter sd)%Z (sd_claimBatch sd) (sn_store s) = (inr jobs, w1) ->
  sn_sent s' = sn_sent s ++ ((fun job => (nj_WebhookURL job, nj_Payload job)) <$> jobs) ->
  all_settled sd (sn_tick s) jobs (t_notifications (w_tables w1)) (t_notifications (w_tables (sn_store s'))) ->
  job ∈ jobs -> t_notifications (w_tables (sn_store s)) !! nj_ID job = Some n ->
  exists n', t_notifications (w_tables (sn_store s')) !! nj_ID job = Some n' /\ page_round s s' n n' /\
    ~ terminal n /\
    (terminal n' \/ exists tick, sn_tick s <= tick /\
       is_Some (sd_send sd tick (n_webhook_url n) (n_payload n)) /\
       n_next_attempt_at n' = Some (timestamptz (time_Add (sender_now (S tick)) (nextRetryDelayWithBackoff (n_attempts n + 1))))).
Proof.
  intros s' now Hclaim Hsent [Hin _] Hj Hl. destruct (claim_spec _ _ _ _ _ _ Hclaim) as (_ & _ & Hjobs & _ & _).
  destruct (Hjobs job Hj) as (n1 & i & Hl1 & Hd & _ & _ & Hjob & _ & Hl').
  pose proof (eq_trans (eq_sym Hl) Hl1) as [= <-].
  destruct (Hin job Hj) as (n2 & tick & Ht & Hl2 & Hs). rewrite Hl' in Hl2. injection Hl2 as <-.
  assert (Hlive : ~ terminal n) by (by eapply due_live).
  assert (Hurl : nj_WebhookURL job = n_webhook_url n) by (by rewrite Hjob).
  assert (Hpay : nj_Payload job = n_payload n) by (by rewrite Hjob).
  assert (Hatt : nj_Attempts job = (n_attempts n + 1)%Z) by (by rewrite Hjob).
  unfold settled in Hs. rewrite Hurl, Hpay, Hatt in Hs. eexists. split; [exact Hs|].
  destruct (sd_send sd tick _ _) as [err|] eqn:Hsend; [rewrite (texts _ _ _ _ Hsend)|]; split_and!; try done.
  - by apply page_retried.
  - right. exists tick. by rewrite Hsend.
  - apply page_delivered; [done|done|]. rewrite Hsent, <-Hurl, <-Hpay. apply elem_of_app. right.
    apply list_elem_of_fmap. eauto.
  - by left; left.
Qed.

Lemma round_pages s k n :
  room s -> t_notifications (w_tables (sn_store s)) !! k = Some n ->
  exists n', t_notifications (w_tables (sn_store (worker_round sd s))) !! k = Some n' /\
    page_round s (worker_round sd s) n n'.
Proof.
  intros Hp Hl. destruct (round_settles s Hp) as (jobs & w1 & Hclaim & Hsent & Hset).
  destruct (claim_spec _ _ _ _ _ _ Hclaim) as (_ & _ & _ & Hrest & _).
  destruct (decide (k ∈ nj_ID <$> jobs)) as [Hk|Hk].
  - apply list_elem_of_fmap in Hk as (job & -> & Hj).
    destruct (round_job s jobs w1 job n Hclaim Hsent Hset Hj Hl) as (n' & Hl' & Hr & _). eauto.
  - exists n. split; [|constructor]. rewrite (proj2 Hset) by done. by rewrite Hrest.
Qed.

(** A round makes no page. *)
Lemma round_no_new s k :
  room s -> t_notifications (w_tables (sn_store s)) !! k = None ->
  t_notifications (w_tables (sn_store (worker_round sd s))) !! k = None.
Proof.
  intros Hp Hl. destruct (round_settles s Hp) as (jobs & w1 & Hclaim & Hsent & Hin & Hout).
  destruct (claim_spec _ _ _ _ _ _ Hclaim) as (_ & _ & Hjobs & Hrest & _).
  assert (Hk : k ∉ nj_ID <$> jobs).
  { intros (job & -> & Hj)%list_elem_of_fmap. destruct (Hjobs job Hj) as (n1 & _ & Hl1 & _). by simplify_eq. }
  by rewrite Hout, Hrest.
Qed.

(** The page a row comes from. *)
Lemma round_back s k n' :
  room s -> t_notifications (w_tables (sn_store (worker_round sd s))) !! k = Some n' ->
  exists n, t_notifications (w_tables (sn_store s)) !! k = Some n /\ page_round s (worker_round sd s) n n'.
Proof.
  intros Hp Hl'. destruct (t_notifications (w_tables (sn_store s)) !! k) as [n|] eqn:Hl;
    [|by rewrite (round_no_new s k Hp Hl) in Hl'].
  destruct (round_pages s k n Hp Hl) as (n1 & Hl1 & Hr). rewrite Hl' in Hl1. injection Hl1 as <-. eauto.
Qed.

Lemma sent_grows s x : room s -> x ∈ sn_sent s -> x ∈ sn_sent (worker_round sd s).
Proof.
  intros Hp Hx. destruct (round_settles s Hp) as (jobs & w1 & _ & -> & _).
  apply elem_of_app. by left.
Qed.
End settling.

(** * The queue drains *)

Section drain.
Context `{Env : StoreEnv} `{SE : SenderEnv} (sd : Sender) (N : nat).

Hypothesis calm : forall n, fault_at n = None.
Hypothesis texts : forall n url payload err,
  sd_send sd n url payload = Some err -> pg_text_ok (truncateError err) = true.
Hypothesis running : forall n, stop_taken n = false.
(** From the [N]-th request to the environment on, every webhook accepts. *)
Hypothesis accepting : forall n url payload, N <= n -> sd_send sd n url payload = None.
(** The clock passes every time. *)
Hypothesis passing : forall T, exists n0, forall n, n0 <= n ->
  (T <= timestamptz (sender_now n))%Z /\ (T <= timestamptz (sender_now n - sd_staleAfter sd))%Z.

(** Failures to come do not carry the attempts of a page out of its column. *)
Definition patient (s : SenderState World) : Prop := forall k n,
  t_notifications (w_tables (sn_store s)) !! k = Some n -> ~ terminal n ->
  (0 <= n_attempts n)%Z /\ (n_attempts n + Z.of_nat (N - sn_tick s) < 2 ^ 31 - 1)%Z.

Lemma patient_room s : patient s -> room s.
Proof. intros Hp k n Hl Hn. destruct (Hp k n Hl Hn). lia. Qed.

(** A page that is due makes the round deliver one, once the webhooks accept. *)
Lemma round_progress s k n :
  patient s -> N <= sn_tick s ->
  t_notifications (w_tables (sn_store s)) !! k = Some n ->
  due_row (sender_now (sn_tick s)) (sender_now (sn_tick s) - sd_staleAfter sd)%Z (w_tables (sn_store s)) n = true ->
  exists k1 n1 n1', live_pages (w_tables (sn_store s)) !! k1 = Some n1 /\
    t_notifications (w_tables (sn_store (worker_round sd s))) !! k1 = Some n1' /\ terminal n1'.
Proof.
  intros Hp Hacc Hl Hdue.
  destruct (round_settles sd calm running s (patient_room s Hp)) as (jobs & w1 & Hclaim & Hsent & Hset).
  destruct (claim_spec _ _ _ _ _ _ Hclaim) as (_ & _ & Hjobs & _ & Hleft).
  destruct jobs as [|job jobs].
  { exfalso. destruct (Hleft k n Hl Hdue) as [Hz _]; [by apply not_elem_of_nil|].
    unfold limit_of in Hz. simpl in Hz. case_match; lia. }
  destruct (Hjobs job) as (n1 & i & Hl1 & _); [left|].
  destruct (round_job sd texts s _ w1 job n1 Hclaim Hsent Hset) as (n1' & Hl' & _ & Hlive & Hend); [left|done|].
  exists (nj_ID job), n1, n1'. split_and!; [by apply lookup_live|done|].
  destruct Hend as [|(tick & Ht & [err Hsend] & _)]; [done|]. by rewrite accepting in Hsend by lia.
Qed.

Definition calm_state (s : SenderState World) : Prop := db_wf (sn_store s) /\ patient s.

Lemma round_keeps s : calm_state s -> calm_state (worker_round sd s).
Proof.
  intros [Hwf Hp]. destruct (round_by_store sd s) as [[Hst _] Ht].
  split; [by eapply steps_wf|]. intros k n' Hl' Hlive.
  destruct (round_back sd calm texts running s k n' (patient_room s Hp) Hl') as (n & Hl & Hr).
  destruct Hr as [|tick now Hn Htk Hs|tick err now Hn Htk Hsend]; simpl.
  - destruct (Hp k n Hl Hlive). lia.
  - exfalso. apply Hlive. by left.
  - destruct (Hp k n Hl Hn). destruct (decide (N <= tick)); [|lia]. by rewrite accepting in Hsend.
Qed.

Lemma rounds_keep m s : calm_state s -> calm_state (rounds sd m s).
Proof. intros Hs. induction m as [|m IH]; [done|]. by apply round_keeps in IH. Qed.

Lemma live_shrinks s :
  calm_state s -> N <= sn_tick s ->
  live_pages (w_tables (sn_store (worker_round sd s))) ⊆ live_pages (w_tables (sn_store s)).
Proof.
  intros [Hwf Hp] Hacc. apply map_subseteq_spec. intros k n' [Hl' Hlive]%lookup_live. apply lookup_live.
  destruct (round_back sd calm texts running s k n' (patient_room s Hp) Hl') as (n & Hl & Hr).
  destruct Hr as [|tick now Hn Htk Hs|tick err now Hn Htk Hsend]; [done| |].
  - exfalso. apply Hlive. by left.
  - by rewrite accepting in Hsend by lia.
Qed.

Lemma live_shrinks_rounds m s :
  calm_state s -> N <= sn_tick s ->
  live_pages (w_tables (sn_store (rounds sd m s))) ⊆ live_pages (w_tables (sn_store s)).
Proof.
  intros Hs Hacc. induction m as [|m IH]; [done|]. etransitivity; [|exact IH].
  apply live_shrinks; [by apply rounds_keep|]. destruct (rounds_by_store sd m s) as [_ ?]. lia.
Qed.

(** Once the clock has passed the time a page waits for, a round ends one. *)
Lemma live_drops s k n :
  calm_state s -> N <= sn_tick s -> live_pages (w_tables (sn_store s)) !! k = Some n ->
  exists m, live_pages (w_tables (sn_store (rounds sd m s))) ⊂ live_pages (w_tables (sn_store s)).
Proof.
  intros Hs Hacc Hk. destruct (passing (due_time n)) as [n0 Hn0].
  set (s1 := rounds sd n0 s). pose proof (live_shrinks_rounds n0 s Hs Hacc) as Hsub. fold s1 in Hsub.
  destruct (rounds_by_store sd n0 s) as [_ Ht]. fold s1 in Ht.
  destruct (decide (live_pages (w_tables (sn_store s1)) !! k = Some n)) as [Hk1|Hk1].
  - exists (S n0). change (rounds sd (S n0) s) with (worker_round sd s1).
    assert (Hs1 : calm_state s1) by (by apply rounds_keep). apply lookup_live in Hk1 as [Hl1 Hlive].
    destruct (Hn0 (sn_tick s1)) as [Hnow Hstale]; [lia|].
    pose proof (live_is_due _ _ _ _ _ (proj1 Hs1) Hl1 Hlive Hnow Hstale) as Hdue.
    destruct (round_progress s1 k n (proj2 Hs1)) as (k1 & n1 & n1' & Hk1 & Hk1' & Hend);
      [lia|done|done|].
    eapply strict_trans_l; [|exact Hsub]. split; [apply live_shrinks; [done|lia]|].
    intros Hsub'. pose proof (lookup_weaken _ _ _ _ Hk1 Hsub') as Hbad.
    apply lookup_live in Hbad as [Hbad Hnt]. rewrite Hk1' in Hbad. by simplify_eq.
  - exists n0. fold s1. split; [done|]. intros Hsub'. by apply Hk1, (lookup_weaken _ _ _ _ Hk).
Qed.

Lemma drains_accepting s :
  calm_state s -> N <= sn_tick s -> exists m, live_pages (w_tables (sn_store (rounds sd m s))) = ∅.
Proof.
  remember (size (live_pages (w_tables (sn_store s)))) as len eqn:E. revert s E.
  induction (lt_wf len) as [len _ IH]. intros s -> Hs Hacc.
  destruct (map_choose_or_empty (live_pages (w_tables (sn_store s)))) as [(k & n & Hk)|He]; [|by exists 0].
  destruct (live_drops s k n Hs Hacc Hk) as [m Hm].
  destruct (IH _ (map_subset_size _ _ Hm) (rounds sd m s) eq_refl) as [m' Hm'].
  - by apply rounds_keep.
  - destruct (rounds_by_store sd m s) as [_ ?]. lia.
  - exists (m' + m). by rewrite rounds_add.
Qed.

Lemma queue_empties s :
  calm_state s -> exists m, forall m', m <= m' ->
    live_pages (w_tables (sn_store (rounds sd m' s))) = ∅.
Proof.
  intros Hs. destruct (rounds_by_store sd N s) as [_ Ht].
  destruct (drains_accepting (rounds sd N s)) as [m Hm]; [by apply rounds_keep|lia|].
  exists (m + N). intros m' Hm'. replace m' with ((m' - (m + N)) + (m + N)) by lia.
  rewrite rounds_add, rounds_add. apply (anti_symm (⊆)); [|apply map_empty_subseteq]. rewrite <-Hm.
  apply live_shrinks_rounds; [by apply rounds_keep, rounds_keep|].
  destruct (rounds_by_store sd m (rounds sd N s)) as [_ ?]. lia.
Qed.

(** The fate of a page: it waits, or was sent and is delivered. *)
Definition fate (url payload : string) (s : SenderState World) (k : Z) : Prop :=
  exists n, t_notifications (w_tables (sn_store s)) !! k = Some n /\
    n_webhook_url n = url /\ n_payload n = payload /\
    (~ terminal n \/ (n_state n = notificationStateDelivered /\ (url, payload) ∈ sn_sent s)).

Lemma fate_round url payload s k :
  calm_state s -> fate url payload s k -> fate url payload (worker_round sd s) k.
Proof.
  intros [Hwf Hp] (n & Hl & <- & <- & Hf). apply patient_room in Hp.
  destruct (round_pages sd calm texts running s k n Hp Hl) as (n' & Hl' & Hr). exists n'.
  destruct Hr as [|tick now Hn Htk Hsent|tick err now Hn Htk Hsend]; (split_and!; [done..|]).
  - destruct Hf as [Hf|[Hf1 Hf2]]; [by left|right]. split; [done|by apply sent_grows].
  - by right.
  - left. intros [Hbad|Hbad]; discriminate Hbad.
Qed.

Lemma fate_rounds url payload m s k :
  calm_state s -> fate url payload s k -> fate url payload (rounds sd m s) k.
Proof.
  intros Hs Hf. induction m as [|m IH]; [done|]. apply fate_round; [by apply rounds_keep|done].
Qed.

(** Every page that waits is delivered. *)
Lemma pages_delivered s :
  calm_state s -> exists m, forall m', m <= m' -> forall k n,
    live_pages (w_tables (sn_store s)) !! k = Some n ->
    exists n', t_notifications (w_tables (sn_store (rounds sd m' s))) !! k = Some n' /\
      n_state n' = notificationStateDelivered /\
      (n_webhook_url n, n_payload n) ∈ sn_sent (rounds sd m' s).
Proof.
  intros Hs. destruct (queue_empties s Hs) as [m Hm]. exists m. intros m' Hm' k n [Hl Hlive]%lookup_live.
  destruct (fate_rounds (n_webhook_url n) (n_payload n) m' s k Hs) as (n' & Hl' & _ & _ & Hf);
    [exists n; by auto|].
  exists n'. split; [done|]. destruct Hf as [Hf|Hf]; [|done]. exfalso.
  assert (He : live_pages (w_tables (sn_store (rounds sd m' s))) !! k = Some n') by (by apply lookup_live).
  rewrite (Hm m' Hm') in He. by rewrite lookup_empty in He.
Qed.

(** C16. The queue drains.  Let a worker run on a sound database that answers, with
    webhooks that refuse deliveries for a while, by errors whose texts can be
    stored, and accept them all from some moment on, and with a clock that passes
    every time.  After finitely many rounds no page is left waiting or in flight,
    and every page that was, those a crashed worker left in processing included,
    is recorded as delivered and was sent to its webhook with its payload. *)
Theorem worker_drains_queue s :
  db_wf (sn_store s) -> patient s ->
  exists R, forall m, R <= m ->
    let '(ended, s') := worker m (Some sd) true s in
    ended = false /\
    (forall k n, t_notifications (w_tables (sn_store s')) !! k = Some n -> terminal n) /\
    (forall k n, t_notifications (w_tables (sn_store s)) !! k = Some n -> ~ terminal n ->
       exists n', t_notifications (w_tables (sn_store s')) !! k = Some n' /\
         n_state n' = notificationStateDelivered /\ (n_webhook_url n, n_payload n) ∈ sn_sent s').
Proof.
  intros Hwf Hp. destruct (queue_empties s) as [R1 HR1]; [by split|].
  destruct (pages_delivered s) as [R2 HR2]; [by split|].
  exists (R1 + R2). intros m Hm. rewrite (worker_rounds sd running). split_and!; [done| |].
  - intros k n Hl. destruct (decide (terminal n)) as [|Hlive]; [done|]. exfalso.
    assert (He : live_pages (w_tables (sn_store (rounds sd m s))) !! k = Some n) by (by apply lookup_live).
    rewrite HR1 in He by lia. by rewrite lookup_empty in He.
  - intros k n Hl Hlive. apply (HR2 m); [lia|]. by apply lookup_live.
Qed.
End drain.

(** A sender of [NewSender] accepts as its client does. *)
Lemma new_sender_accepting `{SenderEnv} (client : Client) N :
  (forall url, http_NewRequest url = None) ->
  (forall n url body, N <= n -> exists status, client n url body = inr status /\ (200 <= status < 300)%Z) ->
  forall n url payload, N <= n -> sd_send (NewSender true client).1 n url payload = None.
Proof.
  intros Hreq Hok n url payload Hn. simpl. unfold Fire. rewrite Hreq.
  destruct (Hok n url payload Hn) as (status & -> & Hs).
  destruct (Z.ltb_spec status 200), (Z.leb_spec 300 status); [lia..|done].
Qed.

(** * Witnesses *)

(** A clock that advances by a second with every request. *)
Definition ex_ticking : SenderEnv := {|
  sender_now n := (ex_late + Z.of_nat n * Second)%Z;
  stop_taken _ := false;
  http_NewRequest _ := None
|}.

(** The channel is closed before the fifth request. *)
Definition ex_closing : SenderEnv := {|
  sender_now n := (ex_late + Z.of_nat n * Second)%Z;
  stop_taken n := 5 <=? n;
  http_NewRequest _ := None
|}.

Lemma closed_sender_ends_witness :
  exists s', @worker ex_closing World (@store_notifications calm_env) 6 (Some ex_sender) true
    (MkSenderState ex_opened [] 0) = (true, s') /\ is_Some (t_notifications (w_tables (sn_store s')) !! 1%Z).
Proof.
  destruct (@closed_sender_ends calm_env ex_closing ex_sender 5 (MkSenderState ex_opened [] 0))
    as (s' & Hw & _ & _ & Hk).
  - intros n Hn. apply Nat.leb_le. exact Hn.
  - exists s'. split; [exact Hw|].
    destruct (ex_page ex_opened 1) as [n|] eqn:Hn; [|vm_compute in Hn; discriminate].
    exact (Hk 1%Z n Hn).
Defined.

Lemma ex_texts n url payload err :
  sd_send ex_sender n url payload = Some err -> pg_text_ok (truncateError err) = true.
Proof.
  simpl. destruct (decide (n < 10)); [|discriminate]. intros [= <-]. vm_compute. reflexivity.
Qed.

Lemma ex_accepting n url payload : 10 <= n -> sd_send ex_sender n url payload = None.
Proof. intros Hn. simpl. destruct (decide (n < 10)); [lia|done]. Qed.

Lemma ex_passing T : exists n0, forall n, n0 <= n ->
  (T <= @timestamptz calm_env (@sender_now ex_ticking n))%Z /\
  (T <= @timestamptz calm_env (@sender_now ex_ticking n - sd_staleAfter ex_sender))%Z.
Proof.
  exists (Z.to_nat (Z.max 0 T)). intros n Hn. cbn [timestamptz calm_env scripted_env sender_now ex_ticking].
  change (sd_staleAfter ex_sender) with (20 * Second)%Z. unfold ex_late, Second.
  split; lia.
Qed.

(** The pages of a small database, by evaluation. *)
Definition pages_fit (N : nat) (w : World) : bool :=
  forallb (fun kn => (0 <=? n_attempts kn.2)%Z && (n_attempts kn.2 + Z.of_nat N <? 2 ^ 31 - 1)%Z)
    (map_to_list (t_notifications (w_tables w))).

Lemma pages_fit_patient N s : pages_fit N (sn_store s) = true -> patient N s.
Proof.
  intros Hf k n Hl _. unfold pages_fit in Hf. rewrite forallb_forall in Hf.
  specialize (Hf (k, n)). rewrite <-list_elem_of_In in Hf. apply elem_of_map_to_list in Hl.
  apply Hf, andb_true_iff in Hl as [H1 H2]. apply Z.leb_le in H1. apply Z.ltb_lt in H2. simpl in *. lia.
Qed.

Lemma worker_drains_queue_witness :
  exists R, forall m, R <= m ->
    let '(ended, s') := @worker ex_ticking World (@store_notifications calm_env) m (Some ex_sender) true
      (MkSenderState ex_opened [] 0) in
    exists n', t_notifications (w_tables (sn_store s')) !! 1%Z = Some n' /\
      n_state n' = notificationStateDelivered /\ ("https://hook.example", "{}") ∈ sn_sent s'.
Proof.
  destruct (@worker_drains_queue calm_env ex_ticking ex_sender 10 (fun _ => eq_refl) ex_texts
    (fun _ => eq_refl) ex_accepting ex_passing (MkSenderState ex_opened [] 0)) as [R HR].
  - eapply (@steps_wf calm_env); [|exact empty_world_wf].
    apply (@exec_store_steps calm_env [OpCreateCheck ex_check 7; OpPersistWrite ex_open] empty_world).
  - apply pages_fit_patient. vm_compute. reflexivity.
  - exists R. intros m Hm. specialize (HR m Hm).
    destruct (@worker ex_ticking World (@store_notifications calm_env) m (Some ex_sender) true
      (MkSenderState ex_opened [] 0)) as [ended s']. destruct HR as (_ & _ & Hall).
    destruct (ex_page ex_opened 1) as [n|] eqn:Hn; [|vm_compute in Hn; discriminate].
    assert (Hrow : n_state n = notificationStatePending /\ n_webhook_url n = "https://hook.example" /\ n_payload n = "{}").
    { vm_compute in Hn. injection Hn as <-. repeat split. }
    destruct Hrow as (Hst & Hu & Hp). destruct (Hall 1%Z n Hn) as (n' & Hl' & Hs' & Hsent).
    + intros [E|E]; rewrite Hst in E; discriminate E.
    + exists n'. rewrite Hu, Hp in Hsent. split; [exact Hl'|]. split; [exact Hs'|exact Hsent].
Defined.
