(* ===== verification/Fairness.v ===== *)
(** The turn of a page that is due: a round takes it or a page before it, and a page
    that is refused goes behind. *)

From S2P Require Import Prelude GoStrings Types Database StoreNotifications StoreMonitoring.
From S2P Require Import StoreChecks StoreInvariant StoreProperties Sender SenderProperties Delivery.

(** * A round changes pages only *)

Definition only_pages : relation Tables := fun t t' => t' = set_t_notifications (t_notifications t') t.

#[global] Instance only_pages_preorder : PreOrder only_pages.
Proof.
  split; [by intros []|]. intros t1 t2 t3 H12 H23. unfold only_pages in *. rewrite H23, H12. done.
Qed.

Section rounds.
Context `{Env : StoreEnv} `{SE : SenderEnv} (sd : Sender).

Lemma claim_only_pages now stale limit : respects only_pages (ClaimDueIncidentNotifications now stale limit).
Proof. unfold ClaimDueIncidentNotifications. frame. cbv zeta. destruct (negb _); [simpl; reflexivity|done]. Qed.

Lemma delivered_only_pages id at_ : respects only_pages (MarkIncidentNotificationDelivered id at_).
Proof. unfold MarkIncidentNotificationDelivered. by frame. Qed.

Lemma retry_only_pages id a nx e : respects only_pages (MarkIncidentNotificationRetry id a nx e).
Proof. unfold MarkIncidentNotificationRetry. by frame. Qed.

Lemma dispatch_only_pages job s :
  only_pages (w_tables (sn_store s)) (w_tables (sn_store (dispatch sd job s))).
Proof.
  unfold dispatch. simpl. destruct (sd_send sd _ _ _) as [err|]; unfold on_store; simpl.
  - match goal with |- context [MarkIncidentNotificationRetry ?i ?a ?n ?e ?w] =>
      pose proof (retry_only_pages i a n e w) as Hs; by destruct (MarkIncidentNotificationRetry i a n e w) end.
  - match goal with |- context [MarkIncidentNotificationDelivered ?i ?a ?w] =>
      pose proof (delivered_only_pages i a w) as Hs; by destruct (MarkIncidentNotificationDelivered i a w) end.
Qed.

Lemma dispatch_all_only_pages jobs : forall s,
  only_pages (w_tables (sn_store s)) (w_tables (sn_store (dispatch_all sd jobs s).2)).
Proof.
  induction jobs as [|job jobs IH]; intros s; cbn [dispatch_all]; [reflexivity|].
  unfold ask. destruct (stop_taken (sn_tick s)); [reflexivity|].
  etransitivity; [|apply IH]. by etransitivity; [|apply dispatch_only_pages].
Qed.

Lemma round_only_pages s :
  only_pages (w_tables (sn_store s)) (w_tables (sn_store (worker_round sd s))).
Proof.
  unfold worker_round, runBatch, ask, on_store. simpl.
  match goal with |- context [ClaimDueIncidentNotifications ?n ?st ?l ?w] =>
    pose proof (claim_only_pages n st l w) as Hc;
    destruct (ClaimDueIncidentNotifications n st l w) as [[e|[|job jobs]] w1] end; [done..|].
  match goal with |- context [dispatch_all sd ?js ?s0] =>
    pose proof (dispatch_all_only_pages js s0) as Hd; destruct (dispatch_all sd js s0) as [r s'] end.
  simpl in *. destruct r; by etransitivity.
Qed.

(** What was sent stays sent. *)
Lemma dispatch_all_sent jobs x : forall s, x ∈ sn_sent s -> x ∈ sn_sent (dispatch_all sd jobs s).2.
Proof.
  induction jobs as [|job jobs IH]; intros s Hx; cbn [dispatch_all]; [done|].
  unfold ask. destruct (stop_taken (sn_tick s)); [done|]. apply IH. unfold dispatch. simpl.
  destruct (sd_send sd _ _ _); unfold on_store; simpl;
    [destruct (MarkIncidentNotificationRetry _ _ _ _ _)|destruct (MarkIncidentNotificationDelivered _ _ _)];
    simpl; apply elem_of_app; by left.
Qed.

Lemma round_sent x s : x ∈ sn_sent s -> x ∈ sn_sent (worker_round sd s).
Proof.
  intros Hx. unfold worker_round, runBatch, ask, on_store. simpl.
  destruct (ClaimDueIncidentNotifications _ _ _ _) as [[e|[|job jobs]] w1]; [done..|].
  match goal with |- context [dispatch_all sd ?js ?s0] =>
    pose proof (dispatch_all_sent js x s0 Hx) as Hd; destruct (dispatch_all sd js s0) as [r s'] end.
  by destruct r.
Qed.

(** The page was delivered and sent. *)
Definition done_with (k : Z) (x : string * string) (s : SenderState World) : Prop :=
  (exists n', t_notifications (w_tables (sn_store s)) !! k = Some n' /\ n_state n' = notificationStateDelivered) /\
  x ∈ sn_sent s.
End rounds.

(** * Waiting for one's turn *)

Section turn.
Context `{Env : StoreEnv} `{SE : SenderEnv} (sd : Sender).

Hypothesis calm : forall n, fault_at n = None.
Hypothesis texts : forall n url payload err,
  sd_send sd n url payload = Some err -> pg_text_ok (truncateError err) = true.
Hypothesis running : forall n, stop_taken n = false.
(** The clock does not run backwards, and a second shows in the database. *)
Hypothesis forward : forall m n, m <= n ->
  (timestamptz (sender_now m) <= timestamptz (sender_now n))%Z /\
  (timestamptz (sender_now m - sd_staleAfter sd) <= timestamptz (sender_now n - sd_staleAfter sd))%Z.
Hypothesis spaced : forall n d, (Second <= d)%Z ->
  (timestamptz (sender_now n) < timestamptz (time_Add (sender_now n) d))%Z.

(** The page that waits. *)
Context (k : Z) (n : NotificationRow).

(** The pages before it in the queue. *)
Definition ahead (t : Tables) : gmap Z NotificationRow :=
  filter (fun kn => ~ terminal kn.2 /\ kn.1 <> k /\ due_le kn (k, n)) (t_notifications t).

Lemma lookup_ahead t k' n' :
  ahead t !! k' = Some n' <->
  t_notifications t !! k' = Some n' /\ ~ terminal n' /\ k' <> k /\ due_le (k', n') (k, n).
Proof. unfold ahead. by rewrite map_lookup_filter_Some. Qed.

Definition due_now (s : SenderState World) : Prop :=
  due_row (sender_now (sn_tick s)) (sender_now (sn_tick s) - sd_staleAfter sd)%Z (w_tables (sn_store s)) n = true /\
  exists x, n_next_attempt_at n = Some x /\ (x <= timestamptz (sender_now (sn_tick s)))%Z.

(** It waits, is due, and the pages before it can be tried once each. *)
Definition waiting (s : SenderState World) : Prop :=
  t_notifications (w_tables (sn_store s)) !! k = Some n /\ due_now s /\
  forall k' n', t_notifications (w_tables (sn_store s)) !! k' = Some n' -> ~ terminal n' ->
    (0 <= n_attempts n' < 2 ^ 31 - 1 - Z.of_nat (size (ahead (w_tables (sn_store s)))))%Z.

Lemma waiting_room s : waiting s -> room s.
Proof. intros (_ & _ & Hr) k' n' Hl Hlive. specialize (Hr k' n' Hl Hlive). lia. Qed.

Lemma null_le_mono a x y : (x <= y)%Z -> null_le a x = true -> null_le a y = true.
Proof. destruct a; simpl; [|done]. rewrite !Z.leb_le. lia. Qed.

(** A page that is due stays due. *)
Lemma due_later s : due_now s -> due_now (worker_round sd s).
Proof.
  intros [Hdue (x & Hx & Hle)]. destruct (round_by_store sd s) as [_ Ht].
  destruct (forward (sn_tick s) (sn_tick (worker_round sd s))) as [F1 F2]; [lia|].
  split; [|exists x; split; [done|lia]].
  rewrite (round_only_pages sd s). revert Hdue. unfold due_row. simpl.
  destruct (t_incidents _ !! n_incident_id n) as [i|]; [|done].
  rewrite !andb_true_iff, !orb_true_iff, !andb_true_iff. intros [[Hc Hd] Hnot]. split_and!; [done| |done].
  destruct Hd as [[Hst Hnx]|[Hst Hla]]; [left|right]; (split; [done|]); by eapply null_le_mono.
Qed.

(** A refused page goes behind. *)
Lemma refused_goes_behind s k' n1 n1' tick :
  due_now s -> sn_tick s <= tick -> (0 <= n_attempts n1 < 2 ^ 31)%Z ->
  n_next_attempt_at n1' =
    Some (timestamptz (time_Add (sender_now (S tick)) (nextRetryDelayWithBackoff (n_attempts n1 + 1)))) ->
  ~ due_le (k', n1') (k, n).
Proof.
  intros [_ (x & Hx & Hle)] Ht Hatt Hnx. unfold due_le. simpl. rewrite Hnx, Hx.
  destruct (forward (sn_tick s) (S tick)) as [F _]; [lia|].
  pose proof (spaced (S tick) (nextRetryDelayWithBackoff (n_attempts n1 + 1))) as Hs.
  destruct (retry_backoff_bounded (n_attempts n1 + 1)) as (_ & [Hsec _] & _); [lia|].
  specialize (Hs Hsec). lia.
Qed.

Lemma ahead_row s k' n1 n1' :
  waiting s -> t_notifications (w_tables (sn_store s)) !! k' = Some n1 ->
  page_round sd s (worker_round sd s) n1 n1' -> ~ terminal n1' -> due_le (k', n1') (k, n) -> n1' = n1.
Proof.
  intros (_ & Hdue & Hroom) Hl Hr Hlive Hle.
  destruct Hr as [|tick now Hn Htk Hs|tick err now Hn Htk Hsend]; [done| |].
  - exfalso. apply Hlive. by left.
  - exfalso. specialize (Hroom k' n1 Hl Hn).
    refine (refused_goes_behind s k' n1 _ tick Hdue Htk _ _ Hle); [lia|reflexivity].
Qed.

Lemma ahead_shrinks s :
  waiting s -> ahead (w_tables (sn_store (worker_round sd s))) ⊆ ahead (w_tables (sn_store s)).
Proof.
  intros Hw. apply map_subseteq_spec. intros k' n1' (Hl' & Hlive & Hk & Hle)%lookup_ahead. apply lookup_ahead.
  destruct (round_back sd calm texts running s k' n1' (waiting_room s Hw) Hl') as (n1 & Hl & Hr).
  pose proof (ahead_row s k' n1 n1' Hw Hl Hr Hlive Hle) as ->. done.
Qed.

(** A round takes the page, or one before it. *)
Lemma turn_round s :
  waiting s -> (forall m, sd_send sd m (n_webhook_url n) (n_payload n) = None) ->
  let s' := worker_round sd s in
  (exists n', t_notifications (w_tables (sn_store s')) !! k = Some n' /\
     n_state n' = notificationStateDelivered /\ (n_webhook_url n, n_payload n) ∈ sn_sent s') \/
  (t_notifications (w_tables (sn_store s')) !! k = Some n /\
   ahead (w_tables (sn_store s')) ⊂ ahead (w_tables (sn_store s))).
Proof.
  intros Hw Hacc s'. pose proof Hw as (Hl & [Hdue _] & Hroom).
  destruct (round_settles sd calm running s (waiting_room s Hw)) as (jobs & w1 & Hclaim & Hsent & Hset).
  destruct (claim_spec _ _ _ _ _ _ Hclaim) as (_ & _ & Hjobs & Hrest & Hleft).
  destruct (decide (k ∈ nj_ID <$> jobs)) as [Hk|Hk].
  - left. apply list_elem_of_fmap in Hk as (job & -> & Hj).
    destruct (round_job sd texts s jobs w1 job n Hclaim Hsent Hset Hj Hl) as (n' & Hl' & Hr & Hlive & Hend).
    exists n'. split; [done|]. destruct Hr as [|tick now Hn Htk Hs|tick err now Hn Htk Hsend]; [|done|].
    + exfalso. destruct Hend as [|(tick & _ & [err Hsend] & _)]; [done|]. by rewrite Hacc in Hsend.
    + by rewrite Hacc in Hsend.
  - right. split; [rewrite (proj2 Hset) by done; by rewrite Hrest|].
    split; [by apply ahead_shrinks|]. intros Hsub.
    destruct (Hleft k n Hl Hdue Hk) as [Hlen Hbefore]. destruct jobs as [|job jobs].
    { unfold limit_of in Hlen. simpl in Hlen. case_match; lia. }
    destruct (Hjobs job) as (n1 & i & Hl1 & Hd1 & _); [left|].
    destruct (round_job sd texts s _ w1 job n1 Hclaim Hsent Hset) as (n1' & Hl1' & Hr & Hlive & Hend); [left|done|].
    assert (Hah : ahead (w_tables (sn_store s)) !! nj_ID job = Some n1).
    { apply lookup_ahead. split_and!; [done|done| |apply Hbefore; [left|done]].
      intros E. apply Hk. rewrite <-E. apply list_elem_of_fmap. exists job. split; [done|left]. }
    pose proof (lookup_weaken _ _ _ _ Hah Hsub) as (Hbad & Hlive' & _ & Hle)%lookup_ahead.
    subst s'. rewrite Hl1' in Hbad. injection Hbad as ->.
    destruct Hend as [|(tick & Ht & _ & Hnx)]; [done|]. specialize (Hroom _ _ Hl1 Hlive).
    eapply (refused_goes_behind s (nj_ID job) n1 n1 tick); [apply Hw|done|lia|exact Hnx|exact Hle].
Qed.

Lemma waiting_round s :
  waiting s -> t_notifications (w_tables (sn_store (worker_round sd s))) !! k = Some n ->
  size (ahead (w_tables (sn_store (worker_round sd s)))) < size (ahead (w_tables (sn_store s))) ->
  waiting (worker_round sd s).
Proof.
  intros Hw Hl' Hsz. pose proof Hw as (_ & Hdue & Hroom). split_and!; [done|by apply due_later|].
  intros k' n1' Hk' Hlive.
  destruct (round_back sd calm texts running s k' n1' (waiting_room s Hw) Hk') as (n1 & Hl & Hr).
  destruct Hr as [|tick now Hn Htk Hs|tick err now Hn Htk Hsend]; simpl.
  - specialize (Hroom k' n1 Hl Hlive). lia.
  - exfalso. apply Hlive. by left.
  - specialize (Hroom k' n1 Hl Hn). lia.
Qed.

End turn.
