(* ===== verification/Interleaving.v ===== *)
(** The queue is fair, also while the rest of the server uses the store: what it
    queues between a worker's rounds goes behind a page that is due, however the
    webhooks of the pages before it behave. *)

From S2P Require Import Prelude GoStrings Types Database StoreNotifications StoreMonitoring.
From S2P Require Import StoreChecks StoreProbes StoreInvariant StoreProperties Sender SenderProperties Delivery Fairness.

(** * Calls that queue pages *)

Section queues.
(** The requests to the environment and the page IDs from here on. *)
Context `{Env : StoreEnv} (a : nat) (b : Z).

Definition later (w : World) : Prop := a <= w_tick w /\ (b <= sq_notifications (w_seqs w))%Z.

(** A page queued since then: it has ended, or waits untried for its first attempt. *)
Definition fresh_page (k : Z) (n : NotificationRow) : Prop :=
  (b <= k)%Z /\ (terminal n \/ n_attempts n = 0%Z /\
    exists j, a <= j /\ n_next_attempt_at n = Some (timestamptz (now_at j))).

Definition pages_follow : relation Tables := fun t t' =>
  (forall k n, t_notifications t !! k = Some n ->
     exists n', t_notifications t' !! k = Some n' /\ (n' = n \/ n_state n' = notificationStateSuperseded)) /\
  (forall k n', t_notifications t !! k = None -> t_notifications t' !! k = Some n' -> fresh_page k n').

#[global] Instance pages_follow_preorder : PreOrder pages_follow.
Proof.
  split; [split; [by eauto|by intros k n' Hl; rewrite Hl]|].
  intros t1 t2 t3 [K1 F1] [K2 F2]. split.
  - intros k n Hl. destruct (K1 k n Hl) as (n2 & Hl2 & H12). destruct (K2 k n2 Hl2) as (n3 & Hl3 & H23).
    exists n3. split; [done|]. destruct H23 as [->|]; [done|by right].
  - intros k n' Hl Hl'. destruct (t_notifications t2 !! k) as [n2|] eqn:Hl2; [|by apply F2].
    destruct (K2 k n2 Hl2) as (n3 & Hl3 & [->|Ht]); rewrite Hl' in Hl3; injection Hl3 as <-; [by apply F1|].
    split; [|by left; right]. by destruct (F1 k n2 Hl Hl2).
Qed.

Lemma follow_eq t t' : t_notifications t' = t_notifications t -> pages_follow t t'.
Proof. intros E. unfold pages_follow. rewrite E. apply (pages_follow_preorder.(PreOrder_Reflexive) t). Qed.

Definition queues {A} (m : DB A) : Prop := forall w,
  later w -> later (m w).2 /\ pages_follow (w_tables w) (w_tables (m w).2).

Lemma later_tick w : later w -> later (next_tick w).
Proof. intros [H1 H2]. split; simpl; [lia|done]. Qed.

Lemma q_ret {A} (x : A) : queues (mret x).
Proof. intros w Hw. by split. Qed.
Lemma q_fail {A} e : queues (st_fail e : DB A).
Proof. intros w Hw. by split. Qed.
Lemma q_uuid : queues gen_random_uuid.
Proof. intros w Hw. split; [by apply later_tick|by apply follow_eq]. Qed.
Lemma q_time : queues time_Now.
Proof. intros w Hw. split; [by apply later_tick|by apply follow_eq]. Qed.
Lemma q_params texts ints : queues (params texts ints).
Proof. intros w Hw. destruct (params_run texts ints w) as [res ->]. by split. Qed.
Lemma q_nextval_i : queues nextval_incidents.
Proof. intros w [H1 H2]. by split; [split|apply follow_eq]. Qed.

Lemma q_bind {A B} (m : DB A) (k : A -> DB B) :
  queues m -> (forall x, queues (k x)) -> queues (m ≫= k).
Proof.
  intros Hm Hk w Hw. unfold mbind, St_bind. specialize (Hm w Hw).
  destruct (m w) as [[e|x] w1]; simpl in *; [done|]. destruct Hm as [Hw1 Hf]. destruct (Hk x w1 Hw1).
  split; [done|by etransitivity].
Qed.

(** A time read now is one of those to come. *)
Lemma q_now {B} (k : Time -> DB B) :
  (forall j, a <= j -> queues (k (now_at j))) -> queues (time_Now ≫= k).
Proof. intros Hk w Hw. apply (Hk (w_tick w) (proj1 Hw) (next_tick w)). by apply later_tick. Qed.

Lemma q_call {A} (stmt : DB A) : queues stmt -> queues (call stmt).
Proof.
  intros Hs w Hw. unfold call. destruct (fault_at (w_tick w)) as [[]|];
    [split; [by apply later_tick|by apply follow_eq]|..]; apply (Hs (next_tick w)), later_tick, Hw.
Qed.

Lemma q_tx {A} (body : DB A) : queues body -> queues (with_tx body).
Proof.
  intros Hb w Hw. unfold with_tx, call, mret, St_ret.
  specialize (Hb (next_tick w) (later_tick _ Hw)). pose proof (later_tick _ Hw) as Hw1.
  destruct (fault_at (w_tick w)) as [[]|]; [by split; [|apply follow_eq]..|].
  destruct (body (next_tick w)) as [[e|x] w2]; simpl in *; destruct Hb as [Hw2 Hf].
  - by split; [|apply follow_eq].
  - pose proof (later_tick _ Hw2). destruct (fault_at (w_tick w2)) as [[]|]; simpl; [|done..].
    by split; [|apply follow_eq].
Qed.

Lemma q_for {A} (xs : list A) (body : A -> DB unit) : (forall x, queues (body x)) -> queues (st_for xs body).
Proof. intros Hb. induction xs; simpl; [apply q_ret|by apply q_bind]. Qed.

Lemma q_collect {A B} (xs : list A) (body : A -> DB B) : (forall x, queues (body x)) -> queues (st_collect xs body).
Proof.
  intros Hb. induction xs; simpl; [apply q_ret|]. apply q_bind; [done|]. intros y. apply q_bind; [done|].
  intros ys. apply q_ret.
Qed.

Lemma q_update {A} (k : Tables -> DB A) :
  (forall w, later w -> later (k (w_tables w) w).2 /\ pages_follow (w_tables w) (w_tables (k (w_tables w) w).2)) ->
  queues (get_tables ≫= k).
Proof. intros Hk w. exact (Hk w). Qed.

(** Superseding ends pages. *)
Lemma follow_supersede f at_ t :
  pages_follow t (set_t_notifications
    (update_where f (set_n_state notificationStateSuperseded None at_) (t_notifications t)) t).
Proof.
  split; simpl.
  - intros k n Hl. rewrite lookup_update_where, Hl. simpl. eexists. split; [done|].
    destruct (f k n); [by right|by left].
  - intros k n' Hl. by rewrite lookup_update_where, Hl.
Qed.
End queues.

(** Follows the structure of a call down to its statements. *)
Ltac queue :=
  repeat (lazymatch goal with
  | |- forall _, _ => intros ?
  | |- queues _ _ (mret _) => apply q_ret
  | |- queues _ _ (st_fail _) => apply q_fail
  | |- queues _ _ (time_Now ≫= _) => apply q_now
  | |- queues _ _ time_Now => apply q_time
  | |- queues _ _ gen_random_uuid => apply q_uuid
  | |- queues _ _ nextval_incidents => apply q_nextval_i
  | |- queues _ _ (params _ _) => apply q_params
  | |- queues _ _ (call _) => apply q_call
  | |- queues _ _ (with_tx _) => apply q_tx
  | |- queues _ _ (st_for _ _) => apply q_for
  | |- queues _ _ (st_collect _ _) => apply q_collect
  | |- queues _ _ (get_tables ≫= _) => apply q_update; intros ? ?
  | |- queues _ _ (_ ≫= _) => apply q_bind
  | |- queues _ _ (match _ with _ => _ end) => case_match
  | |- queues _ _ _ => solve [eauto with queue]
  end).

Create HintDb queue.

Section calls.
Context `{Env : StoreEnv} (a : nat) (b : Z).

(** A statement that touches no page. *)
Ltac no_page := repeat case_match; (split; [done|by apply follow_eq]).

Lemma q_insert_notification id event req j :
  a <= j -> queues a b (insertIncidentNotification id event req (now_at j)).
Proof.
  intros Hj. unfold insertIncidentNotification. destruct req as [req|]; [|apply q_ret].
  destruct (_ || _); [apply q_ret|]. apply q_call, q_bind; [apply q_params|]. intros _.
  destruct (jsonb_in _); [|apply q_fail]. unfold insert_notification_row.
  intros w Hw. unfold mbind, St_bind, nextval_notifications, get_tables. simpl.
  set (w1 := set_seqs _ w).
  assert (Hw1 : later a b w1) by (destruct Hw; split; simpl; [done|lia]).
  assert (Hsame : later a b w1 /\ pages_follow a b (w_tables w) (w_tables w1)) by (by split; [|apply follow_eq]).
  destruct (negb _); [done|]. destruct (notified _ _ _); [done|]. destruct (negb _); [done|].
  destruct (bool_decide (is_Some _)) eqn:Hfresh; [done|].
  apply bool_decide_eq_false, eq_None_not_Some in Hfresh. simpl in Hfresh. split; [done|]. simpl. split.
  - intros k n Hl. exists n. split; [|by left]. simpl. rewrite lookup_insert_ne; [done|congruence].
  - intros k n' Hl Hl'. simpl in Hl'. apply lookup_insert_Some in Hl' as [[<- <-]|[_ Hl']]; [|congruence].
    split; [apply Hw|]. right. simpl. eauto.
Qed.
#[local] Hint Resolve q_insert_notification : queue.

Lemma q_open c req j : a <= j -> queues a b (openIncidentWithNotificationByCheckIDTx c req (now_at j)).
Proof.
  intros Hj. unfold openIncidentWithNotificationByCheckIDTx, insert_incident_row. queue.
  match goal with Hw : later _ _ _ |- _ => destruct Hw as [H1 H2] end.
  destruct (t_checks _ !! c) as [r|]; [|by split; [split|apply follow_eq]].
  destruct (bool_decide _); [by split; [split|apply follow_eq]|]. unfold mbind, St_bind. simpl.
  destruct (open_incident _ _); [by split; [split|apply follow_eq]|].
  destruct (bool_decide (is_Some _)); by split; [split|apply follow_eq].
Qed.

Lemma q_resolve c req j : a <= j -> queues a b (resolveIncidentWithNotificationByCheckIDTx c req (now_at j)).
Proof.
  intros Hj. unfold resolveIncidentWithNotificationByCheckIDTx, resolve_open_row. queue.
  - by split; [|apply follow_eq].
  - split; [done|apply follow_supersede].
Qed.
#[local] Hint Resolve q_open q_resolve : queue.

Lemma q_normalize s : queues a b (normalizeCheckStateWrite s).
Proof. unfold normalizeCheckStateWrite, normalizeTime. cbv zeta. queue. Qed.
#[local] Hint Resolve q_normalize : queue.

Lemma q_upsert s : queues a b (upsertCheckStateTx s).
Proof. unfold upsertCheckStateTx. queue. no_page. Qed.

Lemma q_heartbeat p at_ : queues a b (updateProbeHeartbeatTx p at_).
Proof. unfold updateProbeHeartbeatTx, normalizeTime. queue; no_page. Qed.

Lemma q_validate wr : queues a b (validateMonitoringWrite wr).
Proof. unfold validateMonitoringWrite. queue. Qed.
#[local] Hint Resolve q_upsert q_heartbeat q_validate : queue.

Lemma q_write wr : queues a b (persistMonitoringWriteTx wr).
Proof. unfold persistMonitoringWriteTx, applyMonitoringIncidentTx. queue. Qed.
#[local] Hint Resolve q_write : queue.

Lemma q_batch ws : queues a b (PersistMonitoringBatch ws).
Proof. unfold PersistMonitoringBatch. queue. Qed.
#[local] Hint Resolve q_batch : queue.

Lemma q_insert_check c user conf : queues a b conf -> queues a b (insert_check c user conf).
Proof.
  intros Hc. unfold insert_check. queue. destruct (_ || _); [by apply Hc|]. by split; [|apply follow_eq].
Qed.

Lemma q_delete name userID : queues a b (DeleteCheck name userID).
Proof.
  unfold DeleteCheck, supersede_all, resolve_all, delete_states, mark_deleted. queue; try no_page.
  split; [done|apply follow_supersede].
Qed.

Lemma q_token size : queues a b (randomHexToken size).
Proof.
  intros w Hw. unfold randomHexToken. destruct (rand_Read _ _); (split; [by apply later_tick|by apply follow_eq]).
Qed.
#[local] Hint Resolve q_token : queue.

Lemma q_seed_probe p now : queues a b (seed_probe p now).
Proof. unfold seed_probe. queue; no_page. Qed.

Lemma q_revoke p now : queues a b (revoke_probe p now).
Proof. unfold revoke_probe. queue; no_page. Qed.

Lemma q_insert_credential p : queues a b (insertProbeCredential p).
Proof. unfold insertProbeCredential, insert_probe. cbv zeta. queue; no_page. Qed.
#[local] Hint Resolve q_seed_probe q_revoke q_insert_credential : queue.

Lemma q_taken m k : queues a b m -> queues a b k -> queues a b (if_taken m k).
Proof.
  intros Hm Hk w Hw. unfold if_taken. specialize (Hm w Hw). destruct (m w) as [[e|x] w1]; [|done].
  destruct (errors_Is _ _); [|done]. destruct Hm as [Hw1 Hf]. destruct (Hk w1 Hw1).
  split; [done|by etransitivity].
Qed.

Lemma q_generate fuel : queues a b (generate_credential fuel).
Proof.
  induction fuel as [|fuel IH]; simpl; [apply q_fail|]. unfold randomProbeID. queue.
  apply q_taken; [apply q_insert_credential|exact IH].
Qed.
#[local] Hint Resolve q_generate : queue.

(** The store calls of the rest of the server: all but the sender's. *)
Definition by_others (op : StoreOp) : Prop :=
  match op with OpClaimDue _ _ _ | OpMarkDelivered _ _ | OpMarkRetry _ _ _ _ => False | _ => True end.

Lemma q_exec op w :
  by_others op -> later a b w ->
  later a b (exec_store op w) /\ pages_follow a b (w_tables w) (w_tables (exec_store op w)).
Proof.
  intros Hop. destruct op; try done; cbn [exec_store];
    match goal with |- later _ _ w -> later _ _ (?m w).2 /\ _ => enough (queues a b m) as Hq by exact (Hq w) end.
  - apply q_batch.
  - unfold PersistMonitoringWrite. queue.
  - unfold SeedChecks. queue. apply q_insert_check. queue.
  - unfold CreateCheck. queue. apply q_insert_check. queue.
  - unfold UpdateCheck. queue. no_page.
  - apply q_delete.
  - unfold SeedProbes. queue. no_page.
  - unfold CreateProbeCredential. cbv zeta. queue.
  - unfold RegisterProbe. queue. no_page.
Qed.
End calls.

(** * A worker beside the rest of the server *)

Section clock.
Context `{Env : StoreEnv}.

Lemma exec_tick op w : w_tick w <= w_tick (exec_store op w).
Proof.
  assert (Hothers : by_others op -> w_tick w <= w_tick (exec_store op w)).
  { intros Hop. apply (q_exec (w_tick w) (sq_notifications (w_seqs w)) op w Hop). by split. }
  destruct op; try (by apply Hothers); cbn [exec_store].
  - unfold ClaimDueIncidentNotifications, call, mbind, St_bind, get_tables. cbv zeta.
    destruct (fault_at _) as [[]|]; simpl; [lia|..]; destruct (negb _); simpl; lia.
  - unfold MarkIncidentNotificationDelivered, call, mbind, St_bind, get_tables.
    destruct (fault_at _) as [[]|]; simpl; lia.
  - unfold MarkIncidentNotificationRetry, call, mbind, St_bind, get_tables.
    destruct (fault_at _) as [[]|]; simpl; [lia|..];
      match goal with |- context [params ?x ?y ?w0] => destruct (params_run x y w0) as [res ->] end;
      destruct res; simpl; lia.
Qed.

Lemma steps_later w w' : rtc store_step w w' -> w_tick w <= w_tick w'.
Proof.
  induction 1 as [w|w w1 w2 Hs _ IH]; [done|]. destruct Hs as [op w]. pose proof (exec_tick op w). lia.
Qed.

Definition exec_all (ops : list StoreOp) (w : World) : World := fold_left (fun w op => exec_store op w) ops w.

Lemma exec_all_steps ops : forall w, rtc store_step w (exec_all ops w).
Proof.
  induction ops as [|op ops IH]; intros w; [constructor|]. eapply rtc_l; [constructor|]. apply IH.
Qed.

Lemma q_exec_all a b ops : forall w,
  Forall by_others ops -> later a b w ->
  later a b (exec_all ops w) /\ pages_follow a b (w_tables w) (w_tables (exec_all ops w)).
Proof.
  induction ops as [|op ops IH]; intros w Hops Hw; [by split|].
  apply Forall_cons_1 in Hops as [Hop Hops]. destruct (q_exec a b op w Hop Hw) as [Hw1 Hf].
  destruct (IH _ Hops Hw1) as [Hw2 Hf2]. split; [done|]. by etransitivity.
Qed.

(** A page that is live in a well-formed database is due when its times say so. *)
Lemma due_row_wf w t k n now stale :
  db_wf w -> t_notifications (w_tables w) !! k = Some n -> ~ terminal n ->
  due_row now stale t n = true -> due_row now stale (w_tables w) n = true.
Proof.
  intros Hwf Hl Hlive. destruct (wf_notifs _ (proj1 Hwf) k n Hl) as (i & Hi & _ & _ & _ & _ & Hd & _).
  destruct (wf_incidents _ (proj1 Hwf) _ i Hi) as [Hc _]. unfold due_row. rewrite Hi.
  destruct (t_incidents t !! n_incident_id n) as [i0|]; [|done].
  rewrite !andb_true_iff. intros [[_ Htimes] _].
  split_and!; [by apply bool_decide_eq_true|done|].
  apply negb_true_iff, andb_false_iff. destruct (n_event n == notificationEventDown) eqn:Hev; [right|by left].
  apply bool_decide_eq_true in Hev. apply bool_decide_eq_false. intros [x Hx]. apply Hlive, Hd; [done|]. by rewrite Hx.
Qed.

(** A page stays a page of its incident. *)
Definition same_incident (k : Z) : relation NotificationRow := fun n n' => n_incident_id n' = n_incident_id n.

#[local] Instance same_incident_preorder k : PreOrder (same_incident k).
Proof. split; [done|]. unfold same_incident. intros n1 n2 n3. congruence. Qed.

Lemma page_incident w w' k n n' :
  rtc store_step w w' -> t_notifications (w_tables w) !! k = Some n ->
  t_notifications (w_tables w') !! k = Some n' -> n_incident_id n' = n_incident_id n.
Proof.
  intros Hr Hl Hl'. assert (Hf : rows_follow same_incident (w_tables w) (w_tables w')).
  { clear -Hr. induction Hr as [w|w w1 w2 Hs _ IH]; [reflexivity|]. etransitivity; [|exact IH].
    destruct Hs as [op w]. apply follow_store; [apply _|done|]. intros k n n' Hn.
    destruct op; simpl in Hn; try done.
    - by destruct Hn as [_ ->].
    - by destruct Hn as (_ & _ & ->).
    - by destruct Hn as (_ & _ & t & ->). }
  destruct (Hf k n Hl) as (n1 & Hl1 & E). by simplify_eq.
Qed.
End clock.

Section beside.
Context `{Env : StoreEnv} `{SE : SenderEnv} (sd : Sender).

(** A worker's rounds, with the calls of the rest of the server after each. *)
Definition others (ops : list StoreOp) (s : SenderState World) : SenderState World :=
  MkSenderState (exec_all ops (sn_store s)) (sn_sent s) (sn_tick s).

Fixpoint beside (gaps : list (list StoreOp)) (s : SenderState World) : SenderState World :=
  match gaps with
  | [] => s
  | ops :: gaps => beside gaps (others ops (worker 1 (Some sd) true s).2)
  end.

Hypothesis calm : forall n, fault_at n = None.
Hypothesis texts : forall n url payload err,
  sd_send sd n url payload = Some err -> pg_text_ok (truncateError err) = true.
Hypothesis running : forall n, stop_taken n = false.
(** The clock does not run backwards, and a second shows in the database. *)
Hypothesis forward : forall m n, m <= n ->
  (timestamptz (sender_now m) <= timestamptz (sender_now n))%Z /\
  (timestamptz (sender_now m - sd_staleAfter sd) <= timestamptz (sender_now n - sd_staleAfter sd))%Z.
Hypothesis spaced : forall n d, (Second <= d)%Z ->
  (timestamptz (sender_now n) < timestamptz (time_Add (sender_now n) d))%Z.

(** The page that waits. *)
Context (k : Z) (n : NotificationRow).

Lemma beside_cons ops gaps s : beside (ops :: gaps) s = beside gaps (others ops (worker_round sd s)).
Proof. cbn [beside]. by rewrite (worker_rounds sd running). Qed.

Lemma beside_steps gaps : forall s, rtc store_step (sn_store s) (sn_store (beside gaps s)).
Proof.
  induction gaps as [|ops gaps IH]; intros s; [constructor|]. rewrite beside_cons.
  etransitivity; [|apply IH]. etransitivity; [apply (round_by_store sd s)|]. apply exec_all_steps.
Qed.

(** From here on the server's clock does not read a time before the page's. *)
Definition passed (s : SenderState World) : Prop := forall j,
  w_tick (sn_store s) <= j -> null_le (n_next_attempt_at n) (timestamptz (now_at j)) = true.

Lemma passed_later s s' : rtc store_step (sn_store s) (sn_store s') -> passed s -> passed s'.
Proof. intros Hr Hp j Hj. apply Hp. pose proof (steps_later _ _ Hr). lia. Qed.

(** The page is delivered, or no longer wanted. *)
Definition settled (s : SenderState World) : Prop :=
  done_with k (n_webhook_url n, n_payload n) s \/
  exists n', t_notifications (w_tables (sn_store s)) !! k = Some n' /\ n_state n' = notificationStateSuperseded.

Lemma settled_steps s s' :
  rtc store_step (sn_store s) (sn_store s') -> (forall x, x ∈ sn_sent s -> x ∈ sn_sent s') ->
  settled s -> settled s'.
Proof.
  intros Hr Hsent [[(n' & Hl & Hst) Hx]|(n' & Hl & Hst)];
    (destruct (ended_steps _ _ Hr k n' Hl) as (n2 & Hl2 & HQ); destruct HQ as (E & _);
     [by (left + right)|]; rewrite Hst in E).
  - left. split; eauto.
  - right. eauto.
Qed.

Lemma settled_beside gaps : forall s, settled s -> settled (beside gaps s).
Proof.
  induction gaps as [|ops gaps IH]; intros s Hs; [done|]. rewrite beside_cons. apply IH.
  apply (settled_steps (worker_round sd s)); [apply exec_all_steps|done|].
  apply (settled_steps s); [apply (round_by_store sd s)|intros x; apply round_sent|done].
Qed.

(** What the others queue goes behind. *)
Lemma ahead_others ops s :
  Forall by_others ops -> db_wf (sn_store s) -> passed s ->
  is_Some (t_notifications (w_tables (sn_store s)) !! k) -> is_Some (n_next_attempt_at n) ->
  ahead k n (w_tables (exec_all ops (sn_store s))) ⊆ ahead k n (w_tables (sn_store s)).
Proof.
  intros Hops Hwf Hp Hk [x Hx]. set (w := sn_store s) in *.
  destruct (q_exec_all (w_tick w) (sq_notifications (w_seqs w)) ops w Hops) as [_ [Hkeep Hnew]]; [by split|].
  apply map_subseteq_spec. intros k' n' (Hl' & Hlive & Hne & Hle)%lookup_ahead. apply lookup_ahead.
  destruct (t_notifications (w_tables w) !! k') as [n1|] eqn:Hl.
  - destruct (Hkeep k' n1 Hl) as (n2 & Hl2 & Hor). rewrite Hl' in Hl2. injection Hl2 as <-.
    destruct Hor as [->|Hsup]; [done|]. exfalso. apply Hlive. by right.
  - exfalso. destruct (Hnew k' n' Hl Hl') as [Hid [|(_ & j & Hj & Hnx)]]; [done|].
    specialize (Hp j Hj). unfold due_le in Hle. simpl in Hle. rewrite Hnx, Hx in Hle. rewrite Hx in Hp.
    simpl in Hp. apply Z.leb_le in Hp.
    pose proof (proj2 (proj2 Hwf) k Hk). lia.
Qed.

Lemma waiting_others ops s :
  Forall by_others ops -> db_wf (sn_store s) -> passed s -> waiting sd k n s ->
  settled (others ops s) \/
  waiting sd k n (others ops s) /\
  size (ahead k n (w_tables (sn_store (others ops s)))) <= size (ahead k n (w_tables (sn_store s))).
Proof.
  intros Hops Hwf Hp (Hl & [Hdue (x & Hx & Hle)] & Hroom). set (w := sn_store s) in *.
  pose proof (due_live _ _ _ _ Hdue) as Hlive.
  destruct (q_exec_all (w_tick w) (sq_notifications (w_seqs w)) ops w Hops) as [_ [Hkeep Hnew]]; [by split|].
  pose proof (ahead_others ops s Hops Hwf Hp (ltac:(by exists n)) (ltac:(by exists x))) as Hah.
  apply map_subseteq_size in Hah. fold w in Hah.
  destruct (Hkeep k n Hl) as (n' & Hl' & [->|Hsup]); [right|left; right; eauto].
  split; [|done]. split_and!; [done| |].
  - split; [|by exists x]. cbn [sn_tick sn_store others].
    eapply due_row_wf; [|exact Hl'|exact Hlive|exact Hdue]. eapply steps_wf; [apply exec_all_steps|done].
  - intros k1 n1' Hl1' Hlive1. cbn [sn_store others] in Hl1' |- *. fold w in Hl1' |- *.
    destruct (t_notifications (w_tables w) !! k1) as [n1|] eqn:Hl1.
    + destruct (Hkeep k1 n1 Hl1) as (n2 & Hl2 & Hor). rewrite Hl1' in Hl2. injection Hl2 as <-.
      destruct Hor as [->|Hsup]; [|exfalso; apply Hlive1; by right]. specialize (Hroom k1 n1 Hl1 Hlive1). lia.
    + destruct (Hnew k1 n1' Hl1 Hl1') as [_ [|(-> & _)]]; [done|]. specialize (Hroom k n Hl Hlive). lia.
Qed.

Lemma turn_beside gaps : forall s,
  Forall (Forall by_others) gaps -> db_wf (sn_store s) -> passed s -> waiting sd k n s ->
  (forall m, sd_send sd m (n_webhook_url n) (n_payload n) = None) ->
  size (ahead k n (w_tables (sn_store s))) < length gaps ->
  settled (beside gaps s).
Proof.
  induction gaps as [|ops gaps IH]; intros s Hops Hwf Hp Hw Hacc Hlen; [simpl in Hlen; lia|].
  apply Forall_cons_1 in Hops as [Hop Hops]. rewrite beside_cons.
  destruct (round_by_store sd s) as [[Hr _] _].
  assert (Hwf1 : db_wf (sn_store (worker_round sd s))) by (by eapply steps_wf).
  destruct (turn_round sd calm texts running forward spaced k n s Hw Hacc) as [(n' & Hl' & Hst & Hsent)|[Hl' Hsub]].
  { apply settled_beside, (settled_steps (worker_round sd s)); [apply exec_all_steps|done|]. left. split; eauto. }
  apply map_subset_size in Hsub.
  pose proof (waiting_round sd calm texts running forward k n s Hw Hl' Hsub) as Hw1.
  pose proof (passed_later _ _ Hr Hp) as Hp1.
  destruct (waiting_others ops _ Hop Hwf1 Hp1 Hw1) as [Hend|[Hw2 Hle]]; [by apply settled_beside|].
  apply IH; [done| |eapply passed_later; [apply exec_all_steps|done]|done|done|simpl in Hlen; lia].
  eapply steps_wf; [apply exec_all_steps|done].
Qed.

(** C17. A due page waits only for its turn.  Let a page be due, with a webhook that
    accepts it, in a sound database that answers and can store the error texts of
    the pages that are refused ([cut_error_is_never_recorded] is about a text it
    cannot, whose page keeps its place in the queue), and let the clocks not run
    backwards.  Then whatever the webhooks of the other pages do otherwise, refuse
    for ever included, and whatever store calls the rest of the server makes between
    a worker's rounds, pages queued and incidents resolved among them, after one
    round more than there are pages before it the page is delivered and was sent to
    its webhook, or it is superseded and its incident is over: a page that is
    refused goes behind, and so does a new one. *)
Theorem due_page_waits_its_turn gaps s :
  db_wf (sn_store s) -> Forall (Forall by_others) gaps ->
  t_notifications (w_tables (sn_store s)) !! k = Some n -> due_now sd n s -> passed s ->
  (forall m, sd_send sd m (n_webhook_url n) (n_payload n) = None) ->
  (forall k' n', t_notifications (w_tables (sn_store s)) !! k' = Some n' -> ~ terminal n' ->
    (0 <= n_attempts n' < 2 ^ 31 - 1 - Z.of_nat (size (ahead k n (w_tables (sn_store s)))))%Z) ->
  size (ahead k n (w_tables (sn_store s))) < length gaps ->
  let s' := beside gaps s in
  exists n', t_notifications (w_tables (sn_store s')) !! k = Some n' /\
    (n_state n' = notificationStateDelivered /\ (n_webhook_url n, n_payload n) ∈ sn_sent s' \/
     n_state n' = notificationStateSuperseded /\
     exists i, t_incidents (w_tables (sn_store s')) !! n_incident_id n = Some i /\ i_resolved_at i <> None).
Proof.
  intros Hwf Hops Hl Hdue Hp Hacc Hroom Hlen s'. pose proof (beside_steps gaps s) as Hr.
  destruct (turn_beside gaps s) as [[(n' & Hl' & Hst) Hsent]|(n' & Hl' & Hst)]; try done.
  - exists n'. split; [done|]. by left.
  - exists n'. split; [done|]. right. split; [done|].
    destruct (wf_notifs _ (proj1 (steps_wf _ _ Hr Hwf)) k n' Hl') as (i & Hi & _ & _ & _ & _ & _ & _ & Hover).
    rewrite (page_incident _ _ k n n' Hr Hl Hl') in Hi. exists i. split; [done|]. apply Hover. by right.
Qed.
End beside.

(** * Witness *)

(** Two checks have an incident; the webhook of the first never accepts. *)
Definition ex_check2 : Check :=
  MkCheck "" "api" "http" "https://api.example.com" "https://hook2.example" 30.
Definition ex_open2 : MonitoringWrite :=
  MkMonitoringWrite [] "" 0 "6f1c2a34-0b1d-4e5f-8a9b-0c1d2e3f4a5b" false
    (Some (MkNotificationRequest "https://hook2.example" "{}")).
Definition ex_two_open : World :=
  run_store [OpCreateCheck ex_check 7; OpPersistWrite ex_open; OpCreateCheck ex_check2 7; OpPersistWrite ex_open2].

Definition ex_refusing : Sender :=
  MkSender (fun _ url _ => if url == "https://hook.example" then Some "webhook: connection refused" else None)
    Second (20 * Second) 1.

Lemma ex_refusing_texts n url payload err :
  sd_send ex_refusing n url payload = Some err -> pg_text_ok (truncateError err) = true.
Proof. simpl. destruct (url == "https://hook.example"); [|discriminate]. intros [= <-]. vm_compute. reflexivity. Qed.

Lemma ex_forward m n : m <= n ->
  (@timestamptz calm_env (@sender_now ex_ticking m) <= @timestamptz calm_env (@sender_now ex_ticking n))%Z /\
  (@timestamptz calm_env (@sender_now ex_ticking m - sd_staleAfter ex_refusing)
   <= @timestamptz calm_env (@sender_now ex_ticking n - sd_staleAfter ex_refusing))%Z.
Proof.
  intros Hn. cbn [timestamptz calm_env scripted_env sender_now ex_ticking].
  change (sd_staleAfter ex_refusing) with (20 * Second)%Z. unfold ex_late, Second. split; lia.
Qed.

Lemma ex_spaced n d : (Second <= d)%Z ->
  (@timestamptz calm_env (@sender_now ex_ticking n)
   < @timestamptz calm_env (time_Add (@sender_now ex_ticking n) d))%Z.
Proof.
  intros Hd. cbn [timestamptz calm_env scripted_env sender_now ex_ticking]. unfold time_Add, ex_late, Second in *. lia.
Qed.

Definition ex_page2 : NotificationRow := default (MkNotificationRow 0 "" "" "" "" 0 None None None None 0 0) (ex_page ex_two_open 2).

(** Between the rounds the first check recovers. *)
Definition ex_gaps : list (list StoreOp) := [[OpPersistWrite ex_close]; []].

Definition ex_beside : SenderState World :=
  @beside calm_env ex_ticking ex_refusing ex_gaps (MkSenderState ex_two_open [] 0).

Lemma ex_clock m j : m <= j ->
  (@timestamptz calm_env (@now_at calm_env m) <= @timestamptz calm_env (@now_at calm_env j))%Z.
Proof. intros Hj. cbn [timestamptz calm_env scripted_env now_at]. unfold Second. lia. Qed.

(** The refused page is before it, and it is delivered in the second round. *)
Lemma due_page_waits_its_turn_witness :
  size (ahead 2 ex_page2 (w_tables ex_two_open)) = 1 /\
  ("https://hook2.example", "{}") ∈ sn_sent ex_beside.
Proof.
  assert (Hsize : size (ahead 2 ex_page2 (w_tables ex_two_open)) = 1) by (vm_compute; reflexivity).
  split; [exact Hsize|].
  assert (Hl : bool_decide (ex_page ex_two_open 2 = Some ex_page2) = true) by (vm_compute; reflexivity).
  apply bool_decide_eq_true in Hl.
  assert (Hfit : pages_fit 2 ex_two_open = true) by (vm_compute; reflexivity).
  assert (Hopen : i_resolved_at <$> t_incidents (w_tables (sn_store ex_beside)) !! n_incident_id ex_page2 = Some None)
    by (vm_compute; reflexivity).
  assert (Hpassed : null_le (n_next_attempt_at ex_page2)
    (@timestamptz calm_env (@now_at calm_env (w_tick ex_two_open))) = true) by (vm_compute; reflexivity).
  pose proof (@due_page_waits_its_turn calm_env ex_ticking ex_refusing (fun _ => eq_refl) ex_refusing_texts
    (fun _ => eq_refl) ex_forward ex_spaced 2%Z ex_page2 ex_gaps (MkSenderState ex_two_open [] 0)) as Hturn.
  destruct Hturn as (n' & _ & [[_ Hsent]|[_ (i & Hi & Hover)]]).
  - eapply (@steps_wf calm_env); [apply (@exec_store_steps calm_env)|exact empty_world_wf].
  - repeat constructor.
  - exact Hl.
  - split; [vm_compute; reflexivity|]. eexists. split; [vm_compute; reflexivity|]. vm_compute. discriminate.
  - intros j Hj. eapply null_le_mono; [|exact Hpassed]. apply ex_clock, Hj.
  - intros m. vm_compute. reflexivity.
  - intros k' n' Hl' Hlive. cbn [sn_store]. rewrite Hsize.
    destruct (pages_fit_patient 2 (MkSenderState ex_two_open [] 0) Hfit k' n' Hl' Hlive) as [H1 H2].
    cbn [sn_tick] in H2. clear - H1 H2. lia.
  - cbn [sn_store]. rewrite Hsize. cbn [length ex_gaps]. lia.
  - exact Hsent.
  - exfalso. apply Hover. change (@beside calm_env ex_ticking ex_refusing ex_gaps _) with ex_beside in Hi.
    rewrite Hi in Hopen. clear -Hopen. by injection Hopen.
Defined.
