(* ===== verification/Batcher.v ===== *)
(** cmd/wacht-probe/result_batcher.go, with [IsRetryablePostResultsError] of
    internal/api/probe/client.go: the probe's buffer of results.

    A flush takes a batch, uploads it without the lock and then settles it; what
    the workers do to the buffer during the upload is the argument [during].  An
    upload's error is what [errors.As] finds in its chain. *)

From S2P Require Import Prelude GoStrings Types.

Definition defaultResultBatchMaxSize : Z := 64.
Definition defaultResultPendingMaxBatches : Z := 16.

(** A [*ResponseError] with its status code, or any other error. *)
Inductive PostError := ResponseError (status : Z) | OtherError.

Definition IsRetryablePostResultsError (err : option PostError) : bool :=
  match err with
  | None => false
  | Some (ResponseError status) =>
      (status =? 408)%Z || (status =? 425)%Z || (status =? 429)%Z || (500 <=? status)%Z
  | Some OtherError => true
  end.

Record resultBatcher := MkBatcher {
  b_maxBatchSize : Z;
  b_maxPending : Z;
  b_pending : list CheckResult;
  b_closed : bool;
  b_wakeFlush : bool   (** the channel of capacity one holds a token *)
}.

Definition set_pending (p : list CheckResult) (b : resultBatcher) : resultBatcher :=
  MkBatcher (b_maxBatchSize b) (b_maxPending b) p (b_closed b) (b_wakeFlush b).

Definition newResultBatcher (maxBatchSize : Z) : resultBatcher :=
  let maxBatchSize := if (maxBatchSize <=? 0)%Z then defaultResultBatchMaxSize else maxBatchSize in
  let maxPending := wrap64 (maxBatchSize * defaultResultPendingMaxBatches) in
  let maxPending := if (maxPending <? maxBatchSize)%Z then maxBatchSize else maxPending in
  MkBatcher maxBatchSize maxPending [] false false.

Definition pendingCount (b : resultBatcher) : Z := Z.of_nat (length (b_pending b)).

Definition signalFlush (b : resultBatcher) : resultBatcher :=
  MkBatcher (b_maxBatchSize b) (b_maxPending b) (b_pending b) (b_closed b) true.

Definition signal_if_full (b : resultBatcher) : resultBatcher :=
  if (b_maxBatchSize b <=? pendingCount b)%Z then signalFlush b else b.

(** The number of dropped results, and the batcher. *)
Definition trimPendingLocked (b : resultBatcher) : Z * resultBatcher :=
  if (b_maxPending b <=? 0)%Z || (pendingCount b <=? b_maxPending b)%Z then (0%Z, b)
  else
    let dropped := (pendingCount b - b_maxPending b)%Z in
    (dropped, set_pending (drop (Z.to_nat dropped) (b_pending b)) b).

Definition Enqueue (result : CheckResult) (b : resultBatcher) : resultBatcher :=
  if b_closed b then b
  else
    let '(dropped, b) := trimPendingLocked (set_pending (b_pending b ++ [result]) b) in
    signal_if_full b.

Definition Close (b : resultBatcher) : resultBatcher :=
  MkBatcher (b_maxBatchSize b) (b_maxPending b) (b_pending b) true (b_wakeFlush b).

Definition takeBatch (b : resultBatcher) : list CheckResult * resultBatcher :=
  if bool_decide (length (b_pending b) = 0) then ([], b)
  else
    let size := pendingCount b in
    let size := if (b_maxBatchSize b <? size)%Z then b_maxBatchSize b else size in
    (take (Z.to_nat size) (b_pending b), set_pending (drop (Z.to_nat size) (b_pending b)) b).

Definition requeue (batch : list CheckResult) (b : resultBatcher) : Z * resultBatcher :=
  trimPendingLocked (set_pending (batch ++ b_pending b) b).

(** The part of [flushOne] after the upload; the result is [flushed]. *)
Definition settle (batch : list CheckResult) (err : option PostError) (b : resultBatcher)
    : bool * resultBatcher :=
  match err with
  | Some _ =>
      if IsRetryablePostResultsError err then (false, (requeue batch b).2)
      else (true, signal_if_full b)
  | None => (true, signal_if_full b)
  end.

(** [(hadBatch, flushed)] and the batcher. *)
Definition flushOne (post : list CheckResult -> option PostError)
    (during : resultBatcher -> resultBatcher) (b : resultBatcher) : (bool * bool) * resultBatcher :=
  let '(batch, b) := takeBatch b in
  if bool_decide (length batch = 0) then ((false, true), b)
  else let '(flushed, b) := settle batch (post batch) (during b) in ((true, flushed), b).

(** The loop, for at most [fuel] rounds; [None] is a loop that goes on.  [post n]
    answers upload [n]. *)
Fixpoint flushPendingForShutdown (fuel : nat) (post : nat -> list CheckResult -> option PostError)
    (b : resultBatcher) : option resultBatcher :=
  match fuel with
  | 0 => None
  | S fuel =>
      let '((hadBatch, flushed), b) := flushOne (post 0) (fun b => b) b in
      if negb hadBatch || negb flushed then Some b
      else flushPendingForShutdown fuel (fun n => post (S n)) b
  end.

(** * The loop *)

(** What the loop's select takes, and what other goroutines do between rounds. *)
Inductive LoopEvent :=
| LoopTick
| LoopWake
| LoopStop
| OtherEnqueue (result : CheckResult)
| OtherClose.

(** [<-b.wakeFlush]. *)
Definition receive_wake (b : resultBatcher) : resultBatcher :=
  MkBatcher (b_maxBatchSize b) (b_maxPending b) (b_pending b) (b_closed b) false.

(** Whether the loop has returned, and the batcher; [None] for a case that is not
    ready.  [post n] answers upload [n] and [during n] is what the workers do
    meanwhile. *)
Fixpoint loop (post : nat -> list CheckResult -> option PostError) (during : nat -> resultBatcher -> resultBatcher)
    (events : list LoopEvent) (n : nat) (b : resultBatcher) : option (bool * resultBatcher) :=
  match events with
  | [] => Some (false, b)
  | LoopTick :: events => loop post during events (S n) (flushOne (post n) (during n) b).2
  | LoopWake :: events =>
      if b_wakeFlush b then loop post during events (S n) (flushOne (post n) (during n) (receive_wake b)).2 else None
  | LoopStop :: _ =>
      if b_closed b then
        b ← flushPendingForShutdown (S (length (b_pending b))) (fun k => post (n + k)) b;
        Some (true, b)
      else None
  | OtherEnqueue result :: events => loop post during events n (Enqueue result b)
  | OtherClose :: events => loop post during events n (Close b)
  end.
