(* ===== verification/Executors.v ===== *)
(** internal/checks/http.go, tcp.go, dns.go and the HTTP client of
    internal/network/netguard.go: how a probe runs a check.

    What net/http does for a request is an [Exchange]: it opens connections
    through the client's transport, may be sent elsewhere, and ends with a status
    code or an error.  The resolver and the network answer by the number of the
    question, so two questions for the same name may be answered differently.  A
    run also gives the connection attempts it made.  [clock] holds the readings of
    [time.Now]: the timestamp, and the two that give the latency. *)

From S2P Require Import Prelude GoStrings GoTime GoNet ClientIP Types NetPolicy NetProperties Checks Batcher.
From stdpp Require Import pretty.

Definition Resolver : Type := string -> GoError + list IP.
Definition Attempts : Type := list (IP * Z).

(** * The HTTP client *)

Inductive Exchange (Conn : Type) :=
| Finish (res : GoError + Z)
| Dial (address : string) (next : GoError + Conn -> Exchange Conn)
| Redirected (status : Z) (follow : Exchange Conn).
Arguments Finish {Conn}.
Arguments Dial {Conn}.
Arguments Redirected {Conn}.

Record HTTPClient (Conn : Type) := MkHTTPClient {
  cl_Timeout : Duration;
  cl_DialContext : nat -> string -> (GoError + Conn) * Attempts;
  cl_CheckRedirect : bool   (** set, and then it returns [http.ErrUseLastResponse] *)
}.
Arguments MkHTTPClient {Conn}.
Arguments cl_Timeout {Conn}.
Arguments cl_DialContext {Conn}.
Arguments cl_CheckRedirect {Conn}.

Section client.
Context {Conn : Type} (lookups : nat -> Resolver) (dials : nat -> IP -> Z -> GoError + Conn).

Definition NewHTTPClient (p : Policy) (timeout : Duration) (followRedirects : bool) : HTTPClient Conn :=
  MkHTTPClient timeout (fun n address => DialContext (lookups n) (dials n) p address) (negb followRedirects).

(** [client.Do]: the handler of an exchange; [n] connections were opened before. *)
Fixpoint Do (client : HTTPClient Conn) (n : nat) (x : Exchange Conn) : (GoError + Z) * Attempts :=
  match x with
  | Finish res => (res, [])
  | Dial address next =>
      let '(conn, tried) := cl_DialContext client n address in
      let '(res, tried') := Do client (S n) (next conn) in
      (res, tried ++ tried')
  | Redirected status follow => if cl_CheckRedirect client then (inr status, []) else Do client n follow
  end.
End client.

(** * Executors *)

Record Clock := MkClock { clk_now : Time; clk_start : Time; clk_end : Time }.
Definition time_Since (clock : Clock) : Duration := time_Sub (clk_end clock) (clk_start clock).

(** [result.Up = false; result.Error = ...]. *)
Definition failed (result : CheckResult) (error : string) : CheckResult :=
  MkCheckResult (cr_CheckID result) (cr_CheckName result) (cr_ProbeID result) (cr_Type result)
    (cr_Target result) false (cr_Latency result) error (cr_Timestamp result).
Definition succeeded (result : CheckResult) : CheckResult :=
  MkCheckResult (cr_CheckID result) (cr_CheckName result) (cr_ProbeID result) (cr_Type result)
    (cr_Target result) true (cr_Latency result) (cr_Error result) (cr_Timestamp result).
Definition with_latency (latency : Duration) (result : CheckResult) : CheckResult :=
  MkCheckResult (cr_CheckID result) (cr_CheckName result) (cr_ProbeID result) (cr_Type result)
    (cr_Target result) (cr_Up result) latency (cr_Error result) (cr_Timestamp result).

(** The literal with which the executors begin. *)
Definition new_result (type checkID probeID target : string) (clock : Clock) : CheckResult :=
  MkCheckResult checkID "" probeID type target false 0 "" (UTC (clk_now clock)).

(** * Workers *)

(** [time.NewTicker(time.Duration(seconds) * time.Second)]: the period, or a panic. *)
Definition ticker_period (seconds : Z) : option Duration :=
  let d := wrap64 (seconds * Second) in if (d <=? 0)%Z then None else Some d.

(** The goroutine of a worker that is cancelled after [ticks] ticks: [run n] is
    its run number [n], [meanwhile n] what the rest of the probe does to the buffer
    before tick [n].  [None] is a panic. *)
Definition startRuntimeWorker (run : nat -> option resultBatcher -> option resultBatcher * Attempts)
    (meanwhile : nat -> option resultBatcher -> option resultBatcher) (check : ProbeCheck) (ticks : nat)
    (sink : option resultBatcher) : option (option resultBatcher * Attempts) :=
  let first := run 0 sink in
  _ ← ticker_period (pc_Interval check);
  Some (fold_left (fun '(sink, attempts) n =>
          let '(sink, more) := run n (meanwhile n sink) in (sink, attempts ++ more)) (seq 1 ticks) first).

(** * Running a check *)

Section executors.
Context {Conn : Type} (parse_url : string -> GoError + URL) (get : string -> Exchange Conn)
        (lookups : nat -> Resolver) (dials : nat -> IP -> Z -> GoError + Conn) (clock : Clock) (policy : Policy).

(** [http.NewRequestWithContext] with a fixed method and body fails exactly where
    [url.Parse] does. *)
Definition HTTP (checkID probeID target : string) : CheckResult * Attempts :=
  let result := new_result "http" checkID probeID target clock in
  match ParseHTTPURLTarget parse_url target with
  | inl err => (failed result (error_text err), [])
  | inr _ =>
      let client := NewHTTPClient lookups dials policy (10 * Second) true in
      match parse_url target with
      | inl err => (failed result (error_text err), [])
      | inr _ =>
          let '(resp, attempts) := Do client 0 (get target) in
          let result := with_latency (time_Since clock) result in
          match resp with
          | inl err => (failed result (error_text err), attempts)
          | inr status =>
              if (200 <=? status)%Z && (status <? 400)%Z then (succeeded result, attempts)
              else (failed result ("unexpected status code: " +:+ pretty status), attempts)
          end
      end
  end.

Definition TCP (checkID probeID target : string) : CheckResult * Attempts :=
  let result := new_result "tcp" checkID probeID target clock in
  match ParseTCPAddressTarget target with
  | inl err => (failed result (error_text err), [])
  | inr _ =>
      let '(conn, attempts) := DialContext (lookups 0) (dials 0) policy target in
      let result := with_latency (time_Since clock) result in
      match conn with
      | inl err => (failed result (error_text err), attempts)
      | inr _ => (succeeded result, attempts)
      end
  end.

(** The loop over the answer. *)
Fixpoint dns_addrs (ips : list IP) : GoError + list string :=
  match ips with
  | [] => inr []
  | ip :: ips =>
      match ValidateIP policy ip with
      | Some err => inl err
      | None =>
          match dns_addrs ips with
          | inl err => inl err
          | inr addrs => inr (IP_String ip :: addrs)
          end
      end
  end.

Definition lookupDNSHost (lookup : Resolver) (host : string) : GoError + list string :=
  match lookup (trim_last 46 host) with
  | inl err => inl err
  | inr ips => dns_addrs ips
  end.

Definition DNS (checkID probeID target : string) : CheckResult * Attempts :=
  let result := new_result "dns" checkID probeID target clock in
  match ParseDNSHostnameTarget target with
  | inl err => (failed result (error_text err), [])
  | inr host =>
      let result := with_latency (time_Since clock) result in
      match lookupDNSHost (lookups 0) host with
      | inl err => (failed result (error_text err), [])
      | inr addrs =>
          if bool_decide (length addrs = 0) then (failed result "no addresses resolved", [])
          else (succeeded result, [])
      end
  end.

Definition DNSExpect (checkID probeID target expectedAddr : string) : CheckResult :=
  let result := (DNS checkID probeID target).1 in
  if negb (cr_Up result) then result
  else match ParseDNSHostnameTarget target with
  | inl err => failed result (error_text err)
  | inr host =>
      match lookupDNSHost (lookups 1) host with
      | inl err => failed result (error_text err)
      | inr addrs =>
          if bool_decide (expectedAddr ∈ addrs) then result
          else failed result ("expected address " +:+ expectedAddr +:+ " not found in DNS response")
      end
  end.

(** [sink] is the probe's buffer, [None] where there is none. *)
Definition runAndQueue (probeID : string) (sink : option resultBatcher) (check : ProbeCheck)
    : option resultBatcher * Attempts :=
  let run :=
    if pc_Type check == "http" then Some HTTP
    else if pc_Type check == "tcp" then Some TCP
    else if pc_Type check == "dns" then Some DNS else None in
  match run with
  | None => (sink, [])
  | Some run =>
      let '(result, attempts) := run (pc_ID check) probeID (pc_Target check) in
      let result := MkCheckResult (pc_ID check) (pc_Name check) (cr_ProbeID result) (cr_Type result)
        (cr_Target result) (cr_Up result) (cr_Latency result) (cr_Error result) (cr_Timestamp result) in
      match sink with
      | None => (None, attempts)
      | Some buffer => (Some (Enqueue result buffer), attempts)
      end
  end.

(** * What a run may reach *)

Lemma Do_attempts_allowed p timeout follow x : forall n ip port,
  (ip, port) ∈ (Do (NewHTTPClient lookups dials p timeout follow) n x).2 ->
  (1 <= port <= 65535)%Z /\ ValidateIP p ip = None.
Proof.
  induction x as [res|address next IH|status x IH]; intros n ip port; cbn [Do].
  - by intros ?%not_elem_of_nil.
  - change (cl_DialContext _ n address) with (DialContext (lookups n) (dials n) p address).
    pose proof (dial_attempts_allowed (lookups n) (dials n) p address ip port) as Hd.
    destruct (DialContext _ _ _ _) as [conn tried]. specialize (IH conn (S n) ip port).
    destruct (Do _ _ _) as [res tried']. cbn [snd] in *. rewrite elem_of_app. naive_solver.
  - destruct (cl_CheckRedirect _); [by intros ?%not_elem_of_nil|apply IH].
Qed.

(** * Verdicts *)

(** What makes a target of each type count as up. *)
Inductive reachable (target : string) : string -> Prop :=
| reachable_http status :
    (Do (NewHTTPClient lookups dials policy (10 * Second) true) 0 (get target)).1 = inr status ->
    (200 <= status < 400)%Z -> reachable target "http"
| reachable_tcp conn :
    (DialContext (lookups 0) (dials 0) policy target).1 = inr conn -> reachable target "tcp"
| reachable_dns host ips :
    ParseDNSHostnameTarget target = inr host -> lookups 0 (trim_last 46 host) = inr ips -> ips <> [] ->
    Forall (fun ip => ValidateIP policy ip = None) ips -> reachable target "dns".

(** The targets the executor of a type understands. *)
Definition well_formed_target (type target : string) : Prop :=
  (type = "http" /\ exists u, ParseHTTPURLTarget parse_url target = inr u) \/
  (type = "tcp" /\ exists hp, ParseTCPAddressTarget target = inr hp) \/
  (type = "dns" /\ exists host, ParseDNSHostnameTarget target = inr host).

Definition allowed (attempts : Attempts) : Prop :=
  forall ip port, (ip, port) ∈ attempts -> (1 <= port <= 65535)%Z /\ ValidateIP policy ip = None.

(** A result of the named check that is up exactly if the target is reachable. *)
Definition sound_result (type checkID probeID target : string) (r : CheckResult) : Prop :=
  cr_CheckID r = checkID /\ cr_ProbeID r = probeID /\ cr_Type r = type /\ cr_Target r = target /\
  cr_Timestamp r = clk_now clock /\ (cr_Up r = true <-> reachable target type) /\
  (cr_Up r = true -> cr_Error r = "").

Lemma HTTP_sound checkID probeID target u :
  ParseHTTPURLTarget parse_url target = inr u ->
  let '(r, attempts) := HTTP checkID probeID target in
  sound_result "http" checkID probeID target r /\ allowed attempts.
Proof.
  intros Hu. unfold HTTP, sound_result, allowed. cbv zeta. rewrite Hu.
  assert (exists v, parse_url target = inr v) as [v ->].
  { unfold ParseHTTPURLTarget in Hu. destruct (parse_url target); [done|eauto]. }
  pose proof (Do_attempts_allowed policy (10 * Second) true (get target) 0) as Ha.
  destruct (Do _ _ _) as [[err|status] attempts] eqn:Hrun; [|destruct (_ && _) eqn:Hs];
    (split; [|exact Ha]); split_and!; try done.
  - split; [done|]. inversion 1; rewrite Hrun in *; simplify_eq/=.
  - split; [|done]. intros _. econstructor; [by rewrite Hrun|]. lia.
  - split; [done|]. inversion 1; rewrite Hrun in *; simplify_eq/=. lia.
Qed.

Lemma TCP_sound checkID probeID target hp :
  ParseTCPAddressTarget target = inr hp ->
  let '(r, attempts) := TCP checkID probeID target in
  sound_result "tcp" checkID probeID target r /\ allowed attempts.
Proof.
  intros Hu. unfold TCP, sound_result, allowed. cbv zeta. rewrite Hu.
  pose proof (dial_attempts_allowed (lookups 0) (dials 0) policy target) as Ha.
  destruct (DialContext _ _ _ _) as [[err|conn] attempts] eqn:Hrun; (split; [|exact Ha]); split_and!; try done.
  - split; [done|]. inversion 1; rewrite Hrun in *; simplify_eq/=.
  - split; [|done]. intros _. econstructor. by rewrite Hrun.
Qed.

Lemma dns_addrs_spec ips :
  match dns_addrs ips with
  | inr addrs => addrs = IP_String <$> ips /\ Forall (fun ip => ValidateIP policy ip = None) ips
  | inl _ => ~ Forall (fun ip => ValidateIP policy ip = None) ips
  end.
Proof.
  induction ips as [|ip ips IH]; simpl; [by split|].
  destruct (ValidateIP policy ip) eqn:Hv; [by intros [E _]%list.Forall_cons; rewrite E in Hv|].
  destruct (dns_addrs ips) as [e|addrs].
  - by intros [_ H]%list.Forall_cons.
  - destruct IH as [-> H]. split; [done|]. by constructor.
Qed.

Lemma DNS_sound checkID probeID target host :
  ParseDNSHostnameTarget target = inr host ->
  let '(r, attempts) := DNS checkID probeID target in
  sound_result "dns" checkID probeID target r /\ attempts = [].
Proof.
  intros Hu. unfold DNS, sound_result, lookupDNSHost. cbv zeta. rewrite Hu.
  destruct (lookups 0 (trim_last 46 host)) as [err|ips] eqn:Hl.
  { split; [|done]. split_and!; try done. split; [done|]. inversion 1. congruence. }
  pose proof (dns_addrs_spec ips) as Hs. destruct (dns_addrs ips) as [err|addrs].
  { split; [|done]. split_and!; try done. split; [done|]. inversion 1 as [| |host' ips' Hp Hi Hn Hf].
    rewrite Hu in Hp. injection Hp as <-. rewrite Hl in Hi. by injection Hi as <-. }
  destruct Hs as [-> Hall]. rewrite length_fmap. case_bool_decide as Hn; (split; [|done]); split_and!; try done.
  - split; [done|]. apply length_zero_iff_nil in Hn. inversion 1. congruence.
  - split; [|done]. intros _. apply (reachable_dns _ host ips); [done|done|by intros ->|done].
Qed.

(** A well-formed target is run by the executor of its type. *)
Lemma run_sound probeID buffer check :
  well_formed_target (pc_Type check) (pc_Target check) ->
  exists r attempts, runAndQueue probeID (Some buffer) check = (Some (Enqueue r buffer), attempts) /\
    allowed attempts /\ cr_CheckName r = pc_Name check /\
    sound_result (pc_Type check) (pc_ID check) probeID (pc_Target check) r.
Proof.
  unfold runAndQueue. cbv zeta. intros [[-> [u Hu]]|[[-> [u Hu]]|[-> [u Hu]]]]; simpl.
  - pose proof (HTTP_sound (pc_ID check) probeID (pc_Target check) u Hu) as Hs.
    destruct (HTTP _ _ _) as [r attempts]. destruct Hs as [Hr Ha]. eexists _, attempts. split; [done|]. split; [done|].
    split; [done|]. unfold sound_result in *. simpl. naive_solver.
  - pose proof (TCP_sound (pc_ID check) probeID (pc_Target check) u Hu) as Hs.
    destruct (TCP _ _ _) as [r attempts]. destruct Hs as [Hr Ha]. eexists _, attempts. split; [done|]. split; [done|].
    split; [done|]. unfold sound_result in *. simpl. naive_solver.
  - pose proof (DNS_sound (pc_ID check) probeID (pc_Target check) u Hu) as Hs.
    destruct (DNS _ _ _) as [r attempts]. destruct Hs as [Hr ->]. eexists _, []. split; [done|].
    split; [by intros ?? ?%not_elem_of_nil|]. split; [done|]. unfold sound_result in *. simpl. naive_solver.
Qed.
End executors.

(** A validated target is well formed. *)
Lemma validated_target unicode_lower lookup parse_url t target p :
  ValidateCheckTarget lookup parse_url unicode_lower t target p = None ->
  well_formed_target parse_url (NormalizeCheckType unicode_lower t) target.
Proof.
  unfold ValidateCheckTarget, well_formed_target. cbv zeta.
  repeat case_bool_decide; intros Hv; [left|right; left|right; right|done]; (split; [done|]).
  - destruct (ParseHTTPURLTarget parse_url target); [done|eauto].
  - destruct (ParseTCPAddressTarget target) as [|hp]; [done|eauto].
  - destruct (ParseDNSHostnameTarget target); [done|eauto].
Qed.

Lemma accepted_target unicode_lower lookup parse_url policy requireName c c' :
  is_ascii (TrimSpace (ck_Type c)) = true ->
  NormalizeAndValidate unicode_lower lookup parse_url policy requireName c = inr c' ->
  well_formed_target parse_url (ck_Type c') (ck_Target c').
Proof.
  intros Ha Hrun. destruct (accepted_normal _ _ _ _ _ _ _ Hrun) as [-> Hv].
  apply validated_target in Hv. simpl in Hv |- *. by rewrite (normalize_type_idemp _ _ Ha) in Hv.
Qed.

(** C39. An accepted check is run and judged soundly.  Take a check with an ASCII
    type that the server's validation accepted, whatever its resolver answered.
    Whatever the network does later, a probe with a buffer queues exactly one
    result for it, under the check's own ID, name, type and target and the probe's
    ID; the result is up exactly if the target was reachable (a status from 200 to
    399, a connection, or at least one address, all of them permitted), and then
    carries no error; and the run connects, also when it is redirected, only to
    ports of TCP on addresses outside the blocks the probe's policy forbids. *)
Theorem accepted_check_is_judged {Conn} unicode_lower lookup parse_url policy requireName c c'
    (get : string -> Exchange Conn) lookups dials clock probe_policy probeID buffer :
  is_ascii (TrimSpace (ck_Type c)) = true ->
  NormalizeAndValidate unicode_lower lookup parse_url policy requireName c = inr c' ->
  exists r attempts,
    runAndQueue parse_url get lookups dials clock probe_policy probeID (Some buffer)
      (MkProbeCheck (ck_ID c') (ck_Name c') (ck_Type c') (ck_Target c') (ck_Interval c'))
      = (Some (Enqueue r buffer), attempts) /\
    cr_CheckID r = ck_ID c' /\ cr_CheckName r = ck_Name c' /\ cr_ProbeID r = probeID /\
    cr_Type r = ck_Type c' /\ cr_Target r = ck_Target c' /\
    (cr_Up r = true <-> reachable get lookups dials probe_policy (ck_Target c') (ck_Type c')) /\
    (cr_Up r = true -> cr_Error r = "") /\
    (forall ip port, (ip, port) ∈ attempts ->
       (1 <= port <= 65535)%Z /\ (is_ip ip -> outside probe_policy ip)).
Proof.
  intros Ha Hrun.
  pose proof (accepted_target _ _ _ _ _ _ _ Ha Hrun) as Hwf.
  destruct (run_sound parse_url get lookups dials clock probe_policy probeID buffer
    (MkProbeCheck (ck_ID c') (ck_Name c') (ck_Type c') (ck_Target c') (ck_Interval c')) Hwf)
    as (r & attempts & Hr & Hall & Hname & Hid & Hp & Ht & Htg & _ & Hup & Herr).
  exists r, attempts. split_and!; [done..|]. intros ip port Hin. destruct (Hall _ _ Hin) as [Hport Hip].
  split; [done|]. intros His. by apply validate_ip_blocks.
Qed.

(** * A worker *)

(** The results of a worker, queued one after the other. *)
Fixpoint queue (meanwhile : nat -> option resultBatcher -> option resultBatcher) (n : nat) (rs : list CheckResult)
    (sink : option resultBatcher) : option resultBatcher :=
  match rs with
  | [] => sink
  | r :: rs => queue meanwhile (S n) rs (Enqueue r <$> meanwhile n sink)
  end.

(** A worker for an accepted check never panics, and queues one result when it
    starts and one per tick, whatever its runs meet and the rest of the probe does. *)
Lemma worker_queues_every_tick {Conn} unicode_lower lookup parse_url policy requireName c c'
    (get : nat -> string -> Exchange Conn) lookups dials clock probe_policy probeID
    (meanwhile : nat -> option resultBatcher -> option resultBatcher) ticks buffer :
  is_ascii (TrimSpace (ck_Type c)) = true ->
  NormalizeAndValidate unicode_lower lookup parse_url policy requireName c = inr c' ->
  (forall n b, exists b', meanwhile n (Some b) = Some b') ->
  let check := MkProbeCheck (ck_ID c') (ck_Name c') (ck_Type c') (ck_Target c') (ck_Interval c') in
  exists r rs attempts,
    startRuntimeWorker (fun n sink => runAndQueue parse_url (get n) (lookups n) (dials n) (clock n) probe_policy probeID sink check)
      meanwhile check ticks (Some buffer) = Some (queue meanwhile 1 rs (Some (Enqueue r buffer)), attempts) /\
    length rs = ticks /\
    Forall (fun r => cr_CheckID r = ck_ID c' /\ cr_CheckName r = ck_Name c' /\ cr_ProbeID r = probeID /\
                     cr_Target r = ck_Target c') (r :: rs).
Proof.
  intros Ha Hrun Hm check.
  assert (Hone : forall n b, exists r attempts,
    runAndQueue parse_url (get n) (lookups n) (dials n) (clock n) probe_policy probeID (Some b) check = (Some (Enqueue r b), attempts) /\
    cr_CheckID r = ck_ID c' /\ cr_CheckName r = ck_Name c' /\ cr_ProbeID r = probeID /\ cr_Target r = ck_Target c').
  { intros n b. destruct (run_sound parse_url (get n) (lookups n) (dials n) (clock n) probe_policy probeID b check
      (accepted_target _ _ _ _ _ _ _ Ha Hrun)) as (r & attempts & Hr & _ & Hname & Hid & Hp & _ & Htg & _).
    by exists r, attempts. }
  assert (Hper : exists d, ticker_period (pc_Interval check) = Some d).
  { pose proof (accepted_interval _ _ _ _ _ _ _ Hrun) as Hi. unfold ticker_period. cbn [pc_Interval check].
    rewrite wrap64_id by (unfold Second, MaxInterval in *; lia).
    destruct (Z.leb_spec (ck_Interval c' * Second) 0); [unfold Second in *; lia|by eexists]. }
  destruct Hper as [d Hd]. unfold startRuntimeWorker. cbv beta zeta. rewrite Hd. cbn [mbind option_bind].
  destruct (Hone 0%nat buffer) as (r & att & E & Hr). rewrite E. exists r.
  assert (Hloop : forall ticks n b att, exists rs att',
    fold_left (fun '(sink, attempts) n => let '(sink, more) :=
        runAndQueue parse_url (get n) (lookups n) (dials n) (clock n) probe_policy probeID (meanwhile n sink) check in
        (sink, attempts ++ more)) (seq n ticks) (Some b, att) = (queue meanwhile n rs (Some b), att') /\
    length rs = ticks /\ Forall (fun r => cr_CheckID r = ck_ID c' /\ cr_CheckName r = ck_Name c' /\
      cr_ProbeID r = probeID /\ cr_Target r = ck_Target c') rs).
  { clear -Hone Hm. induction ticks as [|ticks IH]; intros n b att; [by exists [], att|]. cbn [seq fold_left].
    destruct (Hm n b) as [b' E']. rewrite E'. destruct (Hone n b') as (r & more & E & Hr). rewrite E.
    destruct (IH (S n) (Enqueue r b') (att ++ more)) as (rs & att' & Hf & Hl & Hall). exists (r :: rs), att'.
    split_and!; [|simpl; congruence|by constructor]. rewrite Hf. cbn [queue]. by rewrite E'. }
  destruct (Hloop ticks 1%nat (Enqueue r buffer) att) as (rs & att' & Hf & Hl & Hall).
  exists rs, att'. split_and!; [f_equal; exact Hf|done|by constructor].
Qed.

(** * A run *)

Definition ex_clock : Clock := MkClock 0 5 9.
(** The site redirects once, to a name that resolves to a private address. *)
Definition ex_get (target : string) : Exchange Z :=
  Dial "site.example:443" (fun conn =>
    match conn with
    | inl err => Finish (inl err)
    | inr _ => Redirected 302 (Dial "intranet.example:80" (fun conn =>
        match conn with inl err => Finish (inl err) | inr _ => Finish (inr 200%Z) end))
    end).
Definition ex_lookups (n : nat) (host : string) : GoError + list IP :=
  if host == "intranet.example" then inr [[10; 0; 0; 1]%Z] else inr [[93; 184; 216; 34]%Z].
Definition ex_dials (n : nat) (ip : IP) (port : Z) : GoError + Z := inr port.
Definition ex_accepted : Check := NewCheck "web" "http" "https://site.example/health" "" 30.

(** The redirect is refused, and the check is down. *)
Lemma accepted_check_is_judged_witness :
  exists r attempts,
    runAndQueue ex_url ex_get ex_lookups ex_dials ex_clock (MkPolicy false) "p" (Some (newResultBatcher 64))
      (MkProbeCheck "" "web" "http" "https://site.example/health" 30)
      = (Some (Enqueue r (newResultBatcher 64)), attempts) /\ cr_CheckName r = "web" /\
    cr_Up r = false /\ attempts = [([93; 184; 216; 34]%Z, 443%Z)].
Proof.
  assert (Ha : is_ascii (TrimSpace (ck_Type ex_definition)) = true) by (vm_compute; reflexivity).
  assert (Hr : NormalizeAndValidate (fun r => r) ex_dns ex_url (MkPolicy false) true ex_definition =
    inr ex_accepted) by (vm_compute; reflexivity).
  destruct (accepted_check_is_judged (fun r => r) ex_dns ex_url (MkPolicy false) true ex_definition ex_accepted
    ex_get ex_lookups ex_dials ex_clock (MkPolicy false) "p" (newResultBatcher 64) Ha Hr)
    as (r & attempts & Hrun & _ & Hname & _ & _ & _ & Hup & _ & _).
  exists r, attempts. split; [exact Hrun|]. split; [exact Hname|]. split.
  - destruct (cr_Up r); [|reflexivity]. destruct (proj1 Hup eq_refl) as [status Hs _|conn Hc|host ips Hc _ _ _];
      vm_compute in *; discriminate.
  - assert (E : (runAndQueue ex_url ex_get ex_lookups ex_dials ex_clock (MkPolicy false) "p" (Some (newResultBatcher 64))
      (MkProbeCheck "" "web" "http" "https://site.example/health" 30)).2 = [([93; 184; 216; 34]%Z, 443%Z)])
      by (vm_compute; reflexivity).
    cbn [ex_accepted NewCheck ck_ID ck_Name ck_Type ck_Target ck_Interval] in Hrun.
    rewrite Hrun in E. exact E.
Defined.
