(* ===== verification/BatcherProperties.v ===== *)
(** What the probe's buffer promises: it is bounded, loses only the oldest
    results, keeps the order, and shutdown ends. *)

From S2P Require Import Prelude GoStrings Types Batcher.

(** Sizes are positive, a full batch fits, and the buffer is within its bound. *)
Definition batcher_ok (b : resultBatcher) : Prop :=
  (0 < b_maxBatchSize b <= b_maxPending b)%Z /\ (pendingCount b <= b_maxPending b)%Z.

Lemma newResultBatcher_ok size : (- 2 ^ 63 <= size < 2 ^ 63)%Z -> batcher_ok (newResultBatcher size).
Proof.
  intros Hs. unfold newResultBatcher, batcher_ok, pendingCount, defaultResultBatchMaxSize. simpl.
  repeat case_match; lia.
Qed.

Definition same_limits (b b' : resultBatcher) : Prop :=
  b_maxBatchSize b' = b_maxBatchSize b /\ b_maxPending b' = b_maxPending b.

(** Trimming drops from the front and leaves no more than the bound. *)
Lemma trim_spec b :
  let '(dropped, b') := trimPendingLocked b in
  b_pending b' = drop (Z.to_nat dropped) (b_pending b) /\ same_limits b b' /\
  ((0 < b_maxPending b)%Z -> (pendingCount b' <= b_maxPending b)%Z).
Proof.
  unfold trimPendingLocked. destruct (_ || _) eqn:Hc.
  - split_and!; [done|done|]. intros Hp. lia.
  - split_and!; [done|done|]. intros Hp. unfold pendingCount in *. simpl. rewrite length_drop. lia.
Qed.

(** * The buffer between its workers and its flush loop *)

(** The buffer, the batch being uploaded, and what became of the results. *)
Record Buffer := MkBuffer {
  bf_batcher : resultBatcher;
  bf_flight : list CheckResult;
  bf_accepted : list CheckResult;
  bf_delivered : list CheckResult;
  bf_lost : list CheckResult
}.

Inductive BufferOp :=
| BufEnqueue (result : CheckResult)
| BufTake
| BufSettle (err : option PostError)
| BufClose.

(** One critical section of a worker or of [flushOne]. *)
Definition exec_buffer (op : BufferOp) (s : Buffer) : Buffer :=
  let b := bf_batcher s in
  match op with
  | BufEnqueue x =>
      if b_closed b then MkBuffer (Enqueue x b) (bf_flight s) (bf_accepted s) (bf_delivered s) (bf_lost s)
      else
        let dropped := (trimPendingLocked (set_pending (b_pending b ++ [x]) b)).1 in
        MkBuffer (Enqueue x b) (bf_flight s) (bf_accepted s ++ [x]) (bf_delivered s)
          (bf_lost s ++ take (Z.to_nat dropped) (b_pending b ++ [x]))
  | BufTake =>
      match bf_flight s with
      | [] => let '(batch, b') := takeBatch b in
              MkBuffer b' batch (bf_accepted s) (bf_delivered s) (bf_lost s)
      | _ :: _ => s
      end
  | BufSettle err =>
      match bf_flight s with
      | [] => s
      | batch =>
          let b' := (settle batch err b).2 in
          match err with
          | None => MkBuffer b' [] (bf_accepted s) (bf_delivered s ++ batch) (bf_lost s)
          | Some _ =>
              MkBuffer b' [] (bf_accepted s) (bf_delivered s)
                (bf_lost s ++ if IsRetryablePostResultsError err
                              then take (Z.to_nat (requeue batch b).1) (batch ++ b_pending b)
                              else batch)
          end
      end
  | BufClose => MkBuffer (Close b) (bf_flight s) (bf_accepted s) (bf_delivered s) (bf_lost s)
  end.

Inductive buffer_step : Buffer -> Buffer -> Prop :=
| buffer_step_op op s : buffer_step s (exec_buffer op s).

Definition new_buffer (size : Z) : Buffer := MkBuffer (newResultBatcher size) [] [] [] [].

(** Every accepted result is in one place, and those not lost are in order. *)
Definition accounted (s : Buffer) : Prop :=
  bf_accepted s ≡ₚ bf_delivered s ++ bf_lost s ++ bf_flight s ++ b_pending (bf_batcher s) /\
  sublist (bf_delivered s ++ bf_flight s ++ b_pending (bf_batcher s)) (bf_accepted s).

Definition buffer_ok (s : Buffer) : Prop :=
  batcher_ok (bf_batcher s) /\
  (Z.of_nat (length (bf_flight s)) <= b_maxBatchSize (bf_batcher s))%Z /\ accounted s.

(** The front of what is waiting is lost, the rest stays. *)
Lemma accounted_drop (acc del lost fl pend : list CheckResult) d :
  acc ≡ₚ del ++ lost ++ fl ++ pend -> sublist (del ++ fl ++ pend) acc ->
  acc ≡ₚ del ++ (lost ++ take d (fl ++ pend)) ++ drop d (fl ++ pend) /\
  sublist (del ++ drop d (fl ++ pend)) acc.
Proof.
  intros Hp Hs. split.
  - rewrite <-app_assoc, take_drop. exact Hp.
  - etransitivity; [|exact Hs]. apply sublist_app; [done|apply sublist_drop].
Qed.

Lemma take_batch_spec b :
  (0 < b_maxBatchSize b)%Z ->
  let '(batch, b') := takeBatch b in
  b_pending b = batch ++ b_pending b' /\ same_limits b b' /\
  (Z.of_nat (length batch) <= b_maxBatchSize b)%Z /\ (batch = [] -> b_pending b = []).
Proof.
  intros Hm. unfold takeBatch. case_bool_decide as Hl.
  - split_and!; [done|done|simpl; lia|]. intros _. by apply length_zero_iff_nil.
  - simpl. rewrite take_drop. unfold pendingCount. split_and!; [done|done| |].
    + rewrite length_take. case_match; lia.
    + intros He. apply (f_equal length) in He. rewrite length_take in He. simpl in He.
      revert He. case_match; lia.
Qed.

Lemma signal_same b :
  b_pending (signal_if_full b) = b_pending b /\ same_limits b (signal_if_full b).
Proof. unfold signal_if_full. by case_match. Qed.

(** * Steps *)

Lemma enqueue_ok x s : buffer_ok s -> buffer_ok (exec_buffer (BufEnqueue x) s).
Proof.
  intros ([Hlim Hlen] & Hfl & Hperm & Hsub). unfold exec_buffer, Enqueue.
  destruct (b_closed (bf_batcher s)) eqn:Hcl; [by split_and!|].
  set (b := bf_batcher s) in *. set (b1 := set_pending (b_pending b ++ [x]) b).
  pose proof (trim_spec b1) as Ht. destruct (trimPendingLocked b1) as [d b2].
  destruct Ht as (Hdrop & [H1 H2] & Hbound). simpl in Hdrop, H1, H2, Hbound.
  cbv zeta. destruct (signal_same b2) as [Hp [S1 S2]].
  unfold buffer_ok, batcher_ok, accounted. simpl. rewrite S1, S2, H1, H2, Hp, Hdrop.
  unfold pendingCount in *. rewrite Hp. rewrite Hdrop in Hbound |- *. split_and!; try lia.
  - rewrite Hperm, <-!app_assoc, <-(take_drop (Z.to_nat d) (b_pending b ++ [x])) at 1. solve_Permutation.
  - etransitivity; [|apply sublist_app; [exact Hsub|reflexivity]]. rewrite <-!app_assoc.
    apply sublist_app; [done|]. apply sublist_app; [done|]. apply sublist_drop.
Qed.

Lemma take_ok s : buffer_ok s -> buffer_ok (exec_buffer BufTake s).
Proof.
  intros ([Hlim Hlen] & Hfl & Hperm & Hsub). unfold exec_buffer.
  destruct (bf_flight s) eqn:Hf; [|by rewrite <-Hf in *]. set (b := bf_batcher s) in *.
  pose proof (take_batch_spec b (proj1 Hlim)) as Ht. destruct (takeBatch b) as [batch b'].
  destruct Ht as (Hsplit & [H1 H2] & Hsize & _).
  unfold buffer_ok, batcher_ok, accounted. simpl. rewrite H1, H2, <-Hsplit. simpl in *.
  unfold pendingCount in *. rewrite Hsplit, length_app in Hlen. split_and!; [lia..|done|done].
Qed.

Lemma settle_ok err s : buffer_ok s -> buffer_ok (exec_buffer (BufSettle err) s).
Proof.
  intros ([Hlim Hlen] & Hfl & Hperm & Hsub). unfold exec_buffer.
  destruct (bf_flight s) as [|y batch0] eqn:Hf; [by unfold buffer_ok, accounted; rewrite Hf|].
  set (batch := y :: batch0) in *. set (b := bf_batcher s) in *.
  destruct (signal_same b) as [Hp [S1 S2]]. unfold buffer_ok, batcher_ok, accounted, pendingCount in *.
  destruct err as [err|]; cbv zeta; cbn [settle].
  - destruct (IsRetryablePostResultsError (Some err)).
    + unfold requeue. pose proof (trim_spec (set_pending (batch ++ b_pending b) b)) as Ht.
      destruct (trimPendingLocked _) as [d b2]. destruct Ht as (Hdrop & [H1 H2] & Hbound).
      simpl in Hdrop, H1, H2, Hbound |- *. rewrite H1, H2, Hdrop.
      unfold pendingCount in Hbound. rewrite Hdrop in Hbound.
      destruct (accounted_drop _ _ _ _ _ (Z.to_nat d) Hperm Hsub) as [HP HS].
      split_and!; [lia..|exact HP|exact HS].
    + simpl. rewrite S1, S2, Hp. split_and!; [lia..| |].
      * rewrite Hperm. by rewrite <-!app_assoc.
      * etransitivity; [|exact Hsub]. apply sublist_app; [done|]. by apply sublist_inserts_l.
  - simpl. rewrite S1, S2, Hp. split_and!; [lia..| |by rewrite <-app_assoc].
    rewrite Hperm. solve_Permutation.
Qed.

Lemma close_ok s : buffer_ok s -> buffer_ok (exec_buffer BufClose s).
Proof. exact id. Qed.

Lemma exec_buffer_ok op s : buffer_ok s -> buffer_ok (exec_buffer op s).
Proof. destruct op; auto using enqueue_ok, take_ok, settle_ok, close_ok. Qed.

(** C23. The probe's result buffer, under any interleaving of its workers, its
    flush loop, upload outcomes and shutdown: it never holds more than its bound
    nor sends more than a batch, every accepted result is either delivered, or
    lost, or in flight, or waiting, and those that are not lost keep the order
    in which they were accepted. *)
Theorem buffer_accounts_for_results (size : Z) (s : Buffer)
    (Hsize : (- 2 ^ 63 <= size < 2 ^ 63)%Z) (Hreach : rtc buffer_step (new_buffer size) s) :
  buffer_ok s.
Proof.
  revert Hreach. apply (rtc_ind_r buffer_ok).
  - split; [by apply newResultBatcher_ok|]. split; [|done].
    change (0 <= b_maxBatchSize (newResultBatcher size))%Z. destruct (newResultBatcher_ok size Hsize) as [? _]. lia.
  - intros s1 s2 _ [op s']. apply exec_buffer_ok.
Qed.

(** * Shutdown *)

(** One round on a quiet buffer: nothing left, or a batch gone, or a batch put
    back where it was. *)
Lemma flush_one_spec post b :
  batcher_ok b ->
  let '((hadBatch, flushed), b') := flushOne post (fun b => b) b in
  batcher_ok b' /\
  if hadBatch then
    exists batch, batch <> [] /\ b_pending b = batch ++ b_pending (takeBatch b).2 /\
      flushed = negb (IsRetryablePostResultsError (post batch)) /\
      b_pending b' = if flushed then b_pending (takeBatch b).2 else b_pending b
  else flushed = true /\ b_pending b = [] /\ b_pending b' = [].
Proof.
  intros Hok. pose proof Hok as [Hlim Hlen]. unfold flushOne.
  pose proof (take_batch_spec b (proj1 Hlim)) as Ht. destruct (takeBatch b) as [batch b1].
  destruct Ht as (Hsplit & [H1 H2] & Hsize & Hnil).
  assert (Hok1 : batcher_ok b1).
  { unfold batcher_ok, pendingCount in *. rewrite Hsplit, length_app in Hlen. rewrite H1, H2. lia. }
  case_bool_decide as Hb; cbv beta iota.
  - apply length_zero_iff_nil in Hb. subst batch. rewrite Hnil in Hsplit |- * by done.
    by split; [|split; [|split]].
  - destruct (signal_same b1) as [Hp [S1 S2]].
    assert (Hne : batch <> []) by (by intros ->).
    assert (Hsig : batcher_ok (signal_if_full b1)).
    { unfold batcher_ok, pendingCount in *. by rewrite S1, S2, Hp. }
    unfold settle. destruct (post batch) as [err|] eqn:He; [|by split; [|exists batch; rewrite He]].
    destruct (IsRetryablePostResultsError (Some err)) eqn:Hr;
      [|by split; [|exists batch; rewrite He, Hr]].
    assert (Hq : requeue batch b1 = (0%Z, set_pending (b_pending b) b1)).
    { unfold requeue, trimPendingLocked, pendingCount in *. simpl. rewrite <-Hsplit, H2.
      by rewrite (proj2 (Z.leb_le _ _) Hlen), orb_true_r. }
    rewrite Hq. simpl. split; [|by exists batch; rewrite He, Hr].
    unfold batcher_ok, pendingCount in *. simpl. by rewrite H1, H2.
Qed.

(** C24. Shutdown ends: [flushPendingForShutdown] returns after at most one more
    round than there are waiting results, whatever the uploads answer.  What it
    leaves is the newest part of the buffer, and it leaves something only
    because an upload failed in a way that may be retried. *)
Theorem shutdown_flush_terminates (fuel : nat) (post : nat -> list CheckResult -> option PostError)
    (b : resultBatcher) (Hok : batcher_ok b) (Hfuel : length (b_pending b) < fuel) :
  exists b', flushPendingForShutdown fuel post b = Some b' /\
    (exists gone, b_pending b = gone ++ b_pending b') /\
    ((forall n batch, IsRetryablePostResultsError (post n batch) = false) -> b_pending b' = []).
Proof.
  revert post b Hok Hfuel. induction fuel as [|fuel IH]; intros post b Hok Hfuel; [lia|]. simpl.
  pose proof (flush_one_spec (post 0) b Hok) as Hone.
  destruct (flushOne _ _ _) as [[[] []] b1]; destruct Hone as [Hok1 Hone]; simpl.
  - destruct Hone as (batch & Hne & Hsplit & _ & Hp). rewrite <-Hp in Hsplit.
    destruct (IH (fun n => post (S n)) b1 Hok1) as (b' & Hrun & [gone Hgone] & Hall).
    { rewrite Hsplit, length_app in Hfuel. destruct batch; [done|simpl in Hfuel; lia]. }
    exists b'. split_and!; [done| |eauto]. exists (batch ++ gone). by rewrite <-app_assoc, <-Hgone.
  - destruct Hone as (batch & Hne & Hsplit & Hr & Hp). exists b1. split_and!; [done|by exists []|].
    intros Hall. by rewrite Hall in Hr.
  - destruct Hone as (_ & Hp & Hp'). exists b1. rewrite Hp, Hp'. by split_and!; [|exists []|].
  - by destruct Hone.
Qed.

(** * Backlogs *)

(** A round of a quiet loop whose upload is taken. *)
Lemma flush_taken b :
  batcher_ok b ->
  let b' := (flushOne (fun _ => None) (fun b => b) b).2 in
  batcher_ok b' /\ same_limits b b' /\ (exists gone, b_pending b = gone ++ b_pending b') /\
  (b_pending b = [] /\ b' = b \/
   length (b_pending b') < length (b_pending b) /\
   (b_wakeFlush b' = true \/ (pendingCount b' < b_maxBatchSize b)%Z)).
Proof.
  intros Hok. pose proof (flush_one_spec (fun _ => None) b Hok) as Hspec. revert Hspec. unfold flushOne.
  pose proof (take_batch_spec b (proj1 (proj1 Hok))) as Ht.
  destruct (takeBatch b) as [batch b1] eqn:Etake. destruct Ht as (Hsplit & [H1 H2] & _ & Hnil).
  case_bool_decide as Hb; cbn [snd settle]; intros [Hok' _].
  - apply length_zero_iff_nil in Hb. specialize (Hnil Hb). unfold takeBatch in Etake.
    rewrite Hnil, bool_decide_eq_true_2 in Etake by done. injection Etake as _ <-.
    split_and!; [done..|by exists []|by left].
  - pose proof (signal_same b1) as [Hp [S1 S2]]. 
    split; [done|]. split; [split; congruence|]. split; [exists batch; by rewrite Hp|]. right. rewrite Hp, Hsplit, length_app. split; [lia|]. unfold signal_if_full.
    destruct (Z.leb_spec (b_maxBatchSize b1) (pendingCount b1)); [by left|right; lia].
Qed.

(** A wake-up is pending whenever a whole batch is. *)
Definition awake (b : resultBatcher) : Prop := b_wakeFlush b = true \/ (pendingCount b < b_maxBatchSize b)%Z.

Lemma flush_awake b : batcher_ok b -> awake (flushOne (fun _ => None) (fun b => b) b).2.
Proof.
  intros Hok. destruct (flush_taken b Hok) as (_ & [L1 _] & _ & [[Hp E]|[_ Hw]]).
  - right. rewrite E. unfold pendingCount. rewrite Hp. simpl. apply Hok.
  - unfold awake. by rewrite L1.
Qed.

Lemma wakes_drain size : forall n b,
  length (b_pending b) <= size -> batcher_ok b -> awake b ->
  exists k b', k <= S size /\
    loop (fun _ _ => None) (fun _ b => b) (replicate k LoopWake) n b = Some (false, b') /\
    (pendingCount b' < b_maxBatchSize b)%Z /\ exists gone, b_pending b = gone ++ b_pending b'.
Proof.
  induction size as [|size IH]; intros n b Hs Hok Hw.
  { exists 0, b. split_and!; [lia|done| |by exists []]. unfold pendingCount. destruct Hok as [? _]. lia. }
  destruct (b_wakeFlush b) eqn:Ef.
  2: { exists 0, b. split_and!; [lia|done| |by exists []]. destruct Hw; [congruence|done]. }
  assert (Hok0 : batcher_ok (receive_wake b)) by done.
  pose proof (flush_awake _ Hok0) as Hw1.
  destruct (flush_taken _ Hok0) as (Hok1 & [L1 _] & [gone Hg] & [[Hp E]|[Hlt _]]).
  - exists 0, b. split_and!; [lia|done| |by exists []]. unfold pendingCount. change (b_pending b) with (b_pending (receive_wake b)).
    rewrite Hp. simpl. apply Hok.
  - set (b1 := (flushOne (fun _ => None) (fun b => b) (receive_wake b)).2) in *.
    change (b_pending (receive_wake b)) with (b_pending b) in Hg, Hlt.
    destruct (IH (S n) b1 ltac:(lia) Hok1 Hw1) as (k & b' & Hk & Hrun & Hc & [gone' Hg']).
    exists (S k), b'. split_and!; [lia| |by rewrite L1 in Hc|exists (gone ++ gone'); by rewrite <-app_assoc, <-Hg'].
    cbn [replicate loop]. rewrite Ef. exact Hrun.
Qed.

(** One tick is enough for a backlog of any size: while uploads are taken, the
    wake-ups that follow it upload all but less than one batch, oldest first. *)
Lemma tick_drains_backlog n b :
  batcher_ok b ->
  exists k b', k <= S (length (b_pending b)) /\
    loop (fun _ _ => None) (fun _ b => b) (LoopTick :: replicate k LoopWake) n b = Some (false, b') /\
    (pendingCount b' < b_maxBatchSize b)%Z /\ exists gone, b_pending b = gone ++ b_pending b'.
Proof.
  intros Hok. destruct (flush_taken b Hok) as (Hok1 & [L1 _] & [gone Hg] & _). pose proof (flush_awake b Hok) as Hw.
  set (b1 := (flushOne (fun _ => None) (fun b => b) b).2) in *.
  destruct (wakes_drain (length (b_pending b)) (S n) b1) as (k & b' & Hk & Hrun & Hc & [gone' Hg']); [|done..|].
  { rewrite Hg, length_app. lia. }
  exists k, b'. split_and!; [done|exact Hrun|by rewrite L1 in Hc|].
  exists (gone ++ gone'). by rewrite <-app_assoc, <-Hg'.
Qed.

(** * Concrete buffers *)

Definition ex_probe_result (n : Z) : CheckResult :=
  MkCheckResult "c" "c" "p" "http" "t" true 0 "" n.

Definition ex_buffer_ops : list BufferOp :=
  [BufEnqueue (ex_probe_result 1); BufEnqueue (ex_probe_result 2); BufTake;
   BufEnqueue (ex_probe_result 3); BufSettle (Some (ResponseError 503)); BufTake; BufSettle None;
   BufTake; BufSettle (Some (ResponseError 400)); BufClose; BufEnqueue (ex_probe_result 4)].

Definition run_buffer (ops : list BufferOp) (s : Buffer) : Buffer := foldl (fun s op => exec_buffer op s) s ops.

Lemma run_buffer_steps ops : forall s, rtc buffer_step s (run_buffer ops s).
Proof.
  induction ops as [|op ops IH]; intros s; [apply rtc_refl|].
  eapply rtc_l; [apply buffer_step_op|apply IH].
Qed.

(** A batch is put back by a 503, delivered, and the next one refused by a 400. *)
Lemma buffer_accounts_for_results_witness :
  let s := run_buffer ex_buffer_ops (new_buffer 1) in
  buffer_ok s /\ bf_delivered s = [ex_probe_result 1] /\ bf_lost s = [ex_probe_result 2] /\
  b_pending (bf_batcher s) = [ex_probe_result 3].
Proof.
  split; [|vm_compute; done].
  apply (buffer_accounts_for_results 1 (run_buffer ex_buffer_ops (new_buffer 1)));
    [lia|apply run_buffer_steps].
Defined.

Definition ex_full : resultBatcher :=
  MkBatcher 2 32 [ex_probe_result 1; ex_probe_result 2; ex_probe_result 3] true false.

Lemma shutdown_flush_terminates_witness :
  exists b', flushPendingForShutdown 4 (fun n _ => if Nat.eqb n 0 then None else Some OtherError) ex_full = Some b' /\
    b_pending b' = [ex_probe_result 3].
Proof.
  destruct (shutdown_flush_terminates 4 (fun n _ => if Nat.eqb n 0 then None else Some OtherError) ex_full)
    as (b' & Hrun & _); [by vm_compute|simpl; lia|].
  exists b'. split; [exact Hrun|]. vm_compute in Hrun. injection Hrun as <-. reflexivity.
Defined.
