(* ===== verification/Scheduler.v ===== *)
(** cmd/wacht-probe/scheduler.go: the workers of a probe.

    Worker [n] is the [n]-th goroutine the scheduler has started, and its
    [cancel] is its number.  [order] arguments are the order in which a loop
    ranges over a map. *)

From S2P Require Import Prelude GoStrings Types.

Record runningCheck := MkRunning { rc_check : ProbeCheck; rc_cancel : nat }.

Record scheduler := MkScheduler {
  s_running : gmap string runningCheck;
  s_started : list ProbeCheck;    (** the check of each worker started so far *)
  s_cancelled : list nat          (** the calls of [cancel] so far *)
}.

Definition newScheduler : scheduler := MkScheduler ∅ [] [].

Definition set_running (m : gmap string runningCheck) (s : scheduler) : scheduler :=
  MkScheduler m (s_started s) (s_cancelled s).

(** [job.cancel()]. *)
Definition cancel (job : runningCheck) (s : scheduler) : scheduler :=
  MkScheduler (s_running s) (s_started s) (s_cancelled s ++ [rc_cancel job]).

Definition startWorker (check : ProbeCheck) (s : scheduler) : runningCheck * scheduler :=
  (MkRunning check (length (s_started s)),
   MkScheduler (s_running s) (s_started s ++ [check]) (s_cancelled s)).

(** [s.running[id] = s.startWorker(check)]. *)
Definition start_at (id : string) (check : ProbeCheck) (s : scheduler) : scheduler :=
  let '(job, s) := startWorker check s in set_running (<[id := job]> (s_running s)) s.

(** The first loop: the running checks. *)
Fixpoint reconcile_running (order : list string) (s : scheduler) (next : gmap string ProbeCheck)
    : scheduler * gmap string ProbeCheck :=
  match order with
  | [] => (s, next)
  | id :: order =>
      match s_running s !! id with
      | None => reconcile_running order s next
      | Some job =>
          match next !! id with
          | None => reconcile_running order (set_running (delete id (s_running s)) (cancel job s)) next
          | Some check =>
              let s := if rc_check job != check then start_at id check (cancel job s) else s in
              reconcile_running order s (delete id next)
          end
      end
  end.

(** The second loop: the checks that are left. *)
Fixpoint start_rest (order : list string) (next : gmap string ProbeCheck) (s : scheduler) : scheduler :=
  match order with
  | [] => s
  | id :: order =>
      match next !! id with
      | None => start_rest order next s
      | Some check => start_rest order next (start_at id check s)
      end
  end.

Definition index_latest (latest : list ProbeCheck) : gmap string ProbeCheck :=
  foldl (fun next check => <[pc_ID check := check]> next) ∅ latest.

Section orders.
Context (running_order : gmap string runningCheck -> list string)
        (next_order : gmap string ProbeCheck -> list string).

Definition Reconcile (latest : list ProbeCheck) (s : scheduler) : scheduler :=
  let '(s, next) := reconcile_running (running_order (s_running s)) s (index_latest latest) in
  start_rest (next_order next) next s.

Fixpoint stop_all (order : list string) (s : scheduler) : scheduler :=
  match order with
  | [] => s
  | id :: order =>
      match s_running s !! id with
      | None => stop_all order s
      | Some job => stop_all order (set_running (delete id (s_running s)) (cancel job s))
      end
  end.

Definition Close (s : scheduler) : scheduler := stop_all (running_order (s_running s)) s.
End orders.

(** * Invariant *)

(** The running table and the live workers are the same thing. *)
Record sched_ok (s : scheduler) : Prop := {
  ok_id : forall id job, s_running s !! id = Some job -> pc_ID (rc_check job) = id;
  ok_started : forall id job, s_running s !! id = Some job ->
    s_started s !! rc_cancel job = Some (rc_check job);
  ok_live : forall n, n < length (s_started s) ->
    (exists id job, s_running s !! id = Some job /\ rc_cancel job = n) <-> n ∉ s_cancelled s;
  ok_once : NoDup (s_cancelled s);
  ok_bound : forall n, n ∈ s_cancelled s -> n < length (s_started s)
}.

Definition stop_at (id : string) (job : runningCheck) (s : scheduler) : scheduler :=
  set_running (delete id (s_running s)) (cancel job s).

Lemma newScheduler_ok : sched_ok newScheduler.
Proof.
  split; simpl; [by intros ??; rewrite lookup_empty|by intros ??; rewrite lookup_empty|
                 intros; lia|constructor|intros n Hn; by apply not_elem_of_nil in Hn].
Qed.

(** A worker belongs to one id. *)
Lemma worker_id s id id' job job' :
  sched_ok s -> s_running s !! id = Some job -> s_running s !! id' = Some job' ->
  rc_cancel job = rc_cancel job' -> id = id' /\ job = job'.
Proof.
  intros Hok H1 H2 E. pose proof (ok_started s Hok _ _ H1) as S1.
  pose proof (ok_started s Hok _ _ H2) as S2. rewrite E, S2 in S1. injection S1 as Ec.
  pose proof (ok_id s Hok _ _ H1). pose proof (ok_id s Hok _ _ H2).
  assert (id = id') as <- by congruence.
  split; [done|]. rewrite H1 in H2. by injection H2.
Qed.

Lemma stop_ok id job s : sched_ok s -> s_running s !! id = Some job -> sched_ok (stop_at id job s).
Proof.
  intros Hok Hl. assert (Hlt : rc_cancel job < length (s_started s)).
  { apply lookup_lt_is_Some. eexists. by apply (ok_started s Hok id). }
  assert (Hnew : rc_cancel job ∉ s_cancelled s) by (apply (ok_live s Hok); eauto).
  split; simpl.
  - intros i j [_ H]%lookup_delete_Some. by apply (ok_id s Hok).
  - intros i j [_ H]%lookup_delete_Some. by apply (ok_started s Hok i).
  - intros n Hn. rewrite elem_of_app, list_elem_of_singleton. split.
    + intros (i & j & [Hne H]%lookup_delete_Some & <-) [Hc|E].
      * revert Hc. apply (ok_live s Hok); eauto.
      * by destruct (worker_id s id i job j Hok) as [? _].
    + intros Hc. destruct (proj2 (ok_live s Hok n Hn)) as (i & j & Hj & Hw); [tauto|].
      exists i, j. split; [|done]. apply lookup_delete_Some. split; [|done]. intros ->.
      apply Hc. right. by simplify_eq.
  - apply list.NoDup_app. split_and!; [apply (ok_once s Hok)| |apply NoDup_singleton].
    intros n Hn E%list_elem_of_singleton. by subst n.
  - intros n [H| ->%list_elem_of_singleton]%elem_of_app; [by apply (ok_bound s Hok)|done].
Qed.

Lemma start_ok id check s :
  sched_ok s -> s_running s !! id = None -> pc_ID check = id -> sched_ok (start_at id check s).
Proof.
  intros Hok Hn Hid. split; simpl.
  - intros i j [[<- <-]|[_ H]]%lookup_insert_Some; [done|by apply (ok_id s Hok)].
  - intros i j [[<- <-]|[_ H]]%lookup_insert_Some; simpl; [by apply list_lookup_middle|].
    apply lookup_app_l_Some. by apply (ok_started s Hok i).
  - intros n Hlt. rewrite length_app in Hlt. simpl in Hlt.
    destruct (decide (n = length (s_started s))) as [->|Hne].
    + split; [|intros _; eexists id, _; by rewrite lookup_insert_eq].
      intros _ H%(ok_bound s Hok). lia.
    + rewrite <-(ok_live s Hok) by lia. split.
      * intros (i & j & [[<- <-]|[_ H]]%lookup_insert_Some & E); [done|eauto].
      * intros (i & j & H & E). exists i, j. split; [|done]. apply lookup_insert_Some. right.
        split; [congruence|done].
  - apply (ok_once s Hok).
  - intros n H%(ok_bound s Hok). rewrite length_app. lia.
Qed.

(** Replacing a worker is stopping it and starting another. *)
Lemma replace_stop_start id check job s :
  start_at id check (cancel job s) = start_at id check (stop_at id job s).
Proof. unfold start_at, stop_at, set_running. simpl. f_equal. by rewrite insert_delete_eq. Qed.

(** * Reconciliation *)

Lemma index_latest_id latest : forall (m : gmap string ProbeCheck) id check,
  (forall i c, m !! i = Some c -> pc_ID c = i) ->
  foldl (fun next c => <[pc_ID c := c]> next) m latest !! id = Some check -> pc_ID check = id.
Proof.
  induction latest as [|c latest IH]; intros m id check Hm; simpl; [apply Hm|]. apply IH.
  intros i c' [[<- <-]|[_ H]]%lookup_insert_Some; [done|by apply Hm].
Qed.

(** What the scheduler runs for [id] after a pass that wants [want]. *)
Definition settled (want : option ProbeCheck) (old new : option runningCheck) : Prop :=
  match want with
  | None => new = None
  | Some check => exists job, new = Some job /\ rc_check job = check /\
      (rc_check <$> old = Some check -> old = new)
  end.

(** Progress from [s0]: workers are only added, and none of them is stopped. *)
Definition extends (s0 s : scheduler) : Prop :=
  sched_ok s /\ s_started s0 `prefix_of` s_started s /\
  forall n, n ∈ s_cancelled s -> n < length (s_started s0).

Lemma extends_stop s0 s id job :
  extends s0 s -> s_running s !! id = Some job -> rc_cancel job < length (s_started s0) ->
  extends s0 (stop_at id job s).
Proof.
  intros (Hok & Hpre & Hc) Hl Hlt. split_and!; [by apply stop_ok|done|].
  intros n [H| ->%list_elem_of_singleton]%elem_of_app; [by apply Hc|done].
Qed.

Lemma extends_start s0 s id check :
  extends s0 s -> s_running s !! id = None -> pc_ID check = id -> extends s0 (start_at id check s).
Proof.
  intros (Hok & Hpre & Hc) Hl Hid. split_and!; [by apply start_ok| |done].
  simpl. by apply prefix_app_r.
Qed.

Definition old_workers (s0 : scheduler) (order : list string) (s : scheduler) : Prop :=
  forall id, id ∈ order -> s_running s !! id = s_running s0 !! id.

Lemma reconcile_running_spec s0 order : forall s next,
  sched_ok s0 -> extends s0 s -> NoDup order -> old_workers s0 order s ->
  (forall i c, next !! i = Some c -> pc_ID c = i) ->
  let '(s', next') := reconcile_running order s next in
  extends s0 s' /\
  (forall id, id ∉ order -> s_running s' !! id = s_running s !! id /\ next' !! id = next !! id) /\
  (forall id, id ∈ order -> is_Some (s_running s0 !! id) ->
     settled (next !! id) (s_running s0 !! id) (s_running s' !! id) /\ next' !! id = None).
Proof.
  induction order as [|id order IH]; intros s next Hok0 Hext Hnd Hold Hid; cbn [reconcile_running].
  { split_and!; [done|done|]. by intros id H%not_elem_of_nil. }
  apply list.NoDup_cons in Hnd as [Hni Hnd].
  pose proof (Hold id (list_elem_of_here _ _)) as Hrun.
  assert (Hgo : forall s1 next1, extends s0 s1 ->
    (forall i, i <> id -> s_running s1 !! i = s_running s !! i /\ next1 !! i = next !! i) ->
    (forall i c, next1 !! i = Some c -> pc_ID c = i) ->
    (is_Some (s_running s0 !! id) ->
       settled (next !! id) (s_running s0 !! id) (s_running s1 !! id) /\ next1 !! id = None) ->
    let '(s', next') := reconcile_running order s1 next1 in
    extends s0 s' /\
    (forall i, i ∉ id :: order -> s_running s' !! i = s_running s !! i /\ next' !! i = next !! i) /\
    (forall i, i ∈ id :: order -> is_Some (s_running s0 !! i) ->
       settled (next !! i) (s_running s0 !! i) (s_running s' !! i) /\ next' !! i = None)).
  { intros s1 next1 He Hsame Hid1 Hset.
    assert (Hold1 : old_workers s0 order s1).
    { intros i Hi. destruct (Hsame i) as [-> _]; [by intros ->|]. apply Hold. by right. }
    specialize (IH s1 next1 Hok0 He Hnd Hold1 Hid1). destruct (reconcile_running order s1 next1) as [s' next'].
    destruct IH as (He' & Hout & Hin). split_and!; [done| |].
    - intros i Hi. apply not_elem_of_cons in Hi as [Hne Hi]. destruct (Hsame i Hne) as [E1 E2].
      destruct (Hout i Hi) as [-> ->]. done.
    - intros i [-> |Hi]%elem_of_cons Hs.
      + destruct (Hout id Hni) as [-> ->]. by apply Hset.
      + destruct (Hsame i) as [_ <-]; [by intros ->|]. by apply Hin. }
  destruct (s_running s !! id) as [job|] eqn:Hl.
  2:{ apply Hgo; [done|done|done|]. rewrite <-Hrun. by intros [? ?]. }
  assert (Hlt : rc_cancel job < length (s_started s0)).
  { apply lookup_lt_is_Some. eexists. by apply (ok_started s0 Hok0 id). }
  destruct (next !! id) as [check|] eqn:Hnx; rewrite <-Hrun in Hgo.
  - apply Hgo.
    + destruct (rc_check job != check); [|done]. rewrite replace_stop_start.
      apply extends_start; [by apply extends_stop|apply lookup_delete_eq|by apply Hid].
    + intros i Hne. rewrite lookup_delete_ne by done. split; [|done].
      destruct (rc_check job != check); [|done]. simpl. by rewrite lookup_insert_ne by done.
    + intros i c [_ H]%lookup_delete_Some. by apply Hid.
    + intros _. split; [|apply lookup_delete_eq]. simpl. case_bool_decide as E; simpl.
      * exists job. by rewrite Hl.
      * eexists. rewrite lookup_insert_eq. split_and!; [done|done|]. congruence.
  - apply Hgo; [by apply extends_stop| |done|].
    + intros i Hne. simpl. by rewrite lookup_delete_ne by done.
    + intros _. split; [|done]. apply lookup_delete_eq.
Qed.

Lemma start_rest_spec s0 next order : forall s,
  extends s0 s -> NoDup order -> (forall i c, next !! i = Some c -> pc_ID c = i) ->
  (forall id, id ∈ order -> s_running s !! id = None) ->
  extends s0 (start_rest order next s) /\
  (forall id, id ∉ order -> s_running (start_rest order next s) !! id = s_running s !! id) /\
  (forall id, id ∈ order -> rc_check <$> s_running (start_rest order next s) !! id = next !! id).
Proof.
  induction order as [|id order IH]; intros s Hext Hnd Hid Hfree; cbn [start_rest].
  { split_and!; [done|done|]. by intros id H%not_elem_of_nil. }
  apply list.NoDup_cons in Hnd as [Hni Hnd]. pose proof (Hfree id (list_elem_of_here _ _)) as Hnone.
  destruct (next !! id) as [check|] eqn:Hnx.
  - destruct (IH (start_at id check s)) as (He & Hout & Hin); [|done|done| |].
    + apply extends_start; auto.
    + intros i Hi. simpl. rewrite lookup_insert_ne by (by intros ->). apply Hfree. by right.
    + split_and!; [done| |].
      * intros i [Hne Hi]%not_elem_of_cons. rewrite Hout by done. simpl. by rewrite lookup_insert_ne.
      * intros i [-> |Hi]%elem_of_cons; [|by apply Hin]. rewrite Hout by done. simpl.
        by rewrite lookup_insert_eq, Hnx.
  - destruct (IH s) as (He & Hout & Hin); [done|done|done|by intros i Hi; apply Hfree; right|].
    split_and!; [done| |].
    + intros i [_ Hi]%not_elem_of_cons. by apply Hout.
    + intros i [-> |Hi]%elem_of_cons; [|by apply Hin]. by rewrite Hout, Hnone, Hnx.
Qed.

(** An order in which Go may range over a map. *)
Definition ranges {V} (order : gmap string V -> list string) : Prop :=
  forall m, order m ≡ₚ (map_to_list m).*1.

Lemma ranges_spec {V} (order : gmap string V -> list string) m :
  ranges order -> NoDup (order m) /\ forall id, id ∈ order m <-> is_Some (m !! id).
Proof.
  intros Hr. split; [rewrite (Hr m); apply NoDup_fst_map_to_list|]. intros id. rewrite (Hr m). split.
  - intros ([k v] & -> & H%elem_of_map_to_list)%list_elem_of_fmap. eauto.
  - intros [v H]. apply list_elem_of_fmap. exists (id, v). by rewrite elem_of_map_to_list.
Qed.

Lemma reconcile_runs running_order next_order latest s :
  ranges running_order -> ranges next_order -> sched_ok s ->
  let s' := Reconcile running_order next_order latest s in
  extends s s' /\
  forall id, settled (index_latest latest !! id) (s_running s !! id) (s_running s' !! id).
Proof.
  intros Hr1 Hr2 Hok. unfold Reconcile.
  assert (Hext : extends s s) by (split_and!; [done|done|apply ok_bound, Hok]).
  assert (Hid : forall i c, index_latest latest !! i = Some c -> pc_ID c = i).
  { intros i c. apply index_latest_id. by intros ??; rewrite lookup_empty. }
  destruct (ranges_spec _ (s_running s) Hr1) as [Hnd Hmem].
  pose proof (reconcile_running_spec s (running_order (s_running s)) s (index_latest latest)
    Hok Hext Hnd (fun _ _ => eq_refl) Hid) as H.
  destruct (reconcile_running _ _ _) as [s1 next1]. destruct H as (He & Hout & Hin).
  destruct (ranges_spec _ next1 Hr2) as [Hnd2 Hmem2].
  assert (Hrest : forall i, is_Some (next1 !! i) -> s_running s1 !! i = None /\ s_running s !! i = None
    /\ next1 !! i = index_latest latest !! i).
  { intros i Hi. destruct (decide (is_Some (s_running s !! i))) as [Hs|Hs].
    - destruct (Hin i) as [_ E]; [by apply Hmem|done|]. rewrite E in Hi. by destruct Hi.
    - destruct (Hout i) as [E1 E2]; [by rewrite Hmem|]. apply eq_None_not_Some in Hs.
      by rewrite E1. }
  destruct (start_rest_spec s next1 (next_order next1) s1) as (He2 & Hout2 & Hin2); [done|done| | |].
  { intros i c Hc. apply Hid. destruct (Hrest i) as (_ & _ & <-); [by eexists|done]. }
  { intros i Hi. apply Hrest. by apply Hmem2. }
  split; [done|]. intros id. destruct (decide (is_Some (next1 !! id))) as [Hs|Hs].
  - destruct (Hrest id Hs) as (_ & E & Enx). specialize (Hin2 id (proj2 (Hmem2 id) Hs)).
    rewrite Enx in Hin2. rewrite E. unfold settled.
    destruct (s_running (start_rest _ _ _) !! id) as [job|] eqn:Hj; simpl in Hin2; rewrite <-Hin2; [|done].
    exists job. by split_and!.
  - rewrite Hout2 by (by rewrite Hmem2). destruct (decide (is_Some (s_running s !! id))) as [Hs0|Hs0].
    + by apply Hin; [apply Hmem|].
    + destruct (Hout id) as [-> E]; [by rewrite Hmem|]. rewrite <-E.
      apply eq_None_not_Some in Hs, Hs0. by rewrite Hs, Hs0.
Qed.

(** The checks the live workers run. *)
Definition live_check (s : scheduler) (n : nat) : option ProbeCheck :=
  if bool_decide (n ∈ s_cancelled s) then None else s_started s !! n.

(** C29. [Reconcile], for every order in which its two loops may range over their
    maps: it leaves the invariant that the running table and the live workers
    are the same; each check of the latest set (the last one for its ID) has a
    worker that runs exactly this check and no other ID has any; a check that
    did not change keeps its worker; a worker that was there is stopped exactly
    when its check is gone or changed; no new worker is stopped. *)
Theorem reconcile_touches_only_changes running_order next_order latest s
    (Hr1 : ranges running_order) (Hr2 : ranges next_order) (Hok : sched_ok s) :
  let s' := Reconcile running_order next_order latest s in
  sched_ok s' /\
  (forall id, rc_check <$> s_running s' !! id = index_latest latest !! id) /\
  (forall id job, s_running s !! id = Some job -> index_latest latest !! id = Some (rc_check job) ->
     s_running s' !! id = Some job) /\
  (forall id job, s_running s !! id = Some job ->
     (rc_cancel job ∈ s_cancelled s' <-> index_latest latest !! id <> Some (rc_check job))) /\
  (forall n, length (s_started s) <= n -> live_check s' n = s_started s' !! n).
Proof.
  intros s'. destruct (reconcile_runs running_order next_order latest s Hr1 Hr2 Hok)
    as [(Hok' & Hpre & Hc) Hset]. fold s' in Hok', Hpre, Hc, Hset.
  assert (Hkeep : forall id job, s_running s !! id = Some job ->
    index_latest latest !! id = Some (rc_check job) -> s_running s' !! id = Some job).
  { intros id job Hl Hi. specialize (Hset id). rewrite Hl, Hi in Hset.
    destruct Hset as (job' & -> & _ & Hsame). symmetry. by apply Hsame. }
  assert (Hwant : forall id, rc_check <$> s_running s' !! id = index_latest latest !! id).
  { intros id. specialize (Hset id). unfold settled in Hset.
    destruct (index_latest latest !! id); [by destruct Hset as (job & -> & <- & _)|by rewrite Hset]. }
  split_and!; [done|done|done| |].
  - intros id job Hl.
    assert (Hlt : rc_cancel job < length (s_started s')).
    { apply lookup_lt_is_Some. exists (rc_check job). eapply prefix_lookup_Some; [|done].
      by apply (ok_started s Hok id). }
    split.
    + intros Hin Hi. revert Hin. apply (ok_live s' Hok'); [done|]. eauto.
    + intros Hne. apply dec_stable. intros Hni. apply (ok_live s' Hok') in Hni; [|done].
      destruct Hni as (i & j & Hj & Hw). apply Hne.
      pose proof (ok_started s' Hok' _ _ Hj) as Hs. rewrite Hw in Hs.
      rewrite (prefix_lookup_Some _ _ _ _ (ok_started s Hok _ _ Hl) Hpre) in Hs.
      injection Hs as Hs. pose proof (ok_id s Hok _ _ Hl). pose proof (ok_id s' Hok' _ _ Hj).
      assert (i = id) as -> by congruence. by rewrite <-Hwant, Hj, Hs.
  - intros n Hn. unfold live_check. rewrite bool_decide_eq_false_2; [done|].
    intros H%Hc. lia.
Qed.

(** * Shutdown *)

Lemma stop_all_spec order : forall s,
  sched_ok s -> sched_ok (stop_all order s) /\ s_started (stop_all order s) = s_started s /\
  forall id, s_running (stop_all order s) !! id = if bool_decide (id ∈ order) then None else s_running s !! id.
Proof.
  induction order as [|id order IH]; intros s Hok; cbn [stop_all].
  { split_and!; [done|done|]. intros id. by rewrite bool_decide_eq_false_2 by apply not_elem_of_nil. }
  assert (Hdec : forall i, bool_decide (i ∈ id :: order) = (i == id) || bool_decide (i ∈ order)).
  { intros i. rewrite <-bool_decide_or. apply bool_decide_ext. by rewrite elem_of_cons. }
  destruct (s_running s !! id) as [job|] eqn:Hl.
  - destruct (IH _ (stop_ok id job s Hok Hl)) as (Hok' & Hst & Hrun). split_and!; [done|done|].
    intros i. rewrite Hdec, Hrun. simpl. destruct (i == id) eqn:E; simpl.
    + apply bool_decide_eq_true in E as ->. rewrite lookup_delete_eq. by case_match.
    + apply bool_decide_eq_false in E. by rewrite lookup_delete_ne.
  - destruct (IH s Hok) as (Hok' & Hst & Hrun). split_and!; [done|done|].
    intros i. rewrite Hdec, Hrun. destruct (i == id) eqn:E; simpl; [|done].
    apply bool_decide_eq_true in E as ->. rewrite Hl. by case_match.
Qed.

(** [Close] stops every worker that ran, each exactly once, and empties the
    table. *)
Theorem close_stops_every_worker running_order s (Hr : ranges running_order) (Hok : sched_ok s) :
  let s' := Close running_order s in
  sched_ok s' /\ s_running s' = ∅ /\ (forall n, live_check s' n = None) /\ NoDup (s_cancelled s').
Proof.
  intros s'. destruct (stop_all_spec (running_order (s_running s)) s Hok) as (Hok' & Hst & Hrun).
  assert (He : s_running s' = ∅).
  { apply map_eq. intros id. unfold s', Close. rewrite Hrun, lookup_empty.
    destruct (ranges_spec _ (s_running s) Hr) as [_ Hm]. case_bool_decide as E; [done|].
    rewrite Hm in E. by apply eq_None_not_Some. }
  split_and!; [done|done| |apply (ok_once _ Hok')]. intros n. unfold live_check.
  case_bool_decide as Hn; [done|]. destruct (s_started s' !! n) as [c|] eqn:Hl; [|done].
  apply (ok_live s' Hok') in Hn as (id & job & Hj & _); [|by apply lookup_lt_Some in Hl].
  by rewrite He, lookup_empty in Hj.
Qed.

(** * Concrete runs *)

Definition ex_probe_check (id target : string) : ProbeCheck := MkProbeCheck id "n" "http" target 30.
Definition ex_keys {V} (m : gmap string V) : list string := (map_to_list m).*1.

Lemma ex_keys_ranges {V} : ranges (@ex_keys V).
Proof. by intros m. Qed.

Definition ex_sched : scheduler :=
  Reconcile ex_keys ex_keys [ex_probe_check "a" "x"; ex_probe_check "b" "x"; ex_probe_check "c" "x"]
    newScheduler.

Lemma ex_sched_ok : sched_ok ex_sched.
Proof. apply reconcile_runs; [apply ex_keys_ranges..|apply newScheduler_ok]. Qed.

(** Check [a] stays, [b] changes, [c] goes, [d] comes. *)
Lemma reconcile_touches_only_changes_witness :
  let s' := Reconcile ex_keys ex_keys
    [ex_probe_check "a" "x"; ex_probe_check "b" "y"; ex_probe_check "d" "x"] ex_sched in
  sched_ok s' /\ s_running s' !! "a" = s_running ex_sched !! "a" /\ length (s_cancelled s') = 2 /\
  length (s_started s') = 5.
Proof.
  pose proof (reconcile_touches_only_changes ex_keys ex_keys
    [ex_probe_check "a" "x"; ex_probe_check "b" "y"; ex_probe_check "d" "x"] ex_sched
    ex_keys_ranges ex_keys_ranges ex_sched_ok) as H.
  cbv zeta in H. destruct H as (Hok & _). split; [exact Hok|]. vm_compute. done.
Defined.

Lemma close_stops_every_worker_witness :
  let s' := Close ex_keys ex_sched in
  s_running s' = ∅ /\ (forall n, live_check s' n = None) /\ length (s_cancelled s') = 3.
Proof.
  destruct (close_stops_every_worker ex_keys ex_sched ex_keys_ranges ex_sched_ok) as (_ & H1 & H2 & _).
  split; [exact H1|]. split; [exact H2|]. vm_compute. reflexivity.
Defined.
