(* ===== verification/Results.v ===== *)
(** internal/monitoring/result.go: a batch of probe results moves the runtime and
    is stored in one transaction, or moves neither.

    The store is known by the interface the code declares, [resultBatchStore]; its
    state is the type [W].  [AlertPayload] is internal/alert/webhook.go's. *)

From S2P Require Import Prelude GoStrings Stateless Types CheckMachine QuorumMachine Runtime.
From S2P Require Import StoreNotifications StoreMonitoring.

Class ResultBatchStore (W : Type) : Type :=
  store_PersistMonitoringBatch : list MonitoringWrite -> St W (list MonitoringWrite).

Record ObservedResult := MkObservedResult {
  ob_Check : Check;
  ob_Result : CheckResult
}.

Record observedResultRollback := MkRollback {
  rb_CheckID : string;
  rb_ProbeID : string;
  rb_CreatedQuorum : bool;
  rb_CreatedAssignment : bool;
  rb_PreviousCheck : CheckExecState;
  rb_PreviousQuorum : CheckQuorumState
}.

Record AlertPayload := MkAlertPayload {
  ap_CheckID : string;
  ap_CheckName : string;
  ap_Target : string;
  ap_Status : string;
  ap_ProbesDown : Z;
  ap_ProbesTotal : Z
}.

(** [json.Marshal] of the struct; strings and integers always encode. *)
Definition marshal_AlertPayload (p : AlertPayload) : GoError + string :=
  inr (json_object [
    json_member "check_id" (json_string (ap_CheckID p));
    json_member "check_name" (json_string (ap_CheckName p));
    json_member "target" (json_string (ap_Target p));
    json_member "status" (json_string (ap_Status p));
    json_member "probes_down" (json_int (ap_ProbesDown p));
    json_member "probes_total" (json_int (ap_ProbesTotal p))]).

(** The product of an [int] and two durations wraps at 64 bits. *)
Definition evidenceExpiresAt (check : Check) (observedAt : Time) : Time :=
  let intervalSeconds := if (ck_Interval check <=? 0)%Z then DefaultInterval else ck_Interval check in
  time_Add (UTC observedAt) (wrap64 (wrap64 (2 * wrap64 intervalSeconds) * Second)).

(** Counts of the child checks; independent of the map's order. *)
Definition quorumCounts (quorum : QuorumMachine) : Z * Z :=
  (map_fold (fun _ check down => if ce_State check == CheckStateDown then down + 1 else down)%Z 0%Z
     (qm_checks quorum),
   Z.of_nat (size (qm_checks quorum))).

Definition notificationRequest (check : Check) (status : string) (quorum : QuorumMachine)
    : GoError + option NotificationRequest :=
  if ck_Webhook check == "" then inr None
  else
    let '(probesDown, probesTotal) := quorumCounts quorum in
    match marshal_AlertPayload (MkAlertPayload (ck_ID check) (ck_Name check) (ck_Target check) status
                                  probesDown probesTotal) with
    | inl e => inl e
    | inr body => inr (Some (MkNotificationRequest (ck_Webhook check) body))
    end.

Definition with_incident (write : MonitoringWrite) (checkID : string) (resolve : bool)
    (request : option NotificationRequest) : MonitoringWrite :=
  MkMonitoringWrite (mw_CheckStateWrites write) (mw_ProbeHeartbeatID write)
    (mw_ProbeHeartbeatAt write) checkID (resolve || mw_ResolveIncident write) request.

Definition monitoringWriteForCheckEvent (check : Check) (quorum : QuorumMachine)
    (previousQuorum currentQuorum : CheckQuorumState) (write : MonitoringWrite)
    : GoError + MonitoringWrite :=
  if (cq_LastStableState previousQuorum == QuorumStateUp) &&
     (cq_LastStableState currentQuorum == QuorumStateDown)
  then match notificationRequest check "down" quorum with
       | inl e => inl e
       | inr request => inr (with_incident write (ck_ID check) false request)
       end
  else if cq_IncidentOpen previousQuorum &&
          (cq_LastStableState previousQuorum == QuorumStateDown) &&
          (cq_LastStableState currentQuorum == QuorumStateUp)
  then match notificationRequest check "up" quorum with
       | inl e => inl e
       | inr request => inr (with_incident write (ck_ID check) true request)
       end
  else inr write.

(** The row a (check, probe) state is stored as. *)
Definition checkStateWrite (checkID probeID : string) (c : CheckExecState) : CheckStateWrite :=
  MkCheckStateWrite checkID probeID (ce_LastResultAt c) (ce_LastOutcome c) (ce_StreakLen c)
    (ce_ExpiresAt c) (ce_State c) (ce_LastError c).

Definition stateWrite (checkID probeID : string) (c : CheckExecState) : MonitoringWrite :=
  MkMonitoringWrite [checkStateWrite checkID probeID c] "" zeroTime "" false None.

(** One round of the rollback loop. *)
Definition undo (rollback : observedResultRollback) (r : Runtime) : Runtime :=
  if rb_CreatedQuorum rollback
  then MkRuntime (rt_probes r) (delete (rb_CheckID rollback) (rt_quorums r))
  else match rt_quorums r !! rb_CheckID rollback with
       | None => r
       | Some quorum =>
           let checks :=
             if rb_CreatedAssignment rollback then delete (rb_ProbeID rollback) (qm_checks quorum)
             else match qm_checks quorum !! rb_ProbeID rollback with
                  | Some _ => <[rb_ProbeID rollback := rb_PreviousCheck rollback]> (qm_checks quorum)
                  | None => qm_checks quorum
                  end in
           set_quorum (rb_CheckID rollback) (MkQuorumMachine (rb_PreviousQuorum rollback) checks) r
       end.

(** The loop runs from the last rollback to the first. *)
Definition rollbackObservedResultsLocked (rollbacks : list observedResultRollback) (r : Runtime)
    : Runtime := fold_right undo r rollbacks.

Section methods.
Context `{SL : Stateless}.

Definition applyObservedResultLocked (check : Check) (result : CheckResult)
    : St Runtime (MonitoringWrite * observedResultRollback) := fun r =>
  let expiresAt := evidenceExpiresAt check (cr_Timestamp result) in
  let checkID := ck_ID check in
  let probeID := cr_ProbeID result in
  match rt_probes r !! probeID with
  | None => (inl ErrUnknownProbe, r)
  | Some _ =>
      let quorumExisted := bool_decide (is_Some (rt_quorums r !! checkID)) in
      let '(quorum, r1) := ensureQuorumLocked checkID r in
      let previousQuorum := qm_state quorum in
      let assignmentExisted := bool_decide (is_Some (qm_checks quorum !! probeID)) in
      let quorum := if assignmentExisted then quorum else (QuorumMachine.AddProbe probeID quorum).2 in
      let previousCheck := default (NewCheckMachine checkID probeID) (qm_checks quorum !! probeID) in
      let rollback := MkRollback checkID probeID (negb quorumExisted) (negb assignmentExisted)
                        previousCheck previousQuorum in
      let '(res, quorum') :=
        if cr_Up result
        then QuorumMachine.ObserveUp probeID (cr_Timestamp result) (Some expiresAt) quorum
        else QuorumMachine.ObserveDown probeID (cr_Timestamp result) (Some expiresAt)
               (TrimSpace (cr_Error result)) quorum in
      let r2 := set_quorum checkID quorum' r1 in
      match res with
      | inl e => (inl e, rollbackObservedResultsLocked [rollback] r2)
      | inr update =>
          let child := default previousCheck (qm_checks quorum' !! probeID) in
          match monitoringWriteForCheckEvent check quorum' previousQuorum (cu_Quorum update)
                  (stateWrite checkID probeID child) with
          | inl e => (inl e, r2)
          | inr write => (inr (write, rollback), r2)
          end
      end
  end.

(** The loop over the batch, with the writes and rollbacks collected so far. *)
Fixpoint observe_all (observed : list ObservedResult) (writes : list MonitoringWrite)
    (rollbacks : list observedResultRollback)
    : St Runtime (list MonitoringWrite * list observedResultRollback) := fun r =>
  match observed with
  | [] => (inr (writes, rollbacks), r)
  | item :: observed =>
      match applyObservedResultLocked (ob_Check item) (ob_Result item) r with
      | (inl e, r') => (inl e, rollbackObservedResultsLocked rollbacks r')
      | (inr (write, rollback), r') =>
          observe_all observed (writes ++ [write]) (rollbacks ++ [rollback]) r'
      end
  end.

Definition applyObservedResultBatch `{ResultBatchStore W} (observed : list ObservedResult)
    : St (Runtime * W) unit := fun '(r, w) =>
  match observe_all observed [] [] r with
  | (inl e, r') => (inl e, (r', w))
  | (inr (writes, rollbacks), r') =>
      match store_PersistMonitoringBatch writes w with
      | (inl e, w') => (inl e, (rollbackObservedResultsLocked rollbacks r', w'))
      | (inr _, w') => (inr tt, (r', w'))
      end
  end.

(** A nil runtime or store is [None]. *)
Definition ApplyResultBatch `{ResultBatchStore W} (observed : list ObservedResult)
    : St (option Runtime * option W) unit := fun '(runtime, st) =>
  match runtime, st with
  | None, _ => (inl (Errorf "monitoring: runtime is required"), (runtime, st))
  | Some _, None => (inl (Errorf "monitoring: store is required"), (runtime, st))
  | Some r, Some w =>
      if bool_decide (length observed = 0) then (inr tt, (runtime, st))
      else let '(res, (r', w')) := applyObservedResultBatch observed (r, w) in
           (res, (Some r', Some w'))
  end.
End methods.

(** * Rollback *)

Lemma route_checks probeID op q res q' :
  route probeID op q = (res, q') ->
  forall p, p <> probeID -> qm_checks q' !! p = qm_checks q !! p.
Proof.
  unfold route. destruct (qm_checks q !! probeID); [|by intros [= _ <-]].
  destruct (op c) as [[e|tr] c']; [intros [= _ <-]|];
    [intros p Hp; simpl; by rewrite lookup_insert_ne|].
  set (m1 := set_checks _ q). rewrite (surjective_pairing (Recompute m1)), Recompute_snd.
  intros [= _ <-] p Hp. simpl. by rewrite lookup_insert_ne.
Qed.

(** A child that was there stays, and none is made. *)
Lemma route_child probeID op q res q' :
  route probeID op q = (res, q') ->
  (is_Some (qm_checks q' !! probeID) <-> is_Some (qm_checks q !! probeID)).
Proof.
  unfold route. destruct (qm_checks q !! probeID) eqn:Hl; [|intros [= _ <-]; by rewrite Hl].
  destruct (op c) as [[e|tr] c']; [intros [= _ <-]|]; [simpl; by rewrite lookup_insert_eq|].
  set (m1 := set_checks _ q). rewrite (surjective_pairing (Recompute m1)), Recompute_snd.
  intros [= _ <-]. simpl. by rewrite lookup_insert_eq.
Qed.

Lemma AddProbe_checks probeID q p :
  p <> probeID -> qm_checks (QuorumMachine.AddProbe probeID q).2 !! p = qm_checks q !! p.
Proof.
  intros Hp. rewrite AddProbe_effect. destruct (qm_checks q !! probeID); [done|].
  simpl. by rewrite lookup_insert_ne.
Qed.

Lemma AddProbe_child probeID q : is_Some (qm_checks (QuorumMachine.AddProbe probeID q).2 !! probeID).
Proof.
  rewrite AddProbe_effect. destruct (qm_checks q !! probeID) eqn:Hl; [by rewrite Hl|].
  simpl. by rewrite lookup_insert_eq.
Qed.

(** Undoing one result gives back the quorum machine it changed. *)
Lemma undo_existing r checkID probeID q q' child rb :
  rt_quorums r !! checkID = Some q ->
  rb = MkRollback checkID probeID false (negb (bool_decide (is_Some (qm_checks q !! probeID))))
         child (qm_state q) ->
  (is_Some (qm_checks q !! probeID) -> qm_checks q !! probeID = Some child /\
                                       is_Some (qm_checks q' !! probeID)) ->
  (forall p, p <> probeID -> qm_checks q' !! p = qm_checks q !! p) ->
  undo rb (set_quorum checkID q' r) = r.
Proof.
  intros Hq -> Hchild Hother. unfold undo. simpl. rewrite lookup_insert_eq.
  match goal with |- set_quorum _ ?m _ = _ => assert (Hm : m = q) end.
  { destruct q as [st cs]. f_equal. simpl in *. apply map_eq. intros p.
    case_bool_decide as Hin; simpl.
    - destruct (Hchild Hin) as [Hc [c' Hc']]. rewrite Hc'.
      destruct (decide (p = probeID)) as [->|Hp]; [by rewrite lookup_insert_eq|].
      by rewrite lookup_insert_ne, Hother.
    - apply eq_None_not_Some in Hin. destruct (decide (p = probeID)) as [->|Hp].
      + by rewrite lookup_delete_eq.
      + by rewrite lookup_delete_ne, Hother. }
  rewrite Hm. unfold set_quorum. simpl. rewrite insert_insert_eq, insert_id by done. by destruct r.
Qed.

Lemma undo_created r checkID probeID q' created child st :
  rt_quorums r !! checkID = None ->
  undo (MkRollback checkID probeID true created child st) (set_quorum checkID q' r) = r.
Proof.
  intros Hq. unfold undo, set_quorum. simpl. rewrite delete_insert_eq, delete_id by done. by destruct r.
Qed.

Section rollback.
Context `{SL : Stateless}.

(** The event a result is for the (check, probe) machine. *)
Definition result_event (check : Check) (result : CheckResult) : CheckEvent :=
  let expiresAt := evidenceExpiresAt check (cr_Timestamp result) in
  if cr_Up result then EvUp (cr_Timestamp result) (Some expiresAt)
  else EvDown (cr_Timestamp result) (Some expiresAt) (TrimSpace (cr_Error result)).

Lemma observe_result check result q :
  (if cr_Up result
   then QuorumMachine.ObserveUp (cr_ProbeID result) (cr_Timestamp result)
          (Some (evidenceExpiresAt check (cr_Timestamp result))) q
   else QuorumMachine.ObserveDown (cr_ProbeID result) (cr_Timestamp result)
          (Some (evidenceExpiresAt check (cr_Timestamp result))) (TrimSpace (cr_Error result)) q)
  = route (cr_ProbeID result) (check_event (result_event check result)) q.
Proof. unfold result_event. by destruct (cr_Up result). Qed.

(** The quorum a result is routed to. *)
Definition target_quorum (checkID probeID : string) (r : Runtime) : QuorumMachine :=
  (QuorumMachine.AddProbe probeID (ensureQuorumLocked checkID r).1).2.

Lemma target_quorum_eq probeID q :
  (if bool_decide (is_Some (qm_checks q !! probeID)) then q
   else (QuorumMachine.AddProbe probeID q).2) = (QuorumMachine.AddProbe probeID q).2.
Proof.
  case_bool_decide as Hs; [|done]. destruct Hs as [c Hc]. rewrite AddProbe_effect. by rewrite Hc.
Qed.

Lemma marshal_event_ok check q prev cur write :
  exists write', monitoringWriteForCheckEvent check q prev cur write = inr write'.
Proof.
  unfold monitoringWriteForCheckEvent, notificationRequest, marshal_AlertPayload.
  repeat case_match; simplify_eq; eauto.
Qed.

(** The rollback record of one result. *)
Definition result_rollback (checkID probeID : string) (r : Runtime) : observedResultRollback :=
  let q := (ensureQuorumLocked checkID r).1 in
  MkRollback checkID probeID (negb (bool_decide (is_Some (rt_quorums r !! checkID))))
    (negb (bool_decide (is_Some (qm_checks q !! probeID))))
    (default (NewCheckMachine checkID probeID) (qm_checks (target_quorum checkID probeID r) !! probeID))
    (qm_state q).

(** [ensureQuorumLocked] followed by an update of the quorum is one update. *)
Lemma set_ensured checkID q' r :
  set_quorum checkID q' (ensureQuorumLocked checkID r).2 = set_quorum checkID q' r.
Proof.
  unfold ensureQuorumLocked. destruct (rt_quorums r !! checkID); [done|].
  unfold set_quorum. simpl. by rewrite insert_insert_eq.
Qed.

(** A result in one equation: route it, then write, or roll back. *)
Lemma applyObservedResultLocked_eq check result r p :
  rt_probes r !! cr_ProbeID result = Some p ->
  let checkID := ck_ID check in
  let probeID := cr_ProbeID result in
  let q := target_quorum checkID probeID r in
  let rb := result_rollback checkID probeID r in
  applyObservedResultLocked check result r =
  match route probeID (check_event (result_event check result)) q with
  | (inl e, q') => (inl e, undo rb (set_quorum checkID q' r))
  | (inr update, q') =>
      match monitoringWriteForCheckEvent check q' (rb_PreviousQuorum rb) (cu_Quorum update)
              (stateWrite checkID probeID (default (rb_PreviousCheck rb) (qm_checks q' !! probeID))) with
      | inl e => (inl e, set_quorum checkID q' r)
      | inr write => (inr (write, rb), set_quorum checkID q' r)
      end
  end.
Proof.
  intros Hp. cbv zeta. unfold applyObservedResultLocked. rewrite Hp.
  pose proof (set_ensured (ck_ID check)) as Hset.
  unfold target_quorum, result_rollback, target_quorum.
  destruct (ensureQuorumLocked (ck_ID check) r) as [q0 r1] eqn:He. simpl.
  rewrite target_quorum_eq, observe_result.
  specialize (fun q' => Hset q' r) as Hset'. rewrite He in Hset'. simpl in Hset'.
  destruct (route _ _ _) as [[e|update] q']; rewrite Hset'; [done|].
  by destruct (monitoringWriteForCheckEvent _ _ _ _ _).
Qed.

Lemma undo_result checkID probeID op r res q' :
  route probeID op (target_quorum checkID probeID r) = (res, q') ->
  undo (result_rollback checkID probeID r) (set_quorum checkID q' r) = r.
Proof.
  intros Hr. unfold result_rollback. unfold target_quorum, ensureQuorumLocked in *.
  destruct (rt_quorums r !! checkID) as [q|] eqn:Hq; simpl in *.
  - eapply undo_existing; [done|reflexivity|..].
    + intros Hs. pose proof Hs as [c Hc].
      assert (Hadd : (QuorumMachine.AddProbe probeID q).2 = q) by (rewrite AddProbe_effect; by rewrite Hc).
      rewrite Hadd in *. rewrite Hc. split; [done|]. by apply (route_child _ _ _ _ _ Hr).
    + intros p Hp. by rewrite (route_checks _ _ _ _ _ Hr p Hp), AddProbe_checks.
  - by apply undo_created.
Qed.

(** One result can be undone, and a failing one undoes itself. *)
Lemma applyObservedResultLocked_undo check result r :
  match applyObservedResultLocked check result r with
  | (inl _, r') => r' = r
  | (inr (_, rb), r') => undo rb r' = r
  end.
Proof.
  destruct (rt_probes r !! cr_ProbeID result) as [p|] eqn:Hp;
    [|unfold applyObservedResultLocked; by rewrite Hp].
  rewrite (applyObservedResultLocked_eq _ _ _ _ Hp).
  destruct (route _ _ _) as [[e|update] q'] eqn:Hr; [by eapply undo_result|].
  destruct (marshal_event_ok check q' (rb_PreviousQuorum (result_rollback (ck_ID check) (cr_ProbeID result) r))
    (cu_Quorum update) (stateWrite (ck_ID check) (cr_ProbeID result)
       (default (rb_PreviousCheck (result_rollback (ck_ID check) (cr_ProbeID result) r))
          (qm_checks q' !! cr_ProbeID result)))) as [write ->].
  by eapply undo_result.
Qed.

Lemma rollback_app rbs rb r :
  rollbackObservedResultsLocked (rbs ++ [rb]) r = rollbackObservedResultsLocked rbs (undo rb r).
Proof. unfold rollbackObservedResultsLocked. by rewrite fold_right_app. Qed.

(** The loop keeps a list of rollbacks that leads back to where it started. *)
Lemma observe_all_undo observed : forall writes rbs r r0,
  rollbackObservedResultsLocked rbs r = r0 ->
  match observe_all observed writes rbs r with
  | (inl _, r') => r' = r0
  | (inr (_, rbs'), r') => rollbackObservedResultsLocked rbs' r' = r0
  end.
Proof.
  induction observed as [|item observed IH]; intros writes rbs r r0 Hr; simpl; [done|].
  pose proof (applyObservedResultLocked_undo (ob_Check item) (ob_Result item) r) as Hu.
  destruct (applyObservedResultLocked _ _ r) as [[e|[write rb]] r']; [by rewrite Hu|].
  apply IH. by rewrite rollback_app, Hu.
Qed.

Lemma result_batch_restores `{ResultBatchStore W} observed runtime (st : option W)
    e runtime' st' :
  ApplyResultBatch observed (runtime, st) = (inl e, (runtime', st')) -> runtime' = runtime.
Proof.
  unfold ApplyResultBatch. destruct runtime as [r|], st as [w|]; try (by intros [= _ <- _]).
  destruct (bool_decide (length observed = 0)); [done|]. unfold applyObservedResultBatch.
  pose proof (observe_all_undo observed [] [] r r eq_refl) as Hu.
  destruct (observe_all observed [] [] r) as [[e'|[writes rbs]] r']; [by intros [= _ <- _]; rewrite Hu|].
  destruct (store_PersistMonitoringBatch writes w) as [[e'|x] w']; [|done].
  intros [= _ <- _]. by rewrite Hu.
Qed.

(** C4. A result batch that fails leaves the runtime untouched.  Whatever the
    batch, whatever the runtime's state and whichever error is returned (an
    unknown probe in the middle of the batch, a failing transition, a failing
    store), [ApplyResultBatch] leaves the runtime exactly as it was: new checks
    and assignments are gone and every changed machine is back. *)
Theorem result_batch_error_restores_runtime `{ResultBatchStore W} observed runtime (st : option W)
    e runtime' st' :
  ApplyResultBatch observed (runtime, st) = (inl e, (runtime', st')) -> runtime' = runtime.
Proof. apply result_batch_restores. Qed.
End rollback.
