(* ===== verification/Mock.v ===== *)
(** cmd/wacht-mock/main.go: the targets and the webhook receiver of the smoke
    tests.

    A request has a path, a method and what decoding its body into the type of its
    route gives; the outcomes of opening and closing the TCP listener are
    arguments.  [/slow] answers as [/up] does, later. *)

From S2P Require Import Prelude GoStrings GoNet Types Database StoreNotifications Sender Results DnsTarget.

(** * Targets *)

(** The listener is open or nil. *)
Record tcpTarget := MkTcpTarget { tt_addr : string; tt_listener : bool }.

Definition tcp_status (t : tcpTarget) : string := if tt_listener t then "up" else "down".

Definition tcp_setStatus (listen close : option GoError) (status : string) (t : tcpTarget)
    : option GoError * tcpTarget :=
  if status == "up" then
    if tt_listener t then (None, t)
    else match listen with
         | Some err => (Some (Wrapf ("listen on " +:+ tt_addr t) err), t)
         | None => (None, MkTcpTarget (tt_addr t) true)
         end
  else if status == "down" then
    if negb (tt_listener t) then (None, t)
    else
      let t := MkTcpTarget (tt_addr t) false in
      match close with
      | Some err => if errors_Is err ErrClosed then (None, t) else (Some (Wrapf ("close listener on " +:+ tt_addr t) err), t)
      | None => (None, t)
      end
  else (Some (Wrapf status errUnsupportedStatus), t).

Definition newTCPTarget (listen : option GoError) (addr : string) : GoError + tcpTarget :=
  match tcp_setStatus listen None "up" (MkTcpTarget addr false) with
  | (Some err, _) => inl err
  | (None, t) => inr t
  end.

Definition tcp_close (close : option GoError) (t : tcpTarget) : option GoError * tcpTarget :=
  tcp_setStatus None close "down" t.

(** The connections the loop accepts and closes: it ends with the first error,
    which is [net.ErrClosed] when the target goes down. *)
Fixpoint acceptLoop {Conn} (accepts : list (GoError + Conn)) : list Conn :=
  match accepts with
  | inr conn :: accepts => conn :: acceptLoop accepts
  | _ => []
  end.

(** While nothing fails, every connection is accepted and closed, in order. *)
Lemma accept_all {Conn} (conns : list Conn) err rest :
  acceptLoop ((inr <$> conns) ++ inl err :: rest) = conns.
Proof. induction conns as [|conn conns IH]; [done|]. cbn. f_equal. exact IH. Qed.

(** * Webhooks *)

Record webhookStore := MkWebhookStore { ws_payloads : list AlertPayload; ws_failNext : Z }.

Definition add (payload : AlertPayload) (s : webhookStore) : webhookStore :=
  MkWebhookStore (ws_payloads s ++ [payload]) (ws_failNext s).
Definition clear (s : webhookStore) : webhookStore := MkWebhookStore [] 0.
Definition setFailNext (n : Z) (s : webhookStore) : webhookStore := MkWebhookStore (ws_payloads s) n.
Definition control (s : webhookStore) : Z := ws_failNext s.
(** [list] copies the slice. *)
Definition list_payloads (s : webhookStore) : list AlertPayload := ws_payloads s.
Definition failNow (s : webhookStore) : bool * webhookStore :=
  if (ws_failNext s <=? 0)%Z then (false, s)
  else (true, MkWebhookStore (ws_payloads s) (ws_failNext s - 1)).

(** * Routes *)

Record MockRequest := MkMockRequest {
  mr_Path : string;
  mr_Method : string;
  mr_status : option string;            (** the body as a [controlState] *)
  mr_payload : option AlertPayload;
  mr_failNext : option Z
}.

Inductive MockBody :=
| MockEmpty
| MockText (s : string)
| MockError (err : GoError)             (** [err.Error()] *)
| MockStatus (status : string)
| MockControl (failNext : Z)
| MockPayloads (payloads : list AlertPayload).
Record MockResponse := MkMockResponse { mk_status : Z; mk_body : MockBody }.

Record Mock := MkMock {
  m_currentState : Z;
  m_tcp : tcpTarget;
  m_dns : dnsTarget;
  m_webhooks : webhookStore;
  m_flapCounter : Z
}.

Definition writeState (state : Z) : MockResponse :=
  if (state =? stateDown)%Z then MkMockResponse 503 (MockText "down") else MkMockResponse 200 (MockText "up").

Definition bad_request : MockResponse := MkMockResponse 400 (MockText "bad request").
Definition no_content : MockResponse := MkMockResponse 204 MockEmpty.
Definition not_allowed : MockResponse := MkMockResponse 405 MockEmpty.

Definition set_state (v : Z) (m : Mock) : Mock :=
  MkMock v (m_tcp m) (m_dns m) (m_webhooks m) (m_flapCounter m).
Definition set_webhooks (w : webhookStore) (m : Mock) : Mock :=
  MkMock (m_currentState m) (m_tcp m) (m_dns m) w (m_flapCounter m).

Definition flap (m : Mock) : MockResponse * Mock :=
  let n := ((m_flapCounter m + 1) mod 2 ^ 64)%Z in
  let m := MkMock (m_currentState m) (m_tcp m) (m_dns m) (m_webhooks m) n in
  if (n mod 2 =? 0)%Z then (MkMockResponse 200 (MockText "flap up"), m)
  else (MkMockResponse 503 (MockText "flap down"), m).

Definition httpStateHandler (r : MockRequest) (m : Mock) : MockResponse * Mock :=
  if mr_Method r == "GET" then (writeState (m_currentState m), m)
  else if mr_Method r == "POST" then
    match mr_status r with
    | None => (bad_request, m)
    | Some status =>
        if status == "up" then (no_content, set_state stateUp m)
        else if status == "down" then (no_content, set_state stateDown m)
        else (MkMockResponse 400 (MockText "unsupported status"), m)
    end
  else (not_allowed, m).

(** The answer to the error of a [setStatus]. *)
Definition status_error (err : GoError) : MockResponse :=
  if errors_Is err errUnsupportedStatus then MkMockResponse 400 (MockError err)
  else MkMockResponse 500 (MockText "internal error").

Definition tcpStateHandler (listen close : option GoError) (r : MockRequest) (m : Mock) : MockResponse * Mock :=
  if mr_Method r == "GET" then (MkMockResponse 200 (MockStatus (tcp_status (m_tcp m))), m)
  else if mr_Method r == "POST" then
    match mr_status r with
    | None => (bad_request, m)
    | Some status =>
        let '(err, t) := tcp_setStatus listen close status (m_tcp m) in
        let m := MkMock (m_currentState m) t (m_dns m) (m_webhooks m) (m_flapCounter m) in
        match err with Some err => (status_error err, m) | None => (no_content, m) end
    end
  else (not_allowed, m).

Definition dnsStateHandler (r : MockRequest) (m : Mock) : MockResponse * Mock :=
  if mr_Method r == "GET" then (MkMockResponse 200 (MockStatus (DnsTarget.status (m_dns m))), m)
  else if mr_Method r == "POST" then
    match mr_status r with
    | None => (bad_request, m)
    | Some status =>
        let '(err, t) := DnsTarget.setStatus status (m_dns m) in
        let m := MkMock (m_currentState m) (m_tcp m) t (m_webhooks m) (m_flapCounter m) in
        match err with Some err => (status_error err, m) | None => (no_content, m) end
    end
  else (not_allowed, m).

Definition webhookHandler (r : MockRequest) (m : Mock) : MockResponse * Mock :=
  if mr_Method r == "GET" then (MkMockResponse 200 (MockPayloads (list_payloads (m_webhooks m))), m)
  else if mr_Method r == "POST" then
    match mr_payload r with
    | None => (bad_request, m)
    | Some payload =>
        let '(fail, w) := failNow (m_webhooks m) in
        if fail then (MkMockResponse 500 (MockText "forced failure"), set_webhooks w m)
        else (no_content, set_webhooks (add payload w) m)
    end
  else if mr_Method r == "DELETE" then (no_content, set_webhooks (clear (m_webhooks m)) m)
  else (not_allowed, m).

Definition controlHandler (r : MockRequest) (m : Mock) : MockResponse * Mock :=
  if mr_Method r == "GET" then (MkMockResponse 200 (MockControl (control (m_webhooks m))), m)
  else if mr_Method r == "POST" then
    match mr_failNext r with
    | None => (bad_request, m)
    | Some n =>
        if (n <? 0)%Z then (MkMockResponse 400 (MockText "fail_next must be non-negative"), m)
        else (no_content, set_webhooks (setFailNext n (m_webhooks m)) m)
    end
  else (not_allowed, m).

Definition mock_serve (listen close : option GoError) (r : MockRequest) (m : Mock) : MockResponse * Mock :=
  if mr_Path r == "/up" then (MkMockResponse 200 (MockText "ok"), m)
  else if mr_Path r == "/down" then (MkMockResponse 503 (MockText "down"), m)
  else if mr_Path r == "/slow" then (MkMockResponse 200 (MockText "slow ok"), m)
  else if mr_Path r == "/flap" then flap m
  else if mr_Path r == "/http/state" then httpStateHandler r m
  else if mr_Path r == "/tcp/state" then tcpStateHandler listen close r m
  else if mr_Path r == "/dns/state" then dnsStateHandler r m
  else if mr_Path r == "/webhook" then webhookHandler r m
  else if mr_Path r == "/webhook/control" then controlHandler r m
  else (MkMockResponse 404 (MockText "404 page not found"), m).

(** * What a scenario may rely on *)

Definition post_webhook (p : AlertPayload) : MockRequest := MkMockRequest "/webhook" "POST" None (Some p) None.
Definition force (n : Z) : MockRequest := MkMockRequest "/webhook/control" "POST" None None (Some n).

(** A sequence of requests, with the statuses of the answers. *)
Fixpoint mock_run (listen close : option GoError) (rs : list MockRequest) (m : Mock) : list Z * Mock :=
  match rs with
  | [] => ([], m)
  | r :: rs =>
      let '(a, m) := mock_serve listen close r m in
      let '(as_, m) := mock_run listen close rs m in
      (mk_status a :: as_, m)
  end.

Lemma posts_counted listen close ps : forall m,
  (0 <= ws_failNext (m_webhooks m))%Z ->
  let n := Z.to_nat (ws_failNext (m_webhooks m)) in
  mock_run listen close (post_webhook <$> ps) m =
    (replicate (Nat.min n (length ps)) 500%Z ++ replicate (length ps - n) 204%Z,
     set_webhooks (MkWebhookStore (ws_payloads (m_webhooks m) ++ drop n ps)
       (Z.of_nat (n - length ps))) m).
Proof.
  induction ps as [|p ps IH]; intros m Hn; cbv zeta.
  { destruct m as [st tcp dns [payloads n] fl]. simpl in *.
    by rewrite Nat.min_0_r, drop_nil, !app_nil_r, Nat.sub_0_r, Z2Nat.id. }
  cbn [fmap list_fmap mock_run].
  assert (E : mock_serve listen close (post_webhook p) m = webhookHandler (post_webhook p) m) by done.
  rewrite E. unfold webhookHandler. cbn [mr_Method post_webhook mr_payload].
  change ("POST" == "GET") with false. change ("POST" == "POST") with true. cbv iota. unfold failNow.
  destruct (Z.leb_spec (ws_failNext (m_webhooks m)) 0).
  - assert (E0 : ws_failNext (m_webhooks m) = 0%Z) by lia.
    specialize (IH (set_webhooks (add p (m_webhooks m)) m)). cbn [set_webhooks add m_webhooks ws_failNext ws_payloads] in IH.
    rewrite E0 in *. rewrite IH by done. simpl. rewrite !Nat.sub_0_r. by rewrite <-app_assoc.
  - specialize (IH (set_webhooks (MkWebhookStore (ws_payloads (m_webhooks m)) (ws_failNext (m_webhooks m) - 1)) m)).
    cbn [set_webhooks m_webhooks ws_failNext ws_payloads] in IH. rewrite IH by lia.
    replace (Z.to_nat (ws_failNext (m_webhooks m))) with (S (Z.to_nat (ws_failNext (m_webhooks m) - 1))) by lia.
    done.
Qed.

(** Forced failures are counted exactly.  After a scenario asks for [n] failures,
    of the deliveries that follow the first [n] are answered 500 and not kept, and
    all later ones are answered 204 and kept in order, so a delivery that is
    retried until it is answered 204 is kept exactly once. *)
Lemma forced_failures_counted listen close n ps m :
  (0 <= n)%Z ->
  mock_run listen close (force n :: (post_webhook <$> ps)) m =
    (204%Z :: replicate (Nat.min (Z.to_nat n) (length ps)) 500%Z ++ replicate (length ps - Z.to_nat n) 204%Z,
     set_webhooks (MkWebhookStore (ws_payloads (m_webhooks m) ++ drop (Z.to_nat n) ps)
       (Z.of_nat (Z.to_nat n - length ps))) m).
Proof.
  intros Hn. cbn [mock_run].
  assert (E : mock_serve listen close (force n) m = (no_content, set_webhooks (setFailNext n (m_webhooks m)) m)).
  { unfold mock_serve, force. cbn [mr_Path]. repeat (rewrite bool_decide_eq_false_2 by done).
    rewrite bool_decide_eq_true_2 by done. unfold controlHandler. cbn [mr_Method mr_failNext].
    rewrite bool_decide_eq_false_2, bool_decide_eq_true_2 by done. destruct (Z.ltb_spec n 0); [lia|done]. }
  rewrite E. rewrite posts_counted by done. done.
Qed.

Definition ex_alert (status : string) : AlertPayload := MkAlertPayload "c" "web" "t" status 2 3.
Definition ex_mock : Mock := MkMock stateUp (MkTcpTarget ":9091" true) (MkDnsTarget "x" [] stateUp) (MkWebhookStore [] 0) 0.

Lemma forced_failures_counted_run :
  mock_run None None (force 2 :: (post_webhook <$> [ex_alert "down"; ex_alert "down"; ex_alert "down"; ex_alert "up"])) ex_mock =
    ([204; 500; 500; 204; 204]%Z, set_webhooks (MkWebhookStore [ex_alert "down"; ex_alert "up"] 0) ex_mock).
Proof. rewrite (forced_failures_counted None None 2); [reflexivity|discriminate]. Qed.

(** The sender's verdict on a delivery is the receiver's: [Fire] reports no error
    exactly if the payload was kept, and then once. *)
Lemma fire_agrees_with_receiver `{SE : SenderEnv} listen close url body n p m :
  Sender.http_NewRequest url = None ->
  let '(answer, m') := mock_serve listen close (post_webhook p) m in
  let err := Fire (Some (fun _ _ _ => inr (mk_status answer))) n url body in
  (err = None /\ ws_payloads (m_webhooks m') = ws_payloads (m_webhooks m) ++ [p]) \/
  (is_Some err /\ ws_payloads (m_webhooks m') = ws_payloads (m_webhooks m)).
Proof.
  intros Hreq. change (mock_serve listen close (post_webhook p) m) with (webhookHandler (post_webhook p) m).
  unfold webhookHandler. cbn [mr_Method post_webhook mr_payload].
  change ("POST" == "GET") with false. change ("POST" == "POST") with true. cbv iota. unfold failNow, Fire.
  destruct (ws_failNext (m_webhooks m) <=? 0)%Z; rewrite Hreq; cbn; [by left|right; split; [by eexists|done]].
Qed.

(** The flapping target alternates, also when its counter wraps. *)
Lemma flap_alternates m :
  (0 <= m_flapCounter m < 2 ^ 64)%Z ->
  let '(a, m1) := flap m in let '(b, m2) := flap m1 in
  ((mk_status a = 503 /\ mk_status b = 200) \/ (mk_status a = 200 /\ mk_status b = 503))%Z /\
  (0 <= m_flapCounter m2 < 2 ^ 64)%Z.
Proof.
  intros Hm. unfold flap. set (n := ((m_flapCounter m + 1) mod 2 ^ 64)%Z).
  assert (Hn : (0 <= n < 2 ^ 64)%Z) by (apply Z.mod_pos_bound; lia).
  assert (Hp : ((n + 1) mod 2 ^ 64 mod 2 = (n + 1) mod 2)%Z).
  { change (2 ^ 64)%Z with (2 * 2 ^ 63)%Z. rewrite Z.rem_mul_r by lia.
    rewrite Z.mul_comm, Z.mod_add, Z.mod_mod by lia. done. }
  pose proof (Z.mod_pos_bound (n + 1) (2 ^ 64) ltac:(lia)) as Hb.
  destruct (Z.eqb_spec (n mod 2) 0) as [E|E]; cbn [m_flapCounter]; rewrite Hp;
    destruct (Z.eqb_spec ((n + 1) mod 2) 0) as [E'|E']; cbn [m_flapCounter mk_status]; split; try done; try auto;
    exfalso; pose proof (Z.mod_pos_bound n 2 ltac:(lia)); rewrite Z.add_mod in E' by lia; simpl in E'.
  - rewrite E in E'. discriminate.
  - assert (E1 : (n mod 2 = 1)%Z) by lia. rewrite E1 in E'. by apply E'.
Qed.
