(* ===== verification/Ledger.v ===== *)
(** The contract between the runtime and its store about incidents, and that a
    result batch keeps the two in agreement.  The laws are an interface: the
    theorems here hold for any store that obeys them, and StoreLedger.v shows
    that the store does. *)

From S2P Require Import Prelude GoStrings Stateless Types CheckMachine QuorumMachine Runtime.
From S2P Require Import StoreNotifications StoreMonitoring Results.

(** What the runtime may know of the store: which checks are active, which have
    an open incident, which texts are check IDs, and when its data is sound. *)
Class IncidentLedger (W : Type) : Type := {
  led_inv : W -> Prop;
  led_active : W -> string -> bool;
  led_open : W -> string -> bool;
  led_id : string -> Prop
}.

(** The effect a monitoring write promises on the open incidents. *)
Definition incident_effect (open : string -> bool) (wr : MonitoringWrite) : string -> bool :=
  fun c => if mw_IncidentCheckID wr == c then negb (mw_ResolveIncident wr) else open c.

Definition names_check `{IncidentLedger W} (wr : MonitoringWrite) : Prop :=
  mw_IncidentCheckID wr = "" \/ led_id (mw_IncidentCheckID wr).

(** A state row that a well-formed machine is stored as. *)
Definition csw_wf (s : CheckStateWrite) : Prop :=
  check_wf (MkCheckExecState (csw_CheckID s) (csw_ProbeID s) (csw_LastResultAt s) (csw_LastOutcome s)
              (csw_StreakLen s) (csw_ExpiresAt s) (csw_State s) (csw_LastError s)).

(** The writes the runtime makes. *)
Definition sound_write `{IncidentLedger W} (wr : MonitoringWrite) : Prop :=
  names_check (W := W) wr /\ Forall csw_wf (mw_CheckStateWrites wr).

Class BatchLedgerLaws (W : Type) `{ResultBatchStore W} `{IncidentLedger W} : Prop := {
  led_id_nonempty c : led_id (W := W) c -> c <> "";
  led_active_id w c : led_inv w -> led_active w c = true -> led_id c;
  batch_ledger ws w saved w' :
    led_inv w -> Forall sound_write ws -> store_PersistMonitoringBatch ws w = (inr saved, w') ->
    led_inv w' /\ led_active w' = led_active w /\
    forall c, led_active w c = true ->
      led_open w' c = fold_left incident_effect ws (led_open w) c
}.

(** The runtime's view of a check's incident. *)
Definition runtime_open (r : Runtime) (c : string) : bool :=
  match rt_quorums r !! c with
  | Some q => cq_IncidentOpen (qm_state q)
  | None => false
  end.

(** Runtime and store agree on the incidents of the active checks. *)
Definition agree `{IncidentLedger W} (r : Runtime) (w : W) : Prop :=
  forall c, led_active w c = true -> runtime_open r c = led_open w c.

(** The runtime knows checks by their IDs only. *)
Definition keys_ok `{IncidentLedger W} (r : Runtime) : Prop :=
  forall c, is_Some (rt_quorums r !! c) -> led_id (W := W) c.

(** Runtime and store are sound and in agreement. *)
Definition synced `{IncidentLedger W} (r : Runtime) (w : W) : Prop :=
  runtime_wf r /\ led_inv w /\ keys_ok (W := W) r /\ agree r w.

(** * One event *)

Lemma event_write_names check q prev cur checkID probeID child wr :
  monitoringWriteForCheckEvent check q prev cur (stateWrite checkID probeID child) = inr wr ->
  (mw_IncidentCheckID wr = "" \/ mw_IncidentCheckID wr = ck_ID check) /\
  mw_CheckStateWrites wr = [checkStateWrite checkID probeID child].
Proof.
  unfold monitoringWriteForCheckEvent. repeat case_match; intros; simplify_eq; auto.
Qed.

Lemma state_write_wf checkID probeID c :
  check_wf c -> Forall csw_wf [checkStateWrite checkID probeID c].
Proof. intros Hc. constructor; [exact Hc|constructor]. Qed.

(** The write for a stable transition has the effect the runtime's flag shows. *)
Lemma event_write_effect check q prev cur checkID probeID child wr open :
  monitoringWriteForCheckEvent check q prev cur (stateWrite checkID probeID child) = inr wr ->
  open (ck_ID check) = cq_IncidentOpen prev -> ck_ID check <> "" ->
  (mw_IncidentCheckID wr = "" \/ mw_IncidentCheckID wr = ck_ID check) /\
  incident_effect open wr (ck_ID check) = incident_after prev (cq_LastStableState cur).
Proof.
  intros Hw Ho Hne. unfold monitoringWriteForCheckEvent in Hw. unfold incident_after, incident_effect.
  destruct (_ && (cq_LastStableState cur == QuorumStateDown)) eqn:H1.
  { destruct (notificationRequest check "down" q) as [e|req]; [done|]. injection Hw as <-. simpl.
    rewrite bool_decide_eq_true_2 by done. auto. }
  destruct (cq_IncidentOpen prev) eqn:Hop; simpl in Hw.
  - destruct (_ && (cq_LastStableState cur == QuorumStateUp)) eqn:H2.
    + destruct (notificationRequest check "up" q) as [e|req]; [done|]. injection Hw as <-. simpl.
      rewrite bool_decide_eq_true_2 by done. auto.
    + injection Hw as <-. simpl. rewrite bool_decide_eq_false_2 by congruence. auto.
  - injection Hw as <-. simpl. rewrite bool_decide_eq_false_2 by congruence.
    split; [by left|]. rewrite Ho. by case_match.
Qed.

Section observe.
Context `{SLL : StatelessLaws}.

(** The flag after a result, from the state the code compared with. *)
Lemma observed_flag checkID probeID q0 ev c :
  qm_checks (QuorumMachine.AddProbe probeID q0).2 !! probeID = Some c ->
  quorum_wf checkID q0 ->
  let q' := child_effect probeID ev c (QuorumMachine.AddProbe probeID q0).2 in
  cq_IncidentOpen (qm_state q') = incident_after (qm_state q0) (cq_LastStableState (qm_state q')).
Proof.
  intros Hc Hwf q'. subst q'. unfold child_effect. simpl qm_state. rewrite AddProbe_effect in *.
  destruct (qm_checks q0 !! probeID) as [c0|] eqn:Hl; [done|].
  match goal with |- cq_IncidentOpen (next_state ?m2) = _ => apply (incident_two_steps
    (set_checks (<[probeID := NewCheckMachine (cq_CheckID (qm_state q0)) probeID]> (qm_checks q0)) q0) m2)
  end. done.
Qed.

Lemma ensure_wf checkID r : runtime_wf r -> quorum_wf checkID (ensureQuorumLocked checkID r).1.
Proof.
  intros (_ & Hq & _). unfold ensureQuorumLocked.
  destruct (rt_quorums r !! checkID) eqn:Hl; [by apply Hq|apply NewQuorumMachine_wf].
Qed.

Lemma runtime_open_ensure checkID r :
  runtime_open r checkID = cq_IncidentOpen (qm_state (ensureQuorumLocked checkID r).1).
Proof. unfold runtime_open, ensureQuorumLocked. by destruct (rt_quorums r !! checkID). Qed.

(** The machine a result is routed to after it was applied. *)
Lemma result_run check result r p :
  runtime_wf r -> rt_probes r !! cr_ProbeID result = Some p ->
  let checkID := ck_ID check in
  let probeID := cr_ProbeID result in
  let q := target_quorum checkID probeID r in
  exists c tr qt, qm_checks q !! probeID = Some c /\ check_wf c /\
    let q' := child_effect probeID (result_event check result) c q in
    route probeID (check_event (result_event check result)) q =
      (inr (MkCheckUpdate tr qt (qm_state q')), q') /\
    quorum_wf checkID q' /\ dom (qm_checks q') ⊆ dom (rt_probes r).
Proof.
  intros Hwf Hp. cbv zeta. unfold target_quorum.
  set (q0 := (ensureQuorumLocked (ck_ID check) r).1).
  assert (Hq0 : quorum_wf (ck_ID check) q0) by (by apply ensure_wf).
  destruct (AddProbe_child (cr_ProbeID result) q0) as [c Hc].
  pose proof (AddProbe_wf _ (cr_ProbeID result) _ Hq0) as Hq.
  destruct Hq as (Hid & Hs & Hch). destruct (Hch _ _ Hc) as (_ & _ & Hcw).
  destruct (route_event (cr_ProbeID result) (result_event check result) _ c Hc
              (check_wf_state_valid _ Hcw)) as (tr & Hr & _).
  eexists c, tr, _. split_and!; [done|done|exact Hr|by apply child_effect_wf|].
  simpl. rewrite dom_insert_L, AddProbe_dom.
  assert (Hd : dom (qm_checks q0) ⊆ dom (rt_probes r)).
  { unfold q0, ensureQuorumLocked. destruct (rt_quorums r !! ck_ID check) as [q1|] eqn:Hl;
      [by apply (runtime_wf_quorum _ _ _ Hwf Hl)|simpl; set_solver]. }
  apply elem_of_dom_2 in Hp. set_solver.
Qed.

(** One result keeps the runtime well formed, and its write has the effect on
    incidents that the runtime's flags show. *)
Lemma result_effect check result r wr rb r' open :
  runtime_wf r -> ck_ID check <> "" -> runtime_open r (ck_ID check) = open (ck_ID check) ->
  applyObservedResultLocked check result r = (inr (wr, rb), r') ->
  runtime_wf r' /\ Forall csw_wf (mw_CheckStateWrites wr) /\
  (mw_IncidentCheckID wr = "" \/ mw_IncidentCheckID wr = ck_ID check) /\
  incident_effect open wr (ck_ID check) = runtime_open r' (ck_ID check) /\
  (forall c, c <> ck_ID check -> rt_quorums r' !! c = rt_quorums r !! c).
Proof.
  intros Hwf Hne Hopen Hrun.
  destruct (rt_probes r !! cr_ProbeID result) as [p|] eqn:Hp;
    [|unfold applyObservedResultLocked in Hrun; by rewrite Hp in Hrun].
  rewrite (applyObservedResultLocked_eq _ _ _ _ Hp) in Hrun.
  destruct (result_run check result r p Hwf Hp) as (c & tr & qt & Hc & Hcw & Hr & Hqw & Hqd).
  rewrite Hr in Hrun. simpl in Hrun.
  destruct (monitoringWriteForCheckEvent _ _ _ _ _) as [e|wr0] eqn:Hev; [done|].
  injection Hrun as <- _ <-.
  destruct (event_write_effect _ _ _ _ _ _ _ _ open Hev) as [Hname Heff]; [|done|].
  { rewrite <-Hopen. apply runtime_open_ensure. }
  split_and!; [by apply set_quorum_wf| |done| |].
  - destruct (event_write_names _ _ _ _ _ _ _ _ Hev) as [_ ->]. apply state_write_wf.
    simpl. rewrite lookup_insert_eq. by apply event_effect_wf.
  - rewrite Heff. unfold runtime_open, set_quorum. simpl. rewrite lookup_insert_eq. symmetry.
    apply (observed_flag (ck_ID check)); [exact Hc|by apply ensure_wf].
  - intros c' Hc'. simpl. by rewrite lookup_insert_ne.
Qed.
End observe.

(** * A batch *)

Section batch.
Context `{SLL : StatelessLaws}.

Lemma incident_effect_ext open open' wr c :
  open c = open' c -> incident_effect open wr c = incident_effect open' wr c.
Proof. unfold incident_effect. by case_match. Qed.

Lemma incident_effect_other open wr c id :
  (mw_IncidentCheckID wr = "" \/ mw_IncidentCheckID wr = id) -> c <> "" -> c <> id ->
  incident_effect open wr c = open c.
Proof. intros Hn H1 H2. unfold incident_effect. by rewrite bool_decide_eq_false_2 by naive_solver. Qed.

(** Before and after a batch, for every set of non-empty IDs on which the runtime
    agrees with [open]. *)
Lemma observe_all_effect (A : string -> Prop) observed :
  (forall c, A c -> c <> "") -> Forall (fun o => ck_ID (ob_Check o) <> "") observed ->
  forall writes rbs r writes' rbs' r' open,
  runtime_wf r -> (forall c, A c -> runtime_open r c = open c) ->
  observe_all observed writes rbs r = (inr (writes', rbs'), r') ->
  exists ws, writes' = writes ++ ws /\ runtime_wf r' /\
    Forall (fun wr => Forall csw_wf (mw_CheckStateWrites wr)) ws /\
    Forall (fun wr => mw_IncidentCheckID wr = "" \/
                      Exists (fun o => mw_IncidentCheckID wr = ck_ID (ob_Check o)) observed) ws /\
    (forall c, A c -> runtime_open r' c = fold_left incident_effect ws open c) /\
    (forall c, is_Some (rt_quorums r' !! c) ->
       is_Some (rt_quorums r !! c) \/ Exists (fun o => c = ck_ID (ob_Check o)) observed).
Proof.
  intros HA Hids. induction Hids as [|item observed Hid Hids IH];
    intros writes rbs r writes' rbs' r' open Hwf Hag Hrun; simpl in Hrun.
  { injection Hrun as <- _ <-. exists []. rewrite app_nil_r. split_and!; auto. }
  destruct (applyObservedResultLocked _ _ r) as [[e|[wr rb]] r1] eqn:Hitem; [done|].
  destruct (result_effect _ _ _ _ _ _ (runtime_open r) Hwf Hid eq_refl Hitem)
    as (Hwf1 & Hrows1 & Hname & Hself & Hother).
  destruct (IH (writes ++ [wr]) (rbs ++ [rb]) r1 writes' rbs' r' (incident_effect open wr) Hwf1)
    as (ws & -> & Hwf' & Hrows & Hnames & Hag' & Hkeys); [|done|].
  { intros c Hc. destruct (decide (c = ck_ID (ob_Check item))) as [->|Hne].
    - rewrite <-Hself. apply incident_effect_ext. by apply Hag.
    - unfold runtime_open. rewrite Hother by done. fold (runtime_open r c).
      rewrite (incident_effect_other _ _ _ _ Hname) by auto. by apply Hag. }
  exists (wr :: ws). rewrite <-app_assoc. split_and!; [done|done|by constructor| |exact Hag'|].
  - constructor; [destruct Hname; [by left|right; by left]|].
    eapply Forall_impl; [|exact Hnames]. intros wr' [|]; [by left|right; by right].
  - intros c Hc. destruct (Hkeys c Hc) as [Hk|Hk]; [|right; by right].
    destruct (decide (c = ck_ID (ob_Check item))) as [->|Hne]; [right; by left|].
    left. by rewrite <-Hother.
Qed.

Lemma result_batch_synced `{BatchLedgerLaws W} observed r (w : W) res r' w' :
  synced r w -> Forall (fun o => led_id (W := W) (ck_ID (ob_Check o))) observed ->
  ApplyResultBatch observed (Some r, Some w) = (res, (Some r', Some w')) ->
  match res with
  | inr _ => synced r' w'
  | inl _ => w' = w -> synced r' w'
  end.
Proof.
  intros Hsync Hids Hrun. destruct res as [e|[]].
  { intros ->. apply result_batch_restores in Hrun as [= ->]. done. }
  destruct Hsync as (Hwf & Hinv & Hkeys & Hag). unfold ApplyResultBatch in Hrun.
  destruct (bool_decide (length observed = 0)); [by injection Hrun as <- <-|].
  unfold applyObservedResultBatch in Hrun.
  destruct (observe_all observed [] [] r) as [[e|[writes rbs]] r1] eqn:Hobs; [done|].
  destruct (store_PersistMonitoringBatch writes w) as [[e|saved] w1] eqn:Hst; [done|].
  injection Hrun as <- <-. pose proof Hids as Hids'. rewrite Forall_forall in Hids'.
  destruct (observe_all_effect (fun c => led_active w c = true) observed) with
    (writes := @nil MonitoringWrite) (rbs := @nil observedResultRollback) (r := r) (writes' := writes)
    (rbs' := rbs) (r' := r1) (open := led_open w) as (ws & -> & Hwf' & Hrows & Hnames & Hag' & Hk'); try done.
  - intros c Hc. by eapply led_id_nonempty, led_active_id.
  - eapply Forall_impl; [|exact Hids]. intros o. by apply led_id_nonempty.
  - destruct (batch_ledger ws w saved w1 Hinv) as (Hinv' & Hact & Hopen); [|done|].
    + rewrite Forall_forall in Hnames, Hrows. apply Forall_forall. intros wr Hwr.
      split; [|by apply Hrows]. destruct (Hnames wr Hwr) as [|He]; [by left|right].
      apply Exists_exists in He as (o & Ho & ->). by apply Hids'.
    + split_and!; [done|done| |].
      * intros c Hc. destruct (Hk' c Hc) as [Hk|He]; [by apply Hkeys|].
        apply Exists_exists in He as (o & Ho & ->). by apply Hids'.
      * intros c Hc. rewrite Hact in Hc. by rewrite Hag', Hopen.
Qed.

(** Runtime and database agree on incidents.  If every active check's
    incident flag in the runtime says whether the database holds an open incident
    for it, and a result batch for checks named by their IDs is applied
    successfully, then this still holds, so that the notifications the database
    queues are exactly those of the runtime's stable transitions.  A batch that
    fails with the database unchanged keeps it too. *)
Lemma result_batch_keeps_agreement `{BatchLedgerLaws W} observed r (w : W) res r' w' :
  synced r w -> Forall (fun o => led_id (W := W) (ck_ID (ob_Check o))) observed ->
  ApplyResultBatch observed (Some r, Some w) = (res, (Some r', Some w')) ->
  match res with
  | inr _ => synced r' w'
  | inl _ => w' = w -> synced r' w'
  end.
Proof. apply result_batch_synced. Qed.
End batch.
