(* ===== verification/Heartbeat.v ===== *)
(** internal/monitoring/heartbeat.go: a heartbeat moves one probe's machine and
    its stored last-seen time together.  ([applyProbeDegradationLocked] of the
    same file is in Runtime.v.) *)

From S2P Require Import Prelude GoStrings Stateless Types ProbeMachine Runtime StoreMonitoring.

Class HeartbeatStore (W : Type) : Type :=
  store_PersistMonitoringWrite : MonitoringWrite -> St W MonitoringWrite.

Section methods.
Context `{SL : Stateless} `{HS : HeartbeatStore W}.

Definition heartbeatWrite (probeID : string) (at_ : Time) : MonitoringWrite :=
  MkMonitoringWrite [] probeID at_ "" false None.

Definition applyHeartbeat (probeID : string) (at_ : Time) : St (Runtime * W) unit := fun '(r, w) =>
  let heartbeatAt := UTC at_ in
  match rt_probes r !! probeID with
  | None => (inl ErrUnknownProbe, (r, w))
  | Some probe =>
      let previous := clone probe in
      match ProbeMachine.ReceiveHeartbeat heartbeatAt probe with
      | (inl e, probe') => (inl e, (set_probe probeID probe' r, w))
      | (inr _, probe') =>
          let r' := set_probe probeID probe' r in
          match store_PersistMonitoringWrite (heartbeatWrite probeID heartbeatAt) w with
          | (inl e, w') => (inl e, (set_probe probeID previous r', w'))
          | (inr _, w') => (inr tt, (r', w'))
          end
      end
  end.

Definition ApplyHeartbeat (probeID : string) (at_ : Time)
    : St (option Runtime * option W) unit := fun '(runtime, st) =>
  match runtime, st with
  | None, _ => (inl (Errorf "monitoring: runtime is required"), (runtime, st))
  | Some _, None => (inl (Errorf "monitoring: store is required"), (runtime, st))
  | Some r, Some w =>
      let '(res, (r', w')) := applyHeartbeat probeID at_ (r, w) in
      (res, (Some r', Some w'))
  end.
End methods.

Section properties.
Context `{SLL : StatelessLaws} `{HS : HeartbeatStore W}.

Lemma heartbeat_run probeID at_ r w p :
  runtime_wf r -> rt_probes r !! probeID = Some p ->
  applyHeartbeat probeID at_ (r, w) =
  match store_PersistMonitoringWrite (heartbeatWrite probeID at_) w with
  | (inl e, w') => (inl e, (r, w'))
  | (inr _, w') =>
      (inr tt, (set_probe probeID (MkProbeRuntimeState probeID ProbeStateOnline (Some at_) "") r, w'))
  end.
Proof.
  intros (Hps & _ & _) Hp. destruct (Hps _ _ Hp) as (_ & Hid & Hpw).
  unfold applyHeartbeat, UTC. rewrite Hp, ReceiveHeartbeat_valid by apply Hpw.
  destruct (store_PersistMonitoringWrite _ w) as [[e|x] w'].
  - unfold set_probe, clone. simpl. rewrite insert_insert_eq, insert_id by done. by destruct r.
  - unfold ProbeMachine.set_LastError, set_LastHeartbeatAt, ProbeMachine.set_State. simpl.
    by rewrite Hid.
Qed.

(** A heartbeat counts in full or not at all.  On a well-formed runtime
    [ApplyHeartbeat] for an unknown probe changes nothing and never reaches the
    store; for a known one it makes one write with the probe and the time; if the
    write fails the runtime is unchanged, and if it succeeds exactly that probe
    is online with that heartbeat and no error. *)
Lemma heartbeat_all_or_nothing probeID at_ r (w : W) :
  runtime_wf r ->
  ApplyHeartbeat probeID at_ (Some r, Some w) =
  match rt_probes r !! probeID with
  | None => (inl ErrUnknownProbe, (Some r, Some w))
  | Some _ =>
      match store_PersistMonitoringWrite (heartbeatWrite probeID at_) w with
      | (inl e, w') => (inl e, (Some r, Some w'))
      | (inr _, w') =>
          (inr tt, (Some (set_probe probeID
             (MkProbeRuntimeState probeID ProbeStateOnline (Some at_) "") r), Some w'))
      end
  end.
Proof.
  intros Hwf. unfold ApplyHeartbeat. destruct (rt_probes r !! probeID) as [p|] eqn:Hp.
  - rewrite (heartbeat_run _ _ _ _ p Hwf Hp).
    by destruct (store_PersistMonitoringWrite _ w) as [[e|x] w'].
  - unfold applyHeartbeat. by rewrite Hp.
Qed.
End properties.
