(* ===== verification/Sweepers.v ===== *)
(** internal/monitoring/sweepers.go: expiry of silent probes and stale evidence.

    A sweep takes the lock for each probe or assignment in turn.  What other
    goroutines do to the runtime and the store while the lock is free, before a
    given step, is the argument [between].  [range_order] is the order in which a
    step's loop over the quorum map runs. *)

From S2P Require Import Prelude GoStrings Stateless Types ProbeMachine CheckMachine QuorumMachine.
From S2P Require Import Runtime StoreNotifications StoreMonitoring Results Heartbeat.

Class SweeperStore (W : Type) : Type := {
  sweeper_writes :: HeartbeatStore W;
  store_GetCheckByID : string -> St W (option Check)
}.

Record probeSweepRollback := MkProbeSweepRollback {
  ps_probe : ProbeRuntimeState;
  ps_checks : gmap string CheckExecState;
  ps_quorums : gmap string CheckQuorumState
}.

Definition captureProbeSweepRollbackLocked (probeID : string) (r : Runtime) : probeSweepRollback :=
  MkProbeSweepRollback
    (match rt_probes r !! probeID with Some probe => clone probe | None => zeroProbeRuntimeState end)
    (map_imap (fun _ quorum => qm_checks quorum !! probeID) (rt_quorums r))
    (map_imap (fun _ quorum => match qm_checks quorum !! probeID with
                               | Some _ => Some (qm_state quorum) | None => None end) (rt_quorums r)).

(** The loop over [rollback.checks] touches each check once. *)
Definition restoreProbeSweepRollbackLocked (probeID : string) (rollback : probeSweepRollback)
    (r : Runtime) : Runtime :=
  MkRuntime
    (match rt_probes r !! probeID with
     | Some _ => <[probeID := clone (ps_probe rollback)]> (rt_probes r)
     | None => rt_probes r
     end)
    (map_imap (fun checkID quorum =>
       Some (match ps_checks rollback !! checkID, qm_checks quorum !! probeID with
             | Some previousCheck, Some _ =>
                 MkQuorumMachine (default (qm_state quorum) (ps_quorums rollback !! checkID))
                   (<[probeID := previousCheck]> (qm_checks quorum))
             | _, _ => quorum
             end)) (rt_quorums r)).

(** The guard of both sweeps: is there anything to expire? *)
Definition heartbeat_expired (sweptAt : Time) (offlineAfter : Duration) (p : ProbeRuntimeState) : bool :=
  (pr_State p != ProbeStateOffline) &&
  match pr_LastHeartbeatAt p with
  | None => false
  | Some t => negb (After (time_Add t offlineAfter) sweptAt)
  end.

Definition evidence_expired (sweptAt : Time) (c : CheckExecState) : bool :=
  (ce_State c != CheckStateError) && negb (IsZero (ce_ExpiresAt c)) &&
  negb (After (ce_ExpiresAt c) sweptAt).

Section sweeps.
Context `{SL : Stateless} `{SS : SweeperStore W}.

(** * Probes *)

(** One iteration; the result is whether the probe was expired. *)
Definition sweepProbe (order : list string) (sweptAt : Time) (offlineAfter : Duration)
    (probeID : string) : St Runtime bool := fun r =>
  match rt_probes r !! probeID with
  | None => (inl ErrUnknownProbe, r)
  | Some probe =>
      if negb (heartbeat_expired sweptAt offlineAfter probe) then (inr false, r)
      else
        let rollback := captureProbeSweepRollbackLocked probeID r in
        match ProbeMachine.ExpireHeartbeat probe with
        | (inl e, probe') => (inl e, set_probe probeID probe' r)
        | (inr _, probe') =>
            match applyProbeDegradationLocked order probeID ProbeStateOffline ""
                    (set_probe probeID probe' r) with
            | (inl e, r') => (inl e, restoreProbeSweepRollbackLocked probeID rollback r')
            | (inr _, r') => (inr true, r')
            end
        end
  end.

(** The loop; on an error the count so far is lost with the error's value. *)
Fixpoint sweepProbes (between : string -> Runtime -> Runtime)
    (range_order : string -> gmap string QuorumMachine -> list string)
    (sweptAt : Time) (offlineAfter : Duration) (probeIDs : list string) (expired : Z)
    : Runtime -> (Z * option GoError) * Runtime := fun r =>
  match probeIDs with
  | [] => ((expired, None), r)
  | probeID :: probeIDs =>
      let r := between probeID r in
      match sweepProbe (range_order probeID (rt_quorums r)) sweptAt offlineAfter probeID r with
      | (inl e, r') => ((expired, Some e), r')
      | (inr hit, r') =>
          sweepProbes between range_order sweptAt offlineAfter probeIDs
            (if hit then expired + 1 else expired)%Z r'
      end
  end.

Definition SweepProbes (between : string -> Runtime -> Runtime)
    (range_order : string -> gmap string QuorumMachine -> list string)
    (now : Time) (offlineAfter : Duration) (runtime : option Runtime) (st : option W)
    : (Z * option GoError) * option Runtime :=
  match runtime, st with
  | None, _ => ((0, Some (Errorf "monitoring: runtime is required")), runtime)%Z
  | Some _, None => ((0, Some (Errorf "monitoring: store is required")), runtime)%Z
  | Some r, Some _ =>
      if (offlineAfter <=? 0)%Z
      then ((0, Some (Errorf "monitoring: offlineAfter must be positive")), runtime)%Z
      else
        let '(res, r') := sweepProbes between range_order (UTC now) offlineAfter
                            (sorted_keys (rt_probes r)) 0 r in
        (res, Some r')
  end.

(** * Evidence *)

(** One iteration; the result is whether evidence was expired. *)
Definition sweepCheck (sweptAt : Time) (checkID probeID : string) : St (Runtime * W) bool :=
  fun '(r, w) =>
  match rt_quorums r !! checkID with
  | None => (inl ErrUnknownCheck, (r, w))
  | Some quorum =>
      match qm_checks quorum !! probeID with
      | None => (inl ErrUnknownCheckAssignment, (r, w))
      | Some check =>
          if negb (evidence_expired sweptAt check) then (inr false, (r, w))
          else
            let previousCheck := check in
            let previousQuorum := qm_state quorum in
            match QuorumMachine.LoseEvidence probeID quorum with
            | (inl e, quorum') => (inl e, (set_quorum checkID quorum' r, w))
            | (inr update, quorum') =>
                let r' := set_quorum checkID quorum' r in
                let restored := set_quorum checkID
                  (MkQuorumMachine previousQuorum
                     (<[probeID := previousCheck]> (qm_checks quorum'))) r' in
                let write := stateWrite checkID probeID
                  (default previousCheck (qm_checks quorum' !! probeID)) in
                let '(res, w1) :=
                  if cq_LastStableState previousQuorum != cq_LastStableState (cu_Quorum update)
                  then match store_GetCheckByID checkID w with
                       | (inl e, w1) => (inl e, w1)
                       | (inr None, w1) => (inr write, w1)
                       | (inr (Some checkDef), w1) =>
                           (monitoringWriteForCheckEvent checkDef quorum' previousQuorum
                              (cu_Quorum update) write, w1)
                       end
                  else (inr write, w) in
                match res with
                | inl e => (inl e, (restored, w1))
                | inr write =>
                    match store_PersistMonitoringWrite write w1 with
                    | (inl e, w2) => (inl e, (restored, w2))
                    | (inr _, w2) => (inr true, (r', w2))
                    end
                end
            end
      end
  end.

Fixpoint sweepChecks (between : string * string -> Runtime * W -> Runtime * W)
    (sweptAt : Time) (assignments : list (string * string)) (expired : Z)
    : Runtime * W -> (Z * option GoError) * (Runtime * W) := fun s =>
  match assignments with
  | [] => ((expired, None), s)
  | assignment :: assignments =>
      match sweepCheck sweptAt assignment.1 assignment.2 (between assignment s) with
      | (inl e, s') => ((expired, Some e), s')
      | (inr hit, s') =>
          sweepChecks between sweptAt assignments (if hit then expired + 1 else expired)%Z s'
      end
  end.

(** The stale assignments, collected from the maps and sorted. *)
Definition assignment_le (a b : string * string) : Prop :=
  if decide (a.1 = b.1) then String.le a.2 b.2 else String.le a.1 b.1.

#[global] Instance assignment_le_dec : RelDecision assignment_le.
Proof. intros a b. unfold assignment_le. case_decide; apply _. Defined.

Definition stale_assignments (sweptAt : Time) (r : Runtime) : list (string * string) :=
  flat_map (fun cq : string * QuorumMachine =>
    map (fun pc : string * CheckExecState => (cq.1, pc.1))
      (List.filter (fun pc : string * CheckExecState => evidence_expired sweptAt pc.2)
         (map_to_list (qm_checks cq.2)))) (map_to_list (rt_quorums r)).

Definition SweepChecks (between : string * string -> Runtime * W -> Runtime * W) (now : Time)
    (runtime : option Runtime) (st : option W)
    : (Z * option GoError) * (option Runtime * option W) :=
  match runtime, st with
  | None, _ => ((0, Some (Errorf "monitoring: runtime is required")), (runtime, st))%Z
  | Some _, None => ((0, Some (Errorf "monitoring: store is required")), (runtime, st))%Z
  | Some r, Some w =>
      let '(res, (r', w')) := sweepChecks between (UTC now)
        (merge_sort assignment_le (stale_assignments (UTC now) r)) 0 (r, w) in
      (res, (Some r', Some w'))
  end.
End sweeps.
