(* ===== verification/ProbeProcessor.v ===== *)
(** internal/server/probe_processor.go with the request types of
    internal/api/probe/types.go and the error structs of errors.go: what an
    authenticated probe may report, and its hand-over to the runtime.

    [now] is the value the handler's call of [time.Now] returns.  Log lines are
    not modelled. *)

From S2P Require Import Prelude GoStrings Stateless Types Database StoreNotifications StoreMonitoring.
From S2P Require Import StoreChecks StoreProbes Runtime Results Heartbeat Sweepers.

Definition badRequestError (message : string) : GoError := ErrTyped "badRequestError" message.
Definition unauthorizedError (message : string) : GoError := ErrTyped "unauthorizedError" message.
Definition notFoundError (message : string) : GoError := ErrTyped "notFoundError" message.
Definition requestEntityTooLargeError (message : string) : GoError :=
  ErrTyped "requestEntityTooLargeError" message.

(** The response an error is answered with, if [writeProcessorError] answers. *)
Definition writeProcessorError (err : GoError) : option (Z * string) :=
  match errors_As err "badRequestError" with
  | Some msg => Some (400%Z, msg)
  | None =>
      match errors_As err "requestEntityTooLargeError" with
      | Some msg => Some (413%Z, msg)
      | None =>
          match errors_As err "unauthorizedError" with
          | Some msg => Some (401%Z, msg)
          | None =>
              match errors_As err "notFoundError" with
              | Some msg => Some (404%Z, msg)
              | None => None
              end
          end
      end
  end.

Class ProbeStore (W : Type) : Type := {
  probe_sweeps :: SweeperStore W;
  probe_results :: ResultBatchStore W;
  store_RegisterProbe : string -> string -> St W unit
}.

Record HeartbeatRequest := MkHeartbeatRequest { hr_ProbeID : string }.
Record RegisterRequest := MkRegisterRequest { rr_ProbeID : string; rr_Version : string }.

(** A call that takes pointers, at pointers that are not nil. *)
Definition at_pointers {R W A} (m : St (option R * option W) A) : St (R * W) A := fun '(r, w) =>
  let '(res, (r', w')) := m (Some r, Some w) in (res, (default r r', default w w')).

Definition err_mismatch : GoError := badRequestError "probe_id does not match authenticated probe".

(** A report claims to come from another probe. *)
Definition foreign (claimed : string) (probe : Probe) : bool :=
  (claimed != "") && (claimed != pb_ProbeID probe).

Definition stamp (probe : Probe) (check : Check) (acceptedAt : Time) (incoming : CheckResult) : CheckResult :=
  MkCheckResult (ck_ID check) (ck_Name check) (pb_ProbeID probe) (ck_Type check) (ck_Target check)
    (cr_Up incoming) (cr_Latency incoming) (cr_Error incoming) acceptedAt.

Section processor.
Context `{SL : Stateless} `{PS : ProbeStore W}.

Definition Heartbeat (now : Time) (probe : option Probe) (req : HeartbeatRequest)
    : St (Runtime * W) unit := fun '(r, w) =>
  match probe with
  | None => (inl (Errorf "probe is required"), (r, w))
  | Some probe =>
      if foreign (hr_ProbeID req) probe then (inl err_mismatch, (r, w))
      else
        let r := (Runtime.AddProbe (pb_ProbeID probe) r).2 in
        match at_pointers (ApplyHeartbeat (pb_ProbeID probe) now) (r, w) with
        | (inl e, s) => (inl (Wrapf "apply heartbeat" e), s)
        | (inr _, s) => (inr tt, s)
        end
  end.

Definition Register (probe : option Probe) (req : RegisterRequest) : St (Runtime * W) unit := fun '(r, w) =>
  match probe with
  | None => (inl (Errorf "probe is required"), (r, w))
  | Some probe =>
      if foreign (rr_ProbeID req) probe then (inl err_mismatch, (r, w))
      else match store_RegisterProbe (pb_ProbeID probe) (rr_Version req) w with
           | (inl e, w') => (inl e, (r, w'))
           | (inr _, w') => (inr tt, ((Runtime.AddProbe (pb_ProbeID probe) r).2, w'))
           end
  end.

(** The accepted result with its check, or [None] to skip it; the state is the
    cache and the store. *)
Definition normalizeWithCache (probe : Probe) (incoming : CheckResult) (acceptedAt : Time)
    : St (gmap string Check * W) (option ObservedResult) := fun '(cache, w) =>
  if foreign (cr_ProbeID incoming) probe then (inl err_mismatch, (cache, w))
  else if cr_CheckID incoming == "" then (inr None, (cache, w))
  else
    match cache !! cr_CheckID incoming with
    | Some check => (inr (Some (MkObservedResult check (stamp probe check acceptedAt incoming))), (cache, w))
    | None =>
        match store_GetCheckByID (cr_CheckID incoming) w with
        | (inl err, w') =>
            if errors_Is err ErrInvalidCheckID then (inr None, (cache, w'))
            else (inl (Wrapf "look up check" err), (cache, w'))
        | (inr None, w') => (inr None, (cache, w'))
        | (inr (Some check), w') =>
            (inr (Some (MkObservedResult check (stamp probe check acceptedAt incoming))),
             (<[cr_CheckID incoming := check]> cache, w'))
        end
    end.

Fixpoint normalize_loop (probe : Probe) (incoming : list CheckResult) (acceptedAt : Time)
    (out : list ObservedResult) : St (gmap string Check * W) (list ObservedResult) :=
  match incoming with
  | [] => mret out
  | result :: incoming =>
      accepted ← normalizeWithCache probe result acceptedAt;
      normalize_loop probe incoming acceptedAt (out ++ option_list accepted)
  end.

Definition normalizeBatch (acceptedAt : Time) (probe : Probe) (incoming : list CheckResult)
    : St W (list ObservedResult) := fun w =>
  let '(res, (_, w')) := normalize_loop probe incoming acceptedAt [] (∅, w) in (res, w').

Definition ProcessBatch (now : Time) (probe : option Probe) (incoming : list CheckResult)
    : St (Runtime * W) unit := fun '(r, w) =>
  match probe with
  | None => (inl (Errorf "probe is required"), (r, w))
  | Some probe =>
      if bool_decide (length incoming = 0) then (inl (badRequestError "results is required"), (r, w))
      else match normalizeBatch now probe incoming w with
           | (inl e, w') => (inl e, (r, w'))
           | (inr normalized, w') =>
               match at_pointers (ApplyResultBatch normalized) (r, w') with
               | (inl e, s) => (inl (Wrapf "apply result batch" e), s)
               | (inr _, s) => (inr tt, s)
               end
           end
  end.
End processor.
