(* ===== verification/ProbeClient.v ===== *)
(** internal/api/probe: the probe's client of the server, and cmd/wacht-probe/main.go,
    the probe process.

    The network is a state [S] that [httpClient.Do] changes.  [json.Marshal],
    [json.Decoder] and [http.NewRequest] are those of the toolchain.  An error text
    leaves the URL's path out. *)

From S2P Require Import Prelude GoStrings GoNet Types NetPolicy ProbeProcessor Config Batcher Scheduler.
From stdpp Require Import pretty.

Definition HeaderProbeID : string := "X-Wacht-Probe-ID".
Definition HeaderProbeSecret : string := "X-Wacht-Probe-Secret".
Definition PathRegister : string := "/api/probes/register".
Definition PathChecks : string := "/api/probes/checks".
Definition PathHeartbeat : string := "/api/probes/heartbeat".
Definition PathResults : string := "/api/results".

(** The values the client encodes. *)
Inductive Payload :=
| RegisterPayload (req : RegisterRequest)
| HeartbeatPayload (req : HeartbeatRequest)
| ResultsPayload (results : list CheckResult).

Record Request := MkRequest {
  rq_Method : string;
  rq_URL : string;
  rq_Header : list (string * string);
  rq_Body : option string
}.
Record HTTPResponse := MkHTTPResponse { hp_StatusCode : Z; hp_Body : string }.

Class ProbeLib : Type := {
  json_Marshal : Payload -> GoError + string;
  json_checks : string -> GoError + list ProbeCheck;
  http_NewRequest : string -> string -> option GoError   (** the error for a method and a URL *)
}.

(** What a call reports: a [*ResponseError], or another error. *)
Inductive ClientError :=
| StatusError (method : string) (statusCode expected : Z)
| PlainError (err : GoError).

(** [Error] of a [*ResponseError]; [status] is the status line's text. *)
Definition ResponseError_Error (method path : string) (expected : Z) (status : string) : string :=
  method +:+ " " +:+ path +:+ ": expected status " +:+ pretty expected +:+ ", got " +:+ status.

(** What [errors.As] finds in it. *)
Definition post_error (e : ClientError) : PostError :=
  match e with StatusError _ status _ => ResponseError status | PlainError _ => OtherError end.

Record Client := MkClient { c_baseURL : string; c_probeID : string; c_secret : string }.

(** [strings.TrimRight(s, "/")]. *)
Fixpoint drop_slashes (s : string) : string :=
  match s with String a rest => if is_char 47 a then drop_slashes rest else s | EmptyString => s end.
Definition trim_slashes (s : string) : string := String.rev (drop_slashes (String.rev s)).

Definition NewClient (baseURL probeID secret : string) : Client :=
  MkClient (trim_slashes baseURL) probeID secret.

Section client.
Context `{PL : ProbeLib} {S : Type} (do : Request -> S -> (GoError + HTTPResponse) * S).

Definition newRequest (c : Client) (method path : string) (body : option Payload) : GoError + Request :=
  let payload := match body with
                 | None => inr None
                 | Some p => match json_Marshal p with inl err => inl err | inr data => inr (Some data) end
                 end in
  match payload with
  | inl err => inl err
  | inr reader =>
      let url := c_baseURL c +:+ path in
      match http_NewRequest method url with
      | Some err => inl err
      | None =>
          inr (MkRequest method url
            ([(HeaderProbeID, c_probeID c); (HeaderProbeSecret, c_secret c)] ++
             if bool_decide (is_Some body) then [("Content-Type", "application/json")] else []) reader)
      end
  end.

(** The common part of the calls: a request, and the response it gets. *)
Definition roundtrip (c : Client) (method path : string) (body : option Payload) (s : S)
    : (GoError + HTTPResponse) * S :=
  match newRequest c method path body with
  | inl err => (inl err, s)
  | inr req =>
      match do req s with
      | (inl err, s') => (inl (Wrapf (rq_Method req) err), s')
      | (inr resp, s') => (inr resp, s')
      end
  end.

Definition Register (c : Client) (version : string) (s : S) : option ClientError * S :=
  match roundtrip c "POST" PathRegister (Some (RegisterPayload (MkRegisterRequest (c_probeID c) version))) s with
  | (inl err, s') => (Some (PlainError err), s')
  | (inr resp, s') =>
      if negb (hp_StatusCode resp =? 204)%Z then (Some (StatusError "POST" (hp_StatusCode resp) 204), s')
      else (None, s')
  end.

Definition Heartbeat (c : Client) (s : S) : option GoError * S :=
  match roundtrip c "POST" PathHeartbeat (Some (HeartbeatPayload (MkHeartbeatRequest (c_probeID c)))) s with
  | (inl err, s') => (Some err, s')
  | (inr resp, s') =>
      if negb (hp_StatusCode resp =? 204)%Z then (Some (Errorf "expected status 204"), s') else (None, s')
  end.

Definition FetchChecks (c : Client) (s : S) : (GoError + list ProbeCheck) * S :=
  match roundtrip c "GET" PathChecks None s with
  | (inl err, s') => (inl err, s')
  | (inr resp, s') =>
      if negb (hp_StatusCode resp =? 200)%Z then (inl (Errorf "expected status 200"), s')
      else (json_checks (hp_Body resp), s')
  end.

Definition PostResults (c : Client) (results : list CheckResult) (s : S) : option ClientError * S :=
  match roundtrip c "POST" PathResults (Some (ResultsPayload results)) s with
  | (inl err, s') => (Some (PlainError err), s')
  | (inr resp, s') =>
      if negb (hp_StatusCode resp =? 204)%Z then (Some (StatusError "POST" (hp_StatusCode resp) 204), s')
      else (None, s')
  end.

Definition PostResult (c : Client) (result : CheckResult) (s : S) : option ClientError * S :=
  PostResults c [result] s.

(** * The probe process *)

(** The loops, for a number of ticks; [meanwhile] is what else happens before a
    tick. *)
Fixpoint heartbeatLoop (c : Client) (meanwhile : nat -> S -> S) (ticks : nat) (s : S) : S :=
  match ticks with
  | O => s
  | Datatypes.S ticks => heartbeatLoop c meanwhile ticks (Heartbeat c (meanwhile ticks s)).2
  end.

Context (running_order : gmap string runningCheck -> list string)
        (next_order : gmap string ProbeCheck -> list string).

(** One tick of [checkSyncLoop] with [scheduler.Reconcile] as its callback. *)
Definition sync_tick (c : Client) (sched : scheduler) (s : S) : scheduler * S :=
  match FetchChecks c s with
  | (inl _, s') => (sched, s')
  | (inr updated, s') => (Reconcile running_order next_order updated sched, s')
  end.

Fixpoint checkSyncLoop (c : Client) (meanwhile : nat -> S -> S) (ticks : nat) (sched : scheduler) (s : S)
    : scheduler * S :=
  match ticks with
  | O => (sched, s)
  | Datatypes.S ticks =>
      let '(sched, s) := sync_tick c sched (meanwhile ticks s) in checkSyncLoop c meanwhile ticks sched s
  end.

(** [main] up to its loops: the client, the policy, the buffer and the workers. *)
Record ProbeProcess := MkProbeProcess {
  pp_client : Client;
  pp_policy : Policy;
  pp_buffer : resultBatcher;
  pp_scheduler : scheduler
}.

Definition start_probe (unmarshal : string -> GoError + ProbeConfig) (file : GoError + string)
    (serverOverride : string) (s : S) : (GoError + ProbeProcess) * S :=
  match LoadProbe unmarshal file with
  | inl err => (inl (Wrapf "load config failed" err), s)
  | inr cfg =>
      let server := if serverOverride != "" then serverOverride else pcfg_Server cfg in
      let apiClient := NewClient server (pcfg_ProbeID cfg) (pcfg_Secret cfg) in
      match Register apiClient "dev" s with
      | (Some err, s) => (inl (Errorf "register probe failed"), s)
      | (None, s) =>
          match FetchChecks apiClient s with
          | (inl err, s) => (inl (Wrapf "fetch checks failed" err), s)
          | (inr checkList, s) =>
              (inr (MkProbeProcess apiClient (MkPolicy (pcfg_AllowPrivateTargets cfg))
                 (newResultBatcher defaultResultBatchMaxSize)
                 (Reconcile running_order next_order checkList newScheduler)), s)
          end
      end
  end.
End client.
