(* ===== verification/AuthProcessor.v ===== *)
(** internal/server/auth_processor.go: log-in, passwords and onboarding between
    the HTTP handlers and the store. *)

From S2P Require Import Prelude GoStrings Database StoreAuth ProbeProcessor.

Class AuthStore (W : Type) : Type := {
  store_AuthenticateUser : string -> string -> St W (option User);
  store_CreateSession : Z -> St W string;
  store_UpdateUserPassword : Z -> string -> string -> St W bool;
  store_CreateSignupRequest : string -> St W unit;
  store_ListPendingSignupRequests : St W (list SignupRequest);
  store_ApproveSignupRequest : Z -> St W SignupApproval;
  store_RejectSignupRequest : Z -> St W bool;
  store_SetupPassword : string -> string -> St W StoreAuth.SetupPasswordOutcome
}.

Record LoginRequest := MkLoginRequest { lr_Email : string; lr_Password : string }.
Record LoginOutcome := MkLoginOutcome { lo_Token : string; lo_Email : string }.
Record ChangePasswordRequest := MkChangePasswordRequest {
  cp_CurrentPassword : string;
  cp_NewPassword : string
}.
Record RequestAccessRequest := MkRequestAccessRequest { ra_Email : string }.
Record SetupPasswordRequest := MkSetupPasswordRequest { sp_Token : string; sp_NewPassword : string }.
Record SignupApprovalOutcome := MkSignupApprovalOutcome {
  ao_Email : string;
  ao_SetupToken : string;
  ao_ExpiresAt : Time
}.
Record SetupPasswordOutcome := MkSetupOutcome { spo_Token : string; spo_Email : string }.

(** [fmt.Errorf(prefix + ": %w", err)] on the error of a call. *)
Definition wrapping {W A} (prefix : string) (m : St W A) : St W A := fun w =>
  match m w with
  | (inl e, w') => (inl (Wrapf prefix e), w')
  | (inr a, w') => (inr a, w')
  end.

Section processor.
Context `{AS : AuthStore W}.

Definition Login (req : LoginRequest) : St W LoginOutcome :=
  user ← wrapping "authenticate user" (store_AuthenticateUser (lr_Email req) (lr_Password req));
  match user with
  | None => st_fail (unauthorizedError "invalid credentials")
  | Some user =>
      token ← wrapping "create session" (store_CreateSession (us_ID user));
      mret (MkLoginOutcome token (us_Email user))
  end.

Definition ChangePassword (user : option User) (req : ChangePasswordRequest) : St W unit :=
  match user with
  | None => st_fail (Errorf "user is required")
  | Some user =>
      if (cp_CurrentPassword req == "") || (cp_NewPassword req == "")
      then st_fail (badRequestError "current_password and new_password are required")
      else
        ok ← wrapping "update password"
               (store_UpdateUserPassword (us_ID user) (cp_CurrentPassword req) (cp_NewPassword req));
        if negb ok then st_fail (unauthorizedError "current password is incorrect") else mret tt
  end.

Definition RequestAccess (req : RequestAccessRequest) : St W unit :=
  wrapping "create signup request" (store_CreateSignupRequest (ra_Email req)).

Definition ListPendingSignupRequests : St W (list SignupRequest) :=
  wrapping "list pending signup requests" store_ListPendingSignupRequests.

Definition ApproveSignupRequest (id : Z) : St W SignupApprovalOutcome :=
  approval ← wrapping "approve signup request" (store_ApproveSignupRequest id);
  if sa_Email approval == "" then st_fail (notFoundError "request not found or already processed")
  else mret (MkSignupApprovalOutcome (sa_Email approval) (sa_SetupToken approval) (sa_ExpiresAt approval)).

Definition RejectSignupRequest (id : Z) : St W unit :=
  ok ← wrapping "reject signup request" (store_RejectSignupRequest id);
  if negb ok then st_fail (notFoundError "request not found or already processed") else mret tt.

Definition SetupPassword (req : SetupPasswordRequest) : St W SetupPasswordOutcome :=
  if (sp_Token req == "") || (sp_NewPassword req == "")
  then st_fail (badRequestError "token and new_password are required")
  else
    outcome ← wrapping "setup password" (store_SetupPassword (sp_Token req) (sp_NewPassword req));
    if so_SessionToken outcome == "" then st_fail (unauthorizedError "invalid or expired setup token")
    else mret (MkSetupOutcome (so_SessionToken outcome) (so_Email outcome)).
End processor.
