(* ===== verification/Server.v ===== *)
(** The HTTP handlers of internal/server/handler.go and internal/server/auth.go
    with the request decoding of json_request.go.

    A request is its route with the headers and path values the handler reads and
    what the JSON decoder finds in its body; a response is its status and the
    value encoded in its body.  CORS headers and access logs are left out. *)

From S2P Require Import Prelude GoStrings GoTime GoNet NetPolicy Checks Stateless Types Database StoreNotifications StoreMonitoring.
From S2P Require Import StoreChecks StoreProbes StoreAuth Runtime Results Heartbeat Sweepers.
From S2P Require Import ProbeProcessor AuthProcessor RateLimiter StatusView.

(** * Bodies *)

Inductive RestRead := RestEOF | RestTooLarge | RestOther.

(** What reading a body into an [R] meets: no body at all, the end, the limit,
    anything else wrong, or a value and what follows it. *)
Inductive BodyRead (R : Type) :=
| BodyNil
| BodyEOF
| BodyTooLarge
| BodyBad
| BodyValue (v : R) (rest : RestRead).
Arguments BodyNil {R}.
Arguments BodyEOF {R}.
Arguments BodyTooLarge {R}.
Arguments BodyBad {R}.
Arguments BodyValue {R} _ _.

Definition mapJSONDecodeError (tooLarge : bool) : GoError :=
  if tooLarge then requestEntityTooLargeError "request body too large"
  else badRequestError "bad request".

(** [zero] is the value [dst] had before. *)
Definition decodeJSONBody {R} (zero : R) (allowEmpty : bool) (body : BodyRead R) : GoError + R :=
  match body with
  | BodyNil => if allowEmpty then inr zero else inl (badRequestError "bad request")
  | BodyEOF => if allowEmpty then inr zero else inl (mapJSONDecodeError false)
  | BodyTooLarge => inl (mapJSONDecodeError true)
  | BodyBad => inl (mapJSONDecodeError false)
  | BodyValue v RestEOF => inr v
  | BodyValue v RestTooLarge => inl (mapJSONDecodeError true)
  | BodyValue v RestOther => inl (mapJSONDecodeError false)
  end.

(** * Responses *)

Record notificationJSON := MkNotificationJSON {
  nt_State : string;
  nt_Attempts : Z;
  nt_LastError : string;
  nt_LastAttemptAt : option string;
  nt_NextAttemptAt : option string;
  nt_DeliveredAt : option string
}.

Record incidentJSON := MkIncidentJSON {
  ij_ID : Z;
  ij_CheckID : string;
  ij_CheckName : string;
  ij_StartedAt : string;
  ij_ResolvedAt : option string;
  ij_DurationMs : option Z;
  ij_DownNotification : option notificationJSON;
  ij_UpNotification : option notificationJSON
}.

Inductive Body :=
| NoBody
| Text (message : string)
| TokenJSON (token email : string)
| MeJSON (email : string) (is_admin : bool) (public_status_slug : string)
| SignupsJSON (requests : list (Z * string * string))
| ApprovalJSON (email setup_token expires_at : string)
| CredentialJSON (probe_id secret : string)
| StatusJSON (checks : list statusCheckDTO) (probes : list statusProbeDTO)
| PublicStatusJSON (checks : list statusCheckDTO)
| ProbeChecksJSON (checks : list ProbeCheck)
| ChecksJSON (checks : list Check)
| IncidentsJSON (incidents : list incidentJSON).

Record Response := MkResponse { rs_status : Z; rs_body : Body }.

(** [http.Error(w, message, status)] *)
Definition http_Error (message : string) (status : Z) : Response := MkResponse status (Text message).
Definition internal_error : Response := http_Error "internal error" 500.
Definition unauthorized : Response := http_Error "unauthorized" 401.

(** [if writeProcessorError(w, err) { return }; http.Error(w, "internal error", ...)] *)
Definition error_response (err : GoError) : Response :=
  match writeProcessorError err with
  | Some (status, message) => http_Error message status
  | None => internal_error
  end.

Definition notificationToJSON (n : option IncidentNotification) : option notificationJSON :=
  (fun n => MkNotificationJSON (in_State n) (in_Attempts n) (in_LastError n)
     (format_RFC3339 <$> in_LastAttemptAt n) (format_RFC3339 <$> in_NextAttemptAt n)
     (format_RFC3339 <$> in_DeliveredAt n)) <$> n.

Definition incident_json (inc : Incident) : incidentJSON :=
  MkIncidentJSON (inc_ID inc) (inc_CheckID inc) (inc_CheckName inc) (format_RFC3339 (inc_StartedAt inc))
    (format_RFC3339 <$> inc_ResolvedAt inc)
    ((fun at_ => Milliseconds (time_Sub at_ (inc_StartedAt inc))) <$> inc_ResolvedAt inc)
    (notificationToJSON (inc_DownNotification inc)) (notificationToJSON (inc_UpNotification inc)).

Definition probe_check (check : Check) : ProbeCheck :=
  MkProbeCheck (ck_ID check) (ck_Name check) (ck_Type check) (ck_Target check) (ck_Interval check).

(** [strings.TrimPrefix]. *)
Definition TrimPrefix (s prefix : string) : string :=
  if String.prefix prefix s
  then String.substring (String.length prefix) (String.length s - String.length prefix) s else s.

(** * Handlers *)

(** The runtime and the store. *)
Definition Shared : Type := Runtime * World.
Definition Handle : Type := Shared -> Response * Shared.

Section handlers.
Context `{SL : Stateless} `{Env : StoreEnv} `{AE : AuthEnv}.
Context `{PS : !ProbeStore World} `{AS : !AuthStore World} `{SV : !StatusViewStore World} `{UL : UrlLib}.

(** A store call that leaves the runtime alone. *)
Definition on_world {A} (m : DB A) (k : GoError + A -> Response) : Handle := fun '(r, w) =>
  let '(res, w') := m w in (k res, (r, w')).

Definition reply (rs : Response) : Handle := fun s => (rs, s).

(** [decodeJSONBody], answering its errors. *)
Definition decoding {R} (decoded : GoError + R) (next : R -> Handle) : Handle :=
  match decoded with
  | inl err => reply (error_response err)
  | inr req => next req
  end.

(** ** Middleware *)

Definition requireProbeAuth (id_header secret_header : string) (next : Probe -> Handle) : Handle := fun '(r, w) =>
  let probeID := TrimSpace id_header in
  let secret := TrimSpace secret_header in
  if (probeID == "") || (secret == "") then (unauthorized, (r, w))
  else match AuthenticateProbe probeID secret w with
       | (inl _, w') => (internal_error, (r, w'))
       | (inr None, w') => (unauthorized, (r, w'))
       | (inr (Some probe), w') => next probe (r, w')
       end.

Definition requireSession (authorization : string) (next : User -> Handle) : Handle := fun '(r, w) =>
  let token := TrimPrefix authorization "Bearer " in
  if token == "" then (unauthorized, (r, w))
  else match GetSessionUser token w with
       | (inl _, w') => (internal_error, (r, w'))
       | (inr None, w') => (unauthorized, (r, w'))
       | (inr (Some user), w') => next user (r, w')
       end.

Definition requireAdmin (authorization : string) (next : Handle) : Handle :=
  requireSession authorization (fun user =>
    if negb (us_IsAdmin user) then reply (http_Error "forbidden" 403) else next).

(** ** Accounts *)

Definition handleMe (u : User) : Handle :=
  reply (MkResponse 200 (MeJSON (us_Email u) (us_IsAdmin u) (us_PublicStatusSlug u))).

Definition zero_login : LoginRequest := MkLoginRequest "" "".

Definition handleLogin (body : BodyRead LoginRequest) : Handle :=
  decoding (decodeJSONBody zero_login false body) (fun req =>
    on_world (Login req) (fun res =>
      match res with
      | inl err => error_response err
      | inr outcome => MkResponse 200 (TokenJSON (lo_Token outcome) (lo_Email outcome))
      end)).

Definition handleLogout (authorization : string) : Handle :=
  let token := TrimPrefix authorization "Bearer " in
  if token == "" then reply (MkResponse 204 NoBody)
  else on_world (DeleteSession token) (fun _ => MkResponse 204 NoBody).

Definition handleChangePassword (user : User) (body : BodyRead ChangePasswordRequest) : Handle :=
  decoding (decodeJSONBody (MkChangePasswordRequest "" "") false body) (fun req =>
    on_world (ChangePassword (Some user) req) (fun res =>
      match res with
      | inl err => error_response err
      | inr _ => MkResponse 204 NoBody
      end)).

Definition handleSetupPassword (body : BodyRead SetupPasswordRequest) : Handle :=
  decoding (decodeJSONBody (MkSetupPasswordRequest "" "") false body) (fun req =>
    on_world (AuthProcessor.SetupPassword req) (fun res =>
      match res with
      | inl err => error_response err
      | inr outcome => MkResponse 200 (TokenJSON (spo_Token outcome) (spo_Email outcome))
      end)).

(** An error that is not the request's is logged and answered with 200. *)
Definition handleRequestAccess (body : BodyRead RequestAccessRequest) : Handle :=
  decoding (decodeJSONBody (MkRequestAccessRequest "") false body) (fun req =>
    on_world (RequestAccess req) (fun res =>
      match res with
      | inl err => match writeProcessorError err with
                   | Some (status, message) => http_Error message status
                   | None => MkResponse 200 NoBody
                   end
      | inr _ => MkResponse 200 NoBody
      end)).

Definition handleListSignupRequests : Handle :=
  on_world AuthProcessor.ListPendingSignupRequests (fun res =>
    match res with
    | inl err => error_response err
    | inr reqs => MkResponse 200 (SignupsJSON
        ((fun sr => (sr_ID sr, sr_Email sr, format_RFC3339 (sr_RequestedAt sr))) <$> reqs))
    end).

(** [id] is what [strconv.ParseInt] finds in the path. *)
Definition handleApproveSignupRequest (id : option Z) : Handle :=
  match id with
  | None => reply (http_Error "invalid id" 400)
  | Some id =>
      on_world (AuthProcessor.ApproveSignupRequest id) (fun res =>
        match res with
        | inl err => error_response err
        | inr outcome => MkResponse 200 (ApprovalJSON (ao_Email outcome) (ao_SetupToken outcome)
            (format_RFC3339 (ao_ExpiresAt outcome)))
        end)
  end.

Definition handleRejectSignupRequest (id : option Z) : Handle :=
  match id with
  | None => reply (http_Error "invalid id" 400)
  | Some id =>
      on_world (AuthProcessor.RejectSignupRequest id) (fun res =>
        match res with
        | inl err => error_response err
        | inr _ => MkResponse 204 NoBody
        end)
  end.

Definition credential_error (err : GoError) : GoError :=
  if errors_Is err ErrInvalidProbeID then
    badRequestError "probe_id must be 1-64 letters, numbers, dots, underscores, or hyphens and start with a letter or number"
  else if errors_Is err ErrProbeAlreadyExists then badRequestError "probe_id already exists"
  else Wrapf "create probe credential" err.

(** The body is the requested probe ID. *)
Definition handleCreateProbeCredential (body : BodyRead string) : Handle :=
  decoding (decodeJSONBody "" true body) (fun probe_id '(r, w) =>
    match CreateProbeCredential probe_id w with
    | (inl err, w') => (error_response (credential_error err), (r, w'))
    | (inr credential, w') =>
        (MkResponse 201 (CredentialJSON (pcr_ProbeID credential) (pcr_Secret credential)),
         ((Runtime.AddProbe (pcr_ProbeID credential) r).2, w'))
    end).

(** ** Status and checks *)

Definition handleStatus (user : User) : Handle := fun '(r, w) =>
  match buildAuthenticatedStatusResponse (Some r) (us_ID user) (Some w) with
  | (inl _, w') => (internal_error, (r, default w w'))
  | (inr (checks, probes), w') => (MkResponse 200 (StatusJSON checks probes), (r, default w w'))
  end.

Definition handlePublicStatus (slug : string) : Handle := fun '(r, w) =>
  match buildPublicStatusResponse (Some r) slug (Some w) with
  | (inl _, w') => (internal_error, (r, default w w'))
  | (inr (_, false), w') => (http_Error "not found" 404, (r, default w w'))
  | (inr (checks, true), w') => (MkResponse 200 (PublicStatusJSON checks), (r, default w w'))
  end.

Definition handleProbeChecks : Handle :=
  on_world ListAllChecks (fun res =>
    match res with
    | inl _ => internal_error
    | inr checks => MkResponse 200 (ProbeChecksJSON (probe_check <$> checks))
    end).

Definition handleListChecks (user : User) : Handle :=
  on_world (ListChecks (us_ID user)) (fun res =>
    match res with
    | inl _ => internal_error
    | inr checks => MkResponse 200 (ChecksJSON checks)
    end).

(** [lookup] is what the resolver answers while the request is served; a name from
    the path replaces the body's. *)
Definition decodeCheck (policy : Policy) (lookup : string -> GoError + list IP) (name : string)
    (body : BodyRead Check) : GoError + Check :=
  match decodeJSONBody (MkCheck "" "" "" "" "" 0) false body with
  | inl err => inl err
  | inr check =>
      let check := if name != "" then
                     MkCheck (ck_ID check) name (ck_Type check) (ck_Target check) (ck_Webhook check)
                       (ck_Interval check)
                   else check in
      match NormalizeAndValidate unicode_ToLower lookup url_Parse policy true check with
      | inl err => inl (badRequestError (error_text err))
      | inr check => inr check
      end
  end.

Definition handleCreateCheck (policy : Policy) (lookup : string -> GoError + list IP) (user : User)
    (body : BodyRead Check) : Handle :=
  decoding (decodeCheck policy lookup "" body) (fun check '(r, w) =>
    match CreateCheck check (us_ID user) w with
    | (inl _, w') => (internal_error, (r, w'))
    | (inr created, w') => (MkResponse 201 NoBody, ((EnsureCheck (ck_ID created) r).2, w'))
    end).

Definition handleUpdateCheck (policy : Policy) (lookup : string -> GoError + list IP) (user : User)
    (name : string) (body : BodyRead Check) : Handle :=
  decoding (decodeCheck policy lookup name body) (fun check =>
    on_world (UpdateCheck check (us_ID user)) (fun res =>
      match res with
      | inl _ => internal_error
      | inr _ => MkResponse 204 NoBody
      end)).

Definition handleDeleteCheck (user : User) (name : string) : Handle := fun '(r, w) =>
  match DeleteCheck name (us_ID user) w with
  | (inl _, w') => (internal_error, (r, w'))
  | (inr (deleted, checkID), w') =>
      (MkResponse 204 NoBody, (if deleted then RemoveCheck checkID r else r, w'))
  end.

Definition handleListIncidents (user : User) : Handle :=
  on_world (ListIncidents (us_ID user) 50) (fun res =>
    match res with
    | inl _ => internal_error
    | inr incidents => MkResponse 200 (IncidentsJSON (incident_json <$> incidents))
    end).

(** ** Probes *)

(** A processor's answer without a body. *)
Definition processed {A} (m : St Shared A) : Handle := fun s =>
  match m s with
  | (inl err, s') => (error_response err, s')
  | (inr _, s') => (MkResponse 204 NoBody, s')
  end.

Definition handleHeartbeat (now : Time) (probe : Probe) (body : BodyRead HeartbeatRequest) : Handle :=
  decoding (decodeJSONBody (MkHeartbeatRequest "") true body) (fun req =>
    processed (ProbeProcessor.Heartbeat now (Some probe) req)).

Definition handleProbeRegister (probe : Probe) (body : BodyRead RegisterRequest) : Handle :=
  decoding (decodeJSONBody (MkRegisterRequest "" "") true body) (fun req =>
    processed (ProbeProcessor.Register (Some probe) req)).

Definition handleResult (now : Time) (probe : Probe) (body : BodyRead (list CheckResult)) : Handle :=
  decoding (decodeJSONBody [] false body) (fun results =>
    processed (ProcessBatch now (Some probe) results)).
End handlers.
