(* ===== verification/Routes.v ===== *)
(** [Handler.Routes] of internal/server/handler.go: which middleware and limiter
    stand before each handler.

    A request is its route with the headers, path values, peer and body the
    handlers read, and what the resolver answers meanwhile; requests are served one at a time.  The three limiters read
    the time each at positions of their own. *)

From S2P Require Import Prelude GoStrings GoTime GoNet ClientIP NetPolicy Stateless Types Database StoreNotifications StoreMonitoring.
From S2P Require Import StoreChecks StoreProbes StoreAuth Runtime Results Heartbeat Sweepers.
From S2P Require Import ProbeProcessor AuthProcessor RateLimiter StatusView Server.

Inductive HttpRequest :=
| Preflight
| GetHealthz
| GetPublicStatus (peer : Peer) (slug : string)
| PostLogin (peer : Peer) (body : BodyRead LoginRequest)
| PostLogout (authorization : string)
| PostSetupPassword (peer : Peer) (body : BodyRead SetupPasswordRequest)
| PostRequestAccess (peer : Peer) (body : BodyRead RequestAccessRequest)
| PostProbeRegister (id secret : string) (body : BodyRead RegisterRequest)
| GetProbeChecks (id secret : string)
| PostProbeHeartbeat (id secret : string) (now : Time) (body : BodyRead HeartbeatRequest)
| PostResults (id secret : string) (now : Time) (body : BodyRead (list CheckResult))
| OtherProbeRoute (id secret : string)
| GetSignupRequests (authorization : string)
| PostApproveSignup (authorization : string) (id : option Z)
| PostRejectSignup (authorization : string) (id : option Z)
| PostProbes (authorization : string) (body : BodyRead string)
| GetStatus (authorization : string)
| GetChecks (authorization : string)
| PostChecks (authorization : string) (answers : string -> GoError + list IP) (body : BodyRead Check)
| PutCheck (authorization : string) (answers : string -> GoError + list IP) (name : string) (body : BodyRead Check)
| DeleteCheckRoute (authorization name : string)
| GetMe (authorization : string)
| PutChangePassword (authorization : string) (body : BodyRead ChangePasswordRequest)
| GetIncidents (authorization : string)
| OtherRoute.

(** The limiters of a [Handler]. *)
Record Limiters := MkLimiters {
  lm_login : option rateLimiter;
  lm_signup : option rateLimiter;
  lm_public : option rateLimiter
}.

(** The state a [Handler] points to: runtime, store and limiters. *)
Record Server := MkServer { sv_shared : Shared; sv_limiters : Limiters }.

(** The limiters [New] makes. *)
Definition new_limiters (requests : Z) (window : Duration) : Limiters :=
  MkLimiters (Some (newRateLimiter requests window)) (Some (newRateLimiter requests window))
    (Some (newRateLimiter 60 Minute)).

Definition too_many : Response := http_Error "too many requests" 429.
(** The mux's answer to a path it does not know; 405 to a method. *)
Definition not_found : Response := http_Error "404 page not found" 404.

(** Response headers of [withCORS]; the probe's header names are those of
    internal/api/probe/constants.go. *)
Definition cors_headers : list (string * string) :=
  [("Access-Control-Allow-Origin", "*");
   ("Access-Control-Allow-Headers", "Content-Type, Authorization, X-Wacht-Probe-ID, X-Wacht-Probe-Secret");
   ("Access-Control-Allow-Methods", "GET, POST, PUT, DELETE, OPTIONS")].

(** A preflight request is answered without asking anyone. *)
Definition withCORS {S} (method : string) (next : S -> Response * S) (s : S)
    : list (string * string) * (Response * S) :=
  (cors_headers, if method == "OPTIONS" then (MkResponse 204 NoBody, s) else next s).

Section routes.
Context `{SL : Stateless} `{Env : StoreEnv} `{AE : AuthEnv}.
Context `{PS : !ProbeStore World} `{AS : !AuthStore World} `{SV : !StatusViewStore World} `{UL : UrlLib}.
(** The configuration and the clock of each limiter. *)
Context (policy : Policy) (trusted : list Prefix) (login_clock signup_clock public_clock : nat -> Time).

(** A handler behind one of the limiters. *)
Definition behind (clock : nat -> Time) (get : Limiters -> option rateLimiter)
    (set : option rateLimiter -> Limiters -> Limiters) (peer : Peer) (next : Handle)
    (s : Server) : Response * Server :=
  let '((rs, shared), rl) :=
    rateLimited clock (clientIP trusted peer) (next (sv_shared s)) (too_many, sv_shared s) (get (sv_limiters s)) in
  (rs, MkServer shared (set rl (sv_limiters s))).

Definition login_limited : Peer -> Handle -> Server -> Response * Server :=
  behind login_clock lm_login (fun rl l => MkLimiters rl (lm_signup l) (lm_public l)).
Definition signup_limited : Peer -> Handle -> Server -> Response * Server :=
  behind signup_clock lm_signup (fun rl l => MkLimiters (lm_login l) rl (lm_public l)).
Definition public_limited : Peer -> Handle -> Server -> Response * Server :=
  behind public_clock lm_public (fun rl l => MkLimiters (lm_login l) (lm_signup l) rl).

Definition unlimited (next : Handle) (s : Server) : Response * Server :=
  let '(rs, shared) := next (sv_shared s) in (rs, MkServer shared (sv_limiters s)).

Definition probe_route (id secret : string) (next : Probe -> Handle) : Server -> Response * Server :=
  unlimited (requireProbeAuth id secret next).
Definition admin_route (authorization : string) (next : Handle) : Server -> Response * Server :=
  unlimited (requireAdmin authorization next).
Definition session_route (authorization : string) (next : User -> Handle)
    : Server -> Response * Server :=
  unlimited (requireSession authorization next).

Definition Routes (req : HttpRequest) : Server -> Response * Server :=
  match req with
  | Preflight => unlimited (reply (MkResponse 204 NoBody))
  | GetHealthz => unlimited (reply (MkResponse 200 NoBody))
  | GetPublicStatus peer slug => public_limited peer (handlePublicStatus slug)
  | PostLogin peer body => login_limited peer (handleLogin body)
  | PostLogout authorization => unlimited (handleLogout authorization)
  | PostSetupPassword peer body => signup_limited peer (handleSetupPassword body)
  | PostRequestAccess peer body => signup_limited peer (handleRequestAccess body)
  | PostProbeRegister id secret body => probe_route id secret (fun p => handleProbeRegister p body)
  | GetProbeChecks id secret => probe_route id secret (fun _ => handleProbeChecks)
  | PostProbeHeartbeat id secret now body => probe_route id secret (fun p => handleHeartbeat now p body)
  | PostResults id secret now body => probe_route id secret (fun p => handleResult now p body)
  | OtherProbeRoute id secret => probe_route id secret (fun _ => reply not_found)
  | GetSignupRequests a => admin_route a handleListSignupRequests
  | PostApproveSignup a id => admin_route a (handleApproveSignupRequest id)
  | PostRejectSignup a id => admin_route a (handleRejectSignupRequest id)
  | PostProbes a body => admin_route a (handleCreateProbeCredential body)
  | GetStatus a => session_route a handleStatus
  | GetChecks a => session_route a handleListChecks
  | PostChecks a answers body => session_route a (fun u => handleCreateCheck policy answers u body)
  | PutCheck a answers name body => session_route a (fun u => handleUpdateCheck policy answers u name body)
  | DeleteCheckRoute a name => session_route a (fun u => handleDeleteCheck u name)
  | GetMe a => session_route a handleMe
  | PutChangePassword a body => session_route a (fun u => handleChangePassword u body)
  | GetIncidents a => session_route a handleListIncidents
  | OtherRoute => unlimited (reply not_found)
  end.

(** [Routes] answers as [withCORS] around its routes does. *)
Lemma routes_cors req method (s : Server) :
  (method = "OPTIONS" <-> req = Preflight) ->
  (withCORS method (Routes req) s).2 = Routes req s.
Proof.
  intros Hm. unfold withCORS. cbn [snd]. case_bool_decide as E; [|done].
  rewrite (proj1 Hm E). by destruct s.
Qed.
End routes.
