(* ===== verification/Lifecycle.v ===== *)
(** How the parts of the server process are made and closed: [New], [runMigrations]
    and [Close] of internal/store/store.go, [New], [Close] and [targetPolicy] of
    internal/server/handler.go, and cmd/wacht-server/http_server.go.

    What [sql.Open] and golang-migrate answer are arguments.  The state of the
    store's set-up is the number of connection pools the process holds open. *)

From S2P Require Import Prelude GoStrings GoNet ClientIP NetPolicy Stateless Types Database StoreNotifications.
From S2P Require Import Sender RateLimiter Config Server Routes.

(** * The store *)

(** [migrate.ErrNoChange]. *)
Definition ErrNoChange : GoError := ErrSentinel "no change".

Section store.
Context (sql_Open : string -> option GoError)
        (iofs_New pgx_WithInstance migrate_NewWithInstance migrate_Up : option GoError).

Definition runMigrations : option GoError :=
  match iofs_New with
  | Some err => Some err
  | None =>
      match pgx_WithInstance with
      | Some err => Some err
      | None =>
          match migrate_NewWithInstance with
          | Some err => Some err
          | None =>
              match migrate_Up with
              | Some err => if err != ErrNoChange then Some err else None
              | None => None
              end
          end
      end
  end.

Definition store_New (dsn : string) : St Z unit := fun pools =>
  match sql_Open dsn with
  | Some err => (inl err, pools)
  | None =>
      let pools := (pools + 1)%Z in
      match runMigrations with
      | Some err => (inl err, pools)
      | None => (inr tt, pools)
      end
  end.

Definition store_Close (db_Close : option GoError) : St Z unit := fun pools =>
  (match db_Close with Some err => inl err | None => inr tt end, (pools - 1)%Z).

(** [New] succeeds exactly on a database it can open and whose schema is up to date
    or can be brought up to date, so also on every later start. *)
Lemma new_succeeds dsn pools :
  (exists p, store_New dsn pools = (inr tt, p)) <->
  sql_Open dsn = None /\ iofs_New = None /\ pgx_WithInstance = None /\ migrate_NewWithInstance = None /\
  (migrate_Up = None \/ migrate_Up = Some ErrNoChange).
Proof.
  unfold store_New, runMigrations. split.
  - intros [p Hp]. destruct (sql_Open dsn), iofs_New, pgx_WithInstance, migrate_NewWithInstance; try done.
    split_and!; try done. destruct migrate_Up as [err|]; [|by left]. right.
    destruct (decide (err = ErrNoChange)) as [->|Hne]; [done|]. by rewrite bool_decide_eq_false_2 in Hp.
  - intros (-> & -> & -> & -> & Hup). exists (pools + 1)%Z.
    destruct Hup as [->| ->]; [done|]. by rewrite bool_decide_eq_true_2.
Qed.

(** A pool is closed by the store's [Close]; one that [New] opened before its
    migrations failed stays open, with nothing to close it by. *)
Lemma new_pools dsn pools db_Close :
  match store_New dsn pools with
  | (inr _, pools') => (store_Close db_Close pools').2 = pools
  | (inl _, pools') => pools' = match sql_Open dsn with Some _ => pools | None => (pools + 1)%Z end
  end.
Proof.
  unfold store_New, store_Close. destruct (sql_Open dsn); [done|]. destruct runMigrations; simpl; lia.
Qed.
End store.

(** * The handler *)

(** A [Handler] without its store and runtime; [hd_webhooks] is the sender, nil or
    with the number of its workers and its lifetime. *)
Record Handler := MkHandler {
  hd_config : ServerConfig;
  hd_webhooks : option (Sender * Z * Lifetime);
  hd_limiters : Limiters;
  hd_trustedProxies : list Prefix
}.

Section handler.
Context `{SE : SenderEnv} (NewHTTPClient : Policy -> Sender.Client).

Definition New (store_given : bool) (cfg : ServerConfig) : Handler :=
  let authRateLimit := cfg_AuthRateLimit cfg in
  MkHandler cfg
    (Some (NewSender store_given (NewHTTPClient (MkPolicy (cfg_AllowPrivateTargets cfg))), MkLifetime false false))
    (new_limiters (lim_Requests authRateLimit) (lim_Window authRateLimit))
    (cfg_TrustedProxyCIDRs cfg).

Definition targetPolicy (h : Handler) : Policy := MkPolicy (cfg_AllowPrivateTargets (hd_config h)).

(** A nil handler is [None]. *)
Definition handler_Close (h : option Handler) : CloseOutcome * option Handler :=
  match h with
  | None => (CloseReturns, None)
  | Some h =>
      let '(outcome, lifetime) := Sender.Close (snd <$> hd_webhooks h) in
      (outcome, Some (MkHandler (hd_config h)
        (match hd_webhooks h, lifetime with Some (sw, _), Some l => Some (sw, l) | _, _ => None end)
        (hd_limiters h) (hd_trustedProxies h)))
  end.

(** Closing a handler twice is closing it once. *)
Lemma close_handler_idempotent store_given cfg :
  let h := Some (New store_given cfg) in
  let '(o1, h1) := handler_Close h in
  let '(o2, h2) := handler_Close h1 in
  o1 = CloseReturns /\ o2 = CloseReturns /\ h2 = h1.
Proof. done. Qed.
End handler.

(** * The HTTP server *)

Definition serverReadHeaderTimeout : Duration := (5 * Second)%Z.
Definition serverReadTimeout : Duration := (10 * Second)%Z.
Definition serverWriteTimeout : Duration := (15 * Second)%Z.
Definition serverIdleTimeout : Duration := (60 * Second)%Z.

Record HTTPServer := MkHTTPServer {
  hs_Addr : string;
  hs_ReadHeaderTimeout : Duration;
  hs_ReadTimeout : Duration;
  hs_WriteTimeout : Duration;
  hs_IdleTimeout : Duration
}.

Definition newHTTPServer (addr : string) : HTTPServer :=
  MkHTTPServer addr serverReadHeaderTimeout serverReadTimeout serverWriteTimeout serverIdleTimeout.

(** A client has no longer for its headers than for its request, an answer may take
    longer than its request, and an idle connection is kept longest. *)
Lemma timeouts_ordered addr :
  let hs := newHTTPServer addr in
  (0 < hs_ReadHeaderTimeout hs <= hs_ReadTimeout hs)%Z /\
  (hs_ReadTimeout hs < hs_WriteTimeout hs < hs_IdleTimeout hs)%Z.
Proof. by split; split; vm_compute. Qed.
