(* ===== verification/RequestLog.v ===== *)
(** internal/server/request_log.go: the access log.

    A request's context holds its logger and the scope that [withRequestLog] and
    the guards share; the scope is one struct behind a pointer, so what a guard
    writes is read when the line is logged.  [BaseWriter] is the part of net/http's
    response writer that counts here: the status line is sent once, by the first
    [WriteHeader] or by the first write; whether it can be hijacked or pushed to is
    an argument. *)

From S2P Require Import Prelude GoStrings GoTime GoNet ClientIP NetPolicy Sha256 Stateless Types Database StoreNotifications StoreMonitoring.
From S2P Require Import StoreChecks StoreProbes StoreAuth Runtime Results Heartbeat Sweepers.
From S2P Require Import ProbeProcessor AuthProcessor RateLimiter StatusView ProbeClient Server Routes Logx.
From Stdlib Require Import Ascii NArith.

Definition requestIDHeader : string := "X-Request-ID".

Record requestLogScope := MkRequestLogScope {
  rl_requestID : string;
  rl_userID : Z;
  rl_hasUser : bool;
  rl_probeID : string
}.

(** * The recorder *)

Record BaseWriter := MkBaseWriter { bw_status : Z; bw_bytes : Z }.

Definition base_WriteHeader (status : Z) (w : BaseWriter) : BaseWriter :=
  if (bw_status w =? 0)%Z then MkBaseWriter status (bw_bytes w) else w.
Definition base_Write (n : Z) (w : BaseWriter) : BaseWriter :=
  let w := base_WriteHeader 200 w in MkBaseWriter (bw_status w) (bw_bytes w + n).

Record statusRecorder := MkStatusRecorder { sr_writer : BaseWriter; sr_status : Z; sr_bytes : Z }.

Definition WriteHeader (status : Z) (r : statusRecorder) : statusRecorder :=
  MkStatusRecorder (base_WriteHeader status (sr_writer r)) status (sr_bytes r).

(** [n] is the number of bytes the writer below accepts. *)
Definition Write (n : Z) (r : statusRecorder) : statusRecorder :=
  let status := if (sr_status r =? 0)%Z then 200%Z else sr_status r in
  MkStatusRecorder (base_Write n (sr_writer r)) status (sr_bytes r + n).

Definition Flush (r : statusRecorder) : statusRecorder :=
  MkStatusRecorder (base_WriteHeader 200 (sr_writer r)) (sr_status r) (sr_bytes r).

(** A writer without [ReadFrom] is written to chunk by chunk. *)
Definition ReadFrom (readerFrom : bool) (chunks : list Z) (r : statusRecorder) : statusRecorder :=
  if negb readerFrom then fold_left (fun r n => Write n r) chunks r
  else
    let status := if (sr_status r =? 0)%Z then 200%Z else sr_status r in
    let n := foldr Z.add 0%Z chunks in
    MkStatusRecorder (base_Write n (sr_writer r)) status (sr_bytes r + n).

(** A nil recorder is [None]. *)
Definition Unwrap (r : option statusRecorder) : option BaseWriter := sr_writer <$> r.

(** [http.ErrNotSupported]. *)
Definition ErrNotSupported : GoError := ErrSentinel "feature not supported".

(** What the writer below answers, if it has the method. *)
Definition Hijack {Conn} (hijacker : option (GoError + Conn)) : GoError + Conn :=
  match hijacker with None => inl ErrNotSupported | Some answer => answer end.
Definition Push (pusher : option (string -> option GoError)) (target : string) : option GoError :=
  match pusher with None => Some ErrNotSupported | Some push => push target end.

(** What a handler does with its writer. *)
Inductive WriterCall :=
| CallWriteHeader (status : Z)
| CallWrite (n : Z)
| CallReadFrom (readerFrom : bool) (chunks : list Z)
| CallFlush.

Definition writer_call (r : statusRecorder) (c : WriterCall) : statusRecorder :=
  match c with
  | CallWriteHeader status => WriteHeader status r
  | CallWrite n => Write n r
  | CallReadFrom readerFrom chunks => ReadFrom readerFrom chunks r
  | CallFlush => Flush r
  end.

(** * Request IDs *)

Definition id_char (a : ascii) : bool :=
  between 97 122 (code a) || between 65 90 (code a) || between 48 57 (code a) ||
  (code a =? 45)%N || (code a =? 95)%N || (code a =? 46)%N.

(** The loop is over runes; a byte that is not ASCII starts one that is refused. *)
Definition normalizeRequestID (raw : string) : string :=
  let raw := TrimSpace raw in
  if (raw == "") || (64 <? len raw)%Z then ""
  else if forallb id_char (chars raw) then raw else "".

Definition newRequestID (random : GoError + list Z) : string :=
  match random with
  | inl _ => "req-fallback"
  | inr b => "req-" +:+ hex_encode b
  end.

Definition requestLogLevel (path : string) (status : Z) : Z :=
  if (500 <=? status)%Z then LevelError
  else if (400 <=? status)%Z then LevelWarn
  else if (path == PathResults) || String.prefix "/api/probes/" path then LevelDebug
  else LevelInfo.

(** * Contexts *)

Record RequestContext := MkRequestContext {
  rc_requestLog : option requestLogScope;
  rc_logger : option Logger
}.

Definition requestLogFromContext (ctx : RequestContext) : option requestLogScope := rc_requestLog ctx.

(** A nil request is [None], a context without a writer [Some None]. *)
Definition baseResponseWriter {Writer} (r : option (option Writer)) (fallback : Writer) : Writer :=
  match r with
  | None => fallback
  | Some None => fallback
  | Some (Some w) => w
  end.

Definition requestLogger (default : Logger) (r : option RequestContext) : Logger :=
  match r with
  | None => default
  | Some ctx => match rc_logger ctx with None => default | Some l => l end
  end.

Definition withRequestLogger (r : option RequestContext) (logger : option Logger) : option RequestContext :=
  match r, logger with
  | Some ctx, Some l => Some (MkRequestContext (rc_requestLog ctx) (Some l))
  | _, _ => r
  end.

Definition attachAuthenticatedUser (default : Logger) (r : option RequestContext) (user : option User)
    : option RequestContext :=
  match r, user with
  | Some ctx, Some u =>
      let scope := (fun sc => MkRequestLogScope (rl_requestID sc) (us_ID u) true (rl_probeID sc)) <$> requestLogFromContext ctx in
      let r := Some (MkRequestContext scope (rc_logger ctx)) in
      withRequestLogger r (Some (With (AttrInt "user_id" (us_ID u)) (requestLogger default r)))
  | _, _ => r
  end.

Definition attachAuthenticatedProbe (default : Logger) (r : option RequestContext) (probe : option Probe)
    : option RequestContext :=
  match r, probe with
  | Some ctx, Some p =>
      let scope := (fun sc => MkRequestLogScope (rl_requestID sc) (rl_userID sc) (rl_hasUser sc) (pb_ProbeID p)) <$> requestLogFromContext ctx in
      let r := Some (MkRequestContext scope (rc_logger ctx)) in
      withRequestLogger r (Some (With (AttrString "probe_id" (pb_ProbeID p)) (requestLogger default r)))
  | _, _ => r
  end.

(** * The middleware *)

(** [next] makes its calls on the recorder, and leaves the context in which the
    handler ran, whose scope is the one given to it.  The result is the ID in the
    response's header, the recorder and the line. *)
Definition withRequestLog {S : Type} (logger : Logger) (header : string) (random : GoError + list Z)
    (method path : string) (duration : Z)
    (next : option RequestContext -> S -> list WriterCall * option RequestContext * S) (s : S)
    : string * statusRecorder * option LogRecord * S :=
  let requestID := normalizeRequestID header in
  let requestID := if requestID == "" then newRequestID random else requestID in
  let scope := MkRequestLogScope requestID 0 false "" in
  let logger := With (AttrString "request_id" requestID) logger in
  let '(calls, ctx, s) := next (Some (MkRequestContext (Some scope) (Some logger))) s in
  let rec := fold_left writer_call calls (MkStatusRecorder (MkBaseWriter 0 0) 0 0) in
  let scope := default scope (ctx ≫= rc_requestLog) in
  let rec := if (sr_status rec =? 0)%Z then MkStatusRecorder (sr_writer rec) 200 (sr_bytes rec) else rec in
  let args := [AttrString "component" "http"; AttrString "method" method; AttrString "path" path;
               AttrInt "status" (sr_status rec); AttrInt "duration_ms" duration; AttrInt "bytes" (sr_bytes rec)] in
  let args := if rl_hasUser scope then args ++ [AttrInt "user_id" (rl_userID scope)] else args in
  let args := if rl_probeID scope != "" then args ++ [AttrString "probe_id" (rl_probeID scope)] else args in
  (requestID, rec, Log logger (requestLogLevel path (sr_status rec)) "request completed" args, s).

(** The calls that send a response; [size] is the length of its encoded body. *)
Definition response_calls (size : Body -> Z) (rs : Response) : list WriterCall :=
  match rs_body rs with
  | NoBody => [CallWriteHeader (rs_status rs)]
  | Text message => [CallWriteHeader (rs_status rs); CallWrite (len message + 1)]
  | body => if (rs_status rs =? 200)%Z then [CallWrite (size body)]
            else [CallWriteHeader (rs_status rs); CallWrite (size body)]
  end.

(** * The recorder knows what was sent *)

(** Its status is the sent one, or still unset when a flush sent 200. *)
Definition in_step (r : statusRecorder) : Prop :=
  sr_bytes r = bw_bytes (sr_writer r) /\
  (sr_status r = bw_status (sr_writer r) \/ (sr_status r = 0%Z /\ bw_status (sr_writer r) = 200%Z)).

Lemma in_step_write n r : in_step r -> in_step (Write n r).
Proof.
  destruct r as [[bs bb] st by_]. unfold in_step, Write, base_Write, base_WriteHeader. simpl.
  intros [-> Hs]. destruct (Z.eqb_spec st 0), (Z.eqb_spec bs 0); simpl; split; lia.
Qed.

Definition no_header (c : WriterCall) : Prop := match c with CallWriteHeader _ => False | _ => True end.

Lemma in_step_call r c : in_step r -> no_header c -> in_step (writer_call r c).
Proof.
  intros Hr Hc. destruct c as [status|n|readerFrom chunks|]; [done|by apply in_step_write| |].
  - cbn [writer_call]. unfold ReadFrom. destruct readerFrom; cbn [negb].
    + by apply (in_step_write (foldr Z.add 0%Z chunks)).
    + revert r Hr. induction chunks as [|n chunks IH]; intros r Hr; [done|]. simpl. by apply IH, in_step_write.
  - destruct r as [[bs bb] st by_]. revert Hr. unfold writer_call, in_step, Flush, base_WriteHeader. simpl.
    destruct (Z.eqb_spec bs 0); simpl; intros [-> Hs]; (split; [done|]); lia.
Qed.

Lemma in_step_calls calls r : in_step r -> Forall no_header calls -> in_step (fold_left writer_call calls r).
Proof. intros Hr Hc. revert r Hr. induction Hc; intros r Hr; [done|]. simpl. auto using in_step_call. Qed.

(** A handler that sets a status does so first, and once. *)
Lemma recorder_in_step status calls :
  Forall no_header calls ->
  in_step (fold_left writer_call calls (MkStatusRecorder (MkBaseWriter 0 0) 0 0)) /\
  in_step (fold_left writer_call (CallWriteHeader status :: calls) (MkStatusRecorder (MkBaseWriter 0 0) 0 0)).
Proof. intros Hc. split; [|cbn [fold_left]]; (apply in_step_calls; [split; [done|by left]|done]). Qed.

(** A response is sent, and recorded, with its own status. *)
Lemma response_recorded size rs :
  (200 <= rs_status rs)%Z ->
  let r := fold_left writer_call (response_calls size rs) (MkStatusRecorder (MkBaseWriter 0 0) 0 0) in
  in_step r /\ sr_status r = rs_status rs.
Proof.
  intros Hs. destruct rs as [status body]. cbn [rs_status] in *.
  assert (Hw : forall n, let r := fold_left writer_call [CallWriteHeader status; CallWrite n]
    (MkStatusRecorder (MkBaseWriter 0 0) 0 0) in in_step r /\ sr_status r = status).
  { intros n. split; [apply recorder_in_step; repeat constructor|]. cbn. by destruct (Z.eqb_spec status 0); [lia|]. }
  unfold response_calls. cbn [rs_body rs_status].
  destruct body; [split; [apply (recorder_in_step status []); constructor|done]|apply Hw|..];
    (destruct (Z.eqb_spec status 200) as [->|]; [split; [apply (recorder_in_step 200); repeat constructor|done]|apply Hw]).
Qed.

Section served.
Context `{SL : Stateless} `{Env : StoreEnv} `{AE : AuthEnv}.
Context `{PS : !ProbeStore World} `{AS : !AuthStore World} `{SV : !StatusViewStore World} `{UL : UrlLib}.
Context (policy : Policy) (trusted : list Prefix) (login_clock signup_clock public_clock : nat -> Time).
Context (size : Body -> Z) (base : Logger).

(** The contexts [requireProbeAuth] and [requireSession] pass on, from the same
    lookups. *)
Definition probe_context (id secret : string) (r : option RequestContext) (w : World) : option RequestContext :=
  if (TrimSpace id == "") || (TrimSpace secret == "") then r
  else match AuthenticateProbe (TrimSpace id) (TrimSpace secret) w with
       | (inr (Some probe), _) => attachAuthenticatedProbe base r (Some probe)
       | _ => r
       end.
Definition session_context (authorization : string) (r : option RequestContext) (w : World) : option RequestContext :=
  let token := TrimPrefix authorization "Bearer " in
  if token == "" then r
  else match GetSessionUser token w with
       | (inr (Some user), _) => attachAuthenticatedUser base r (Some user)
       | _ => r
       end.

(** They name exactly whom the guards call the handler for. *)
Lemma probe_context_of_guard id secret rc s :
  (exists p s1, probe_context id secret rc s.2 = attachAuthenticatedProbe base rc (Some p) /\
     forall next, requireProbeAuth id secret next s = next p s1) \/
  (probe_context id secret rc s.2 = rc /\
     exists rs s1, forall next, requireProbeAuth id secret next s = (rs, s1)).
Proof.
  destruct s as [r w]. unfold probe_context, requireProbeAuth. cbn [snd].
  destruct (_ || _); [right; eauto|]. destruct (AuthenticateProbe _ _ w) as [[e|[p|]] w'];
    [right; eauto|left; eauto|right; eauto].
Qed.

Lemma session_context_of_guard authorization rc s :
  (exists u s1, session_context authorization rc s.2 = attachAuthenticatedUser base rc (Some u) /\
     forall next, requireSession authorization next s = next u s1) \/
  (session_context authorization rc s.2 = rc /\
     exists rs s1, forall next, requireSession authorization next s = (rs, s1)).
Proof.
  destruct s as [r w]. unfold session_context, requireSession. cbn [snd]. cbv zeta.
  destruct (_ == ""); [right; eauto|]. destruct (GetSessionUser _ w) as [[e|[u|]] w'];
    [right; eauto|left; eauto|right; eauto].
Qed.

(** What the guards read of a request: the probe's headers or the bearer token. *)
Definition probe_credentials (req : HttpRequest) : option (string * string) :=
  match req with
  | PostProbeRegister id secret _ | GetProbeChecks id secret | PostProbeHeartbeat id secret _ _
  | PostResults id secret _ _ | OtherProbeRoute id secret => Some (id, secret)
  | _ => None
  end.
Definition bearer (req : HttpRequest) : option string :=
  match req with
  | GetSignupRequests a | PostApproveSignup a _ | PostRejectSignup a _ | PostProbes a _
  | GetStatus a | GetChecks a | PostChecks a _ _ | PutCheck a _ _ _ | DeleteCheckRoute a _
  | GetMe a | PutChangePassword a _ | GetIncidents a => Some a
  | _ => None
  end.

Definition request_context (req : HttpRequest) (r : option RequestContext) (w : World) : option RequestContext :=
  match probe_credentials req, bearer req with
  | Some (id, secret), _ => probe_context id secret r w
  | _, Some a => session_context a r w
  | _, _ => r
  end.

(** A request of [Routes], with its access log. *)
Definition serve_logged (header : string) (random : GoError + list Z) (method path : string) (duration : Z)
    (req : HttpRequest) : Server -> string * statusRecorder * option LogRecord * Server :=
  withRequestLog base header random method path duration (fun r s =>
    let '(rs, s') := Routes policy trusted login_clock signup_clock public_clock req s in
    (response_calls size rs, request_context req r (sv_shared s).2, s')).

(** * Every request is answered with one of these *)

Definition statuses : list Z := [200; 201; 204; 400; 401; 403; 404; 413; 429; 500]%Z.
Definition answered (rs : Response) : Prop := rs_status rs ∈ statuses.
Definition answers (h : Handle) : Prop := forall s, answered (h s).1.

Lemma status_in z : bool_decide (z ∈ statuses) = true -> z ∈ statuses.
Proof. apply bool_decide_eq_true_1. Qed.

Lemma answered_processor err status message :
  writeProcessorError err = Some (status, message) -> answered (http_Error message status).
Proof. unfold writeProcessorError. intros Hw. repeat case_match; simplify_eq; by apply status_in. Qed.
Lemma answered_error err : answered (error_response err).
Proof.
  unfold error_response. destruct (writeProcessorError err) as [[]|] eqn:E; [by eapply answered_processor|by apply status_in].
Qed.

Lemma answers_reply rs : answered rs -> answers (reply rs).
Proof. by intros H s. Qed.
Lemma answers_world {A} (m : DB A) k : (forall res, answered (k res)) -> answers (on_world m k).
Proof. intros Hk [r w]. unfold on_world. destruct (m w). apply Hk. Qed.
Lemma answers_decoding {R} (d : GoError + R) next : (forall req, answers (next req)) -> answers (decoding d next).
Proof. intros Hn. destruct d; [apply answers_reply, answered_error|apply Hn]. Qed.
Lemma answers_processed {A} (m : St Shared A) : answers (processed m).
Proof. intros s. unfold processed. destruct (m s) as [[err|a] s']; [apply answered_error|by apply status_in]. Qed.

Lemma answers_probe id secret next : (forall p, answers (next p)) -> answers (requireProbeAuth id secret next).
Proof.
  intros Hn [r w]. unfold requireProbeAuth. cbv zeta. destruct (_ || _); [by apply status_in|].
  destruct (AuthenticateProbe _ _ w) as [[e|[p|]] w']; [by apply status_in|apply Hn|by apply status_in].
Qed.
Lemma answers_session a next : (forall u, answers (next u)) -> answers (requireSession a next).
Proof.
  intros Hn [r w]. unfold requireSession. cbv zeta. case_bool_decide; [by apply status_in|].
  destruct (GetSessionUser _ w) as [[e|[u|]] w']; [by apply status_in|apply Hn|by apply status_in].
Qed.
Lemma answers_admin a next : answers next -> answers (requireAdmin a next).
Proof. intros Hn. apply answers_session. intros u. destruct (negb _); [by apply answers_reply, status_in|done]. Qed.

Lemma answered_unlimited next s : answers next -> answered (unlimited next s).1.
Proof. intros Hn. unfold unlimited. specialize (Hn (sv_shared s)). by destruct (next (sv_shared s)). Qed.
Lemma answered_behind clock get set peer next s : answers next -> answered (behind trusted clock get set peer next s).1.
Proof.
  intros Hn. specialize (Hn (sv_shared s)). unfold behind, rateLimited.
  destruct (get (sv_limiters s)) as [rl|]; [|by destruct (next (sv_shared s))].
  destruct (allow clock _ rl) as [[] rl']; [by destruct (next (sv_shared s))|by apply status_in].
Qed.

Ltac answer :=
  repeat first [ apply answers_decoding; intros ? | apply answers_world; intros [?|?] | apply answers_processed
               | apply answers_reply | apply answered_error | by apply status_in | by eapply answered_processor
               | progress unfold handleLogout, handleApproveSignupRequest, handleRejectSignupRequest
               | progress unfold handlePublicStatus, handleStatus, handleDeleteCheck
               | case_match | match goal with |- answers _ => intros [? ?] end ].

Lemma routes_answered req s :
  answered (Routes policy trusted login_clock signup_clock public_clock req s).1.
Proof.
  destruct req; unfold Routes;
    first [ apply answered_unlimited | apply answered_behind ]; try apply answers_probe; try apply answers_admin;
    try apply answers_session; intros; answer.
Qed.

(** * Request IDs are safe to log *)

Definition safe_id (id : string) : Prop := id <> "" /\ (len id <= 64)%Z /\ forallb id_char (chars id) = true.

Lemma normalize_safe raw : normalizeRequestID raw = "" \/ safe_id (normalizeRequestID raw).
Proof.
  unfold normalizeRequestID. case_bool_decide as E; [by left|]. cbn [orb].
  destruct (Z.ltb_spec 64 (len (TrimSpace raw))); [by left|].
  destruct (forallb id_char _) eqn:Ef; [right|by left]. done.
Qed.

Lemma normalize_keeps raw : safe_id (TrimSpace raw) -> normalizeRequestID raw = TrimSpace raw.
Proof.
  intros (Hne & Hl & Hc). unfold normalizeRequestID. rewrite bool_decide_eq_false_2 by done. cbn [orb].
  destruct (Z.ltb_spec 64 (len (TrimSpace raw))); [lia|]. by rewrite Hc.
Qed.

Lemma hex_encode_ids bytes : Forall (fun b => 0 <= b < 256)%Z bytes ->
  forallb id_char (chars (hex_encode bytes)) = true /\ String.length (hex_encode bytes) = (2 * length bytes)%nat.
Proof.
  assert (Hd : forall n, (0 <= n < 16)%Z -> id_char (hex_char n) = true).
  { intros n Hn. assert (Hall : forallb (fun n => id_char (hex_char (Z.of_nat n))) (seq 0 16) = true) by (vm_compute; reflexivity).
    rewrite forallb_forall in Hall. specialize (Hall (Z.to_nat n)). rewrite Z2Nat.id in Hall by lia.
    apply Hall, in_seq. lia. }
  induction 1 as [|b bytes Hb _ [IH1 IH2]]; [done|]. cbn [hex_encode String.list_ascii_of_string forallb String.length length].
  pose proof (Z.mod_pos_bound b 16). pose proof (Z.div_lt_upper_bound b 16 16). pose proof (Z.div_pos b 16).
  rewrite !Hd, IH1 by lia. split; [done|lia].
Qed.

Lemma fresh_safe random :
  (forall b, random = inr b -> length b = 12%nat /\ Forall (fun b => 0 <= b < 256)%Z b) -> safe_id (newRequestID random).
Proof.
  intros Hr. destruct random as [e|b]; [by vm_compute|]. destruct (Hr b eq_refl) as [Hl Hb].
  apply hex_encode_ids in Hb as [Hc Hlen]. unfold safe_id, len. cbn [newRequestID]. split_and!; [done| |done].
  change (String.length ("req-" +:+ hex_encode b)) with (4 + String.length (hex_encode b))%nat. lia.
Qed.
(** * Who a line names *)

Lemma session_row_found token w u w' :
  GetSessionUser token w = (inr (Some u), w') ->
  exists row, session_user token (now_at (w_tick w)) (w_tables w) = Some (us_ID u, row).
Proof.
  unfold GetSessionUser, mbind, St_bind, time_Now, call, params.
  destruct (fault_at _) as [[]|]; [done..|]. cbn. destruct (negb _); [done|]. cbn.
  destruct (session_user _ _ _) as [[uid row]|]; [|done]. intros [= <- <-]. by exists row.
Qed.

Lemma routes_session req a :
  bearer req = Some a ->
  exists next, forall s, Routes policy trusted login_clock signup_clock public_clock req s = session_route a next s.
Proof. destruct req; intros [= ->]; eexists; reflexivity. Qed.

Lemma routes_probe req id secret :
  probe_credentials req = Some (id, secret) ->
  exists next, forall s, Routes policy trusted login_clock signup_clock public_clock req s = probe_route id secret next s.
Proof. destruct req; intros [= -> ->]; eexists; reflexivity. Qed.

(** The attributes that name the caller. *)
Inductive names (req : HttpRequest) (w : World) (rs : Response) : list Attr -> Prop :=
| names_open : probe_credentials req = None -> bearer req = None -> names req w rs []
| names_refused : rs = unauthorized \/ rs = internal_error -> names req w rs []
| names_user a uid row :
    bearer req = Some a ->
    session_user (TrimPrefix a "Bearer ") (now_at (w_tick w)) (w_tables w) = Some (uid, row) ->
    names req w rs [AttrInt "user_id" uid]
| names_probe id secret row :
    probe_credentials req = Some (id, secret) -> TrimSpace id <> "" ->
    t_probes (w_tables w) !! TrimSpace id = Some row -> p_revoked_at row = None ->
    p_secret_hash row = hashProbeSecret (TrimSpace secret) ->
    names req w rs [AttrString "probe_id" (TrimSpace id)].

(** The caller attributes of a scope. *)
Definition caller (scope : requestLogScope) : list Attr :=
  (if rl_hasUser scope then [AttrInt "user_id" (rl_userID scope)] else []) ++
  (if rl_probeID scope != "" then [AttrString "probe_id" (rl_probeID scope)] else []).

Definition named (req : HttpRequest) (w : World) (rs : Response) (r : option RequestContext) : Prop :=
  exists scope logger, r = Some (MkRequestContext (Some scope) logger) /\ names req w rs (caller scope).

Lemma named_refused req w rs id logger :
  rs = unauthorized \/ rs = internal_error ->
  named req w rs (Some (MkRequestContext (Some (MkRequestLogScope id 0 false "")) logger)).
Proof. intros Hrs. eexists _, _. split; [done|]. by apply names_refused. Qed.

Lemma named_probe req s id0 logger id secret :
  probe_credentials req = Some (id, secret) ->
  let '(rs, _) := Routes policy trusted login_clock signup_clock public_clock req s in
  named req (sv_shared s).2 rs
    (probe_context id secret (Some (MkRequestContext (Some (MkRequestLogScope id0 0 false "")) logger)) (sv_shared s).2).
Proof.
  intros Ep. destruct (routes_probe req id secret Ep) as [next ->]. destruct s as [[r w] l].
  unfold probe_route, unlimited, requireProbeAuth, probe_context. cbn [sv_shared snd]. cbv zeta.
  destruct (bool_decide_reflect (TrimSpace id = "")) as [|Hid]; cbn [orb]; [apply named_refused; by left|].
  destruct (TrimSpace secret == ""); [apply named_refused; by left|].
  destruct (AuthenticateProbe _ _ w) as [[e|[p|]] w'] eqn:Ea; [apply named_refused; by right| |apply named_refused; by left].
  destruct (next p _) as [rs sh]. eexists _, _. split; [done|].
  apply authenticated_row in Ea as (Hp & row & Hl & Hr & Hh). unfold caller. cbn [rl_hasUser rl_probeID].
  rewrite Hp, bool_decide_eq_false_2 by done. by eapply names_probe.
Qed.

Lemma named_session req s id0 logger a :
  bearer req = Some a ->
  let '(rs, _) := Routes policy trusted login_clock signup_clock public_clock req s in
  named req (sv_shared s).2 rs
    (session_context a (Some (MkRequestContext (Some (MkRequestLogScope id0 0 false "")) logger)) (sv_shared s).2).
Proof.
  intros Eb. destruct (routes_session req a Eb) as [next ->]. destruct s as [[r w] l].
  unfold session_route, unlimited, requireSession, session_context. cbn [sv_shared snd]. cbv zeta.
  destruct (_ == ""); [apply named_refused; by left|].
  destruct (GetSessionUser _ w) as [[e|[u|]] w'] eqn:Ea; [apply named_refused; by right| |apply named_refused; by left].
  destruct (next u _) as [rs sh]. eexists _, _. split; [done|].
  apply session_row_found in Ea as (row & Hl). by eapply names_user.
Qed.

Lemma request_named req s id logger :
  let '(rs, _) := Routes policy trusted login_clock signup_clock public_clock req s in
  named req (sv_shared s).2 rs
    (request_context req (Some (MkRequestContext (Some (MkRequestLogScope id 0 false "")) logger)) (sv_shared s).2).
Proof.
  unfold request_context. destruct (probe_credentials req) as [[i secret]|] eqn:Ep; [by apply named_probe|].
  destruct (bearer req) as [a|] eqn:Eb; [by apply named_session|].
  destruct (Routes _ _ _ _ _ _ _) as [rs s']. eexists _, _. split; [done|]. by apply names_open.
Qed.

(** C37. The access log tells the truth.  The middleware changes neither a response
    nor the state, and the status and the number of bytes it logs are the ones sent;
    the status is one of ten.  The line is logged at the level of the status and
    the path.  Its request ID, also the one of the response, is made of at most 64
    letters, digits, dashes, underscores and dots whatever the client sends, and is
    the client's own if that is so formed.  A user or probe is named only if the
    request carried that user's live session token or that probe's secret, and
    is left out only on open routes and when the guard refused. *)
Theorem access_log_tells_truth header random method path duration req s :
  (forall b, random = inr b -> length b = 12%nat /\ Forall (fun b => 0 <= b < 256)%Z b) ->
  let '(id, rec, line, s') := serve_logged header random method path duration req s in
  exists rs who,
    Routes policy trusted login_clock signup_clock public_clock req s = (rs, s') /\
    safe_id id /\ (safe_id (TrimSpace header) -> id = TrimSpace header) /\
    bw_status (sr_writer rec) = rs_status rs /\ rs_status rs ∈ statuses /\
    names req (sv_shared s).2 rs who /\
    line = Log base (requestLogLevel path (rs_status rs)) "request completed"
      ([AttrString "request_id" id; AttrString "component" "http"; AttrString "method" method;
        AttrString "path" path; AttrInt "status" (rs_status rs); AttrInt "duration_ms" duration;
        AttrInt "bytes" (bw_bytes (sr_writer rec))] ++ who).
Proof.
  intros Hr. unfold serve_logged, withRequestLog. cbv zeta.
  set (id := if normalizeRequestID header == "" then _ else _).
  pose proof (request_named req s id (Some (With (AttrString "request_id" id) base))) as Hn.
  pose proof (routes_answered req s) as Ha.
  destruct (Routes _ _ _ _ _ req s) as [rs s']. cbn [fst] in Ha.
  destruct Hn as (scope & logger & -> & Hn).
  assert (H200 : (200 <= rs_status rs)%Z).
  { assert (Hall : Forall (fun z => 200 <= z)%Z statuses) by (repeat constructor; lia).
    rewrite Forall_forall in Hall. apply Hall. by apply list_elem_of_In. }
  destruct (response_recorded size rs H200) as [[Hb Hs] E].
  destruct (fold_left writer_call _ _) as [[bs bb] st by_]. cbn in Hb, Hs, E. subst by_ st.
  destruct (Z.eqb_spec (sr_status (MkStatusRecorder (MkBaseWriter bs bb) (rs_status rs) bb)) 0) as [E0|E0];
    cbn [sr_status] in E0; [lia|].
  exists rs, (caller scope). cbn [sr_writer sr_status sr_bytes bw_status bw_bytes].
  split_and!; [done| | |lia|done|done|].
  - subst id. case_bool_decide as En; [by apply fresh_safe|]. destruct (normalize_safe header); done.
  - intros Hsafe. subst id. rewrite (normalize_keeps _ Hsafe), bool_decide_eq_false_2; [done|]. apply Hsafe.
  - unfold Log, With, caller. cbn [default option_bind mbind rc_requestLog lg_level lg_attrs].
    case_match; [|done]. do 2 f_equal. rewrite <-app_assoc. cbn [app Datatypes.id].
    destruct (rl_hasUser scope), (rl_probeID scope == ""); done.
Qed.
End served.
