(* ===== verification/Onboarding.v ===== *)
(** From an approved sign-up request to a log-in, through the processor of
    internal/server/auth_processor.go on the real store. *)

From S2P Require Import Prelude GoStrings Sha256 Database StoreProbes StoreInvariant StoreAuth AuthInvariant.
From S2P Require Import AuthProperties ProbeProcessor AuthProcessor.

#[global] Instance store_auth `{StoreEnv} `{AuthEnv} : AuthStore World := {|
  store_AuthenticateUser := AuthenticateUser;
  store_CreateSession := CreateSession;
  store_UpdateUserPassword := UpdateUserPassword;
  store_CreateSignupRequest := CreateSignupRequest;
  store_ListPendingSignupRequests := StoreAuth.ListPendingSignupRequests;
  store_ApproveSignupRequest := StoreAuth.ApproveSignupRequest;
  store_RejectSignupRequest := StoreAuth.RejectSignupRequest;
  store_SetupPassword := StoreAuth.SetupPassword
|}.

Section onboarding.
Context `{Env : StoreEnv} `{AE : AuthEnv}.

Lemma approve_signup_run id u now hash e r w w' :
  approve_signup id u now hash e w = (inr tt, w') -> signups w !! id = Some r ->
  signups w' !! id = Some (approve_row u now hash e r).
Proof.
  intros Hrun Hr. apply bind_inr in Hrun as ([] & w1 & Hp & Hrun).
  destruct (params_run [hash] [] w) as [res E]. rewrite E in Hp. injection Hp as _ <-.
  revert Hrun. unfold mbind, St_bind, get_tables. cbv beta iota.
  destruct (_ && has_row _ _); [done|]. destruct (_ && negb _); [done|].
  unfold update_signup, mbind, St_bind. simpl. intros [= <-]. unfold signups. simpl.
  rewrite lookup_update_where. unfold signups in Hr. rewrite Hr. simpl.
  by rewrite bool_decide_eq_true_2.
Qed.

(** A successful approval leaves the request approved with the token it returns. *)
Lemma approve_run id w a w' :
  accounts w -> StoreAuth.ApproveSignupRequest id w = (inr a, w') ->
  a = no_approval \/
  exists r u, let now := now_at (w_tick w) in
    signups w !! id = Some r /\ drawn 0 (sa_SetupToken a) /\
    a = MkSignupApproval (su_email r) (sa_SetupToken a) (time_Add now setupTokenTTL) /\
    signups w' !! id = Some (approve_row u now (hashSetupToken (sa_SetupToken a)) (time_Add now setupTokenTTL) r).
Proof.
  intros Hw Hrun. apply bind_inr in Hrun as (now & w1 & [= <- <-] & Hrun).
  apply bind_inr in Hrun as (res & w2 & Hrun & [= <- <-]).
  apply with_tx_opt_inr in Hrun as (w3 & Hrun & Ht).
  apply bind_inr in Hrun as (request & w4 & Hreq & Hrun).
  destruct request as [request|]; [|injection Hrun as <- <-; by left].
  apply by_id_inv in Hreq as (-> & r & Hr & ->). change (signups w !! id = Some r) in Hr.
  destruct (sr_Status _ != _); [injection Hrun as <- <-; by left|].
  apply bind_inr in Hrun as (u & w5 & Hu & Hrun). apply bind_inr in Hrun as (token & w6 & Htok & Hrun).
  destruct (token_drawn 0 32 _ _ _ Htok eq_refl) as [Hd ->]; [lia|].
  apply bind_inr in Hrun as ([] & w7 & Hup & [= <- <-]). right. exists r, u. simpl.
  split_and!; [done|done|done|]. apply call_read in Hup. unfold signups. rewrite Ht.
  apply (approve_signup_run _ _ _ _ _ _ _ _ Hup).
  destruct (approved_user_sound (su_email r) (now_at (w_tick w)) (next_tick (next_tick (next_tick w))) Hw)
    as (_ & _ & Hsame).
  simpl in Hu. rewrite Hu in Hsame. change (signups w5 !! id = Some r).
  change (signups w = signups w5) in Hsame. by rewrite <-Hsame.
Qed.

Lemma drawn_token `{!StoreEnvLaws} k token : drawn k token -> TrimSpace token = token /\ token <> "".
Proof.
  intros (n & bytes & _ & Hr & ->). apply rand_Read_bytes in Hr as [Hlen Hb]. split.
  - by apply TrimSpace_solid, hex_encode_solid.
  - destruct bytes; [done|]. discriminate.
Qed.

(** The only user with an email. *)
Lemma user_by_email_found t q email u row :
  accounts_wf t q -> t_users t !! u = Some row -> u_email row = email ->
  head (select (fun _ x => u_email x == email) (t_users t)) = Some (u, row).
Proof.
  intros Hw Hu He. destruct (select _ _) as [|[i x] l] eqn:Hs.
  - assert (Hin : (u, row) ∈ select (fun _ x => u_email x == email) (t_users t))
      by (apply elem_of_select; by rewrite bool_decide_eq_true_2).
    rewrite Hs in Hin. by apply not_elem_of_nil in Hin.
  - assert (Hin : (i, x) ∈ select (fun _ x => u_email x == email) (t_users t)) by (rewrite Hs; left).
    apply elem_of_select in Hin as [Hi Hx]. apply bool_decide_eq_true in Hx. simpl.
    assert (i = u) as -> by (eapply (acc_emails _ _ Hw); [done|done|congruence]). congruence.
Qed.

Lemma authenticate_found email password w res w' u row :
  accounts w -> t_users (w_tables w) !! u = Some row -> u_email row = normalizeEmail email ->
  bcrypt_Compare (u_password_hash row) password = true ->
  AuthenticateUser email password w = (inr res, w') -> res = Some (scan_user (u, row)).
Proof.
  intros Hw Hu He Hc Hrun. apply bind_inr in Hrun as (found & w1 & Hf & Hrun). apply call_read in Hf.
  destruct (user_by_email_run (normalizeEmail email) (next_tick w)) as [E|E]; rewrite E in Hf; [done|].
  injection Hf as <- _. simpl in Hrun.
  rewrite (user_by_email_found _ _ _ _ _ Hw Hu He) in Hrun. simpl in Hrun. rewrite Hc in Hrun.
  by injection Hrun.
Qed.

Lemma session_found token w res w' s row :
  t_sessions (w_tables w) !! token = Some s -> t_users (w_tables w) !! ss_user_id s = Some row ->
  (timestamptz (now_at (w_tick w)) < ss_expires_at s)%Z ->
  GetSessionUser token w = (inr res, w') -> res = Some (scan_user (ss_user_id s, row)).
Proof.
  intros Hs Hu Hlt Hrun. apply bind_inr in Hrun as (now & w1 & [= <- <-] & Hrun).
  apply call_read, bind_inr in Hrun as ([] & w2 & Hp & Hrun).
  destruct (params_run [token] [] (next_tick (next_tick w))) as [r E]. rewrite E in Hp.
  injection Hp as _ <-. unfold mbind, St_bind in Hrun. simpl in Hrun. injection Hrun as <- _.
  unfold session_user, After. rewrite Hs, Hu. by rewrite (proj2 (Z.ltb_lt _ _) Hlt).
Qed.

Lemma wrapping_inr {W A} prefix (m : St W A) w a w' :
  wrapping prefix m w = (inr a, w') -> m w = (inr a, w').
Proof. unfold wrapping. destruct (m w) as [[e|b] w1]; [done|]. by intros [= -> ->]. Qed.

Lemma wrapping_inl {W A} prefix (m : St W A) w e w' :
  wrapping prefix m w = (inl e, w') -> exists e0, e = Wrapf prefix e0.
Proof. unfold wrapping. destruct (m w) as [[e0|b] w1]; [|done]. intros [= <- _]. eauto. Qed.

(** A log-in with a password that the stored hash accepts. *)
Lemma login_found email password w res w' u row :
  accounts w -> t_users (w_tables w) !! u = Some row -> u_email row = normalizeEmail email ->
  bcrypt_Compare (u_password_hash row) password = true ->
  Login (MkLoginRequest email password) w = (res, w') ->
  match res with
  | inr login => lo_Email login = u_email row
  | inl e => exists e0, e = Wrapf "authenticate user" e0 \/ e = Wrapf "create session" e0
  end.
Proof.
  intros Hw Hu He Hc Hrun. destruct res as [e|login].
  - apply bind_inl in Hrun as [Hrun|(user & w1 & Ha & Hrun)]; [apply wrapping_inl in Hrun as [e0 ->]; eauto|].
    apply wrapping_inr in Ha. apply (authenticate_found _ _ _ _ _ u row) in Ha as ->; [|done..].
    apply bind_inl in Hrun as [Hrun|(tok & w2 & _ & Hrun)]; [|done].
    apply wrapping_inl in Hrun as [e0 ->]. eauto.
  - apply bind_inr in Hrun as (user & w1 & Ha & Hrun). apply wrapping_inr in Ha.
    apply (authenticate_found _ _ _ _ _ u row) in Ha as ->; [|done..].
    apply bind_inr in Hrun as (tok & w2 & _ & [= <- _]). done.
Qed.

(** What a completed set-up leaves for the user. *)
Lemma setup_leaves now id u hash session t row :
  t_users t !! u = Some row ->
  t_users (setup_tables now id u hash session t) !! u = Some (set_password_hash hash row) /\
  t_sessions (setup_tables now id u hash session t) !! session =
    Some (MkSessionRow u (timestamptz now) (timestamptz (time_Add now (30 * 24 * Hour)%Z))).
Proof.
  intros Hu. simpl. rewrite lookup_update_where, Hu, lookup_insert_eq. simpl.
  by rewrite bool_decide_eq_true_2.
Qed.

(** The request of an approval that is still valid. *)
Lemma approved_usable id u now hash e r now2 :
  (now2 < timestamptz e)%Z ->
  token_usable (scanSignupRequest (id, approve_row u now hash e r)) now2 = Some u.
Proof. intros Hlt. unfold token_usable, After. simpl. by rewrite (proj2 (Z.ltb_lt _ _) Hlt). Qed.

(** The processor's answer, by the store's. *)
Lemma setup_processed token password w res w' :
  token <> "" -> password <> "" ->
  AuthProcessor.SetupPassword (MkSetupPasswordRequest token password) w = (res, w') ->
  (exists e0, res = inl (Wrapf "setup password" e0)) \/
  exists out, StoreAuth.SetupPassword token password w = (inr out, w') /\
    (so_SessionToken out <> "" -> res = inr (MkSetupOutcome (so_SessionToken out) (so_Email out))).
Proof.
  intros Ht Hp. unfold AuthProcessor.SetupPassword. simpl.
  rewrite !bool_decide_eq_false_2 by done. simpl. unfold mbind, St_bind, wrapping. simpl.
  destruct (StoreAuth.SetupPassword token password w) as [[e|out] w1]; [intros [= <- _]; eauto|].
  case_bool_decide as E; intros [= <- <-]; right; exists out; (split; [done|]); intros; [done|done].
Qed.
End onboarding.

Section theorem.
Context `{EL : StoreEnvLaws} `{AL : AuthEnvLaws}.

(** C32. Onboarding works end to end.  When an approval succeeds and the token it
    returns is used before it expires, with a password that is not empty,
    [SetupPassword] is never answered with 400 or 401: it fails only with an
    error of the store.  If it succeeds, it reports the request's email, and from
    then on logging in with any spelling of that email and the new password fails
    only with an error of the store, and the returned session belongs to the user
    with that email for thirty days. *)
Theorem onboarding_roundtrip id w appr w1 w2 password res w3
    (Hw : accounts w)
    (Happ : AuthProcessor.ApproveSignupRequest id w = (inr appr, w1))
    (Hother : other_step w1 w2)
    (Hlive : (now_at (w_tick w2) < timestamptz (ao_ExpiresAt appr))%Z)
    (Hpw : password <> "")
    (Hset : AuthProcessor.SetupPassword (MkSetupPasswordRequest (ao_SetupToken appr) password) w2 = (res, w3)) :
  match res with
  | inl e => exists e0, e = Wrapf "setup password" e0
  | inr out => spo_Email out = ao_Email appr /\
      forall w4, other_step w3 w4 ->
      (forall email login w5, normalizeEmail email = ao_Email appr ->
         Login (MkLoginRequest email password) w4 = (login, w5) ->
         match login with
         | inl e => exists e0, e = Wrapf "authenticate user" e0 \/ e = Wrapf "create session" e0
         | inr login => lo_Email login = ao_Email appr
         end) /\
      (forall user w5, GetSessionUser (spo_Token out) w4 = (inr user, w5) ->
         (timestamptz (now_at (w_tick w4)) < timestamptz (now_at (w_tick w2) + 30 * 24 * Hour))%Z ->
         us_Email <$> user = Some (ao_Email appr))
  end.
Proof.
  apply bind_inr in Happ as (a & w1' & Ha & Happ). apply wrapping_inr in Ha.
  change (StoreAuth.ApproveSignupRequest id w = (inr a, w1')) in Ha.
  destruct (sa_Email a == "") eqn:Hne; [done|]. injection Happ as <- <-. cbn [ao_ExpiresAt ao_SetupToken ao_Email] in *.
  assert (Hw1 : accounts w1').
  { destruct (exec_auth_sound (OpApproveSignupRequest id) w Hw) as [HA _]. simpl in HA. by rewrite Ha in HA. }
  destruct (approve_run id w a w1' Hw Ha) as [->|(r & u & Hr & Hd & Ea & Hr1)]; [done|].
  pose proof (other_accounts _ _ Hother Hw1) as Hw2.
  destruct (drawn_token 0 _ Hd) as [Htrim Hnil].
  assert (Hr2 : signups w2 !! id = Some (approve_row u (now_at (w_tick w))
    (hashSetupToken (sa_SetupToken a)) (sa_ExpiresAt a) r)).
  { destruct Hother as (_ & _ & E & _). unfold signups in *.
    rewrite E, Hr1. by rewrite (f_equal sa_ExpiresAt Ea : sa_ExpiresAt a = _). }
  destruct (setup_processed _ _ _ _ _ Hnil Hpw Hset) as [[e0 ->]|(out & Hrun & Hres)]; [eauto|].
  pose proof (approved_usable id u (now_at (w_tick w)) (hashSetupToken (sa_SetupToken a)) _ r _ Hlive) as Huse.
  assert (Hw3 : accounts w3).
  { destruct (exec_auth_sound (OpSetupPassword (sa_SetupToken a) password) w2 Hw2) as [HA _].
    simpl in HA. by rewrite Hrun in HA. }
  destruct (setup_run _ _ _ _ _ Hw2 Hrun) as
    [(_ & _ & [Hempty|Hnone])|(i & r' & u' & n & hash & session & Hr' & Hh & Hu' & Hg & Hds & _ & -> & T)].
  { rewrite Htrim in Hempty. by rewrite !bool_decide_eq_false_2 in Hempty. }
  { rewrite (Hnone id _ Hr2) in Huse; [done|]. by rewrite Htrim. }
  rewrite Htrim in Hh. assert (i = id) as -> by (by eapply (acc_hashes _ _ Hw2)).
  rewrite Hr2 in Hr'. injection Hr' as <-. rewrite Huse in Hu'. injection Hu' as <-.
  destruct (drawn_token 0 _ Hds) as [_ Hsn]. specialize (Hres Hsn). subst res.
  assert (Eemail : su_email r = sa_Email a) by (symmetry; exact (f_equal sa_Email Ea)).
  split; [done|]. intros w4 Ho4. pose proof (other_accounts _ _ Ho4 Hw3) as Hw4.
  destruct (ok_user _ _ id _ u Hw2 Hr2 eq_refl) as (row & Hrow & Hemail).
  destruct (setup_leaves (now_at (w_tick w2)) id u hash session (w_tables w2) row Hrow) as [Hu3 Hs3].
  rewrite <-T in Hu3, Hs3. destruct Ho4 as (E1 & E2 & _). rewrite <-E1 in Hu3. rewrite <-E2 in Hs3.
  split.
  - intros email login w5 Hn Hl.
    pose proof (login_found email password w4 login w5 u _ Hw4 Hu3) as HL. simpl in HL, Hemail.
    rewrite Hemail, Eemail in HL. apply HL; [done| |done]. by eapply bcrypt_accepts.
  - intros user w5 Hget Hlt. rewrite (session_found _ _ _ _ _ _ Hs3 Hu3 Hlt Hget). simpl in *. congruence.
Qed.
End theorem.
