(* ===== verification/AuthExamples.v ===== *)
(** A concrete run of the accounts calls: a request for access, its approval, the
    choice of a password. *)

From S2P Require Import Prelude GoStrings Sha256 Database StoreProbes StoreAuth AuthInvariant AuthProperties.
From S2P Require Import ProbeProcessor AuthProcessor Onboarding.

(** The clock and UUIDs of [calm_env]; the random source dries up after thirty
    requests. *)
Definition ex_auth_store : StoreEnv := {|
  fault_at _ := None;
  now_at := @now_at calm_env;
  random_uuid_at := @random_uuid_at calm_env;
  rand_Read n size := if n <? 30 then inr (replicate size (Z.of_nat n)) else inl "no entropy";
  uuid_Parse := @uuid_Parse calm_env;
  timestamptz := @timestamptz calm_env;
  jsonb_in := @jsonb_in calm_env;
  text_le := @text_le calm_env
|}.

Definition ex_auth : AuthEnv := {|
  bcrypt_GenerateFromPassword n password := inr ("$2a$10$" +:+ password);
  bcrypt_Compare hash password := hash == ("$2a$10$" +:+ password);
  unicode_ToLower r := r;
  random_slug_at n := hex_encode [Z.of_nat n]
|}.

Lemma ex_auth_store_laws : @StoreEnvLaws ex_auth_store.
Proof.
  destruct (scripted_env_laws (fun _ => None)) as [H1 H2 _ H4]. split; [exact H1|exact H2| |exact H4].
  intros n size bytes. simpl. destruct (n <? 30) eqn:Hn; [|done]. intros [= <-].
  rewrite length_replicate. split; [done|]. apply Nat.ltb_lt in Hn. apply Forall_forall.
  intros b Hb. apply list_elem_of_In, elem_of_replicate in Hb as [-> _]. lia.
Qed.

Lemma ex_auth_laws : @AuthEnvLaws ex_auth.
Proof. split. simpl. intros n password hash [= <-]. by apply bool_decide_eq_true. Qed.

#[local] Existing Instances ex_auth_store ex_auth ex_auth_store_laws ex_auth_laws.

Definition ex_requested : World := exec_auth (OpCreateSignupRequest " Ada@Example.org ") empty_world.
Definition ex_approval : SignupApproval :=
  match StoreAuth.ApproveSignupRequest 1 ex_requested with (inr a, _) => a | _ => no_approval end.
Definition ex_approved : World := exec_auth (OpApproveSignupRequest 1) ex_requested.
Definition ex_setup (password : string) : DB StoreAuth.SetupPasswordOutcome :=
  StoreAuth.SetupPassword (sa_SetupToken ex_approval) password.
Definition ex_completed : World := (ex_setup "secret" ex_approved).2.

(** The result of a call, when it is known. *)
Definition returned {A} (x : (GoError + A) * World) (d : A) : A :=
  match x.1 with inr a => a | inl _ => d end.
Definition succeeded {A} (x : (GoError + A) * World) : bool :=
  match x.1 with inr _ => true | inl _ => false end.

Lemma run_returned {A} (x : (GoError + A) * World) d :
  succeeded x = true -> x = (inr (returned x d), x.2).
Proof. by destruct x as [[]]. Qed.

Lemma ex_requested_steps : rtc auth_step empty_world ex_requested.
Proof. apply rtc_once. apply auth_step_op. Qed.

Lemma ex_requested_accounts : accounts ex_requested.
Proof. exact (steps_accounts _ _ ex_requested_steps empty_accounts). Qed.

Lemma signup_requests_follow_lifecycle_witness :
  accounts ex_requested /\
  lifecycle (w_tick ex_requested) (signups ex_requested) (signups ex_approved) /\
  phase <$> signups ex_requested !! 1%Z = Some (Some Pending) /\
  phase <$> signups ex_approved !! 1%Z =
    Some (Some (Approved 1 (hashSetupToken (sa_SetupToken ex_approval))
      (timestamptz (now_at (w_tick ex_requested) + setupTokenTTL)%Z))).
Proof.
  destruct (signup_requests_follow_lifecycle (OpApproveSignupRequest 1) ex_requested ex_requested_steps)
    as (Hw & _ & _ & Hlife).
  split; [exact Hw|]. split; [exact Hlife|]. split; vm_compute; reflexivity.
Defined.

(** No later token has a given hash. *)
Definition later_differ (k : nat) (h : string) : bool :=
  forallb (fun m => hashSetupToken (hex_encode (replicate 32 (Z.of_nat m))) != h) (seq k (30 - k)).

Lemma ex_tokens_differ k h token :
  later_differ k h = true -> drawn k token -> hashSetupToken token <> h.
Proof.
  intros Hall (n & bytes & Hn & Hr & ->). cbn [rand_Read ex_auth_store] in Hr.
  destruct (n <? 30) eqn:Hlt; [|done]. injection Hr as <-. apply Nat.ltb_lt in Hlt.
  unfold later_differ in Hall. rewrite forallb_forall in Hall. specialize (Hall n). rewrite in_seq in Hall.
  apply negb_true_iff in Hall; [|lia]. by apply bool_decide_eq_false in Hall.
Qed.

Lemma ex_approved_accounts : accounts ex_approved.
Proof. exact (proj1 (exec_auth_sound (OpApproveSignupRequest 1) ex_requested ex_requested_accounts)). Qed.

Lemma setup_token_used_once_witness :
  returned (ex_setup "other" ex_completed) no_outcome = no_outcome /\
  w_tables (ex_setup "other" ex_completed).2 = w_tables ex_completed.
Proof.
  apply (setup_token_used_once (sa_SetupToken ex_approval) "secret" "other" ex_approved
    (returned (ex_setup "secret" ex_approved) no_outcome) ex_completed ex_completed
    (returned (ex_setup "other" ex_completed) no_outcome) (ex_setup "other" ex_completed).2
    ex_approved_accounts).
  - exact (run_returned (ex_setup "secret" ex_approved) no_outcome ltac:(vm_compute; reflexivity)).
  - intros E. apply (f_equal so_Email) in E. revert E. vm_compute. discriminate.
  - apply rtc_refl.
  - intros token'. apply ex_tokens_differ. vm_compute. reflexivity.
  - exact (run_returned (ex_setup "other" ex_completed) no_outcome ltac:(vm_compute; reflexivity)).
Defined.

Definition ex_out : AuthProcessor.SetupPasswordOutcome := MkSetupOutcome "" "".
Definition ex_no_approval : SignupApprovalOutcome := MkSignupApprovalOutcome "" "" 0.

Definition ex_approve : (GoError + SignupApprovalOutcome) * World :=
  AuthProcessor.ApproveSignupRequest 1 ex_requested.

Lemma ex_approve_ok : succeeded ex_approve = true.
Proof. vm_compute. reflexivity. Qed.

Lemma onboarding_roundtrip_witness :
  let appr := returned ex_approve ex_no_approval in
  let w2 := ex_approve.2 in
  let setup := AuthProcessor.SetupPassword (MkSetupPasswordRequest (ao_SetupToken appr) "secret") w2 in
  spo_Email (returned setup ex_out) = ao_Email appr /\
  match Login (MkLoginRequest "ADA@example.org " "secret") setup.2 with
  | (inl e, _) => exists e0, e = Wrapf "authenticate user" e0 \/ e = Wrapf "create session" e0
  | (inr login, _) => lo_Email login = ao_Email appr
  end /\ ao_Email appr = "ada@example.org" /\
  succeeded (Login (MkLoginRequest "ADA@example.org " "secret") setup.2) = true.
Proof.
  intros appr w2 setup.
  assert (H1 : AuthProcessor.ApproveSignupRequest 1 ex_requested = (inr appr, w2))
    by exact (run_returned ex_approve ex_no_approval ex_approve_ok).
  assert (H2 : setup = (inr (returned setup ex_out), setup.2))
    by exact (run_returned setup ex_out ltac:(vm_compute; reflexivity)).
  assert (Hsame : forall w, other_step w w) by (intros w; unfold other_step; split_and!; done).
  destruct (onboarding_roundtrip 1 ex_requested appr w2 w2 "secret" (inr (returned setup ex_out)) setup.2
    ex_requested_accounts H1 (Hsame w2)) as [Hmail Hafter]; [vm_compute; reflexivity|discriminate|exact H2|].
  destruct (Hafter setup.2 (Hsame _)) as [Hlogin _]. split; [exact Hmail|]. split; [|split].
  - destruct (Login (MkLoginRequest "ADA@example.org " "secret") setup.2) as [login w5] eqn:Hl.
    exact (Hlogin "ADA@example.org " login w5 ltac:(vm_compute; reflexivity) Hl).
  - vm_compute. reflexivity.
  - vm_compute. reflexivity.
Defined.
