(* ===== verification/SweepProperties.v ===== *)
(** What the sweeps guarantee: errors undo their step, incidents stay in step with
    the store, silence and staleness are cleared completely. *)

From S2P Require Import Prelude GoStrings Stateless Types ProbeMachine CheckMachine QuorumMachine.
From S2P Require Import Runtime StoreNotifications StoreMonitoring Results Ledger Heartbeat.
From S2P Require Import Sweepers.

(** * The store's side of the contract *)

Class SweeperLedgerLaws (W : Type) `{SweeperStore W} `{IncidentLedger W} : Prop := {
  sweeper_id_nonempty c : led_id (W := W) c -> c <> "";
  sweeper_active_id w c : led_inv w -> led_active w c = true -> led_id c;
  write_ledger wr w saved w' :
    led_inv w -> sound_write wr -> store_PersistMonitoringWrite wr w = (inr saved, w') ->
    led_inv w' /\ led_active w' = led_active w /\
    forall c, led_active w c = true -> led_open w' c = incident_effect (led_open w) wr c;
  get_check_ledger c w res w' :
    led_inv w -> led_id (W := W) c -> store_GetCheckByID c w = (res, w') ->
    led_inv w' /\ led_active w' = led_active w /\ led_open w' = led_open w /\
    match res with
    | inr (Some d) => ck_ID d = c
    | inr None => led_active w c = false
    | inl _ => True
    end
}.

Section step.
Context `{SL : Stateless} `{SS : SweeperStore W}.

(** Restoring the one child and the state a step changed. *)
Lemma restore_quorum checkID probeID op r q c res q' :
  rt_quorums r !! checkID = Some q -> qm_checks q !! probeID = Some c ->
  route probeID op q = (res, q') ->
  set_quorum checkID (MkQuorumMachine (qm_state q) (<[probeID := c]> (qm_checks q')))
    (set_quorum checkID q' r) = r.
Proof.
  intros Hq Hc Hr.
  assert (Hm : MkQuorumMachine (qm_state q) (<[probeID := c]> (qm_checks q')) = q).
  { destruct q as [st cs]. f_equal. simpl in *. apply map_eq. intros p.
    destruct (decide (p = probeID)) as [->|Hp]; [by rewrite lookup_insert_eq|].
    rewrite lookup_insert_ne by done. by apply (route_checks _ _ _ _ _ Hr). }
  rewrite Hm. unfold set_quorum. simpl. rewrite insert_insert_eq, insert_id by done. by destruct r.
Qed.

(** A failing transition leaves the machines as they were. *)
Lemma lose_error_same probeID q e q' c :
  qm_checks q !! probeID = Some c ->
  QuorumMachine.LoseEvidence probeID q = (inl e, q') -> q' = q.
Proof.
  intros Hc. unfold QuorumMachine.LoseEvidence, route. rewrite Hc.
  unfold CheckMachine.LoseEvidence, mbind, St_bind, CheckMachine.fire.
  destruct (sm_Fire _ _ _) as [e'|st]; simpl.
  - intros [= _ <-]. unfold set_checks. rewrite insert_id by done. by destruct q.
  - by destruct (Recompute _).
Qed.

Lemma sweepCheck_error_restores sweptAt checkID probeID r w e r' w' :
  sweepCheck sweptAt checkID probeID (r, w) = (inl e, (r', w')) -> r' = r.
Proof.
  unfold sweepCheck. destruct (rt_quorums r !! checkID) as [q|] eqn:Hq; [|by intros [= _ <- _]].
  destruct (qm_checks q !! probeID) as [c|] eqn:Hc; [|by intros [= _ <- _]].
  destruct (negb _); [done|].
  destruct (QuorumMachine.LoseEvidence probeID q) as [[e0|update] q'] eqn:Hl.
  { apply (lose_error_same _ _ _ _ _ Hc) in Hl as ->. intros [= _ <- _].
    unfold set_quorum. rewrite insert_id by done. by destruct r. }
  rewrite (restore_quorum _ _ _ _ _ _ _ _ Hq Hc Hl).
  match goal with |- (let '(_, _) := ?p in _) = _ -> _ => destruct p as [[e1|wr] w1] end;
    [by intros [= _ <- _]|].
  destruct (store_PersistMonitoringWrite wr w1) as [[e1|x] w2]; by intros [= _ <- _].
Qed.
End step.

(** A sweep step that fails is undone.  Whatever the state and whichever call
    fails, the state machine, the lookup of the check or the store's write, the
    step of [SweepChecks] that reports the error leaves the runtime as it found
    it, so no evidence is dropped that the store still holds. *)
Lemma sweep_check_error_restores `{SL : Stateless} `{SS : SweeperStore W}
    sweptAt checkID probeID r (w : W) e r' w' :
  sweepCheck sweptAt checkID probeID (r, w) = (inl e, (r', w')) -> r' = r.
Proof. apply sweepCheck_error_restores. Qed.

(** * Evidence sweeps *)

Section run.
Context `{SLL : StatelessLaws} `{SS : SweeperStore W}.

(** What expiring one piece of evidence does. *)
Lemma lose_run r checkID q probeID c :
  runtime_wf r -> rt_quorums r !! checkID = Some q -> qm_checks q !! probeID = Some c ->
  exists tr qt, let q' := child_effect probeID EvLose c q in
    QuorumMachine.LoseEvidence probeID q = (inr (MkCheckUpdate tr qt (qm_state q')), q') /\
    runtime_wf (set_quorum checkID q' r).
Proof.
  intros Hwf Hq Hc. destruct (runtime_wf_child _ _ _ _ _ Hwf Hq Hc) as (_ & _ & Hcw).
  destruct (route_event probeID EvLose q c Hc (check_wf_state_valid _ Hcw)) as (tr & Hr & _).
  eexists tr, _. split; [exact Hr|]. destruct (runtime_wf_quorum _ _ _ Hwf Hq) as [Hqw Hqd].
  apply set_quorum_wf; [done|by apply child_effect_wf|]. simpl. rewrite dom_insert_L.
  apply elem_of_dom_2 in Hc. set_solver.
Qed.

(** A step that succeeds: nothing was stale, or the evidence is gone. *)
Definition swept (sweptAt : Time) (checkID probeID : string) (r r' : Runtime) (hit : bool) : Prop :=
  exists q c, rt_quorums r !! checkID = Some q /\ qm_checks q !! probeID = Some c /\
    hit = evidence_expired sweptAt c /\
    r' = if hit then set_quorum checkID (child_effect probeID EvLose c q) r else r.

Lemma sweepCheck_ok sweptAt checkID probeID r w hit r' w' :
  runtime_wf r -> sweepCheck sweptAt checkID probeID (r, w) = (inr hit, (r', w')) ->
  runtime_wf r' /\ swept sweptAt checkID probeID r r' hit.
Proof.
  intros Hwf. unfold sweepCheck. destruct (rt_quorums r !! checkID) as [q|] eqn:Hq; [|done].
  destruct (qm_checks q !! probeID) as [c|] eqn:Hc; [|done].
  destruct (evidence_expired sweptAt c) eqn:He; simpl.
  2: { intros [= <- <- _]. split; [done|]. exists q, c. by rewrite He. }
  destruct (lose_run _ _ _ _ _ Hwf Hq Hc) as (tr & qt & Hl & Hwf'). rewrite Hl.
  match goal with |- (let '(_, _) := ?p in _) = _ -> _ => destruct p as [[e1|wr] w1] end; [done|].
  destruct (store_PersistMonitoringWrite wr w1) as [[e1|x] w2]; [done|].
  intros [= <- <- _]. split; [done|]. exists q, c. by rewrite He.
Qed.

End run.

Section checks.
Context `{SLL : StatelessLaws} `{SweeperLedgerLaws W}.

Lemma runtime_open_set checkID q r c :
  runtime_open (set_quorum checkID q r) c =
  if decide (c = checkID) then cq_IncidentOpen (qm_state q) else runtime_open r c.
Proof.
  unfold runtime_open, set_quorum. simpl. case_decide as E.
  - subst c. by rewrite lookup_insert_eq.
  - by rewrite lookup_insert_ne.
Qed.

(** One recompute moves the flag by the stable states it compares. *)
Lemma child_effect_flag probeID ev c q :
  cq_IncidentOpen (qm_state (child_effect probeID ev c q)) =
  incident_after (qm_state q) (cq_LastStableState (qm_state (child_effect probeID ev c q))).
Proof. reflexivity. Qed.

Lemma set_quorum_keys checkID q r :
  led_id (W := W) checkID -> keys_ok (W := W) r -> keys_ok (W := W) (set_quorum checkID q r).
Proof.
  intros Hid Hk c Hc. simpl in Hc. apply lookup_insert_is_Some in Hc as [<-|[_ Hc]]; auto.
Qed.

(** The write a step decides on, after it looked the check up if it had to. *)
Lemma sweep_write checkID probeID q q' child w wr w1 :
  led_inv w -> led_id (W := W) checkID -> check_wf child ->
  (if cq_LastStableState (qm_state q) != cq_LastStableState (qm_state q')
   then match store_GetCheckByID checkID w with
        | (inl e, w1) => (inl e, w1)
        | (inr None, w1) => (inr (stateWrite checkID probeID child), w1)
        | (inr (Some checkDef), w1) =>
            (monitoringWriteForCheckEvent checkDef q' (qm_state q) (qm_state q')
               (stateWrite checkID probeID child), w1)
        end
   else (inr (stateWrite checkID probeID child), w)) = (inr wr, w1) ->
  cq_IncidentOpen (qm_state q') = incident_after (qm_state q) (cq_LastStableState (qm_state q')) ->
  (led_active w checkID = true -> led_open w checkID = cq_IncidentOpen (qm_state q)) ->
  led_inv w1 /\ led_active w1 = led_active w /\ led_open w1 = led_open w /\
  Forall csw_wf (mw_CheckStateWrites wr) /\
  (mw_IncidentCheckID wr = "" \/ mw_IncidentCheckID wr = checkID) /\
  (led_active w checkID = true ->
     incident_effect (led_open w) wr checkID = cq_IncidentOpen (qm_state q')).
Proof.
  intros Hinv Hid Hchild Hp Hflag Hopen. pose proof (state_write_wf checkID probeID child Hchild) as Hrow.
  assert (Hne : checkID <> "") by (by eapply sweeper_id_nonempty).
  assert (Hplain : forall open, incident_effect open (stateWrite checkID probeID child) checkID = open checkID).
  { intros open. eapply (incident_effect_other _ _ _ ""); [by left|done|done]. }
  case_bool_decide as Hst; simpl in Hp.
  { injection Hp as <- <-. split_and!; [done..|by left|]. intros Ha.
    rewrite Hplain, Hflag, <-Hst, incident_after_same. by apply Hopen. }
  destruct (store_GetCheckByID checkID w) as [res w2] eqn:Hget.
  destruct (get_check_ledger _ _ _ _ Hinv Hid Hget) as (Hinv2 & Hact2 & Hop2 & Hres).
  destruct res as [e|[d|]]; [done| |].
  - injection Hp as Hev <-. subst checkID. split_and!; [done|done|done| | |].
    + by destruct (event_write_names _ _ _ _ _ _ _ _ Hev) as [_ ->].
    + by destruct (event_write_names _ _ _ _ _ _ _ _ Hev) as [? _].
    + intros Ha. rewrite Hflag. eapply event_write_effect; [exact Hev|by apply Hopen|done].
  - injection Hp as <- <-. split_and!; [done..|by left|]. by rewrite Hres.
Qed.

(** The write of a step carries the incident its recompute opened or closed. *)
Lemma sweepCheck_synced sweptAt checkID probeID r w hit r' w' :
  synced r w -> sweepCheck sweptAt checkID probeID (r, w) = (inr hit, (r', w')) -> synced r' w'.
Proof.
  intros (Hwf & Hinv & Hkeys & Hag). unfold sweepCheck.
  destruct (rt_quorums r !! checkID) as [q|] eqn:Hq; [|done].
  destruct (qm_checks q !! probeID) as [c|] eqn:Hc; [|done].
  destruct (negb _); [by intros [= _ <- <-]|].
  assert (Hid : led_id (W := W) checkID) by (apply Hkeys; by rewrite Hq).
  assert (Hne : checkID <> "") by (by eapply sweeper_id_nonempty).
  destruct (lose_run _ _ _ _ _ Hwf Hq Hc) as (tr & qt & Hl & Hwf'). rewrite Hl. simpl cu_Quorum.
  set (q' := child_effect probeID EvLose c q) in *.
  assert (Hcw : check_wf (default c (qm_checks q' !! probeID))).
  { unfold q', child_effect. cbn [qm_checks set_state set_checks]. rewrite lookup_insert_eq.
    apply (event_effect_wf EvLose c). by destruct (runtime_wf_child _ _ _ _ _ Hwf Hq Hc) as (_ & _ & ?). }
  assert (Hopen : runtime_open r checkID = cq_IncidentOpen (qm_state q))
    by (unfold runtime_open; by rewrite Hq).
  match goal with |- (let '(_, _) := ?p in _) = _ -> _ => destruct p as [[e1|wr] w1] eqn:Hp end; [done|].
  destruct (sweep_write checkID probeID q q' _ w wr w1 Hinv Hid Hcw Hp)
    as (Hinv1 & Hact1 & Hop1 & Hrows & Hname & Heff); [reflexivity| |].
  { intros Ha. by rewrite <-Hopen, Hag. }
  destruct (store_PersistMonitoringWrite wr w1) as [[e1|x] w2] eqn:Hst; [done|].
  intros [= _ <- <-].
  destruct (write_ledger wr w1 x w2 Hinv1) as (Hinv2 & Hact2 & Hop2); [|done|].
  { split; [|done]. destruct Hname as [|Hname]; [by left|right; by rewrite Hname]. }
  split_and!; [done|done|by apply set_quorum_keys|].
  intros c' Hc'. rewrite Hact2, Hact1 in Hc'. rewrite runtime_open_set, Hop2 by (by rewrite Hact1).
  rewrite Hop1. destruct (decide (c' = checkID)) as [->|E]; [by rewrite Heff|].
  rewrite (incident_effect_other _ _ _ _ Hname); [by apply Hag| |done].
  by apply sweeper_id_nonempty, (sweeper_active_id w).
Qed.

(** Evidence sweeps keep runtime and database in agreement.  If they agree on
    the incidents of the active checks, and whatever other goroutines do between
    the steps keeps that agreement, then a [SweepChecks] that reports no error
    leaves them in agreement: an incident that expiring evidence opens or closes
    in the runtime is opened or closed in the database by the same step. *)
Lemma sweep_checks_keeps_agreement between now r w n r' w' :
  (forall a r w, synced r w -> synced (between a (r, w)).1 (between a (r, w)).2) ->
  synced r w ->
  SweepChecks between now (Some r) (Some w) = ((n, None), (Some r', Some w')) ->
  synced r' w'.
Proof.
  intros Hbet Hs. unfold SweepChecks.
  generalize (merge_sort assignment_le (stale_assignments (UTC now) r)) as l.
  generalize 0%Z as k. intros k l. revert k r w Hs.
  induction l as [|[c p] l IH]; intros k r w Hs; simpl; [by intros [= _ <- <-]|].
  specialize (Hbet (c, p) r w Hs). destruct (between (c, p) (r, w)) as [r1 w1]. simpl in Hbet.
  destruct (sweepCheck (UTC now) c p (r1, w1)) as [[e|hit] [r2 w2]] eqn:Hstep; [done|].
  apply IH. exact (sweepCheck_synced _ _ _ _ _ _ _ _ Hbet Hstep).
Qed.
End checks.

(** * Completeness of the evidence sweep *)

Lemma NoDup_flat_map_keys {A B K} (f : A -> list B) (kA : A -> K) (kB : B -> K) (l : list A) :
  NoDup (kA <$> l) -> (forall a b, a ∈ l -> b ∈ f a -> kB b = kA a) -> (forall a, a ∈ l -> NoDup (f a)) ->
  NoDup (flat_map f l).
Proof.
  induction l as [|a l IH]; intros Hk Hf Hn; simpl; [constructor|].
  rewrite fmap_cons in Hk. apply list.NoDup_cons in Hk as [Hni Hk]. apply list.NoDup_app. split_and!.
  - apply Hn. left.
  - intros b Hb Hb'. apply list_elem_of_In, in_flat_map in Hb' as (a' & Ha' & Hb').
    apply list_elem_of_In in Ha', Hb'. apply Hni, list_elem_of_fmap. exists a'. split; [|done].
    rewrite <-(Hf a b), <-(Hf a' b); [done|by right|done|by left|done].
  - apply IH; [done|..]; intros; [eapply Hf|eapply Hn]; try done; by right.
Qed.

Lemma elem_of_stale sweptAt r c p :
  (c, p) ∈ stale_assignments sweptAt r <->
  exists q ch, rt_quorums r !! c = Some q /\ qm_checks q !! p = Some ch /\
    evidence_expired sweptAt ch = true.
Proof.
  unfold stale_assignments. rewrite list_elem_of_In, in_flat_map. split.
  - intros ([c' q] & Hq & Hin). apply in_map_iff in Hin as ([p' ch] & [= -> ->] & Hin).
    apply filter_In in Hin as [Hin He]. apply list_elem_of_In, elem_of_map_to_list in Hq, Hin. eauto.
  - intros (q & ch & Hq & Hc & He). exists (c, q).
    split; [by apply list_elem_of_In, elem_of_map_to_list|]. apply in_map_iff. exists (p, ch).
    split; [done|]. apply filter_In. split; [by apply list_elem_of_In, elem_of_map_to_list|done].
Qed.

Lemma NoDup_stale sweptAt r : NoDup (stale_assignments sweptAt r).
Proof.
  apply (NoDup_flat_map_keys _ fst fst).
  - apply NoDup_fst_map_to_list.
  - intros [c q] [c' p] _ Hin. apply list_elem_of_In, in_map_iff in Hin as (pc & [= <- _] & _). done.
  - intros [c q] _. simpl.
    set (l := List.filter _ _).
    assert (Hl : map (fun pc : string * CheckExecState => (c, pc.1)) l = (fun p => (c, p)) <$> l.*1)
      by (induction l as [|[k ch] l' IH]; simpl; [done|by f_equal]).
    rewrite Hl. apply NoDup_fmap_2; [by intros ? ? [= ->]|].
    apply NoDup_fst_filter, NoDup_fst_map_to_list.
Qed.

(** The children of every check after the assignments of [l] lost their evidence. *)
Definition after_sweep (l : list (string * string)) (r r' : Runtime) : Prop :=
  rt_probes r' = rt_probes r /\ dom (rt_quorums r') = dom (rt_quorums r) /\
  forall c q, rt_quorums r !! c = Some q -> exists q', rt_quorums r' !! c = Some q' /\
    forall p, qm_checks q' !! p =
      (fun ch => if bool_decide ((c, p) ∈ l) then event_effect EvLose ch else ch) <$> qm_checks q !! p.

Lemma after_sweep_nil r : after_sweep [] r r.
Proof.
  split_and!; [done|done|]. intros c q Hq. exists q. split; [done|]. intros p.
  rewrite bool_decide_eq_false_2 by (apply not_elem_of_nil). by destruct (qm_checks q !! p).
Qed.

Lemma after_sweep_cons c p l q ch r r' :
  (c, p) ∉ l -> rt_quorums r !! c = Some q -> qm_checks q !! p = Some ch ->
  after_sweep l (set_quorum c (child_effect p EvLose ch q) r) r' -> after_sweep ((c, p) :: l) r r'.
Proof.
  intros Hni Hq Hc (Hp & Hd & Hrest). split_and!; [done| |].
  - rewrite Hd. simpl. rewrite dom_insert_L. apply elem_of_dom_2 in Hq. set_solver.
  - intros c' q0 Hq0. destruct (decide (c' = c)) as [->|Hne].
    + simplify_eq. destruct (Hrest c (child_effect p EvLose ch q)) as (q' & Hq' & Hch);
        [simpl; by rewrite lookup_insert_eq|].
      exists q'. split; [done|]. intros p'. rewrite Hch. simpl.
      destruct (decide (p' = p)) as [->|Hnp].
      * rewrite lookup_insert_eq, Hc. simpl. rewrite bool_decide_eq_false_2 by done.
        by rewrite bool_decide_eq_true_2 by (by left).
      * rewrite lookup_insert_ne by done. destruct (qm_checks q !! p'); [|done]. simpl. f_equal.
        rewrite (bool_decide_ext ((c, p') ∈ l) ((c, p') ∈ (c, p) :: l)); [done|].
        rewrite elem_of_cons. split; [by right|]. intros [[=]|]; done.
    + destruct (Hrest c' q0) as (q' & Hq' & Hch); [simpl; by rewrite lookup_insert_ne|].
      exists q'. split; [done|]. intros p'. rewrite Hch. destruct (qm_checks q0 !! p'); [|done]. simpl.
      f_equal. rewrite (bool_decide_ext ((c', p') ∈ l) ((c', p') ∈ (c, p) :: l)); [done|].
      rewrite elem_of_cons. split; [by right|]. intros [[=]|]; done.
Qed.

Section complete.
Context `{SLL : StatelessLaws} `{SS : SweeperStore W}.

(** The evidence the remaining steps will find is still there. *)
Definition pending (sweptAt : Time) (l : list (string * string)) (r : Runtime) : Prop :=
  forall c p, (c, p) ∈ l -> exists q ch, rt_quorums r !! c = Some q /\ qm_checks q !! p = Some ch /\
    evidence_expired sweptAt ch = true.

Lemma pending_step sweptAt c p l q ch r :
  (c, p) ∉ l -> rt_quorums r !! c = Some q -> qm_checks q !! p = Some ch ->
  pending sweptAt ((c, p) :: l) r -> pending sweptAt l (set_quorum c (child_effect p EvLose ch q) r).
Proof.
  intros Hni Hq Hc Hp c' p' Hin. destruct (Hp c' p') as (q0 & ch0 & Hq0 & Hc0 & He0); [by right|].
  destruct (decide (c' = c)) as [->|Hne].
  - simplify_eq. eexists _, ch0. simpl. rewrite lookup_insert_eq. split_and!; [done| |done].
    simpl. rewrite lookup_insert_ne; [done|]. by intros <-.
  - exists q0, ch0. simpl. by rewrite lookup_insert_ne.
Qed.

Lemma sweepChecks_effect sweptAt l : forall k r w n r' w',
  runtime_wf r -> NoDup l -> pending sweptAt l r ->
  sweepChecks (fun _ s => s) sweptAt l k (r, w) = ((n, None), (r', w')) ->
  runtime_wf r' /\ n = (k + Z.of_nat (length l))%Z /\ after_sweep l r r'.
Proof.
  induction l as [|[c p] l IH]; intros k r w n r' w' Hwf Hnd Hpend; cbn [sweepChecks fst snd].
  { intros [= <- <- _]. split_and!; [done|simpl; lia|apply after_sweep_nil]. }
  destruct (sweepCheck sweptAt c p (r, w)) as [[e|hit] [r1 w1]] eqn:Hstep; [done|].
  apply list.NoDup_cons in Hnd as [Hni Hnd].
  destruct (sweepCheck_ok _ _ _ _ _ _ _ _ Hwf Hstep) as (Hwf1 & q & ch & Hq & Hc & Hhit & Hr1).
  destruct (Hpend c p) as (q' & ch' & Hq' & Hc' & He); [left|]. simplify_eq. rewrite He in *.
  intros Hrun. apply IH in Hrun as (Hwf' & -> & Hafter); [|done|done|by eapply pending_step].
  split_and!; [done|rewrite length_cons; lia|by eapply after_sweep_cons].
Qed.

(** An evidence sweep is complete and exact.  A [SweepChecks] that runs alone
    and reports no error expired every piece of evidence whose deadline had
    passed and nothing else: the number it returns is the number of stale
    (check, probe) assignments, each of these is now without evidence, every other
    assignment and every probe is as it was, and no stale evidence is left. *)
Lemma sweep_checks_clears_stale now r w n r' w' :
  runtime_wf r ->
  SweepChecks (fun _ s => s) now (Some r) (Some w) = ((n, None), (Some r', Some w')) ->
  runtime_wf r' /\ n = Z.of_nat (length (stale_assignments now r)) /\
  rt_probes r' = rt_probes r /\ dom (rt_quorums r') = dom (rt_quorums r) /\
  (forall c q, rt_quorums r !! c = Some q -> exists q', rt_quorums r' !! c = Some q' /\
     forall p, qm_checks q' !! p =
       (fun ch => if evidence_expired now ch then event_effect EvLose ch else ch) <$> qm_checks q !! p) /\
  stale_assignments now r' = [].
Proof.
  intros Hwf. unfold SweepChecks, UTC.
  set (l := merge_sort assignment_le (stale_assignments now r)).
  assert (Hperm : l ≡ₚ stale_assignments now r) by apply merge_sort_Permutation.
  destruct (sweepChecks _ now l 0 (r, w)) as [[n0 e0] [r0 w0]] eqn:Hrun. intros [= -> -> -> ->].
  destruct (sweepChecks_effect now l 0 r w n r' w') as (Hwf' & Hn & Hpr & Hd & Hch); try done.
  { rewrite Hperm. apply NoDup_stale. }
  { intros c p Hin. rewrite Hperm in Hin. by apply elem_of_stale in Hin. }
  assert (Hexact : forall c q, rt_quorums r !! c = Some q -> exists q', rt_quorums r' !! c = Some q' /\
     forall p, qm_checks q' !! p =
       (fun ch => if evidence_expired now ch then event_effect EvLose ch else ch) <$> qm_checks q !! p).
  { intros c q Hq. destruct (Hch c q Hq) as (q' & Hq' & Hp). exists q'. split; [done|]. intros p.
    rewrite Hp. destruct (qm_checks q !! p) as [ch|] eqn:Hc; [|done]. simpl.
    assert (E : bool_decide ((c, p) ∈ l) = evidence_expired now ch); [|by rewrite E].
    apply Bool.eq_true_iff_eq. rewrite bool_decide_eq_true, Hperm, elem_of_stale. split.
    - intros (q0 & ch0 & ? & ? & ?). by simplify_eq.
    - eauto. }
  split_and!; [done|by rewrite Hn, Hperm|done|done|done|].
  destruct (stale_assignments now r') as [|[c p] l'] eqn:Hst; [done|]. exfalso.
  assert (Hin : (c, p) ∈ stale_assignments now r') by (rewrite Hst; left).
  apply elem_of_stale in Hin as (q' & ch' & Hq' & Hc' & He).
  assert (Hq : is_Some (rt_quorums r !! c)) by (apply elem_of_dom; rewrite <-Hd; by eapply elem_of_dom_2).
  destruct Hq as [q Hq]. destruct (Hexact c q Hq) as (q2 & Hq2 & Hp). simplify_eq.
  rewrite Hp in Hc'. destruct (qm_checks q !! p) as [ch|]; [|done]. simpl in Hc'.
  destruct (evidence_expired now ch) eqn:He0; injection Hc' as <-; [|congruence].
  unfold evidence_expired in He. simpl in He. done.
Qed.
End complete.

(** * Probe sweeps *)

(** Is the probe known and overdue? *)
Definition overdue (sweptAt : Time) (offlineAfter : Duration) (r : Runtime) (p : string) : bool :=
  match rt_probes r !! p with
  | Some st => heartbeat_expired sweptAt offlineAfter st
  | None => false
  end.

(** The runtime after the probes of a list were swept: overdue ones are offline
    and have no evidence in any check, everything else is as it was. *)
Definition after_probe_sweep (sweptAt : Time) (offlineAfter : Duration) (l : list string)
    (r r' : Runtime) : Prop :=
  (forall p, rt_probes r' !! p =
     (fun st => if bool_decide (p ∈ l) && heartbeat_expired sweptAt offlineAfter st
                then ProbeMachine.set_State ProbeStateOffline st else st) <$> rt_probes r !! p) /\
  dom (rt_quorums r') = dom (rt_quorums r) /\
  (forall c q, rt_quorums r !! c = Some q -> exists q', rt_quorums r' !! c = Some q' /\
     forall p, qm_checks q' !! p =
       (fun ch => if bool_decide (p ∈ l) && overdue sweptAt offlineAfter r p
                  then event_effect EvLose ch else ch) <$> qm_checks q !! p).

Section probes.
Context `{SLL : StatelessLaws}.

Lemma sweepProbe_run order sweptAt offlineAfter probeID r st :
  runtime_wf r -> range_of (rt_quorums r) order -> rt_probes r !! probeID = Some st ->
  let hit := heartbeat_expired sweptAt offlineAfter st in
  let r' := if hit
            then MkRuntime (<[probeID := ProbeMachine.set_State ProbeStateOffline st]> (rt_probes r))
                   (degrade_quorum probeID EvLose <$> rt_quorums r)
            else r in
  sweepProbe order sweptAt offlineAfter probeID r = (inr hit, r') /\ runtime_wf r'.
Proof.
  intros Hwf Hord Hp. cbv zeta. unfold sweepProbe. rewrite Hp.
  destruct (heartbeat_expired sweptAt offlineAfter st); simpl; [|done].
  pose proof Hwf as (Hps & _ & _). destruct (Hps _ _ Hp) as (Hne & Hid & Hpw).
  assert (Hcall : ProbeMachine.ExpireHeartbeat st =
    (inr (MkProbeTransition (pr_State st) ProbeStateOffline ProbeTriggerHeartbeatExpired
            (pr_State st == ProbeStateOffline)), ProbeMachine.set_State ProbeStateOffline st))
    by (by rewrite ExpireHeartbeat_valid by apply Hpw).
  set (st' := ProbeMachine.set_State ProbeStateOffline st) in *.
  assert (Hwf1 : runtime_wf (set_probe probeID st' r)).
  { eapply (on_probe_wf r probeID EvExpire); [done|]. unfold on_probe. rewrite Hp. simpl.
    by rewrite Hcall. }
  destruct (applyProbeDegradationLocked_all order probeID ProbeStateOffline "" EvLose
              (set_probe probeID st' r) Hwf1 Hord eq_refl) as [Hdeg Hwf2].
  by rewrite Hcall, Hdeg.
Qed.

Lemma degrade_checks probeID ev q p :
  qm_checks (degrade_quorum probeID ev q) !! p =
  (fun ch => if decide (p = probeID) then event_effect ev ch else ch) <$> qm_checks q !! p.
Proof.
  unfold degrade_quorum. destruct (qm_checks q !! probeID) as [c|] eqn:Hc.
  - simpl. case_decide as E.
    + subst p. by rewrite lookup_insert_eq, Hc.
    + rewrite lookup_insert_ne by done. by destruct (qm_checks q !! p).
  - case_decide as E; [subst p; by rewrite Hc|]. by destruct (qm_checks q !! p).
Qed.

Lemma after_probe_sweep_cons sweptAt after p l r r1 r' st :
  p ∉ l -> rt_probes r !! p = Some st ->
  r1 = (if heartbeat_expired sweptAt after st
        then MkRuntime (<[p := ProbeMachine.set_State ProbeStateOffline st]> (rt_probes r))
               (degrade_quorum p EvLose <$> rt_quorums r)
        else r) ->
  after_probe_sweep sweptAt after l r1 r' -> after_probe_sweep sweptAt after (p :: l) r r'.
Proof.
  intros Hni Hp Hr1 (Hps & Hd & Hch).
  assert (Hmem : forall x, x <> p -> bool_decide (x ∈ l) = bool_decide (x ∈ p :: l)).
  { intros x Hx. apply bool_decide_ext. rewrite elem_of_cons. split; [by right|]. by intros [?|?]. }
  assert (Hself : bool_decide (p ∈ l) = false) by (by apply bool_decide_eq_false_2).
  assert (Hself' : bool_decide (p ∈ p :: l) = true) by (apply bool_decide_eq_true_2; left).
  assert (Hpr1 : forall x, x <> p -> rt_probes r1 !! x = rt_probes r !! x).
  { intros x Hx. subst r1. case_match; [simpl; by rewrite lookup_insert_ne|done]. }
  split_and!.
  - intros x. rewrite Hps. destruct (decide (x = p)) as [->|Hx].
    + rewrite Hself, Hself', Hp. simpl. subst r1. case_match; simpl; [by rewrite lookup_insert_eq|].
      by rewrite Hp.
    + by rewrite Hpr1, Hmem.
  - rewrite Hd. subst r1. case_match; [simpl; apply dom_fmap_L|done].
  - intros c q Hq.
    assert (Hq1 : exists q1, rt_quorums r1 !! c = Some q1 /\ forall x, qm_checks q1 !! x =
      (fun ch => if decide (x = p) then (if heartbeat_expired sweptAt after st then event_effect EvLose ch
                                         else ch) else ch) <$> qm_checks q !! x).
    { subst r1. case_match; simpl.
      - rewrite lookup_fmap, Hq. eexists. split; [done|]. intros x. apply degrade_checks.
      - exists q. split; [done|]. intros x. destruct (qm_checks q !! x); simpl; [|done].
        destruct (decide (x = p)); [|done]. done. }
    destruct Hq1 as (q1 & Hq1 & Hx1). destruct (Hch c q1 Hq1) as (q' & Hq' & Hx').
    exists q'. split; [done|]. intros x. rewrite Hx', Hx1.
    destruct (qm_checks q !! x) as [ch|]; [|done]. simpl. f_equal. unfold overdue.
    destruct (decide (x = p)) as [->|Hx]; [by rewrite Hself, Hself', Hp|]. by rewrite Hpr1, Hmem.
Qed.

Lemma after_probe_sweep_nil sweptAt after r : after_probe_sweep sweptAt after [] r r.
Proof.
  assert (Hn : forall p : string, bool_decide (p ∈ []) = false)
    by (intros p; apply bool_decide_eq_false_2, not_elem_of_nil).
  split_and!; [|done|].
  - intros p. rewrite Hn. by destruct (rt_probes r !! p).
  - intros c q Hq. exists q. split; [done|]. intros p. rewrite Hn. by destruct (qm_checks q !! p).
Qed.

Lemma sweepProbes_effect range_order sweptAt after l : forall k r,
  runtime_wf r -> (forall p m, range_of m (range_order p m)) -> NoDup l ->
  (forall p, p ∈ l -> is_Some (rt_probes r !! p)) ->
  exists r', sweepProbes (fun _ r => r) range_order sweptAt after l k r =
    ((k + Z.of_nat (length (List.filter (overdue sweptAt after r) l)), None)%Z, r') /\
    runtime_wf r' /\ after_probe_sweep sweptAt after l r r'.
Proof.
  induction l as [|p l IH]; intros k r Hwf Hord Hnd Hin; simpl.
  { exists r. split_and!; [f_equal; f_equal; lia|done|apply after_probe_sweep_nil]. }
  apply list.NoDup_cons in Hnd as [Hni Hnd]. destruct (Hin p) as [st Hst]; [left|].
  destruct (sweepProbe_run (range_order p (rt_quorums r)) sweptAt after p r st Hwf (Hord _ _) Hst)
    as [Hrun Hwf1]. rewrite Hrun.
  match type of Hwf1 with runtime_wf ?x => remember x as r1 eqn:Hr1 end.
  assert (Hpr1 : forall x, x <> p -> rt_probes r1 !! x = rt_probes r !! x).
  { intros x Hx. subst r1. case_match; [simpl; by rewrite lookup_insert_ne|done]. }
  destruct (IH (if heartbeat_expired sweptAt after st then k + 1 else k)%Z r1 Hwf1 Hord Hnd)
    as (r' & Hr' & Hwf' & Hafter).
  { intros x Hx. rewrite Hpr1; [apply Hin; by right|]. by intros ->. }
  exists r'. split_and!; [|done|by eapply after_probe_sweep_cons].
  rewrite Hr'.
  assert (Hf : List.filter (overdue sweptAt after r1) l = List.filter (overdue sweptAt after r) l).
  { apply filter_ext_in. intros x Hx. unfold overdue. rewrite Hpr1; [done|].
    intros ->. by apply Hni, list_elem_of_In. }
  rewrite Hf. unfold overdue at 2. rewrite Hst.
  destruct (heartbeat_expired sweptAt after st); simpl; f_equal; f_equal; lia.
Qed.

Lemma sorted_keys_perm {A} (m : gmap string A) : sorted_keys m ≡ₚ (map_to_list m).*1.
Proof. apply merge_sort_Permutation. Qed.

(** C13. A probe sweep succeeds and is exact.  On a well-formed runtime, for every
    order Go may range over the maps, a [SweepProbes] that runs alone reports no
    error; every probe whose last heartbeat is at least [offlineAfter] old is now
    offline with no evidence left in any check, every other probe and its
    evidence is as it was, and the number returned is the number of probes that
    were overdue. *)
Theorem sweep_probes_exact `{SS : SweeperStore W} range_order now offlineAfter r (w : W) :
  runtime_wf r -> (forall p m, range_of m (range_order p m)) -> (0 < offlineAfter)%Z ->
  exists r', SweepProbes (fun _ r => r) range_order now offlineAfter (Some r) (Some w) =
    ((Z.of_nat (length (List.filter (overdue now offlineAfter r) (sorted_keys (rt_probes r)))), None),
     Some r') /\
    runtime_wf r' /\
    (forall p, rt_probes r' !! p =
       (fun st => if heartbeat_expired now offlineAfter st
                  then ProbeMachine.set_State ProbeStateOffline st else st) <$> rt_probes r !! p) /\
    dom (rt_quorums r') = dom (rt_quorums r) /\
    (forall c q, rt_quorums r !! c = Some q -> exists q', rt_quorums r' !! c = Some q' /\
       forall p, qm_checks q' !! p =
         (fun ch => if overdue now offlineAfter r p then event_effect EvLose ch else ch)
           <$> qm_checks q !! p).
Proof.
  intros Hwf Hord Hpos. unfold SweepProbes, UTC.
  destruct (Z.leb_spec offlineAfter 0); [lia|].
  assert (Hmem : forall p, p ∈ sorted_keys (rt_probes r) <-> is_Some (rt_probes r !! p)).
  { intros p. apply range_of_elem, sorted_keys_perm. }
  destruct (sweepProbes_effect range_order now offlineAfter (sorted_keys (rt_probes r)) 0 r Hwf Hord)
    as (r' & Hrun & Hwf' & Hps & Hd & Hch).
  { rewrite sorted_keys_perm. apply NoDup_fst_map_to_list. }
  { intros p. apply Hmem. }
  rewrite Hrun. exists r'. split_and!; [done|done| |done|].
  - intros p. rewrite Hps. destruct (rt_probes r !! p) eqn:Hp; [|done]. simpl. f_equal.
    rewrite bool_decide_eq_true_2; [done|]. apply Hmem. by rewrite Hp.
  - intros c q Hq. destruct (Hch c q Hq) as (q' & Hq' & Hx). exists q'. split; [done|]. intros p.
    rewrite Hx. destruct (qm_checks q !! p); [|done]. simpl. f_equal.
    destruct (overdue now offlineAfter r p) eqn:Ho; [|by rewrite andb_false_r].
    rewrite bool_decide_eq_true_2; [done|]. apply Hmem. unfold overdue in Ho. by case_match.
Qed.
End probes.
