(* ===== verification/Recovery.v ===== *)
(** internal/monitoring/recovery.go: the runtime is rebuilt at startup from the
    store's metadata and current-state rows.

    [probe_order] and [quorum_order] are the orders in which the function ranges
    over the probe map and, for each probe, over the quorum map. *)

From S2P Require Import Prelude GoStrings Stateless Types ProbeMachine CheckMachine QuorumMachine.
From S2P Require Import Runtime StoreNotifications StoreMonitoring Results.

Class RecoveryStore (W : Type) : Type := {
  store_ListAllChecks : St W (list Check);
  store_RecoverableProbeStates : St W (list PersistedProbeState);
  store_PersistedCheckStates : St W (list PersistedCheckState);
  store_OpenIncidentCheckIDs : St W (list string)
}.

Definition persistedCheckExecState (state : PersistedCheckState) : CheckExecState :=
  MkCheckExecState (pcs_CheckID state) (pcs_ProbeID state) (pcs_LastResultAt state)
    (pcs_LastOutcome state) (pcs_StreakLen state) (pcs_ExpiresAt state) (pcs_State state)
    (pcs_LastError state).

(** One persisted row: skipped unless both the check and the probe are known. *)
Definition restoreCheck (r : Runtime) (state : PersistedCheckState) : Runtime :=
  match rt_quorums r !! pcs_CheckID state with
  | None => r
  | Some quorum =>
      match rt_probes r !! pcs_ProbeID state with
      | None => r
      | Some _ =>
          let quorum := (QuorumMachine.AddProbe (pcs_ProbeID state) quorum).2 in
          set_quorum (pcs_CheckID state)
            (set_checks (<[pcs_ProbeID state := persistedCheckExecState state]> (qm_checks quorum)) quorum) r
      end
  end.

Definition restoreProbe (r : Runtime) (probe : PersistedProbeState) : Runtime :=
  match rt_probes r !! pps_ProbeID probe, pps_LastSeenAt probe with
  | Some runtimeProbe, Some lastSeenAt =>
      set_probe (pps_ProbeID probe)
        (MkProbeRuntimeState (pr_ProbeID runtimeProbe) ProbeStateOnline (Some (UTC lastSeenAt)) "") r
  | _, _ => r
  end.

(** The state a quorum restarts from. *)
Definition restartQuorum (openIncidents : gset string) (checkID : string) (quorum : QuorumMachine)
    : QuorumMachine :=
  let state := newCheckQuorumState checkID in
  let state := if bool_decide (checkID ∈ openIncidents)
               then MkCheckQuorumState (cq_CheckID state) QuorumStateDown QuorumStateDown true
               else state in
  (Recompute (set_state state quorum)).2.

Section load.
Context `{SL : Stateless} `{RS : RecoveryStore W}.
Context (probe_order : gmap string ProbeRuntimeState -> list string)
        (quorum_order : string -> gmap string QuorumMachine -> list string).

Fixpoint degradeSilent (order : list string) : St Runtime unit := fun r =>
  match order with
  | [] => (inr tt, r)
  | probeID :: order =>
      match rt_probes r !! probeID with
      | None => degradeSilent order r
      | Some probe =>
          if bool_decide (is_Some (pr_LastHeartbeatAt probe)) then degradeSilent order r
          else match applyProbeDegradationLocked (quorum_order probeID (rt_quorums r)) probeID
                       ProbeStateOffline "" r with
               | (inl e, r') => (inl e, r')
               | (inr _, r') => degradeSilent order r'
               end
      end
  end.

(** Everything after the four reads. *)
Definition buildRuntime (checks : list Check) (probes : list PersistedProbeState)
    (checkStates : list PersistedCheckState) (openIncidentCheckIDs : list string)
    : GoError + Runtime :=
  let r := NewRuntime (ck_ID <$> checks) (pps_ProbeID <$> probes) in
  let r := fold_left restoreCheck checkStates r in
  let r := fold_left restoreProbe probes r in
  match degradeSilent (probe_order (rt_probes r)) r with
  | (inl e, _) => inl e
  | (inr _, r) =>
      inr (MkRuntime (rt_probes r)
             (map_imap (fun checkID quorum =>
                Some (restartQuorum (list_to_set openIncidentCheckIDs) checkID quorum)) (rt_quorums r)))
  end.

Definition wrapped {A} (prefix : string) (m : St W A) : St W A := fun w =>
  match m w with
  | (inl e, w') => (inl (Wrapf prefix e), w')
  | (inr a, w') => (inr a, w')
  end.

Definition LoadRuntime : St W Runtime :=
  checks ← wrapped "list checks" store_ListAllChecks;
  probes ← wrapped "list active probes" store_RecoverableProbeStates;
  checkStates ← wrapped "list persisted check states" store_PersistedCheckStates;
  openIncidentCheckIDs ← wrapped "list open incidents" store_OpenIncidentCheckIDs;
  st_lift (buildRuntime checks probes checkStates openIncidentCheckIDs).
End load.

(** * What is rebuilt *)

(** The state of one (check, probe) assignment. *)
Definition child (r : Runtime) (c p : string) : option CheckExecState :=
  match rt_quorums r !! c with Some q => qm_checks q !! p | None => None end.

(** A row that some well-formed machine was stored as. *)
Definition row_ok (s : PersistedCheckState) : Prop := check_wf (persistedCheckExecState s).

Definition key_of (s : PersistedCheckState) : string * string := (pcs_CheckID s, pcs_ProbeID s).

(** ** A new runtime *)

Lemma new_quorums ids : forall (qs : gmap string QuorumMachine) c,
  fold_left (fun qs c => <[c := NewQuorumMachine c []]> qs) ids qs !! c =
  if bool_decide (c ∈ ids) then Some (NewQuorumMachine c []) else qs !! c.
Proof.
  induction ids as [|i ids IH]; intros qs c; simpl.
  { done. }
  rewrite IH. destruct (decide (c = i)) as [->|Hne].
  - rewrite lookup_insert_eq. rewrite (bool_decide_eq_true_2 (i ∈ i :: ids)) by left.
    by case_bool_decide.
  - rewrite lookup_insert_ne by done.
    rewrite (bool_decide_ext (c ∈ i :: ids) (c ∈ ids)); [done|].
    rewrite elem_of_cons. split; [by intros [?|?]|by right].
Qed.

Lemma add_probes ids : forall r, (forall p, p ∈ ids -> p <> "") ->
  let r' := fold_left (fun r p => (addProbeLocked p r).2) ids r in
  rt_quorums r' = rt_quorums r /\
  forall p, rt_probes r' !! p =
    match rt_probes r !! p with
    | Some st => Some st
    | None => if bool_decide (p ∈ ids) then Some (NewProbeMachine p) else None
    end.
Proof.
  induction ids as [|i ids IH]; intros r Hne; simpl.
  { split; [done|]. intros p. by destruct (rt_probes r !! p). }
  destruct (IH (addProbeLocked i r).2) as [Hq Hp]; [intros p Hp; apply Hne; by right|].
  assert (Hi : i <> "") by (apply Hne; left).
  unfold addProbeLocked in *. rewrite (bool_decide_eq_false_2 (i = "")) in * by done.
  assert (Hmem : forall p, p <> i -> bool_decide (p ∈ i :: ids) = bool_decide (p ∈ ids)).
  { intros p Hpi. apply bool_decide_ext. rewrite elem_of_cons. split; [by intros [?|?]|by right]. }
  destruct (rt_probes r !! i) as [st|] eqn:Hst; simpl in *; (split; [done|]); intros p; rewrite Hp.
  - destruct (decide (p = i)) as [->|Hpi]; [by rewrite Hst|]. by rewrite Hmem.
  - destruct (decide (p = i)) as [->|Hpi].
    + rewrite lookup_insert_eq, Hst. by rewrite bool_decide_eq_true_2 by left.
    + rewrite lookup_insert_ne by done. by rewrite Hmem.
Qed.

Lemma NewRuntime_lookup checkIDs probeIDs :
  (forall c, rt_quorums (NewRuntime checkIDs probeIDs) !! c =
     if bool_decide (c ∈ checkIDs /\ c <> "") then Some (NewQuorumMachine c []) else None) /\
  (forall p, rt_probes (NewRuntime checkIDs probeIDs) !! p =
     if bool_decide (p ∈ probeIDs /\ p <> "") then Some (NewProbeMachine p) else None).
Proof.
  unfold NewRuntime. set (r0 := MkRuntime ∅ _).
  destruct (add_probes (uniqueIDs probeIDs) r0) as [Hq Hp].
  { intros p Hp. by apply elem_of_uniqueIDs in Hp as [_ ?]. }
  split.
  - intros c. rewrite Hq. unfold r0. simpl. rewrite new_quorums, lookup_empty.
    by rewrite (bool_decide_ext _ _ (elem_of_uniqueIDs c checkIDs)).
  - intros p. rewrite Hp. unfold r0. simpl. rewrite lookup_empty.
    by rewrite (bool_decide_ext _ _ (elem_of_uniqueIDs p probeIDs)).
Qed.

(** ** Persisted rows *)

Lemma restoreCheck_wf r s : runtime_wf r -> row_ok s -> runtime_wf (restoreCheck r s).
Proof.
  intros Hwf Hrow. unfold restoreCheck.
  destruct (rt_quorums r !! pcs_CheckID s) as [q|] eqn:Hq; [|done].
  destruct (rt_probes r !! pcs_ProbeID s) as [p|] eqn:Hp; [|done].
  destruct (runtime_wf_quorum _ _ _ Hwf Hq) as [Hqw Hqd].
  destruct (AddProbe_wf _ (pcs_ProbeID s) _ Hqw) as (Hid & Hst & Hch).
  apply set_quorum_wf; [done| |].
  - split_and!; [done|done|]. apply map_Forall_insert_2; [|done]. by split_and!.
  - simpl. rewrite dom_insert_L, AddProbe_dom. apply elem_of_dom_2 in Hp. set_solver.
Qed.

Lemma restoreCheck_known r s :
  rt_probes (restoreCheck r s) = rt_probes r /\
  forall c, is_Some (rt_quorums (restoreCheck r s) !! c) <-> is_Some (rt_quorums r !! c).
Proof.
  unfold restoreCheck. destruct (rt_quorums r !! pcs_CheckID s) as [q|] eqn:Hq; [|done].
  destruct (rt_probes r !! pcs_ProbeID s); [|done]. split; [done|]. intros c. simpl.
  rewrite lookup_insert_is_Some'. split; [|by right]. intros [<-|?]; [by rewrite Hq|done].
Qed.

(** A row is restored when its check and probe are known. *)
Definition known (r : Runtime) (k : string * string) : bool :=
  bool_decide (is_Some (rt_quorums r !! k.1)) && bool_decide (is_Some (rt_probes r !! k.2)).

Lemma restoreCheck_child r s c p :
  child (restoreCheck r s) c p =
  if bool_decide ((c, p) = key_of s) && known r (c, p) then Some (persistedCheckExecState s)
  else child r c p.
Proof.
  unfold restoreCheck, child, known, key_of. simpl.
  destruct (decide (c = pcs_CheckID s)) as [->|Hc].
  - destruct (rt_quorums r !! pcs_CheckID s) as [q|] eqn:Hq; simpl; [|by rewrite Hq, andb_false_r].
    destruct (decide (p = pcs_ProbeID s)) as [->|Hne].
    + rewrite (bool_decide_eq_true_2 (_ = _)) by done. simpl.
      destruct (rt_probes r !! pcs_ProbeID s) as [st|] eqn:Hp; simpl; [|by rewrite Hq].
      by rewrite lookup_insert_eq; simpl; rewrite lookup_insert_eq.
    + rewrite (bool_decide_eq_false_2 (_ = _)) by congruence. simpl.
      destruct (rt_probes r !! pcs_ProbeID s) as [st|]; simpl; [|by rewrite Hq].
      rewrite lookup_insert_eq. simpl. rewrite lookup_insert_ne by done. by apply AddProbe_checks.
  - rewrite (bool_decide_eq_false_2 (_ = _)) by congruence. simpl.
    destruct (rt_quorums r !! pcs_CheckID s); [|done].
    destruct (rt_probes r !! pcs_ProbeID s); [|done]. simpl. by rewrite lookup_insert_ne.
Qed.

(** All rows, when no two share their key. *)
Lemma restoreChecks rows : forall r,
  runtime_wf r -> Forall row_ok rows -> NoDup (key_of <$> rows) ->
  let r' := fold_left restoreCheck rows r in
  runtime_wf r' /\ rt_probes r' = rt_probes r /\
  (forall c, is_Some (rt_quorums r' !! c) <-> is_Some (rt_quorums r !! c)) /\
  (forall s, s ∈ rows -> known r (key_of s) = true ->
     child r' (pcs_CheckID s) (pcs_ProbeID s) = Some (persistedCheckExecState s)) /\
  (forall c p, (c, p) ∉ key_of <$> rows \/ known r (c, p) = false -> child r' c p = child r c p).
Proof.
  induction rows as [|s rows IH]; intros r Hwf Hok Hnd; cbn [fold_left].
  { split_and!; try done. intros s Hs. by apply not_elem_of_nil in Hs. }
  apply Forall_cons_1 in Hok as [Hs Hok]. rewrite fmap_cons in Hnd.
  apply list.NoDup_cons in Hnd as [Hni Hnd].
  destruct (IH (restoreCheck r s)) as (Hwf' & Hpr & Hq & Hin & Hout);
    [by apply restoreCheck_wf|done|done|].
  destruct (restoreCheck_known r s) as [Hpr0 Hq0].
  assert (Hkn : forall k, known (restoreCheck r s) k = known r k).
  { intros k. unfold known. rewrite Hpr0. f_equal. apply bool_decide_ext, Hq0. }
  split_and!; [done|congruence|intros c; by rewrite Hq, Hq0|..].
  - intros s' Hs' Hk. apply elem_of_cons in Hs' as [->|Hs'].
    + rewrite Hout by (by left). rewrite restoreCheck_child. fold (key_of s).
      rewrite Hk. by rewrite bool_decide_eq_true_2.
    + apply Hin; [done|by rewrite Hkn].
  - intros c p Hor. rewrite Hout.
    + rewrite restoreCheck_child. destruct Hor as [Hor|Hor]; [|by rewrite Hor, andb_false_r].
      rewrite bool_decide_eq_false_2; [done|]. intros E. apply Hor. rewrite fmap_cons, E. left.
    + rewrite Hkn. destruct Hor as [Hor|Hor]; [left|by right]. intros Hx. apply Hor.
      rewrite fmap_cons. by right.
Qed.

(** ** Probes *)

Lemma restoreProbe_wf r x : runtime_wf r -> runtime_wf (restoreProbe r x).
Proof.
  intros Hwf. unfold restoreProbe. destruct (rt_probes r !! pps_ProbeID x) as [st|] eqn:Hst; [|done].
  destruct (pps_LastSeenAt x) as [t|]; [|done]. destruct Hwf as (Hp & Hq & Hd).
  destruct (Hp _ _ Hst) as (Hne & Hid & _). apply set_probe_wf; [done|].
  split_and!; [done|done|]. split; [by left|]. simpl. by eexists.
Qed.

Lemma restoreProbes probes : forall r,
  runtime_wf r -> NoDup (pps_ProbeID <$> probes) ->
  let r' := fold_left restoreProbe probes r in
  runtime_wf r' /\ rt_quorums r' = rt_quorums r /\
  (forall x st, x ∈ probes -> rt_probes r !! pps_ProbeID x = Some st ->
     rt_probes r' !! pps_ProbeID x = Some
       match pps_LastSeenAt x with
       | Some t => MkProbeRuntimeState (pr_ProbeID st) ProbeStateOnline (Some t) ""
       | None => st
       end) /\
  (forall p, p ∉ pps_ProbeID <$> probes \/ rt_probes r !! p = None -> rt_probes r' !! p = rt_probes r !! p).
Proof.
  induction probes as [|x probes IH]; intros r Hwf Hnd; cbn [fold_left].
  { split_and!; try done. intros x st Hx. by apply not_elem_of_nil in Hx. }
  rewrite fmap_cons in Hnd. apply list.NoDup_cons in Hnd as [Hni Hnd].
  destruct (IH (restoreProbe r x) (restoreProbe_wf r x Hwf) Hnd) as (Hwf' & Hq & Hin & Hout).
  assert (Hx : rt_quorums (restoreProbe r x) = rt_quorums r /\
    (forall p, p <> pps_ProbeID x -> rt_probes (restoreProbe r x) !! p = rt_probes r !! p) /\
    (forall st, rt_probes r !! pps_ProbeID x = Some st ->
       rt_probes (restoreProbe r x) !! pps_ProbeID x = Some
         match pps_LastSeenAt x with
         | Some t => MkProbeRuntimeState (pr_ProbeID st) ProbeStateOnline (Some t) ""
         | None => st
         end) /\
    (rt_probes r !! pps_ProbeID x = None -> rt_probes (restoreProbe r x) = rt_probes r)).
  { unfold restoreProbe. destruct (rt_probes r !! pps_ProbeID x) as [st|] eqn:Hst; [|by split_and!].
    destruct (pps_LastSeenAt x); split_and!; try done; simpl; intros; simplify_eq;
      by rewrite ?lookup_insert_ne, ?lookup_insert_eq by done. }
  destruct Hx as (Hxq & Hxo & Hxs & Hxn). split_and!; [done|congruence|..].
  - intros y st Hy Hst. apply elem_of_cons in Hy as [->|Hy]; [rewrite Hout by (by left); by apply Hxs|].
    assert (pps_ProbeID y <> pps_ProbeID x).
    { intros E. apply Hni. rewrite <-E. by apply list_elem_of_fmap_2. }
    apply Hin; [done|]. by rewrite Hxo.
  - intros p Hp. rewrite fmap_cons, not_elem_of_cons in Hp.
    destruct (decide (p = pps_ProbeID x)) as [->|Hne].
    + destruct Hp as [[? _]|Hp]; [done|]. rewrite Hout; rewrite Hxn by done; [done|by right].
    + rewrite Hout; rewrite Hxo by done; [done|]. destruct Hp as [[_ ?]|?]; auto.
Qed.

(** ** Silent probes *)

Section silent.
Context `{SLL : StatelessLaws}.

Definition silent (r : Runtime) (p : string) : bool :=
  match rt_probes r !! p with
  | Some st => bool_decide (pr_LastHeartbeatAt st = None)
  | None => false
  end.

Lemma degrade_child probeID ev r c p :
  child (MkRuntime (rt_probes r) (degrade_quorum probeID ev <$> rt_quorums r)) c p =
  (fun ch => if decide (p = probeID) then event_effect ev ch else ch) <$> child r c p.
Proof.
  unfold child. simpl. rewrite lookup_fmap. destruct (rt_quorums r !! c) as [q|]; [|done]. simpl.
  unfold degrade_quorum. destruct (qm_checks q !! probeID) as [ch|] eqn:Hc; simpl.
  - case_decide as E; [subst p; by rewrite lookup_insert_eq, Hc|].
    rewrite lookup_insert_ne by done. by destruct (qm_checks q !! p).
  - case_decide as E; [subst p; by rewrite Hc|]. by destruct (qm_checks q !! p).
Qed.

Lemma degradeSilent_run quorum_order order : forall r,
  runtime_wf r -> (forall p m, range_of m (quorum_order p m)) -> NoDup order ->
  exists r', degradeSilent quorum_order order r = (inr tt, r') /\ runtime_wf r' /\
    rt_probes r' = rt_probes r /\
    (forall c, is_Some (rt_quorums r' !! c) <-> is_Some (rt_quorums r !! c)) /\
    (forall c p, child r' c p =
       (fun ch => if bool_decide (p ∈ order) && silent r p then event_effect EvLose ch else ch)
         <$> child r c p).
Proof.
  induction order as [|i order IH]; intros r Hwf Hord Hnd; cbn [degradeSilent].
  { exists r. split_and!; try done. intros c p.
    rewrite bool_decide_eq_false_2 by apply not_elem_of_nil. by destruct (child r c p). }
  apply list.NoDup_cons in Hnd as [Hni Hnd].
  assert (Hskip : silent r i = false -> exists r', degradeSilent quorum_order order r = (inr tt, r') /\
    runtime_wf r' /\ rt_probes r' = rt_probes r /\
    (forall c, is_Some (rt_quorums r' !! c) <-> is_Some (rt_quorums r !! c)) /\
    (forall c p, child r' c p =
       (fun ch => if bool_decide (p ∈ i :: order) && silent r p then event_effect EvLose ch else ch)
         <$> child r c p)).
  { intros Hs. destruct (IH r Hwf Hord Hnd) as (r' & ? & ? & ? & ? & Hc). exists r'. split_and!; try done.
    intros c p. rewrite Hc. destruct (child r c p); [|done]. simpl. f_equal.
    destruct (decide (p = i)) as [->|Hne]; [by rewrite Hs, !andb_false_r|].
    rewrite (bool_decide_ext (p ∈ i :: order) (p ∈ order)); [done|].
    rewrite elem_of_cons. split; [by intros [?|?]|by right]. }
  destruct (rt_probes r !! i) as [st|] eqn:Hst; [|apply Hskip; unfold silent; by rewrite Hst].
  case_bool_decide as Hhb.
  { apply Hskip. unfold silent. rewrite Hst. apply bool_decide_eq_false_2. intros E. rewrite E in Hhb.
    by destruct Hhb. }
  destruct (applyProbeDegradationLocked_all (quorum_order i (rt_quorums r)) i ProbeStateOffline "" EvLose r
              Hwf (Hord _ _) eq_refl) as [Hrun Hwf1]. rewrite Hrun.
  set (r1 := MkRuntime (rt_probes r) (degrade_quorum i EvLose <$> rt_quorums r)) in *.
  destruct (IH r1 Hwf1 Hord Hnd) as (r' & ? & ? & ? & Hq & Hc). exists r'. split_and!; try done.
  - intros c. rewrite Hq. simpl. by rewrite lookup_fmap, fmap_is_Some.
  - intros c p. rewrite Hc. unfold r1 at 2. rewrite degrade_child. destruct (child r c p); [|done].
    simpl. f_equal. change (silent r1 p) with (silent r p).
    destruct (decide (p = i)) as [->|Hne].
    + rewrite (bool_decide_eq_false_2 (i ∈ order)) by done.
      rewrite (bool_decide_eq_true_2 (i ∈ i :: order)) by left. simpl. unfold silent. rewrite Hst.
      rewrite bool_decide_eq_true_2; [done|]. by apply eq_None_not_Some.
    + rewrite (bool_decide_ext (p ∈ i :: order) (p ∈ order)); [done|].
      rewrite elem_of_cons. split; [by intros [?|?]|by right].
Qed.
End silent.

(** ** Quorums *)

(** The restarted state is well formed and keeps the incident flag. *)
Lemma restartQuorum_spec opens c q :
  map_Forall (child_wf c) (qm_checks q) ->
  quorum_wf c (restartQuorum opens c q) /\ qm_checks (restartQuorum opens c q) = qm_checks q /\
  cq_IncidentOpen (qm_state (restartQuorum opens c q)) = bool_decide (c ∈ opens).
Proof.
  intros Hch. unfold restartQuorum.
  set (st := if bool_decide (c ∈ opens) then _ else _).
  assert (Hst : quorum_state_wf st /\ cq_CheckID st = c).
  { unfold st. case_bool_decide; (split; [|done]); unfold quorum_state_wf; simpl; split_and!; auto; done. }
  destruct Hst as [Hst Hid]. split_and!.
  - apply Recompute_wf. by split_and!.
  - by rewrite Recompute_snd.
  - rewrite Recompute_snd. simpl. unfold st.
    destruct (promoted_cases st (voted_state (set_state st q))) as [Hp|(Hp & Hs & Hne & Hud)].
    + fold st. rewrite Hp, incident_after_same. unfold st. by case_bool_decide.
    + exfalso. destruct Hud as [E|E]; rewrite E in Hs, Hne; unfold st in Hs, Hne;
        case_bool_decide; simpl in *; enum_congruence.
Qed.

(** * The rebuilt runtime *)

Section build.
Context `{SLL : StatelessLaws}.
Context (probe_order : gmap string ProbeRuntimeState -> list string)
        (quorum_order : string -> gmap string QuorumMachine -> list string).
Hypothesis probe_order_ok : forall m, range_of m (probe_order m).
Hypothesis quorum_order_ok : forall p m, range_of m (quorum_order p m).

Lemma restart_all r opens :
  runtime_wf r ->
  let r' := MkRuntime (rt_probes r)
    (map_imap (fun c q => Some (restartQuorum opens c q)) (rt_quorums r)) in
  runtime_wf r' /\ (forall c, is_Some (rt_quorums r' !! c) <-> is_Some (rt_quorums r !! c)) /\
  (forall c p, child r' c p = child r c p) /\
  (forall c q, rt_quorums r' !! c = Some q -> cq_IncidentOpen (qm_state q) = bool_decide (c ∈ opens)).
Proof.
  intros Hwf r'.
  assert (Hq : forall c q', rt_quorums r' !! c = Some q' -> exists q, rt_quorums r !! c = Some q /\
    quorum_wf c q' /\ qm_checks q' = qm_checks q /\ cq_IncidentOpen (qm_state q') = bool_decide (c ∈ opens) /\
    dom (qm_checks q) ⊆ dom (rt_probes r)).
  { intros c q' Hl. simpl in Hl. rewrite map_lookup_imap in Hl.
    destruct (rt_quorums r !! c) as [q|] eqn:Hlq; [|done]. injection Hl as <-. exists q.
    destruct (runtime_wf_quorum _ _ _ Hwf Hlq) as [(_ & _ & Hch) Hd].
    destruct (restartQuorum_spec opens c q Hch) as (? & ? & ?). done. }
  split_and!.
  - destruct Hwf as (Hp & _ & _). split_and!; [exact Hp|..]; intros c q' Hl;
      destruct (Hq c q' Hl) as (q & _ & ? & Hc & _ & ?); [done|]. simpl. by rewrite Hc.
  - intros c. simpl. rewrite map_lookup_imap. by destruct (rt_quorums r !! c); split; intros [? ?].
  - intros c p. unfold child. destruct (rt_quorums r' !! c) as [q'|] eqn:Hl.
    + by destruct (Hq c q' Hl) as (q & -> & _ & -> & _).
    + simpl in Hl. rewrite map_lookup_imap in Hl. by destruct (rt_quorums r !! c).
  - intros c q' Hl. by destruct (Hq c q' Hl) as (q & _ & _ & _ & ? & _).
Qed.

(** ** The whole of [buildRuntime] *)

Definition recovered_probe (x : PersistedProbeState) : ProbeRuntimeState :=
  match pps_LastSeenAt x with
  | Some t => MkProbeRuntimeState (pps_ProbeID x) ProbeStateOnline (Some t) ""
  | None => NewProbeMachine (pps_ProbeID x)
  end.

Definition recovered_child (x : PersistedProbeState) (s : PersistedCheckState) : CheckExecState :=
  match pps_LastSeenAt x with
  | Some _ => persistedCheckExecState s
  | None => event_effect EvLose (persistedCheckExecState s)
  end.

(** What a rebuilt runtime must hold. *)
Record recovered (checks : list Check) (probes : list PersistedProbeState)
    (rows : list PersistedCheckState) (opens : list string) (r : Runtime) : Prop := {
  rec_wf : runtime_wf r;
  rec_checks c : is_Some (rt_quorums r !! c) <-> c ∈ ck_ID <$> checks /\ c <> "";
  rec_probe x : x ∈ probes -> pps_ProbeID x <> "" ->
    rt_probes r !! pps_ProbeID x = Some (recovered_probe x);
  rec_no_probe p : p ∉ pps_ProbeID <$> probes -> rt_probes r !! p = None;
  rec_flag c q : rt_quorums r !! c = Some q -> cq_IncidentOpen (qm_state q) = bool_decide (c ∈ opens);
  rec_child s x : s ∈ rows -> x ∈ probes -> pps_ProbeID x = pcs_ProbeID s ->
    pcs_CheckID s ∈ ck_ID <$> checks -> pcs_CheckID s <> "" -> pcs_ProbeID s <> "" ->
    child r (pcs_CheckID s) (pcs_ProbeID s) = Some (recovered_child x s);
  rec_no_child c p : (c, p) ∉ key_of <$> rows -> child r c p = None
}.

Lemma child_new checkIDs probeIDs c p : child (NewRuntime checkIDs probeIDs) c p = None.
Proof.
  unfold child. destruct (NewRuntime_lookup checkIDs probeIDs) as [-> _].
  by case_bool_decide; simpl; rewrite ?lookup_empty.
Qed.

(** After the reads and before silence is applied. *)
Lemma restored checks probes rows :
  Forall row_ok rows -> NoDup (key_of <$> rows) -> NoDup (pps_ProbeID <$> probes) ->
  let r := fold_left restoreProbe probes
             (fold_left restoreCheck rows (NewRuntime (ck_ID <$> checks) (pps_ProbeID <$> probes))) in
  runtime_wf r /\
  (forall c, is_Some (rt_quorums r !! c) <-> c ∈ ck_ID <$> checks /\ c <> "") /\
  (forall x, x ∈ probes -> pps_ProbeID x <> "" ->
     rt_probes r !! pps_ProbeID x = Some (recovered_probe x)) /\
  (forall p, p ∉ pps_ProbeID <$> probes -> rt_probes r !! p = None) /\
  (forall s, s ∈ rows -> pcs_CheckID s ∈ ck_ID <$> checks -> pcs_CheckID s <> "" ->
     pcs_ProbeID s ∈ pps_ProbeID <$> probes -> pcs_ProbeID s <> "" ->
     child r (pcs_CheckID s) (pcs_ProbeID s) = Some (persistedCheckExecState s)) /\
  (forall c p, (c, p) ∉ key_of <$> rows -> child r c p = None).
Proof.
  intros Hok Hnd Hndp r.
  set (r0 := NewRuntime (ck_ID <$> checks) (pps_ProbeID <$> probes)) in *.
  destruct (NewRuntime_lookup (ck_ID <$> checks) (pps_ProbeID <$> probes)) as [Hq0 Hp0]. fold r0 in Hq0, Hp0.
  assert (Hwf0 : runtime_wf r0) by apply NewRuntime_wf.
  destruct (restoreChecks rows r0 Hwf0 Hok Hnd) as (Hwf1 & Hp1 & Hq1 & Hin1 & Hout1).
  set (r1 := fold_left restoreCheck rows r0) in *.
  destruct (restoreProbes probes r1 Hwf1 Hndp) as (Hwf2 & Hq2 & Hin2 & Hout2). fold r in Hwf2, Hq2, Hin2, Hout2.
  assert (Hchild : forall c p, child r c p = child r1 c p) by (intros; unfold child; by rewrite Hq2).
  split_and!; [exact Hwf2|..].
  - intros c. rewrite Hq2, Hq1, Hq0. case_bool_decide; split; try done; by intros [? ?].
  - intros x Hx Hne. rewrite (Hin2 x (NewProbeMachine (pps_ProbeID x)) Hx); [done|].
    rewrite Hp1, Hp0, bool_decide_eq_true_2; [done|]. split; [by apply list_elem_of_fmap_2|done].
  - intros p Hp. rewrite Hout2 by (by left). rewrite Hp1, Hp0.
    by rewrite bool_decide_eq_false_2 by naive_solver.
  - intros s Hs Hc Hcne Hp Hpne. rewrite Hchild. apply Hin1; [done|]. unfold known, key_of. simpl.
    rewrite Hq0, Hp0. by rewrite !bool_decide_eq_true_2 by (rewrite ?bool_decide_eq_true_2; done).
  - intros c p Hcp. rewrite Hchild, Hout1 by (by left). apply child_new.
Qed.

Lemma build_recovers checks probes rows opens :
  Forall row_ok rows -> NoDup (key_of <$> rows) -> NoDup (pps_ProbeID <$> probes) ->
  exists r, buildRuntime probe_order quorum_order checks probes rows opens = inr r /\
    recovered checks probes rows opens r.
Proof.
  intros Hok Hnd Hndp. unfold buildRuntime.
  destruct (restored checks probes rows Hok Hnd Hndp) as (Hwf & Hq & Hp & Hnp & Hc & Hnc).
  set (r0 := fold_left restoreProbe probes _) in *.
  destruct (degradeSilent_run quorum_order (probe_order (rt_probes r0)) r0 Hwf quorum_order_ok)
    as (r1 & Hrun & Hwf1 & Hp1 & Hq1 & Hc1); [by eapply range_of_NoDup|].
  rewrite Hrun. destruct (restart_all r1 (list_to_set opens) Hwf1) as (Hwf2 & Hq2 & Hc2 & Hf2).
  eexists. split; [done|]. set (r2 := MkRuntime (rt_probes r1) _) in *. split.
  - exact Hwf2.
  - intros c. by rewrite Hq2, Hq1, Hq.
  - intros x Hx Hne. simpl. rewrite Hp1. by apply Hp.
  - intros p Hx. simpl. rewrite Hp1. by apply Hnp.
  - intros c q Hl. rewrite (Hf2 c q Hl). apply bool_decide_ext. by rewrite elem_of_list_to_set.
  - intros s x Hs Hx Hid Hck Hcne Hpne. rewrite Hc2, Hc1.
    rewrite (Hc s Hs Hck Hcne); [|rewrite <-Hid; by apply list_elem_of_fmap_2|done].
    assert (Hpx : rt_probes r0 !! pcs_ProbeID s = Some (recovered_probe x))
      by (rewrite <-Hid; apply Hp; [done|by rewrite Hid]).
    rewrite bool_decide_eq_true_2 by (apply (range_of_elem (rt_probes r0)); [done|by rewrite Hpx]).
    simpl. unfold silent. rewrite Hpx. unfold recovered_child, recovered_probe.
    by destruct (pps_LastSeenAt x).
  - intros c p Hcp. by rewrite Hc2, Hc1, Hnc.
Qed.

(** C8. The runtime survives a restart.  From rows that well-formed machines were
    stored as, and for every order Go may range over the maps, [LoadRuntime]'s
    rebuilding succeeds with a well-formed runtime that knows exactly the stored
    checks and probes; a probe that was ever seen is online with its last-seen
    time, any other offline; an assignment of a seen probe has the stored
    outcome, streak, state, deadline and error, one of an unseen probe no
    evidence, and nothing else is assigned; and a check's incident flag is set
    exactly when the store listed an open incident for it. *)
Theorem recovery_restores_runtime checks probes rows opens :
  Forall row_ok rows -> NoDup (key_of <$> rows) -> NoDup (pps_ProbeID <$> probes) ->
  exists r, buildRuntime probe_order quorum_order checks probes rows opens = inr r /\
    recovered checks probes rows opens r.
Proof. apply build_recovers. Qed.
End build.
