(* ===== verification/StoreLedger.v ===== *)
(** The store as the runtime's ledger of incidents: the laws of Ledger.v hold of
    the tables and of [PersistMonitoringBatch]. *)

From S2P Require Import Prelude GoStrings Stateless Types Database StoreNotifications.
From S2P Require Import StoreMonitoring StoreChecks StoreInvariant StoreProperties CheckMachine.
From S2P Require Import Runtime Results Ledger Heartbeat Sweepers SweepProperties Recovery.

#[global] Instance store_results `{StoreEnv} : ResultBatchStore World := PersistMonitoringBatch.
#[global] Instance store_heartbeats `{StoreEnv} : HeartbeatStore World := PersistMonitoringWrite.
#[global] Instance store_sweeps `{StoreEnv} : SweeperStore World := {|
  sweeper_writes := store_heartbeats;
  store_GetCheckByID := GetCheckByID
|}.
#[global] Instance store_recovers `{StoreEnv} : RecoveryStore World := {|
  store_ListAllChecks := ListAllChecks;
  store_RecoverableProbeStates := RecoverableProbeStates;
  store_PersistedCheckStates := PersistedCheckStates;
  store_OpenIncidentCheckIDs := OpenIncidentCheckIDs
|}.

(** A text that [normalizeCheckID] leaves alone. *)
Definition canonical_id `{StoreEnv} (c : string) : Prop := normalizeCheckID c = inr c.

(** The IDs of the checks table are such texts. *)
Definition ids_ok `{StoreEnv} (t : Tables) : Prop :=
  forall k, is_Some (t_checks t !! k) -> canonical_id k.

(** The current-state rows are those of well-formed machines. *)
Definition rows_ok (t : Tables) : Prop :=
  map_Forall (fun k s => row_ok (scan_state (k, s))) (t_states t).

#[global] Instance store_ledger `{StoreEnv} : IncidentLedger World := {|
  led_inv w := db_wf w /\ ids_ok (w_tables w) /\ rows_ok (w_tables w);
  led_active w c := active_check (w_tables w) c;
  led_open w c := open_incident c (w_tables w);
  led_id := canonical_id
|}.

(** * Open incidents after a statement *)

Lemma open_incident_true c t :
  open_incident c t = true <-> exists k i, t_incidents t !! k = Some i /\ is_open_of c i = true.
Proof. apply has_row_true. Qed.

Lemma bool_eq_iff (a b : bool) : (a = true <-> b = true) -> a = b.
Proof. destruct a, b; intuition congruence. Qed.

Lemma open_incident_same c t t' :
  t_incidents t' = t_incidents t -> open_incident c t' = open_incident c t.
Proof. unfold open_incident. by intros ->. Qed.

Lemma open_incident_insert c t id i :
  t_incidents t !! id = None ->
  open_incident c (set_t_incidents (<[id := i]> (t_incidents t)) t) = is_open_of c i || open_incident c t.
Proof.
  intros Hfresh. apply bool_eq_iff. rewrite orb_true_iff, !open_incident_true. simpl. split.
  - intros (k & j & Hl & Ho). apply lookup_insert_Some in Hl as [[<- <-]|[_ Hl]]; eauto.
  - intros [Ho|(k & j & Hl & Ho)]; [exists id, i; by rewrite lookup_insert_eq|].
    exists k, j. rewrite lookup_insert_ne; [done|]. congruence.
Qed.

Lemma open_incident_resolve c c' at_ t :
  open_incident c' (resolve_incidents c at_ t) = if c' == c then false else open_incident c' t.
Proof.
  apply bool_eq_iff. rewrite open_incident_true. split.
  - intros (k & j & Hl & Ho). apply lookup_update_where_Some in Hl as (j0 & Hl & ->).
    destruct (is_open_of c j0) eqn:Hc.
    + by apply is_open_of_true in Ho as [_ ?].
    + rewrite bool_decide_eq_false_2 by (intros ->; congruence).
      apply open_incident_true. eauto.
  - case_bool_decide as Hne; [done|]. intros Ho. apply open_incident_true in Ho as (k & j & Hl & Ho).
    exists k, j. split; [|done]. simpl. rewrite lookup_update_where, Hl. simpl.
    destruct (is_open_of c j) eqn:Hc; [|done]. exfalso. apply Hne.
    apply is_open_of_true in Ho as [<- _], Hc as [<- _]. done.
Qed.

Lemma fold_effect_ext ws : forall open open' c,
  open c = open' c -> fold_left incident_effect ws open c = fold_left incident_effect ws open' c.
Proof.
  induction ws as [|wr ws IH]; intros open open' c E; simpl; [done|].
  by apply IH, incident_effect_ext.
Qed.

Lemma fold_effect_empty ws : forall open c,
  c <> "" -> Forall (fun wr => write_nonempty wr = false) ws ->
  fold_left incident_effect ws open c = open c.
Proof.
  induction ws as [|wr ws IH]; intros open c Hc Hall; simpl; [done|].
  apply Forall_cons_1 in Hall as [Hwr Hall]. rewrite IH by done. unfold incident_effect.
  unfold write_nonempty in Hwr. rewrite !orb_false_iff in Hwr. destruct Hwr as [_ He].
  apply negb_false_iff, bool_decide_eq_true in He. by rewrite bool_decide_eq_false_2 by congruence.
Qed.

(** * Statements that leave checks and incidents alone *)

Definition same_incidents : relation Tables := fun t t' =>
  t_checks t' = t_checks t /\ t_incidents t' = t_incidents t.

#[global] Instance same_incidents_preorder : PreOrder same_incidents.
Proof. split; [done|]. intros t1 t2 t3 [? ?] [? ?]. split; congruence. Qed.

Section ledger.
Context `{Env : StoreEnv}.

Lemma same_validate wr : respects same_incidents (validateMonitoringWrite wr).
Proof. intros w. by rewrite (validate_tables wr w). Qed.

Lemma same_upsert s : respects same_incidents (upsertCheckStateTx s).
Proof.
  unfold upsertCheckStateTx, normalizeCheckStateWrite, normalizeTime. cbv zeta. frame.
  repeat case_match; by split.
Qed.

Lemma same_heartbeat p at_ : respects same_incidents (updateProbeHeartbeatTx p at_).
Proof. unfold updateProbeHeartbeatTx, normalizeTime. frame. by split. Qed.

Lemma same_insert_notification id ev req now :
  respects same_incidents (insertIncidentNotification id ev req now).
Proof.
  unfold insertIncidentNotification, insert_notification_row. frame.
  repeat case_match; by split.
Qed.
#[local] Hint Resolve same_upsert same_heartbeat : store.

Lemma run_same {A} (m : DB A) w a w' :
  respects same_incidents m -> m w = (inr a, w') -> same_incidents (w_tables w) (w_tables w').
Proof. intros Hm Hr. specialize (Hm w). by rewrite Hr in Hm. Qed.

(** * Opening and resolving *)

Lemma insert_incident_effect c now w row w' :
  insert_incident_row c now w = (inr row, w') ->
  t_checks (w_tables w') = t_checks (w_tables w) /\
  forall c', active_check (w_tables w) c' = true ->
    open_incident c' (w_tables w') = if c' == c then true else open_incident c' (w_tables w).
Proof.
  unfold insert_incident_row, mbind, St_bind, get_tables, mret, St_ret. simpl.
  assert (Hskip : forall c', (c' = c -> open_incident c (w_tables w) = true) ->
    open_incident c' (w_tables w) = if c' == c then true else open_incident c' (w_tables w)).
  { intros c' Hc. case_bool_decide as E; [subst c'; by apply Hc|done]. }
  assert (Hinact : active_check (w_tables w) c = false -> forall c', active_check (w_tables w) c' = true ->
    open_incident c' (w_tables w) = if c' == c then true else open_incident c' (w_tables w)).
  { intros Hc c' Ha. apply Hskip. intros ->. congruence. }
  unfold active_check at 1 in Hinact. destruct (t_checks (w_tables w) !! c) as [row0|].
  2: { intros Hr. simplify_eq. auto. }
  destruct (bool_decide (is_Some (c_deleted_at row0))) eqn:Hdel.
  { intros Hr. simplify_eq. split; [done|]. apply Hinact, bool_decide_eq_false_2. intros E.
    by rewrite E in Hdel. }
  simpl. destruct (open_incident c (w_tables w)) eqn:Ho; [intros Hr; simplify_eq; auto|].
  clear Hskip Hinact Hdel.
  case_bool_decide as Hfresh; [done|]. apply eq_None_not_Some in Hfresh. intros Hr. simplify_eq.
  split; [done|]. intros c' _. simpl. rewrite open_incident_insert by done.
  unfold is_open_of. simpl. rewrite andb_true_r. case_bool_decide as E.
  - subst c'. by rewrite bool_decide_eq_true_2.
  - rewrite bool_decide_eq_false_2 by congruence. done.
Qed.

Lemma open_effect c req now w a w' :
  openIncidentWithNotificationByCheckIDTx c req now w = (inr a, w') ->
  t_checks (w_tables w') = t_checks (w_tables w) /\
  forall c', active_check (w_tables w) c' = true ->
    open_incident c' (w_tables w') = if c' == c then true else open_incident c' (w_tables w).
Proof.
  intros Hrun. apply bind_inr in Hrun as (row & w1 & Hcall & Hrun). apply call_inr in Hcall.
  apply insert_incident_effect in Hcall. destruct row as [id|]; [|by injection Hrun as _ <-].
  apply bind_inr in Hrun as (u & w2 & Hins & Hrun). injection Hrun as _ <-.
  apply (run_same _ _ _ _ (same_insert_notification _ _ _ _)) in Hins as [E1 E2].
  destruct Hcall as [Hc Ho]. split; [exact (eq_trans E1 Hc)|]. intros c' Ha. rewrite (open_incident_same _ _ _ E2).
  by apply Ho.
Qed.

Lemma resolve_effect c req now w a w' :
  resolveIncidentWithNotificationByCheckIDTx c req now w = (inr a, w') ->
  t_checks (w_tables w') = t_checks (w_tables w) /\
  forall c', open_incident c' (w_tables w') = if c' == c then false else open_incident c' (w_tables w).
Proof.
  intros Hrun. apply bind_inr in Hrun as (row & w1 & Hcall & Hrun). apply call_inr in Hcall.
  injection Hcall as Hrow <-.
  assert (Hres : forall c', open_incident c' (resolve_incidents c (timestamptz now) (w_tables w)) =
    if c' == c then false else open_incident c' (w_tables w)) by (intros; apply open_incident_resolve).
  destruct row as [id|]; [|by injection Hrun as _ <-].
  apply bind_inr in Hrun as (u & w2 & Hsup & Hrun). apply call_inr in Hsup. injection Hsup as _ <-.
  apply bind_inr in Hrun as (u' & w3 & Hins & Hrun). injection Hrun as _ <-.
  apply (run_same _ _ _ _ (same_insert_notification _ _ _ _)) in Hins as [E1 E2].
  split; [done|]. intros c'. rewrite <-Hres. by apply open_incident_same.
Qed.

(** * Writes *)

Lemma incident_write_effect wr w a w' :
  mw_IncidentCheckID wr = "" \/ canonical_id (mw_IncidentCheckID wr) ->
  applyMonitoringIncidentTx (mw_IncidentCheckID wr) (mw_ResolveIncident wr)
    (mw_IncidentNotification wr) w = (inr a, w') ->
  t_checks (w_tables w') = t_checks (w_tables w) /\
  forall c, c <> "" -> active_check (w_tables w) c = true ->
    open_incident c (w_tables w') =
    incident_effect (fun c => open_incident c (w_tables w)) wr c.
Proof.
  intros Hname Hrun. unfold applyMonitoringIncidentTx in Hrun. unfold incident_effect.
  destruct (bool_decide (mw_IncidentCheckID wr = "")) eqn:He.
  { apply bool_decide_eq_true in He. injection Hrun as _ <-. split; [done|]. intros c Hc _.
    rewrite bool_decide_eq_false_2 by congruence. done. }
  apply bool_decide_eq_false in He. destruct Hname as [Hname|Hname]; [done|].
  unfold canonical_id in Hname. rewrite Hname in Hrun.
  apply bind_inr in Hrun as (now & w1 & Hnow & Hrun). injection Hnow as <- <-.
  destruct (mw_ResolveIncident wr).
  - apply resolve_effect in Hrun as [Hc Ho]. split; [done|]. intros c _ _. rewrite Ho. simpl.
    by rewrite (bool_decide_ext (mw_IncidentCheckID wr = c) (c = mw_IncidentCheckID wr)) by done.
  - apply bind_inr in Hrun as (ao & w2 & Hrun & Hret). injection Hret as _ <-.
    apply open_effect in Hrun as [Hc Ho]. split; [done|]. intros c _ Ha. rewrite Ho by done. simpl.
    by rewrite (bool_decide_ext (mw_IncidentCheckID wr = c) (c = mw_IncidentCheckID wr)) by done.
Qed.

Lemma write_effect wr w saved w' :
  mw_IncidentCheckID wr = "" \/ canonical_id (mw_IncidentCheckID wr) ->
  persistMonitoringWriteTx wr w = (inr saved, w') ->
  t_checks (w_tables w') = t_checks (w_tables w) /\
  forall c, c <> "" -> active_check (w_tables w) c = true ->
    open_incident c (w_tables w') =
    incident_effect (fun c => open_incident c (w_tables w)) wr c.
Proof.
  intros Hname Hrun. unfold persistMonitoringWriteTx in Hrun.
  apply bind_inr in Hrun as (u & w1 & Hval & Hrun).
  apply (run_same _ _ _ _ (same_validate wr)) in Hval as [C1 I1].
  destruct (negb (write_nonempty wr)) eqn:Hemp.
  { injection Hrun as _ <-. split; [done|]. intros c Hc _.
    unfold write_nonempty in Hemp. rewrite negb_true_iff, !orb_false_iff in Hemp.
    destruct Hemp as [_ He]. apply negb_false_iff, bool_decide_eq_true in He.
    unfold incident_effect. rewrite bool_decide_eq_false_2 by congruence.
    by apply open_incident_same. }
  apply bind_inr in Hrun as (rows & w2 & Hst & Hrun).
  apply (run_same _ _ _ _ (respects_collect same_incidents _ _ (fun s _ => same_upsert s))) in Hst as [C2 I2].
  apply bind_inr in Hrun as (hb & w3 & Hhb & Hrun).
  assert (Hsame : same_incidents (w_tables w2) (w_tables w3)).
  { eapply run_same; [|exact Hhb]. case_match; [apply same_heartbeat|apply respects_ret; apply _]. }
  destruct Hsame as [C3 I3].
  apply bind_inr in Hrun as (b & w4 & Hinc & Hrun). injection Hrun as _ <-.
  apply (incident_write_effect _ _ _ _ Hname) in Hinc as [C4 I4].
  split; [congruence|]. intros c Hc Ha. rewrite I4; [|done|].
  - apply incident_effect_ext. apply open_incident_same. congruence.
  - unfold active_check. by rewrite C3, C2, C1.
Qed.

Lemma batch_effect ws : forall w saved w',
  Forall (fun wr => mw_IncidentCheckID wr = "" \/ canonical_id (mw_IncidentCheckID wr)) ws ->
  st_collect ws persistMonitoringWriteTx w = (inr saved, w') ->
  t_checks (w_tables w') = t_checks (w_tables w) /\
  forall c, c <> "" -> active_check (w_tables w) c = true ->
    open_incident c (w_tables w') =
    fold_left incident_effect ws (fun c => open_incident c (w_tables w)) c.
Proof.
  induction ws as [|wr ws IH]; intros w saved w' Hnames Hrun; simpl in Hrun; [by injection Hrun as _ <-|].
  apply Forall_cons_1 in Hnames as [Hname Hnames].
  apply bind_inr in Hrun as (s & w1 & Hwr & Hrun). apply bind_inr in Hrun as (ss & w2 & Hws & Hrun).
  injection Hrun as _ <-. apply (write_effect _ _ _ _ Hname) in Hwr as [C1 O1].
  destruct (IH _ _ _ Hnames Hws) as [C2 O2]. split; [congruence|]. intros c Hc Ha.
  rewrite O2; [|done|unfold active_check in *; by rewrite C1]. simpl.
  apply fold_effect_ext. by rewrite O1.
Qed.
End ledger.

(** * Current-state rows *)

Definition rows_kept : relation Tables := fun t t' => rows_ok t -> rows_ok t'.

#[global] Instance rows_kept_preorder : PreOrder rows_kept.
Proof. split; [by intros t ?|]. intros t1 t2 t3 H1 H2 H0. auto. Qed.

Lemma rows_same t t' : t_states t' = t_states t -> rows_kept t t'.
Proof. unfold rows_kept, rows_ok. by intros ->. Qed.

(** Trimming does nothing to the outcomes and states machines have. *)
Lemma trim_outcome o : valid_outcome o -> TrimSpace o = o.
Proof. intros [->|[->|[->| ->]]]; vm_compute; reflexivity. Qed.

Lemma trim_state s : valid_check_state s -> TrimSpace s = s.
Proof. intros [->|[->|[->| ->]]]; vm_compute; reflexivity. Qed.

Section rows.
Context `{Env : StoreEnv}.

Lemma normalize_fields s w s' w' :
  normalizeCheckStateWrite s w = (inr s', w') ->
  csw_LastOutcome s' = TrimSpace (csw_LastOutcome s) /\ csw_StreakLen s' = csw_StreakLen s /\
  csw_State s' = TrimSpace (csw_State s).
Proof.
  unfold normalizeCheckStateWrite. cbv zeta. repeat (case_match; [done|]). intros Hrun.
  run_ok Hrun. by injection Hrun as <- _.
Qed.

Lemma rows_upsert s : csw_wf s -> respects rows_kept (upsertCheckStateTx s).
Proof.
  intros Hs w. unfold upsertCheckStateTx. unfold mbind at 1, St_bind at 1.
  assert (Hn : respects rows_kept (normalizeCheckStateWrite s))
    by (unfold normalizeCheckStateWrite, normalizeTime; cbv zeta; frame).
  specialize (Hn w). destruct (normalizeCheckStateWrite s w) as [[e|s'] w1] eqn:Hnorm; [done|].
  simpl in Hn. transitivity (w_tables w1); [done|].
  destruct (normalize_fields _ _ _ _ Hnorm) as (Ho & Hk & Hst).
  assert (Hrow : forall k, row_ok (scan_state (k, state_row s'))).
  { intros k. unfold row_ok, check_wf. simpl. destruct Hs as (H1 & H2 & H3 & H4). simpl in *.
    rewrite Ho, Hk, Hst, trim_outcome by done.
    rewrite trim_state by (rewrite H4; by apply counted_state_valid). done. }
  revert w1 Hn Hnorm. intros w1 _ _. destruct (normalizeCheckID (csw_CheckID s')) as [e|id]; [reflexivity|].
  assert (Hstmt : respects rows_kept (
    call (params [csw_ProbeID s'; csw_LastOutcome s'; csw_State s'; csw_LastError s'] [csw_StreakLen s'];;
      t ← get_tables;
      if negb (last_outcome_ok (csw_LastOutcome s') && check_state_ok (csw_State s') &&
               (0 <=? csw_StreakLen s')%Z) then st_fail err_check
      else if negb (bool_decide (is_Some (t_checks t !! id))) then st_fail err_foreign_key
      else put_tables (set_t_states (<[(id, csw_ProbeID s') := state_row s']> (t_states t)) t));;
    mret (set_csw_CheckID id s'))); [|apply Hstmt].
  frame. destruct (negb (_ && _ && _)); [reflexivity|]. destruct (negb _); [reflexivity|].
  intros Hok. by apply map_Forall_insert_2.
Qed.

Lemma rows_incident c resolve req : respects rows_kept (applyMonitoringIncidentTx c resolve req).
Proof.
  unfold applyMonitoringIncidentTx, openIncidentWithNotificationByCheckIDTx,
    resolveIncidentWithNotificationByCheckIDTx, insertIncidentNotification, insert_notification_row,
    insert_incident_row, resolve_open_row.
  frame; repeat (case_match; simpl); apply rows_same; try done.
  all: unfold mbind, St_bind; simpl; repeat (case_match; simpl); done.
Qed.

Lemma rows_heartbeat p at_ : respects rows_kept (updateProbeHeartbeatTx p at_).
Proof. unfold updateProbeHeartbeatTx, normalizeTime. frame. by apply rows_same. Qed.
#[local] Hint Resolve rows_incident rows_heartbeat : store.

Lemma rows_write wr :
  Forall csw_wf (mw_CheckStateWrites wr) -> respects rows_kept (persistMonitoringWriteTx wr).
Proof.
  intros Hall. unfold persistMonitoringWriteTx. rewrite Forall_forall in Hall.
  apply respects_bind; [apply _| |].
  { intros w. by rewrite (validate_tables wr w). }
  intros _. case_match; [frame|]. apply respects_bind; [apply _| |frame].
  apply respects_collect; [apply _|]. intros s Hs. apply rows_upsert, Hall. by apply list_elem_of_In.
Qed.
End rows.

(** * The store obeys the ledger's laws *)

Lemma active_is_Some t c : active_check t c = true -> is_Some (t_checks t !! c).
Proof. unfold active_check. by destruct (t_checks t !! c). Qed.

(** A batch that succeeds had nothing to write or ran its transaction. *)
Lemma batch_run `{Env : StoreEnv} ws w saved w' :
  PersistMonitoringBatch ws w = (inr saved, w') ->
  (w_tables w' = w_tables w /\ Forall (fun wr => write_nonempty wr = false) ws) \/
  exists w1 w2, (db_wf w -> db_wf w1) /\ w_tables w1 = w_tables w /\ w_tables w' = w_tables w2 /\
    st_collect ws persistMonitoringWriteTx w1 = (inr saved, w2).
Proof.
  intros Hrun. apply bind_inr in Hrun as ([] & w1 & Hval & Hrun).
  assert (Hw1 : w_tables w1 = w_tables w)
    by (pose proof (validate_all_tables ws w) as Hv; by rewrite Hval in Hv).
  destruct (negb (existsb write_nonempty ws)) eqn:Hemp.
  - left. injection Hrun as _ <-. split; [done|]. apply negb_true_iff in Hemp.
    apply Forall_forall. intros wr Hin. apply not_true_iff_false. intros Hne.
    rewrite <-not_true_iff_false, existsb_exists in Hemp. apply Hemp. exists wr. by split.
  - right. apply tx_ok in Hrun as (w2 & Hrun & ->). exists (next_tick w1), w2. split_and!; [|done..].
    intros Hwf. pose proof (keeps_for ws _ validate_keeps w Hwf) as [Hk _]. by rewrite Hval in Hk.
Qed.

Lemma batch_rows `{Env : StoreEnv} ws w saved w' :
  Forall (fun wr => Forall csw_wf (mw_CheckStateWrites wr)) ws ->
  PersistMonitoringBatch ws w = (inr saved, w') -> rows_ok (w_tables w) -> rows_ok (w_tables w').
Proof.
  intros Hall Hrun. destruct (batch_run _ _ _ _ Hrun) as [[-> _]|(w1 & w2 & _ & <- & -> & Hbody)]; [done|].
  rewrite Forall_forall in Hall.
  assert (Hr : respects rows_kept (st_collect ws persistMonitoringWriteTx)).
  { apply respects_collect; [apply _|]. intros wr Hwr. apply rows_write, Hall. by apply list_elem_of_In. }
  specialize (Hr w1). by rewrite Hbody in Hr.
Qed.

Lemma batch_incidents `{Env : StoreEnv} ws w saved w' :
  Forall (fun wr => mw_IncidentCheckID wr = "" \/ canonical_id (mw_IncidentCheckID wr)) ws ->
  PersistMonitoringBatch ws w = (inr saved, w') ->
  t_checks (w_tables w') = t_checks (w_tables w) /\
  forall c, c <> "" -> active_check (w_tables w) c = true ->
    open_incident c (w_tables w') =
    fold_left incident_effect ws (fun c => open_incident c (w_tables w)) c.
Proof.
  intros Hnames Hrun.
  destruct (batch_run _ _ _ _ Hrun) as [[-> Hemp]|(w1 & w2 & _ & <- & -> & Hbody)].
  - split; [done|]. intros c Hc _. by rewrite fold_effect_empty.
  - by eapply batch_effect.
Qed.

Lemma canonical_nonempty `{StoreEnv} c : canonical_id c -> c <> "".
Proof. intros Hc ->. by vm_compute in Hc. Qed.

#[global] Instance store_ledger_laws `{Env : StoreEnv} : BatchLedgerLaws World.
Proof.
  split.
  - apply canonical_nonempty.
  - intros w c (_ & Hids & _) Ha. by apply Hids, active_is_Some.
  - intros ws w saved w' (Hwf & Hids & Hrows) Hsound Hrun. rewrite Forall_forall in Hsound.
    destruct (batch_incidents ws w saved w') as [HC HO];
      [apply Forall_forall; intros wr Hwr; by apply Hsound|exact Hrun|].
    split; [split; [|split]|split].
    + pose proof (batch_keeps ws w Hwf) as [Hk _].
      unfold store_PersistMonitoringBatch, store_results in Hrun. by rewrite Hrun in Hk.
    + intros k. rewrite HC. apply Hids.
    + eapply batch_rows; [|exact Hrun|done]. apply Forall_forall. intros wr Hwr. by apply Hsound.
    + unfold led_active. simpl. unfold active_check. by rewrite HC.
    + intros c Hc. apply HO; [|done]. by apply canonical_nonempty, Hids, active_is_Some.
Qed.

Lemma get_check_run `{Env : StoreEnv} c w res w' :
  canonical_id c -> GetCheckByID c w = (res, w') ->
  w_tables w' = w_tables w /\ w_seqs w' = w_seqs w /\
  match res with
  | inr (Some d) => ck_ID d = c
  | inr None => active_check (w_tables w) c = false
  | inl _ => True
  end.
Proof.
  intros Hc. unfold GetCheckByID. unfold canonical_id in Hc. rewrite Hc. intros Hrun.
  apply call_cases in Hrun as [(e & -> & ->)|(res0 & Hrun & Hres)]; [done|].
  injection Hrun as <- <-. split_and!; [done|done|]. destruct Hres as [->|[e ->]]; [|done]. simpl.
  set (rows := select _ _). destruct rows as [|[k row] rest] eqn:Hrows; simpl.
  - unfold active_check. destruct (t_checks (w_tables w) !! c) as [row|] eqn:Hl; [|done].
    case_bool_decide as Ha; [|done]. exfalso.
    assert (Hin : (c, row) ∈ rows).
    { apply elem_of_select. split; [done|]. unfold is_active. by rewrite !bool_decide_eq_true_2. }
    rewrite Hrows in Hin. by apply not_elem_of_nil in Hin.
  - assert (Hin : (k, row) ∈ rows) by (rewrite Hrows; left).
    apply elem_of_select in Hin as [_ Hk]. apply andb_true_iff in Hk as [Hk _].
    by apply bool_decide_eq_true in Hk.
Qed.

#[global] Instance store_sweeper_laws `{Env : StoreEnv} : SweeperLedgerLaws World.
Proof.
  split.
  - apply canonical_nonempty.
  - intros w c (_ & Hids & _) Ha. by apply Hids, active_is_Some.
  - intros wr w saved w' Hinv Hsound Hrun.
    apply bind_inr in Hrun as (ws & w1 & Hrun & Hret). injection Hret as _ <-.
    apply (batch_ledger [wr] w ws w1); [done|by constructor|exact Hrun].
  - intros c w res w' (Hwf & Hids & Hrows) Hc Hrun.
    destruct (get_check_run _ _ _ _ Hc Hrun) as (Ht & Hs & Hres).
    unfold led_inv, led_active, led_open. simpl. unfold db_wf. rewrite Ht, Hs.
    split; [split; [exact Hwf|by split]|]. split; [done|]. split; [done|exact Hres].
Qed.

(** Check IDs stay canonical: new ones are generated by the server. *)
Definition ids_kept `{StoreEnv} : relation Tables := fun t t' => ids_ok t -> ids_ok t'.

#[global] Instance ids_kept_preorder `{StoreEnv} : PreOrder ids_kept.
Proof. split; [by intros t ?|]. intros t1 t2 t3 H1 H2 H0. auto. Qed.

(** Monitoring never touches the checks table. *)
Definition same_checks : relation Tables := fun t t' => t_checks t' = t_checks t.

#[global] Instance same_checks_preorder : PreOrder same_checks.
Proof. split; [by intros t|]. unfold same_checks. intros t1 t2 t3. congruence. Qed.

Section ids.
Context `{SEL : StoreEnvLaws}.

Lemma canonical_random n : canonical_id (random_uuid_at n).
Proof.
  destruct (random_uuid_canonical n) as [Hp Hn].
  destruct (uuid_Parse_canonical _ _ Hp) as (_ & Htrim & Hne).
  unfold canonical_id, normalizeCheckID. rewrite Htrim, bool_decide_eq_false_2, Hp by done.
  by rewrite bool_decide_eq_false_2.
Qed.

Lemma ids_same t t' : dom (t_checks t') = dom (t_checks t) -> ids_kept t t'.
Proof.
  intros Hd Hids k Hk. apply Hids. apply elem_of_dom. rewrite <-Hd. by apply elem_of_dom.
Qed.

Lemma ids_of_same_checks t t' : t_checks t' = t_checks t -> ids_kept t t'.
Proof. intros E. apply ids_same. by rewrite E. Qed.

Lemma ids_insert_check c user conf w :
  respects ids_kept conf -> ids_kept (w_tables w) (w_tables (insert_check c user conf w).2).
Proof.
  intros Hconf. unfold insert_check, mbind, St_bind.
  destruct (params_run [ck_Name c; ck_Type c; ck_Target c; ck_Webhook c]
              (ck_Interval c :: option_list user) w) as [[e|u] ->]; [reflexivity|].
  unfold gen_random_uuid, get_tables. simpl.
  destruct (_ || _); [apply (Hconf (next_tick w))|]. simpl.
  intros Hids k Hk. simpl in Hk. apply lookup_insert_is_Some in Hk as [<-|[_ Hk]]; [|by apply Hids].
  apply canonical_random.
Qed.

Lemma update_where_checks t f g :
  ids_kept t (set_t_checks (update_where f g (t_checks t)) t).
Proof. apply ids_same. simpl. apply dom_update_where. Qed.

Lemma checks_monitoring wr : respects same_checks (persistMonitoringWriteTx wr).
Proof.
  unfold persistMonitoringWriteTx, validateMonitoringWrite, applyMonitoringIncidentTx,
    openIncidentWithNotificationByCheckIDTx, resolveIncidentWithNotificationByCheckIDTx,
    insertIncidentNotification, insert_notification_row, insert_incident_row, resolve_open_row,
    updateProbeHeartbeatTx, upsertCheckStateTx, normalizeCheckStateWrite, normalizeTime.
  cbv zeta. frame; repeat (case_match; simpl); try done.
  all: unfold mbind, St_bind; simpl; repeat (case_match; simpl); done.
Qed.

Lemma checks_batch ws : respects same_checks (PersistMonitoringBatch ws).
Proof.
  unfold PersistMonitoringBatch. frame; [|apply checks_monitoring].
  intros w. unfold same_checks. by rewrite (validate_tables x w).
Qed.

Lemma ids_batch ws : respects ids_kept (PersistMonitoringBatch ws).
Proof. intros w. apply ids_of_same_checks, checks_batch. Qed.

Lemma ids_delete name user : respects ids_kept (DeleteCheck name user).
Proof.
  unfold DeleteCheck, supersede_all, resolve_all, delete_states, mark_deleted. frame; simpl;
    try (by apply ids_of_same_checks). apply update_where_checks.
Qed.

Lemma ids_store op w : ids_kept (w_tables w) (w_tables (exec_store op w)).
Proof.
  destruct op; simpl.
  - apply ids_batch.
  - apply (respects_bind ids_kept); [apply ids_batch|frame].
  - apply (respects_call ids_kept). frame. cbv zeta. destruct (negb _); [reflexivity|].
    by apply ids_of_same_checks.
  - apply (respects_call ids_kept). frame. by apply ids_of_same_checks.
  - apply (respects_call ids_kept). frame. by apply ids_of_same_checks.
  - apply (respects_for ids_kept). intros c. frame. intros w0. apply ids_insert_check. frame.
  - apply (respects_bind ids_kept); frame. intros w0. apply ids_insert_check. frame.
  - unfold UpdateCheck. apply (respects_call ids_kept). frame. apply update_where_checks.
  - apply ids_delete.
  - apply ids_of_same_checks. exact (f_equal t_checks (probes_store (OpSeedProbes probes) w I)).
  - apply ids_of_same_checks. exact (f_equal t_checks (probes_store (OpCreateProbe requestedProbeID) w I)).
  - apply ids_of_same_checks. exact (f_equal t_checks (probes_store (OpRegisterProbe probeID version) w I)).
Qed.

(** In every database the store reaches, check IDs are canonical. *)
Lemma reachable_ids w : rtc store_step empty_world w -> ids_ok (w_tables w).
Proof.
  intros Hr. assert (Hk : ids_kept (w_tables empty_world) (w_tables w)).
  { induction Hr as [|w1 w2 w3 Hs _ IH]; [by intros ?|]. transitivity (w_tables w2); [|done].
    destruct Hs. apply ids_store. }
  apply Hk. intros k [c Hc]. exfalso. change ((∅ : gmap string CheckRow) !! k = Some c) in Hc.
  by rewrite lookup_empty in Hc.
Qed.
End ids.
