(* ===== verification/StoreBatch.v ===== *)
(** What a batch of monitoring writes leaves in the tables, row by row. *)

From S2P Require Import Prelude GoStrings Stateless Types Database StoreNotifications StoreMonitoring.
From S2P Require Import StoreChecks StoreInvariant StoreProperties Runtime Results Ledger StoreLedger.

(** * The specification *)

Section spec.
Context `{Env : StoreEnv}.







(** * Statements *)

(** Incidents and their pages are beside the monitored state. *)
Definition beside_monitoring : relation Tables := fun t t' =>
  t_checks t' = t_checks t /\ t_states t' = t_states t /\ t_probes t' = t_probes t.

#[local] Instance beside_monitoring_preorder : PreOrder beside_monitoring.
Proof. split; [done|]. intros t1 t2 t3 (? & ? & ?) (? & ? & ?). split_and!; congruence. Qed.







(** * Writes *)



End spec.


