(* ===== verification/ProbeIngest.v ===== *)
(** What the server accepts from a probe, on the real store. *)

From S2P Require Import Prelude GoStrings Stateless Types Database StoreNotifications StoreMonitoring.
From S2P Require Import StoreChecks StoreProbes StoreInvariant StoreProperties ProbeMachine Runtime.
From S2P Require Import Results Ledger.
From S2P Require Import Heartbeat Sweepers SweepProperties Recovery StoreLedger ProbeProcessor.

#[global] Instance store_probes `{StoreEnv} : ProbeStore World := {|
  probe_sweeps := store_sweeps;
  probe_results := store_results;
  store_RegisterProbe := RegisterProbe
|}.

(** * The reference: look every check up in the tables *)

Definition known_check `{StoreEnv} (t : Tables) (id : string) : option Check :=
  match normalizeCheckID id with
  | inl _ => None
  | inr c => match t_checks t !! c with
             | Some row => if is_active row then Some (scanCheck (c, row)) else None
             | None => None
             end
  end.

Definition accept `{StoreEnv} (t : Tables) (probe : Probe) (now : Time) (result : CheckResult)
    : option ObservedResult :=
  (fun check => MkObservedResult check (stamp probe check now result)) <$> known_check t (cr_CheckID result).

Definition same_db (w w' : World) : Prop := w_tables w' = w_tables w /\ w_seqs w' = w_seqs w.

Section ingest.
Context `{Env : StoreEnv}.

Lemma normalize_invalid id e : normalizeCheckID id = inl e -> errors_Is e ErrInvalidCheckID = true.
Proof.
  unfold normalizeCheckID. repeat case_match; intros; simplify_eq; vm_compute; reflexivity.
Qed.

Lemma known_check_blank t : known_check t "" = None.
Proof. done. Qed.

(** The first row of a selection by key is the key's row. *)
Lemma select_key {V} (f : V -> bool) (m : gmap string V) k :
  head (select (fun k' v => (k' == k) && f v) m) =
  match m !! k with Some v => if f v then Some (k, v) else None | None => None end.
Proof.
  set (g := fun k' v => (k' == k) && f v).
  assert (Hall : forall k' v, (k', v) ∈ select g m -> k' = k /\ m !! k = Some v /\ f v = true).
  { intros k' v Hin. apply elem_of_select in Hin as [Hl Hg]. unfold g in Hg.
    apply andb_true_iff in Hg as [E Hf]. apply bool_decide_eq_true in E as ->. done. }
  destruct (select g m) as [|[k' v] l] eqn:Hs; simpl.
  - destruct (m !! k) as [v|] eqn:Hl; [|done]. destruct (f v) eqn:Hf; [|done]. exfalso.
    assert (Hin : (k, v) ∈ select g m)
      by (apply elem_of_select; unfold g; by rewrite bool_decide_eq_true_2).
    rewrite Hs in Hin. by apply not_elem_of_nil in Hin.
  - destruct (Hall k' v) as (-> & -> & ->); [left|done].
Qed.

Lemma get_check_exact id w :
  match GetCheckByID id w with
  | (inr o, w') => o = known_check (w_tables w) id /\ same_db w w'
  | (inl e, w') => same_db w w' /\
      (errors_Is e ErrInvalidCheckID = true /\ known_check (w_tables w) id = None \/
       errors_Is e ErrInvalidCheckID = false /\ exists n f, fault_at n = Some f)
  end.
Proof.
  unfold GetCheckByID, known_check. destruct (normalizeCheckID id) as [e|c] eqn:Hn.
  { split; [done|]. left. split; [by eapply normalize_invalid|done]. }
  unfold call, mbind, St_bind. destruct (fault_at (w_tick w)) as [[]|] eqn:Hf; simpl.
  - split; [done|]. right. eauto.
  - split; [done|]. right. eauto.
  - split; [|done]. rewrite (select_key is_active). repeat case_match; done.
Qed.

Definition cache_ok (t : Tables) (cache : gmap string Check) : Prop :=
  forall id c, cache !! id = Some c -> known_check t id = Some c.

Lemma normalize_one probe result now cache w :
  cache_ok (w_tables w) cache ->
  match normalizeWithCache probe result now (cache, w) with
  | (inr o, (cache', w')) => foreign (cr_ProbeID result) probe = false /\
      o = accept (w_tables w) probe now result /\ cache_ok (w_tables w) cache' /\ same_db w w'
  | (inl e, (_, w')) => same_db w w' /\
      (e = err_mismatch /\ foreign (cr_ProbeID result) probe = true \/ exists n f, fault_at n = Some f)
  end.
Proof.
  intros Hc. unfold normalizeWithCache, accept.
  destruct (foreign (cr_ProbeID result) probe); [by split; [|left]|].
  case_bool_decide as Hb; [by rewrite Hb|].
  destruct (cache !! cr_CheckID result) as [check|] eqn:Hl; [by rewrite (Hc _ _ Hl)|].
  change (store_GetCheckByID (cr_CheckID result) w) with (GetCheckByID (cr_CheckID result) w).
  pose proof (get_check_exact (cr_CheckID result) w) as Hg.
  destruct (GetCheckByID (cr_CheckID result) w) as [[e|o] w'].
  - destruct Hg as [Hs [[-> ->]|[-> Hf]]]; [done|]. split; [done|by right].
  - destruct Hg as [-> Hs]. destruct (known_check _ _) as [check|] eqn:Hk; [|done].
    split_and!; [done|done| |apply Hs..]. intros id c Hid.
    apply lookup_insert_Some in Hid as [[<- <-]|[_ Hid]]; [done|by apply Hc].
Qed.

Lemma normalize_run probe now incoming : forall cache out w,
  cache_ok (w_tables w) cache ->
  match normalize_loop probe incoming now out (cache, w) with
  | (inr out', (_, w')) => existsb (fun x => foreign (cr_ProbeID x) probe) incoming = false /\
      out' = out ++ omap (accept (w_tables w) probe now) incoming /\ same_db w w'
  | (inl e, (_, w')) => same_db w w' /\
      (e = err_mismatch /\ existsb (fun x => foreign (cr_ProbeID x) probe) incoming = true \/
       exists n f, fault_at n = Some f)
  end.
Proof.
  induction incoming as [|x incoming IH]; intros cache out w Hc; cbn [normalize_loop].
  { simpl. by rewrite app_nil_r. }
  unfold mbind at 1, St_bind. pose proof (normalize_one probe x now cache w Hc) as H1.
  destruct (normalizeWithCache probe x now (cache, w)) as [[e|o] [cache1 w1]]; simpl.
  - destruct H1 as [Hs [[-> ->]|Hf]]; (split; [done|]); [by left|by right].
  - destruct H1 as (-> & -> & Hc1 & Ht & Hq). simpl.
    specialize (IH cache1 (out ++ option_list (accept (w_tables w) probe now x)) w1).
    rewrite Ht in IH. specialize (IH Hc1).
    destruct (normalize_loop _ _ _ _ _) as [[e|out'] [cache2 w2]].
    + destruct IH as [[T Q] He]. split; [split; congruence|done].
    + destruct IH as (He & -> & T & Q). split_and!; [done| |split; congruence].
      rewrite <-app_assoc. f_equal. by destruct (accept _ _ _ x).
Qed.

Lemma normalize_batch_run now probe incoming w :
  match normalizeBatch now probe incoming w with
  | (inr out, w') => out = omap (accept (w_tables w) probe now) incoming /\
      existsb (fun x => foreign (cr_ProbeID x) probe) incoming = false /\ same_db w w'
  | (inl e, w') => same_db w w' /\
      (e = err_mismatch /\ existsb (fun x => foreign (cr_ProbeID x) probe) incoming = true \/
       exists n f, fault_at n = Some f)
  end.
Proof.
  unfold normalizeBatch. pose proof (normalize_run probe now incoming ∅ [] w) as Hr.
  destruct (normalize_loop _ _ _ _ _) as [[e|out] [cache w']]; [by apply Hr|].
  destruct Hr as (H1 & -> & H2); done.
Qed.

(** C15. What a probe may report.  Normalising a batch with its cache gives what
    looking every check up in the database gives: in order, the results whose
    check ID names an active check, each with the check as the database has it,
    and stamped with the check's own ID, name, type and target, with the
    authenticated probe and with the server's time, whatever the probe sent
    there; results for other checks are dropped.  It fails only if a result
    claims to come from another probe, which rejects the whole batch, or if the
    database fails, and it changes nothing in the database. *)
Theorem normalize_batch_exact now probe incoming w :
  match normalizeBatch now probe incoming w with
  | (inr out, w') => out = omap (accept (w_tables w) probe now) incoming /\
      existsb (fun x => foreign (cr_ProbeID x) probe) incoming = false /\ same_db w w'
  | (inl e, w') => same_db w w' /\
      (e = err_mismatch /\ existsb (fun x => foreign (cr_ProbeID x) probe) incoming = true \/
       exists n f, fault_at n = Some f)
  end.
Proof. apply normalize_batch_run. Qed.
End ingest.

(** * The whole request *)

Lemma apply_at_pointers `{SL : Stateless} `{RS : ResultBatchStore W} observed r (w : W) :
  exists res r' w', ApplyResultBatch observed (Some r, Some w) = (res, (Some r', Some w')) /\
    at_pointers (ApplyResultBatch observed) (r, w) = (res, (r', w')).
Proof.
  unfold at_pointers, ApplyResultBatch. destruct (bool_decide _); [by eexists _, _, _|].
  destruct (applyObservedResultBatch observed (r, w)) as [res [r' w']]. by eexists _, _, _.
Qed.

Section request.
Context `{SLL : StatelessLaws} `{Env : StoreEnv}.

Lemma synced_same r w w' : same_db w w' -> synced r w -> synced r w'.
Proof.
  intros [T Q] (Hwf & Hinv & Hk & Hag). split_and!; [done| |done|].
  - revert Hinv. unfold led_inv. simpl. unfold db_wf. by rewrite T, Q.
  - intros c. unfold led_active, led_open. simpl. rewrite T. apply Hag.
Qed.

Lemma accepted_ids t probe now incoming :
  ids_ok t -> Forall (fun o => canonical_id (ck_ID (ob_Check o))) (omap (accept t probe now) incoming).
Proof.
  intros Hids. apply Forall_forall. intros o Ho. apply list_elem_of_In, list_elem_of_omap in Ho as (x & _ & Hx).
  unfold accept, known_check in Hx. destruct (normalizeCheckID _) as [e|c]; [done|].
  destruct (t_checks t !! c) as [row|] eqn:Hl; [|done]. destruct (is_active row); [|done].
  injection Hx as <-. simpl. apply Hids. eauto.
Qed.

(** Ingestion keeps runtime and database in agreement.  From a state in which
    they agree on the incidents of the active checks, a [ProcessBatch] that
    succeeds has applied exactly the accepted results and leaves them in
    agreement; one that fails leaves the runtime as it was, and the agreement too
    if the tables are unchanged; and a batch with a result that claims to come
    from another probe is answered with 400 or fails with the database, and
    changes neither. *)
Lemma process_batch_keeps_agreement now probe incoming r w res r' w' :
  synced r w ->
  ProcessBatch now (Some probe) incoming (r, w) = (res, (r', w')) ->
  let observed := omap (accept (w_tables w) probe now) incoming in
  match res with
  | inr _ => synced r' w' /\ exists w1, same_db w w1 /\
      ApplyResultBatch observed (Some r, Some w1) = (inr tt, (Some r', Some w'))
  | inl e => r' = r /\ (w_tables w' = w_tables w /\ w_seqs w' = w_seqs w -> synced r' w')
  end /\
  (existsb (fun x => foreign (cr_ProbeID x) probe) incoming = true ->
   r' = r /\ same_db w w' /\ exists e, res = inl e /\
     (writeProcessorError e = Some (400%Z, "probe_id does not match authenticated probe") \/
      exists n f, fault_at n = Some f)).
Proof.
  intros Hs Hrun observed. unfold ProcessBatch in Hrun. case_bool_decide as Hne.
  { injection Hrun as <- <- <-. split; [split; [done|]|].
    - intros Hdb. by apply (synced_same r w).
    - by destruct incoming. }
  pose proof (normalize_batch_run now probe incoming w) as Hn.
  destruct (normalizeBatch now probe incoming w) as [[e|out] w1].
  { injection Hrun as <- <- <-. destruct Hn as [Hdb Hwhy]. split; [split; [done|]|].
    - intros _. by apply (synced_same r w).
    - intros _. split_and!; [done|done|]. exists e. split; [done|].
      destruct Hwhy as [[-> _]|?]; [by left|by right]. }
  destruct Hn as (-> & Hnf & Hdb). fold observed in Hrun.
  destruct (apply_at_pointers observed r w1) as (res1 & r1 & w2 & Happ & Hat).
  rewrite Hat in Hrun. split; [|by rewrite Hnf].
  assert (Hs1 : synced r w1) by (by apply (synced_same r w)).
  assert (Hids : Forall (fun o => led_id (W := World) (ck_ID (ob_Check o))) observed)
    by (apply accepted_ids, Hs).
  pose proof (result_batch_synced observed r w1 res1 r1 w2 Hs1 Hids Happ) as Hb.
  destruct res1 as [e|[]]; injection Hrun as <- <- <-.
  - apply result_batch_restores in Happ. injection Happ as ->. split; [done|].
    intros [T Q]. by apply (synced_same r w).
  - split; [done|]. by exists w1.
Qed.

Lemma add_probe_known id r :
  id <> "" -> exists p, rt_probes (Runtime.AddProbe id r).2 !! id = Some p /\
    rt_quorums (Runtime.AddProbe id r).2 = rt_quorums r /\
    forall k, k <> id -> rt_probes (Runtime.AddProbe id r).2 !! k = rt_probes r !! k.
Proof.
  intros Hne. unfold Runtime.AddProbe, addProbeLocked. rewrite bool_decide_eq_false_2 by done.
  destruct (rt_probes r !! id) as [p|] eqn:Hp; simpl; [by exists p|].
  exists (NewProbeMachine id). split_and!; [by rewrite lookup_insert_eq|done|].
  intros k Hk. by rewrite lookup_insert_ne.
Qed.

Lemma synced_quorums r r' w :
  runtime_wf r' -> rt_quorums r' = rt_quorums r -> synced r w -> synced r' w.
Proof.
  intros Hwf E (_ & Hinv & Hk & Hag). split_and!; [done|done| |].
  - intros c. rewrite E. apply Hk.
  - intros c Hc. unfold runtime_open. rewrite E. by apply Hag.
Qed.

(** A probe's heartbeat is taken whether or not the runtime knew the probe.
    From a state in which runtime and database agree, the heartbeat of an
    authenticated probe is refused only with 400 for a foreign ID, without any
    change, or because the write failed, and then no check changes; if it is
    taken, the probe is online at the server's time, every other probe and every
    check is as before, and runtime and database still agree. *)
Lemma heartbeat_request_recorded now probe req r w res r' w' :
  synced r w -> pb_ProbeID probe <> "" ->
  Heartbeat now (Some probe) req (r, w) = (res, (r', w')) ->
  rt_quorums r' = rt_quorums r /\
  match res with
  | inr _ => foreign (hr_ProbeID req) probe = false /\ synced r' w' /\
      rt_probes r' !! pb_ProbeID probe =
        Some (MkProbeRuntimeState (pb_ProbeID probe) ProbeStateOnline (Some now) "") /\
      forall k, k <> pb_ProbeID probe -> rt_probes r' !! k = rt_probes r !! k
  | inl e =>
      (foreign (hr_ProbeID req) probe = true /\ r' = r /\ w' = w /\
       writeProcessorError e = Some (400%Z, "probe_id does not match authenticated probe")) \/
      (exists e0, e = Wrapf "apply heartbeat" e0 /\
       PersistMonitoringWrite (heartbeatWrite (pb_ProbeID probe) now) w = (inl e0, w'))
  end.
Proof.
  intros Hs Hne. unfold Heartbeat. destruct (foreign (hr_ProbeID req) probe).
  { intros [= <- <- <-]. split; [done|]. by left. }
  destruct (add_probe_known (pb_ProbeID probe) r Hne) as (p & Hp & Hq & Hother).
  set (r1 := (Runtime.AddProbe (pb_ProbeID probe) r).2) in *.
  assert (Hwf1 : runtime_wf r1) by (apply addProbeLocked_wf, Hs).
  unfold at_pointers, ApplyHeartbeat. rewrite (heartbeat_run _ _ _ _ p Hwf1 Hp).
  change (store_PersistMonitoringWrite (heartbeatWrite (pb_ProbeID probe) now) w)
    with (PersistMonitoringWrite (heartbeatWrite (pb_ProbeID probe) now) w).
  destruct (PersistMonitoringWrite (heartbeatWrite (pb_ProbeID probe) now) w) as [[e|x] w1] eqn:Hst;
    intros [= <- <- <-]; simpl; (split; [done|]).
  - right. eauto.
  - split_and!; [done| |by rewrite lookup_insert_eq|].
    + assert (Hwf' : runtime_wf (set_probe (pb_ProbeID probe)
        (MkProbeRuntimeState (pb_ProbeID probe) ProbeStateOnline (Some now) "") r1)).
      { apply set_probe_wf; [done|]. split_and!; [done|done|]. split; [by left|by eauto]. }
      destruct (write_ledger (heartbeatWrite (pb_ProbeID probe) now) w x w1) as (Hinv & Hact & Hop);
        [apply Hs|by split; [left|]|exact Hst|].
      apply (synced_quorums r); [done|by rewrite <-Hq|].
      destruct Hs as (Hwf & Hinv0 & Hk & Hag). split_and!; [done|done|done|].
      intros c Hc. rewrite Hact in Hc. rewrite Hop by done. rewrite (Hag c Hc). symmetry.
      pose proof (led_id_nonempty c (led_active_id w c Hinv0 Hc)) as Hc0.
      unfold incident_effect. cbn [mw_IncidentCheckID heartbeatWrite].
      by rewrite bool_decide_eq_false_2 by congruence.
    + intros k Hk. rewrite lookup_insert_ne by done. by apply Hother.
Qed.
End request.
