(* ===== verification/System.v ===== *)
(** The runtime and the store together: a restart resumes where the database
    stands. *)

From S2P Require Import Prelude GoStrings Stateless Types Database StoreNotifications.
From S2P Require Import StoreMonitoring StoreChecks StoreInvariant StoreProperties ProbeMachine.
From S2P Require Import CheckMachine QuorumMachine Runtime Results Ledger Heartbeat Sweepers.
From S2P Require Import SweepProperties Recovery StoreLedger ProbeIngest.

(** * Startup *)

Section startup.
Context `{SLL : StatelessLaws} `{Env : StoreEnv}.
Context (probe_order : gmap string ProbeRuntimeState -> list string)
        (quorum_order : string -> gmap string QuorumMachine -> list string).
Hypothesis probe_order_ok : forall m, range_of m (probe_order m).
Hypothesis quorum_order_ok : forall p m, range_of m (quorum_order p m).

(** A read either fails for the driver's reasons or returns what the tables hold. *)
Lemma read_run {A} (F : Tables -> A) w :
  match call (t ← get_tables; mret (F t)) w with
  | (inl e, _) => exists n f, fault_at n = Some f
  | (inr a, w') => a = F (w_tables w) /\ w_tables w' = w_tables w /\ w_seqs w' = w_seqs w
  end.
Proof.
  unfold call. destruct (fault_at (w_tick w)) as [[]|] eqn:Hf; simpl; eauto.
Qed.

Lemma wrapped_read {A} prefix (m : DB A) w :
  match wrapped prefix m w with
  | (inl _, w') => exists e, m w = (inl e, w')
  | (inr a, w') => m w = (inr a, w')
  end.
Proof. unfold wrapped. destruct (m w) as [[e|a] w']; eauto. Qed.

(** The checks the store lists. *)
Definition listed_checks (t : Tables) : list Check :=
  scanCheck <$> order_by check_order (select (fun _ c => is_active c) (t_checks t)).
Definition listed_probes (t : Tables) : list PersistedProbeState :=
  (fun kp => MkPersistedProbeState kp.1 (p_last_seen_at kp.2)) <$>
    order_by (fun a b => text_le a.1 b.1)
      (select (fun _ p => bool_decide (p_revoked_at p = None)) (t_probes t)).
Definition listed_states (t : Tables) : list PersistedCheckState :=
  scan_state <$> order_by (fun a b => lex_le uuid_le text_le a.1 b.1) (map_to_list (t_states t)).
Definition listed_opens (t : Tables) : list string :=
  order_by uuid_le ((fun ki => i_check_id ki.2) <$>
    select (fun _ i => bool_decide (i_resolved_at i = None) && active_check t (i_check_id i))
      (t_incidents t)).

Lemma elem_of_listed_checks t c : c ∈ ck_ID <$> listed_checks t <-> active_check t c = true.
Proof.
  unfold listed_checks. rewrite <-list_fmap_compose, list_elem_of_fmap. split.
  - intros ([k row] & -> & Hin). rewrite order_by_perm in Hin.
    apply (elem_of_select (fun _ c => is_active c)) in Hin as [Hl Ha]. simpl.
    unfold active_check. by rewrite Hl.
  - intros Ha. destruct (active_is_Some _ _ Ha) as [row Hl]. exists (c, row). split; [done|].
    rewrite order_by_perm. apply (elem_of_select (fun _ c => is_active c)). split; [done|].
    unfold active_check in Ha. by rewrite Hl in Ha.
Qed.

Lemma elem_of_listed_opens t c :
  c ∈ listed_opens t <-> open_incident c t = true /\ active_check t c = true.
Proof.
  unfold listed_opens. rewrite order_by_perm, list_elem_of_fmap, open_incident_true. split.
  - intros ([k i] & -> & Hin).
    apply (elem_of_select (fun _ i => bool_decide (i_resolved_at i = None) &&
             active_check t (i_check_id i))) in Hin as [Hl Hf].
    apply andb_true_iff in Hf as [Hr Ha]. apply bool_decide_eq_true in Hr. simpl. split; [|done].
    exists k, i. by rewrite is_open_of_true.
  - intros [(k & i & Hl & Ho) Ha]. apply is_open_of_true in Ho as [<- Hr]. exists (k, i).
    split; [done|].
    apply (elem_of_select (fun _ i => bool_decide (i_resolved_at i = None) &&
             active_check t (i_check_id i))).
    by rewrite bool_decide_eq_true_2, Ha.
Qed.

Lemma listed_states_ok t : rows_ok t -> Forall row_ok (listed_states t).
Proof.
  intros Hok. apply Forall_forall. intros s Hs. apply list_elem_of_In in Hs.
  unfold listed_states in Hs. apply list_elem_of_fmap in Hs as ([k row] & -> & Hs).
  rewrite order_by_perm in Hs. apply elem_of_map_to_list in Hs. by apply (Hok k row).
Qed.

Lemma NoDup_listed_states t : NoDup (key_of <$> listed_states t).
Proof.
  unfold listed_states. rewrite <-list_fmap_compose, order_by_perm.
  assert (E : (key_of ∘ scan_state) <$> map_to_list (t_states t) = (map_to_list (t_states t)).*1).
  { apply list_fmap_ext. intros i [[c p] row] _. done. }
  rewrite E. apply NoDup_fst_map_to_list.
Qed.

Lemma NoDup_listed_probes t : NoDup (pps_ProbeID <$> listed_probes t).
Proof.
  unfold listed_probes. rewrite <-list_fmap_compose, order_by_perm.
  apply (NoDup_fst_filter (fun kp : string * ProbeRow => bool_decide (p_revoked_at kp.2 = None))),
    NoDup_fst_map_to_list.
Qed.

(** The reads of [LoadRuntime], in order. *)
Lemma load_run w :
  match LoadRuntime probe_order quorum_order w with
  | (inr r, w') => w_tables w' = w_tables w /\ w_seqs w' = w_seqs w /\
      buildRuntime probe_order quorum_order (listed_checks (w_tables w)) (listed_probes (w_tables w))
        (listed_states (w_tables w)) (listed_opens (w_tables w)) = inr r
  | (inl e, _) => (exists n f, fault_at n = Some f) \/
      buildRuntime probe_order quorum_order (listed_checks (w_tables w)) (listed_probes (w_tables w))
        (listed_states (w_tables w)) (listed_opens (w_tables w)) = inl e
  end.
Proof.
  unfold LoadRuntime, mbind, St_bind.
  pose proof (wrapped_read "list checks" store_ListAllChecks w) as H1.
  destruct (wrapped _ store_ListAllChecks w) as [[e|cs] w1].
  { left. destruct H1 as [e' H1]. pose proof (read_run listed_checks w) as R.
    change (call _ w) with (store_ListAllChecks w) in R. by rewrite H1 in R. }
  pose proof (read_run listed_checks w) as R1.
  change (call _ w) with (store_ListAllChecks w) in R1. rewrite H1 in R1. destruct R1 as (-> & T1 & S1).
  pose proof (wrapped_read "list active probes" store_RecoverableProbeStates w1) as H2.
  pose proof (read_run listed_probes w1) as R2.
  change (call _ w1) with (store_RecoverableProbeStates w1) in R2.
  destruct (wrapped _ store_RecoverableProbeStates w1) as [[e|ps] w2].
  { left. destruct H2 as [e' H2]. by rewrite H2 in R2. }
  rewrite H2 in R2. destruct R2 as (-> & T2 & S2).
  pose proof (wrapped_read "list persisted check states" store_PersistedCheckStates w2) as H3.
  pose proof (read_run listed_states w2) as R3.
  change (call _ w2) with (store_PersistedCheckStates w2) in R3.
  destruct (wrapped _ store_PersistedCheckStates w2) as [[e|ss] w3].
  { left. destruct H3 as [e' H3]. by rewrite H3 in R3. }
  rewrite H3 in R3. destruct R3 as (-> & T3 & S3).
  pose proof (wrapped_read "list open incidents" store_OpenIncidentCheckIDs w3) as H4.
  pose proof (read_run listed_opens w3) as R4.
  change (call _ w3) with (store_OpenIncidentCheckIDs w3) in R4.
  destruct (wrapped _ store_OpenIncidentCheckIDs w3) as [[e|os] w4].
  { left. destruct H4 as [e' H4]. by rewrite H4 in R4. }
  rewrite H4 in R4. destruct R4 as (-> & T4 & S4).
  unfold st_lift. rewrite T3, T2, T1 in *. destruct (buildRuntime _ _ _ _ _ _); [by right|].
  split_and!; congruence.
Qed.

Lemma restart_run w :
  led_inv w ->
  match LoadRuntime probe_order quorum_order w with
  | (inr r, w') => synced r w' /\ same_db w w' /\
      forall c, is_Some (rt_quorums r !! c) -> is_Some (t_checks (w_tables w) !! c)
  | (inl _, _) => exists n f, fault_at n = Some f
  end.
Proof.
  intros (Hwf & Hids & Hrows). pose proof (load_run w) as Hrun.
  destruct (build_recovers probe_order quorum_order probe_order_ok quorum_order_ok
    (listed_checks (w_tables w)) (listed_probes (w_tables w)) (listed_states (w_tables w))
    (listed_opens (w_tables w))) as (r0 & Hb & Hrec);
    [by apply listed_states_ok|apply NoDup_listed_states|apply NoDup_listed_probes|].
  destruct (LoadRuntime probe_order quorum_order w) as [[e|r] w'].
  { destruct Hrun as [?|Hrun]; [done|]. by rewrite Hb in Hrun. }
  destruct Hrun as (T & S & Hb'). rewrite Hb in Hb'. injection Hb' as ->. split; [|split; [done|]].
  2: { intros c Hc. apply (rec_checks _ _ _ _ _ Hrec) in Hc as [Hc _].
       apply elem_of_listed_checks in Hc. by apply active_is_Some. }
  split_and!.
  - apply Hrec.
  - unfold led_inv. simpl. unfold db_wf. by rewrite T, S.
  - intros c Hc. apply (rec_checks _ _ _ _ _ Hrec) in Hc as [Hc _].
    apply elem_of_listed_checks in Hc. by apply Hids, active_is_Some.
  - intros c Hc. simpl in Hc. rewrite T in Hc. simpl. rewrite T.
    assert (Hq : is_Some (rt_quorums r !! c)).
    { apply (rec_checks _ _ _ _ _ Hrec). split; [by apply elem_of_listed_checks|].
      by apply canonical_nonempty, Hids, active_is_Some. }
    destruct Hq as [q Hq]. unfold runtime_open. rewrite Hq, (rec_flag _ _ _ _ _ Hrec c q Hq).
    apply bool_eq_iff. rewrite bool_decide_eq_true, elem_of_listed_opens. naive_solver.
Qed.

(** C7. A restart resumes where the database stands.  On a sound database, for
    every order Go may range over the maps, [LoadRuntime] fails only if a
    database call fails; otherwise the runtime it builds is well formed, knows
    the checks by their IDs, and agrees with the database on the incident of
    every active check, and the tables are untouched. *)
Theorem restart_establishes_agreement w :
  led_inv w ->
  match LoadRuntime probe_order quorum_order w with
  | (inr r, w') => synced r w' /\ w_tables w' = w_tables w
  | (inl _, _) => exists n f, fault_at n = Some f
  end.
Proof.
  intros Hinv. pose proof (restart_run w Hinv) as Hr.
  destruct (LoadRuntime probe_order quorum_order w) as [[e|r] w']; [done|]. by destruct Hr as (? & [? _] & _).
Qed.
End startup.
