(* ===== verification/LostIncident.v ===== *)
(** An incident that a probe sweep opens is never recorded: what the runtime and
    the database do with it until a majority reports the check up again. *)

From S2P Require Import Prelude GoStrings Stateless Types Database StoreNotifications.
From S2P Require Import StoreMonitoring StoreChecks StoreInvariant StoreProperties ProbeMachine.
From S2P Require Import CheckMachine QuorumMachine Runtime Results Ledger Heartbeat Sweepers.
From S2P Require Import SweepProperties Recovery StoreLedger ProbeIngest System.

(** * The machine of the check *)

(** The incident is open, and no majority has confirmed the check up. *)
Definition held_open (q : QuorumMachine) : Prop :=
  cq_IncidentOpen (qm_state q) = true /\ cq_LastStableState (qm_state q) = QuorumStateDown /\
  2 * size (confirmed CheckStateUp q) <= size (qm_checks q).

Lemma next_stays_down m : held_open m ->
  cq_LastStableState (next_state m) = QuorumStateDown /\ cq_IncidentOpen (next_state m) = true.
Proof.
  intros (Ho & Hl & Hsz). pose proof (votes_up_confirmed m Ho) as Hup.
  assert (Hv : voted_state m <> QuorumStateUp).
  { destruct (voted_state_cases m) as [[_ Hm]|[[-> _]|[[-> _]|[-> _]]]]; [|enum_congruence..].
    unfold majority in Hm. lia. }
  assert (Hp : promoted (qm_state m) (voted_state m) = cq_LastStableState (qm_state m)).
  { destruct (promoted_cases (qm_state m) (voted_state m)) as [?|(_ & _ & Hne & [?|?])]; [done|done|].
    rewrite Hl in Hne. congruence. }
  unfold next_state. simpl. rewrite Hp. split; [done|]. by rewrite incident_after_same.
Qed.

Lemma next_held_open m : held_open m -> held_open (set_state (next_state m) m).
Proof.
  intros Hm. destruct (next_stays_down m Hm) as [Hl Ho]. destruct Hm as (_ & _ & Hsz).
  split; [exact Ho|]. split; [exact Hl|exact Hsz].
Qed.

(** A child without a confirmed up in its place keeps it so. *)
Lemma set_child_held_open p c q :
  held_open q -> ce_LastOutcome c <> CheckStateUp -> held_open (set_checks (<[p := c]> (qm_checks q)) q).
Proof.
  intros (Ho & Hl & Hsz) Hc. split; [done|]. split; [done|].
  assert (Hle : size (confirmed CheckStateUp (set_checks (<[p := c]> (qm_checks q)) q)) <= size (confirmed CheckStateUp q)).
  { apply map_subseteq_size. unfold confirmed. simpl. apply map_subseteq_spec. intros k v.
    rewrite !map_lookup_filter_Some. simpl. intros [Hk [Hv Hs]].
    apply lookup_insert_Some in Hk as [[_ <-]|[_ Hk]]; [done|]. by split_and!. }
  assert (Hge : size (qm_checks q) <= size (<[p := c]> (qm_checks q))).
  { rewrite map_size_insert. case_match; simpl; lia. }
  eapply Nat.le_trans; [|exact Hge]. lia.
Qed.

Lemma child_held_open p ev c q :
  held_open q -> event_outcome ev <> CheckStateUp -> held_open (child_effect p ev c q).
Proof.
  intros Hq Hev. unfold child_effect. apply next_held_open, set_child_held_open; [done|].
  by rewrite event_effect_outcome.
Qed.

Lemma add_held_open p q : held_open q -> held_open (QuorumMachine.AddProbe p q).2.
Proof.
  intros Hq. rewrite AddProbe_effect. destruct (qm_checks q !! p); [done|].
  unfold add_effect. by apply next_held_open, set_child_held_open.
Qed.

Lemma confirmed_disjoint m :
  size (confirmed CheckStateUp m) + size (confirmed CheckStateDown m) <= size (qm_checks m).
Proof.
  assert (Hd : map_disjoint (confirmed CheckStateUp m) (confirmed CheckStateDown m)).
  { apply map_disjoint_spec. unfold confirmed. intros k x y. rewrite !map_lookup_filter_Some. simpl.
    intros [Hx [Hux _]] [Hy [Hdy _]]. assert (x = y) as -> by congruence. rewrite Hux in Hdy. enum_congruence. }
  rewrite <-map_size_disj_union by done. apply map_subseteq_size, map_union_least; apply map_filter_subseteq.
Qed.

(** The recompute that opens the incident has a majority confirmed down. *)
Lemma opened_held_open m :
  quorum_state_wf (qm_state m) -> cq_IncidentOpen (qm_state m) = false ->
  cq_IncidentOpen (next_state m) = true -> held_open (set_state (next_state m) m).
Proof.
  intros Hwf Hf Ho. unfold held_open. simpl in *. unfold incident_after in Ho |- *. rewrite Hf in *.
  destruct (_ && (promoted _ _ == QuorumStateDown)) eqn:E; [|by case_match].
  apply andb_true_iff in E as [Hu Hd]. apply bool_decide_eq_true in Hu, Hd.
  destruct (promoted_cases (qm_state m) (voted_state m)) as [Hp|(Hp & _)]; [enum_congruence|].
  destruct (voted_state_cases m) as [[? _]|[[_ Hm]|[[? _]|[? _]]]]; [enum_congruence| |enum_congruence..].
  apply majority_down_confirmed in Hm. pose proof (confirmed_disjoint m) as Hc.
  split; [done|]. split; [done|]. change (confirmed CheckStateUp (set_state _ m)) with (confirmed CheckStateUp m). lia.
Qed.

Section runtime.
Context `{SLL : StatelessLaws}.

(** An open flag of the check is held open. *)
Definition settled (c : string) (r : Runtime) : Prop :=
  runtime_wf r /\ forall q, rt_quorums r !! c = Some q -> cq_IncidentOpen (qm_state q) = true -> held_open q.

Lemma settled_open c r :
  settled c r -> runtime_open r c = true -> exists q, rt_quorums r !! c = Some q /\ held_open q.
Proof. intros [_ Hs]. unfold runtime_open. destruct (rt_quorums r !! c) as [q|]; [eauto|done]. Qed.

Lemma held_runtime_open c r q : rt_quorums r !! c = Some q -> held_open q -> runtime_open r c = true.
Proof. intros Hq (Ho & _). unfold runtime_open. by rewrite Hq. Qed.

(** * The probe sweep *)

Lemma degrade_settled p q : quorum_state_wf (qm_state q) ->
  (cq_IncidentOpen (qm_state q) = true -> held_open q) ->
  (held_open q -> held_open (degrade_quorum p EvLose q)) /\
  (cq_IncidentOpen (qm_state (degrade_quorum p EvLose q)) = true -> held_open (degrade_quorum p EvLose q)).
Proof.
  intros Hwf Hq. assert (Hk : held_open q -> held_open (degrade_quorum p EvLose q)).
  { intros Hh. unfold degrade_quorum. destruct (qm_checks q !! p); [|done]. by apply child_held_open. }
  split; [exact Hk|]. destruct (cq_IncidentOpen (qm_state q)) eqn:Ho; [auto|].
  unfold degrade_quorum. destruct (qm_checks q !! p) as [ch|]; [|congruence].
  intros Hn. by apply (opened_held_open (set_checks (<[p := event_effect EvLose ch]> (qm_checks q)) q)).
Qed.

Lemma sweep_probe_settled c order now after p r :
  range_of (rt_quorums r) order -> settled c r ->
  settled c (sweepProbe order now after p r).2 /\
  (runtime_open r c = true -> runtime_open (sweepProbe order now after p r).2 c = true).
Proof.
  intros Hord [Hwf Hs]. destruct (rt_probes r !! p) as [st|] eqn:Hp; [|unfold sweepProbe; rewrite Hp; by split].
  destruct (sweepProbe_run order now after p r st Hwf Hord Hp) as [-> Hwf']. simpl in *.
  destruct (heartbeat_expired now after st); [|by split].
  assert (Hd : forall q, rt_quorums r !! c = Some q -> (held_open q -> held_open (degrade_quorum p EvLose q)) /\
    (cq_IncidentOpen (qm_state (degrade_quorum p EvLose q)) = true -> held_open (degrade_quorum p EvLose q))).
  { intros q Hq. apply degrade_settled; [|by apply Hs].
    destruct (runtime_wf_quorum _ _ _ Hwf Hq) as [(_ & Hst & _) _]. done. }
  split; [split; [done|]|].
  - intros q'. simpl. rewrite lookup_fmap. destruct (rt_quorums r !! c) as [q|] eqn:Hq; [|done].
    intros [= <-]. by apply Hd.
  - intros Ho. destruct (settled_open c r (conj Hwf Hs) Ho) as (q & Hq & Hh).
    apply (held_runtime_open c _ (degrade_quorum p EvLose q)); [simpl; by rewrite lookup_fmap, Hq|].
    exact (proj1 (Hd q Hq) Hh).
Qed.

Lemma sweep_settled `{SweeperStore W} c order now after r (w : W) out r' :
  (forall p m, range_of m (order p m)) -> settled c r ->
  SweepProbes (fun _ r => r) order now after (Some r) (Some w) = (out, Some r') ->
  settled c r' /\ (runtime_open r c = true -> runtime_open r' c = true).
Proof.
  intros Hord Hs. unfold SweepProbes. destruct (after <=? 0)%Z; [by intros [= _ <-]|].
  generalize 0%Z. generalize (sorted_keys (rt_probes r)). intros l k.
  destruct (sweepProbes _ _ _ _ _ _ _) as [res r1] eqn:Hrun. intros [= _ <-].
  revert k r res Hs Hrun. induction l as [|p l IH]; intros k r res Hs; simpl; [by intros [= _ <-]|].
  destruct (sweep_probe_settled c (order p (rt_quorums r)) (UTC now) after p r (Hord _ _) Hs) as [H1 H2].
  destruct (sweepProbe _ _ _ _ r) as [[e|hit] r2]; [by intros [= _ <-]|]. simpl in *.
  intros Hrun. destruct (IH _ _ _ H1 Hrun) as [H3 H4]. auto.
Qed.
End runtime.

(** * Result batches *)

(** A write that opens and closes nothing about check [c]. *)
Definition silent_about `{StoreEnv} (c : string) (wr : MonitoringWrite) : Prop :=
  mw_IncidentCheckID wr = "" \/ (canonical_id (mw_IncidentCheckID wr) /\ mw_IncidentCheckID wr <> c).

(** A result of a check named by its ID; those of check [c] report it down. *)
Definition no_recovery `{StoreEnv} (c : string) (o : ObservedResult) : Prop :=
  canonical_id (ck_ID (ob_Check o)) /\ (ck_ID (ob_Check o) = c -> cr_Up (ob_Result o) = false).

(** The incident of check [c] is open in the runtime and held so. *)
Definition stuck_open (c : string) (r : Runtime) : Prop :=
  runtime_wf r /\ exists q, rt_quorums r !! c = Some q /\ held_open q.

Section results.
Context `{SLL : StatelessLaws} `{Env : StoreEnv}.

(** Where the stable state stays down there is nothing to record. *)
Lemma stays_down_write check q prev cur checkID probeID child :
  cq_LastStableState prev = QuorumStateDown -> cq_LastStableState cur = QuorumStateDown ->
  monitoringWriteForCheckEvent check q prev cur (stateWrite checkID probeID child) = inr (stateWrite checkID probeID child).
Proof.
  intros Hp Hc. unfold monitoringWriteForCheckEvent. rewrite Hp, Hc.
  rewrite (bool_decide_eq_false_2 (QuorumStateDown = QuorumStateUp)) by enum_congruence.
  by rewrite andb_false_r.
Qed.

Lemma result_silent c o r wr rb r' :
  stuck_open c r -> no_recovery c o ->
  applyObservedResultLocked (ob_Check o) (ob_Result o) r = (inr (wr, rb), r') ->
  stuck_open c r' /\ silent_about c wr.
Proof.
  intros [Hwf (q & Hq & Hh)] [Hcan Hdown] Hrun.
  assert (Hne : ck_ID (ob_Check o) <> "") by (by apply canonical_nonempty).
  destruct (result_effect _ _ _ _ _ _ (runtime_open r) Hwf Hne eq_refl Hrun) as (Hwf' & _ & Hname & _ & Hother).
  destruct (decide (ck_ID (ob_Check o) = c)) as [Hid|Hid].
  2: { split; [split; [done|]; exists q; by rewrite Hother|].
    unfold silent_about. destruct Hname as [->| ->]; [by left|by right]. }
  specialize (Hdown Hid). subst c.
  destruct (rt_probes r !! cr_ProbeID (ob_Result o)) as [p|] eqn:Hp;
    [|unfold applyObservedResultLocked in Hrun; by rewrite Hp in Hrun].
  rewrite (applyObservedResultLocked_eq _ _ _ _ Hp) in Hrun.
  destruct (result_run (ob_Check o) (ob_Result o) r p Hwf Hp) as (ch & tr & qt & Hc & _ & Hr & _).
  rewrite Hr in Hrun. cbn [cu_Quorum] in Hrun.
  assert (Ht : held_open (target_quorum (ck_ID (ob_Check o)) (cr_ProbeID (ob_Result o)) r)).
  { unfold target_quorum, ensureQuorumLocked. rewrite Hq. by apply add_held_open. }
  assert (Hev : event_outcome (result_event (ob_Check o) (ob_Result o)) <> CheckStateUp).
  { unfold result_event. rewrite Hdown. simpl. enum_congruence. }
  pose proof (child_held_open (cr_ProbeID (ob_Result o)) _ ch _ Ht Hev) as Hh'.
  rewrite stays_down_write in Hrun.
  - injection Hrun as <- _ <-. split; [|by left]. split; [done|].
    eexists. split; [simpl; by rewrite lookup_insert_eq|exact Hh'].
  - unfold result_rollback, ensureQuorumLocked. rewrite Hq. apply Hh.
  - apply Hh'.
Qed.

Lemma observe_all_silent c observed : forall writes rbs r writes' rbs' r',
  Forall (no_recovery c) observed -> stuck_open c r -> Forall (silent_about c) writes ->
  observe_all observed writes rbs r = (inr (writes', rbs'), r') ->
  stuck_open c r' /\ Forall (silent_about c) writes'.
Proof.
  induction observed as [|o observed IH]; intros writes rbs r writes' rbs' r' Hall Hr Hw Hrun; simpl in Hrun.
  { injection Hrun as <- _ <-. done. }
  apply list.Forall_cons in Hall as [Ho Hall].
  destruct (applyObservedResultLocked _ _ r) as [[e|[wr rb]] r1] eqn:Hitem; [done|].
  destruct (result_silent c o r wr rb r1 Hr Ho Hitem) as [Hr1 Hwr].
  apply (IH _ _ _ _ _ _ Hall Hr1) in Hrun; [done|]. apply Forall_app. split; [done|]. by constructor.
Qed.

(** * The tables *)

(** No incident of check [c] is recorded, changed or closed, and no page about one
    is queued. *)
Definition unheard (c : string) : relation Tables := fun t t' =>
  (forall k i, i_check_id i = c -> t_incidents t' !! k = Some i <-> t_incidents t !! k = Some i) /\
  (forall k n i, t_notifications t' !! k = Some n -> t_incidents t' !! n_incident_id n = Some i -> i_check_id i = c ->
     exists n0, t_notifications t !! k = Some n0 /\ n_incident_id n0 = n_incident_id n).

#[local] Instance unheard_preorder c : PreOrder (unheard c).
Proof.
  split; [by intros t; split; eauto|]. intros t1 t2 t3 [I1 N1] [I2 N2]. split.
  - intros k i Hi. by rewrite I2, I1.
  - intros k n i Hn Hi Hc. destruct (N2 k n i Hn Hi Hc) as (n2 & Hn2 & E2).
    destruct (N1 k n2 i Hn2) as (n1 & Hn1 & E1); [rewrite E2; by apply I2|done|]. exists n1. by rewrite E1.
Qed.

Lemma unheard_open c t t' : unheard c t t' -> open_incident c t = false -> open_incident c t' = false.
Proof.
  intros [Hi _] Hf. apply not_true_iff_false. intros Ht. apply open_incident_true in Ht as (k & i & Hk & Ho).
  assert (Hc : i_check_id i = c) by (by apply is_open_of_true in Ho as [? _]).
  apply Hi in Hk; [|done]. assert (open_incident c t = true); [|congruence].
  apply open_incident_true. eauto.
Qed.

(** Statements beside incidents and pages. *)
Lemma unheard_same c t t' :
  t_incidents t' = t_incidents t -> t_notifications t' = t_notifications t -> unheard c t t'.
Proof. intros E1 E2. unfold unheard. rewrite E1, E2. split; eauto. Qed.

Lemma unheard_upsert c s : respects (unheard c) (upsertCheckStateTx s).
Proof.
  unfold upsertCheckStateTx, normalizeCheckStateWrite, normalizeTime. cbv zeta. frame.
  repeat case_match; by apply unheard_same.
Qed.

Lemma unheard_heartbeat c p at_ : respects (unheard c) (updateProbeHeartbeatTx p at_).
Proof. unfold updateProbeHeartbeatTx, normalizeTime. frame. by apply unheard_same. Qed.

Lemma unheard_validate c wr : respects (unheard c) (validateMonitoringWrite wr).
Proof. intros w. rewrite validate_tables. reflexivity. Qed.

(** A page about an incident of another check. *)
Lemma unheard_insert c id ev req now w i :
  t_incidents (w_tables w) !! id = Some i -> i_check_id i <> c ->
  unheard c (w_tables w) (w_tables (insertIncidentNotification id ev req now w).2).
Proof.
  intros Hi Hc. set (R := fun t t' => t_incidents t !! id = Some i -> unheard c t t' /\ t_incidents t' !! id = Some i).
  assert (HR : PreOrder R).
  { split; [by intros t Ht; split|]. intros t1 t2 t3 H12 H23 H1. destruct (H12 H1) as [U12 H2].
    destruct (H23 H2) as [U23 H3]. split; [by etransitivity|done]. }
  assert (Hres : respects R (insertIncidentNotification id ev req now)); [|by apply Hres].
  unfold insertIncidentNotification, insert_notification_row. frame; repeat (case_match; try reflexivity); simpl;
    try (intros Ht; by split).
  intros Ht. split; [|done]. split; [done|]. simpl. intros key page i' Hn Hi' Hc'.
  apply lookup_insert_Some in Hn as [[_ <-]|[_ Hn]]; [|by eauto]. simpl in Hi'. congruence.
Qed.

(** A call whose row is needed by what follows: [P] holds of the tables and the row
    where the statement succeeds. *)
Lemma unheard_then {A B} c (stmt : DB A) (k : A -> DB B) (P : A -> Tables -> Prop) w :
  respects (unheard c) stmt ->
  (forall a w1, stmt (next_tick w) = (inr a, w1) -> P a (w_tables w1)) ->
  (forall a w1, P a (w_tables w1) -> unheard c (w_tables w1) (w_tables (k a w1).2)) ->
  unheard c (w_tables w) (w_tables ((call stmt ≫= k) w).2).
Proof.
  intros Hs HP Hk. pose proof (respects_call (unheard c) stmt Hs w) as H1. unfold mbind, St_bind.
  destruct (call stmt w) as [[e|a] w1] eqn:Hrun; [done|]. etransitivity; [exact H1|].
  apply Hk, HP. by apply call_inr.
Qed.

Lemma unheard_incident_row c c0 now : c0 <> c -> respects (unheard c) (insert_incident_row c0 now).
Proof.
  intros Hne. unfold insert_incident_row. apply respects_update. intros w.
  destruct (t_checks (w_tables w) !! c0) as [row|]; [|reflexivity]. case_bool_decide; [reflexivity|].
  unfold mbind, St_bind, nextval_incidents. simpl.
  destruct (open_incident c0 (w_tables w)); [reflexivity|].
  match goal with |- context [bool_decide (is_Some ?x)] => destruct (bool_decide (is_Some x)) eqn:Hfresh end; [reflexivity|].
  apply bool_decide_eq_false, eq_None_not_Some in Hfresh. simpl. split.
  - intros k i Hi. simpl. rewrite lookup_insert_Some. split; [intros [[_ <-]|[_ ?]]; [by simpl in Hi|done]|].
    intros Hk. right. split; [congruence|done].
  - intros k n i Hn _ _. by eauto.
Qed.

Lemma inserted_incident_row c0 now w id w1 :
  insert_incident_row c0 now w = (inr (Some id), w1) ->
  exists i, t_incidents (w_tables w1) !! id = Some i /\ i_check_id i = c0.
Proof.
  unfold insert_incident_row, mbind, St_bind, get_tables, nextval_incidents. simpl.
  destruct (t_checks (w_tables w) !! c0) as [row|]; [|done]. case_bool_decide; [done|]. simpl.
  destruct (open_incident c0 (w_tables w)); [done|].
  match goal with |- context [bool_decide (is_Some ?x)] => destruct (bool_decide (is_Some x)) end; [done|].
  intros [= <- <-]. simpl. rewrite lookup_insert_eq. eauto.
Qed.

Lemma unheard_resolve_row c c0 now : c0 <> c -> respects (unheard c) (resolve_open_row c0 now).
Proof.
  intros Hne. unfold resolve_open_row. apply respects_update. intros w. simpl. split.
  - intros k i Hi. simpl. rewrite lookup_update_where.
    destruct (t_incidents (w_tables w) !! k) as [j|]; [|done]. simpl.
    destruct (is_open_of c0 j) eqn:Ho; [|done]. apply is_open_of_true in Ho as [Hj _].
    split; intros [= Heq]; subst i; simpl in *; congruence.
  - intros k n i Hn _ _. by eauto.
Qed.

Lemma resolved_row c0 now w id w1 :
  resolve_open_row c0 now w = (inr (Some id), w1) ->
  exists i, t_incidents (w_tables w1) !! id = Some i /\ i_check_id i = c0.
Proof.
  unfold resolve_open_row, mbind, St_bind, get_tables, put_tables. simpl. intros [= Hhead <-]. simpl.
  set (l := select (fun _ i => is_open_of c0 i) (t_incidents (w_tables w))) in *.
  destruct l as [|[k i] l0] eqn:El; [done|]. injection Hhead as ->.
  assert (Hin : (id, i) ∈ l) by (rewrite El; left). unfold l in Hin.
  apply (elem_of_select (fun _ i => is_open_of c0 i)) in Hin as [Hl Ho]. pose proof Ho as Ho'.
  apply is_open_of_true in Ho as [Hc _]. rewrite lookup_update_where, Hl. simpl. rewrite Ho'. by eexists.
Qed.

Lemma unheard_supersede c id at_ : respects (unheard c) (t ← get_tables; put_tables (supersede_down id at_ t)).
Proof.
  apply respects_put. intros t. split; [done|]. intros k n i Hn _ _. simpl in Hn.
  apply lookup_update_where_Some in Hn as (n0 & Hn0 & ->). exists n0. split; [done|]. by case_match.
Qed.

Lemma unheard_apply c c0 resolve req : c0 = "" \/ (canonical_id c0 /\ c0 <> c) ->
  respects (unheard c) (applyMonitoringIncidentTx c0 resolve req).
Proof.
  intros Hc. unfold applyMonitoringIncidentTx. case_bool_decide; [apply respects_ret; apply _|].
  destruct Hc as [?|[Hcan Hne]]; [done|]. unfold canonical_id in Hcan. rewrite Hcan.
  set (P := fun (row : option Z) t => forall id, row = Some id -> exists i, t_incidents t !! id = Some i /\ i_check_id i <> c).
  apply respects_bind; [apply _|apply respects_now; apply _|]. intros now. destruct resolve.
  - intros w. unfold resolveIncidentWithNotificationByCheckIDTx.
    apply (unheard_then c _ _ P); [by apply unheard_resolve_row| |].
    { intros row w1 Hrun id ->. destruct (resolved_row _ _ _ _ _ Hrun) as (i & Hi & Hci). exists i. split; [done|congruence]. }
    intros [id|] w1 HP; [|reflexivity]. destruct (HP id eq_refl) as (i & Hi & Hci).
    unfold mbind at 1, St_bind at 1.
    pose proof (respects_call (unheard c) _ (unheard_supersede c id (timestamptz now)) w1) as H1.
    assert (Hi2 : t_incidents (w_tables (call (t ← get_tables; put_tables (supersede_down id (timestamptz now) t)) w1).2) !! id = Some i).
    { unfold call. by destruct (fault_at (w_tick w1)) as [[]|]. }
    destruct (call _ w1) as [[e|[]] w2]; [exact H1|]. etransitivity; [exact H1|].
    unfold mbind, St_bind. pose proof (unheard_insert c id notificationEventUp req now w2 i Hi2 Hci) as H2.
    by destruct (insertIncidentNotification _ _ _ _ w2) as [[]].
  - apply respects_bind; [apply _| |intros; apply respects_ret; apply _]. intros w.
    unfold openIncidentWithNotificationByCheckIDTx. apply (unheard_then c _ _ P); [by apply unheard_incident_row| |].
    { intros row w1 Hrun id ->. destruct (inserted_incident_row _ _ _ _ _ Hrun) as (i & Hi & Hci). exists i. split; [done|congruence]. }
    intros [id|] w1 HP; [|reflexivity]. destruct (HP id eq_refl) as (i & Hi & Hci).
    unfold mbind, St_bind. pose proof (unheard_insert c id notificationEventDown req now w1 i Hi Hci) as H2.
    by destruct (insertIncidentNotification _ _ _ _ w1) as [[]].
Qed.

Lemma unheard_batch c ws : Forall (silent_about c) ws -> respects (unheard c) (PersistMonitoringBatch ws).
Proof.
  intros Hall. unfold PersistMonitoringBatch.
  apply respects_bind; [apply _|apply respects_for; [apply _|apply unheard_validate]|]. intros _.
  case_match; [apply respects_ret; apply _|]. apply respects_tx; [apply _|].
  apply respects_collect; [apply _|]. intros wr Hin. unfold persistMonitoringWriteTx.
  apply respects_bind; [apply _|apply unheard_validate|]. intros _. case_match; [apply respects_ret; apply _|].
  apply respects_bind; [apply _|apply respects_collect; [apply _|intros; apply unheard_upsert]|]. intros saved.
  apply respects_bind; [apply _|case_match; [apply unheard_heartbeat|apply respects_ret; apply _]|]. intros at_.
  apply respects_bind; [apply _| |intros; apply respects_ret; apply _]. apply unheard_apply.
  rewrite Forall_forall in Hall. apply Hall. by apply list_elem_of_In.
Qed.

(** * What follows *)

(** A batch of results, or another sweep of the probes. *)
Inductive later :=
| Reported (observed : list ObservedResult)
| Swept (order : string -> gmap string QuorumMachine -> list string) (now : Time) (after : Duration).

Definition happens (s : option Runtime * option World) (ev : later) : option Runtime * option World :=
  match ev with
  | Reported observed => (ApplyResultBatch observed s).2
  | Swept order now after => ((SweepProbes (fun _ r => r) order now after s.1 s.2).2, s.2)
  end.

(** No result reports the check up. *)
Definition quietly (c : string) (ev : later) : Prop :=
  match ev with
  | Reported observed => Forall (no_recovery c) observed
  | Swept order _ _ => forall p m, range_of m (order p m)
  end.

Lemma stuck_settled c r : stuck_open c r -> settled c r.
Proof. intros [Hwf (q & Hq & Hh)]. split; [done|]. intros q' Hq' _. congruence. Qed.

Lemma settled_stuck c r : settled c r -> runtime_open r c = true -> stuck_open c r.
Proof. intros Hs Ho. split; [apply Hs|by apply settled_open]. Qed.

Lemma stuck_runtime_open c r : stuck_open c r -> runtime_open r c = true.
Proof. intros [_ (q & Hq & Hh)]. by eapply held_runtime_open. Qed.

Lemma later_unheard c ev r w :
  quietly c ev -> stuck_open c r ->
  exists r' w', happens (Some r, Some w) ev = (Some r', Some w') /\ stuck_open c r' /\
    unheard c (w_tables w) (w_tables w').
Proof.
  intros Hev Hr. destruct ev as [observed|order now after]; cbn [happens quietly fst snd] in *.
  - pose proof (result_batch_restores observed (Some r) (Some w)) as Hres. unfold ApplyResultBatch in *.
    destruct (bool_decide (length observed = 0)); [by exists r, w|]. unfold applyObservedResultBatch in *.
    destruct (observe_all observed [] [] r) as [[e|[writes rbs]] r1] eqn:Hobs.
    { exists r1, w. split; [done|]. specialize (Hres _ _ _ eq_refl). by injection Hres as ->. }
    destruct (observe_all_silent c observed [] [] r writes rbs r1 Hev Hr (Forall_nil _) Hobs) as [Hr1 Hws].
    pose proof (unheard_batch c writes Hws w) as Hu.
    change (store_PersistMonitoringBatch writes w) with (PersistMonitoringBatch writes w) in *.
    destruct (PersistMonitoringBatch writes w) as [[e|saved] w']; [|by exists r1, w'].
    eexists _, w'. split; [done|]. specialize (Hres _ _ _ eq_refl). injection Hres as ->. by split.
  - destruct (SweepProbes (fun _ r => r) order now after (Some r) (Some w)) as [out [r'|]] eqn:Hrun.
    + destruct (sweep_settled c order now after r w out r' Hev (stuck_settled c r Hr) Hrun) as [Hs Ho].
      exists r', w. split; [done|]. split; [by apply settled_stuck; [|apply Ho, stuck_runtime_open]|reflexivity].
    + exfalso. unfold SweepProbes in Hrun. destruct (after <=? 0)%Z; [done|].
      by destruct (sweepProbes _ _ _ _ _ _ r).
Qed.

(** C14. An incident that a probe sweep opens is never recorded.  On any runtime
    and database, if a probe sweep opens the incident of a check, of which the
    database has none open, then whatever results follow that do not report the
    check up (of this check and of others, in any batches, with further probe
    sweeps between them, and with any database calls failing): the incident stays
    open in the runtime, and the database records no incident of the check and
    queues no page about one. *)
Theorem probe_sweep_loses_incident order now after r w c out r1 evs :
  runtime_wf r -> (forall p m, range_of m (order p m)) ->
  runtime_open r c = false -> open_incident c (w_tables w) = false ->
  SweepProbes (fun _ r => r) order now after (Some r) (Some w) = (out, Some r1) ->
  runtime_open r1 c = true -> Forall (quietly c) evs ->
  exists r2 w2, fold_left happens evs (Some r1, Some w) = (Some r2, Some w2) /\
    runtime_open r2 c = true /\ open_incident c (w_tables w2) = false /\
    unheard c (w_tables w) (w_tables w2).
Proof.
  intros Hwf Hord Hf Hrow Hsweep Ho Hevs.
  assert (Hr : settled c r).
  { split; [done|]. intros q Hq Hq'. unfold runtime_open in Hf. rewrite Hq in Hf. congruence. }
  destruct (sweep_settled c order now after r w out r1 Hord Hr Hsweep) as [Hr1 _].
  pose proof (settled_stuck c r1 Hr1 Ho) as Hs. clear Hr Hr1 Hsweep Ho Hf.
  assert (Hgo : exists r2 w2, fold_left happens evs (Some r1, Some w) = (Some r2, Some w2) /\
    stuck_open c r2 /\ unheard c (w_tables w) (w_tables w2)).
  { revert r1 w Hs Hrow. induction Hevs as [|ev evs Hev _ IH]; intros r1 w Hs Hrow; [by exists r1, w|].
    cbn [fold_left]. destruct (later_unheard c ev r1 w Hev Hs) as (r' & w' & -> & Hs' & Hu).
    destruct (IH r' w' Hs' (unheard_open _ _ _ Hu Hrow)) as (r2 & w2 & Hrun & Hs2 & Hu2).
    exists r2, w2. split; [done|]. split; [done|by etransitivity]. }
  destruct Hgo as (r2 & w2 & Hrun & Hs2 & Hu). exists r2, w2. split; [done|].
  split; [by apply stuck_runtime_open|]. split; [by eapply unheard_open|done].
Qed.
End results.
