(* ===== verification/Examples.v ===== *)
(** Concrete runs of the real operations on a small database: the theorems that
    have hypotheses are applied to them. *)

From S2P Require Import Prelude GoStrings Stateless Types Database StoreNotifications.
From S2P Require Import StoreMonitoring StoreChecks StoreInvariant StoreProperties ProbeMachine.
From S2P Require Import CheckMachine QuorumMachine Runtime Results Ledger Heartbeat Sweepers.
From S2P Require Import SweepProperties Recovery StoreLedger StoreProbes ProbeProcessor ProbeIngest System LostIncident.

(** Both halves of the state are there after a call. *)
Definition both {A R W} (x : A * (option R * option W)) : bool :=
  match x with (_, (Some _, Some _)) => true | _ => false end.

Lemma both_inv {A R W} (x : A * (option R * option W)) a :
  both x = true -> x.1 = a -> exists r w, x = (a, (Some r, Some w)).
Proof. destruct x as [a' [[r|] [w|]]]; simpl; try done. intros _ ->. eauto. Qed.

Definition sum_to_option {A B} (x : A + B) : option B :=
  match x with inl _ => None | inr b => Some b end.

(** * A database with one check, a runtime with three probes *)

Definition ex_world : World := run_store [OpCreateCheck ex_check 7].
Definition ex_fresh : Runtime := NewRuntime [ex_id] ["a"; "b"; "c"].

Lemma ex_world_inv : @led_inv World (@store_ledger calm_env) ex_world.
Proof.
  split_and!.
  - eapply (@steps_wf calm_env); [|exact empty_world_wf].
    apply (@exec_store_steps calm_env [OpCreateCheck ex_check 7] empty_world).
  - apply (@reachable_ids calm_env (scripted_env_laws _)).
    apply (@exec_store_steps calm_env [OpCreateCheck ex_check 7] empty_world).
  - intros k s Hl. vm_compute in Hl. destruct k as [? ?]. discriminate.
Qed.

Lemma ex_fresh_flag c : runtime_open ex_fresh c = false.
Proof.
  unfold runtime_open, ex_fresh. destruct (NewRuntime_lookup [ex_id] ["a"; "b"; "c"]) as [-> _].
  repeat case_match; by simplify_eq.
Qed.

Lemma ex_world_closed c : open_incident c (w_tables ex_world) = false.
Proof.
  apply not_true_is_false. intros Ho. apply open_incident_true in Ho as (k & i & Hl & _).
  vm_compute in Hl. by destruct k.
Qed.

Lemma ex_synced : @synced World (@store_ledger calm_env) ex_fresh ex_world.
Proof.
  split_and!.
  - apply NewRuntime_wf.
  - exact ex_world_inv.
  - intros c Hc. unfold ex_fresh in Hc.
    destruct (NewRuntime_lookup [ex_id] ["a"; "b"; "c"]) as [Hq _]. rewrite Hq in Hc.
    case_bool_decide as E; [|by destruct Hc]. destruct E as [E _].
    apply list_elem_of_singleton in E as ->. vm_compute. reflexivity.
  - intros c _. rewrite ex_fresh_flag. symmetry. apply ex_world_closed.
Qed.

(** A run of result batches, as long as each succeeds. *)
Fixpoint ex_run (batches : list (list ObservedResult)) (r : Runtime) (w : World)
    : option (Runtime * World) :=
  match batches with
  | [] => Some (r, w)
  | obs :: batches =>
      match @ApplyResultBatch table_Fire World (@store_results calm_env) obs (Some r, Some w) with
      | (inr _, (Some r', Some w')) => ex_run batches r' w'
      | _ => None
      end
  end.

Definition ex_ids (obs : list ObservedResult) : Prop := Forall (fun o => ck_ID (ob_Check o) = ex_id) obs.

Lemma ex_ids_ok obs : ex_ids obs -> Forall (fun o => @canonical_id calm_env (ck_ID (ob_Check o))) obs.
Proof. intros Ho. eapply Forall_impl; [|exact Ho]. intros o ->. vm_compute. reflexivity. Qed.

Lemma ex_run_synced bs : forall r w r' w',
  Forall ex_ids bs -> @synced World (@store_ledger calm_env) r w -> ex_run bs r w = Some (r', w') ->
  @synced World (@store_ledger calm_env) r' w'.
Proof.
  induction bs as [|obs bs IH]; intros r w r' w' Hids Hs; cbn [ex_run]; [by intros [= <- <-]|].
  apply Forall_cons_1 in Hids as [Hobs Hids].
  destruct (ApplyResultBatch obs (Some r, Some w)) as [[e|[]] [[r1|] [w1|]]] eqn:Hrun; try done.
  apply IH; [done|]. apply ex_ids_ok in Hobs.
  exact (@result_batch_synced table_Fire table_Fire_laws World (@store_results calm_env) _
           (@store_ledger_laws calm_env) obs r w (inr tt) r1 w1 Hs Hobs Hrun).
Qed.

Definition ex_result (p : string) (up : bool) (t : Z) : ObservedResult :=
  MkObservedResult (set_ck_ID ex_id ex_check)
    (MkCheckResult ex_id "web" p "http" "https://example.com" up 0 (if up then "" else "timeout") t).

(** Three probes confirm the check up, then two confirm it down: the incident is
    open. *)
Definition ex_batches : list (list ObservedResult) :=
  [[ex_result "a" true 10; ex_result "b" true 10; ex_result "c" true 10];
   [ex_result "a" true 20; ex_result "b" true 20; ex_result "c" true 20];
   [ex_result "a" false 30; ex_result "b" false 30];
   [ex_result "a" false 40; ex_result "b" false 40];
   [ex_result "a" false 50]].

Definition ex_seen : Runtime * World := default (ex_fresh, ex_world) (ex_run ex_batches ex_fresh ex_world).

Lemma ex_seen_synced : @synced World (@store_ledger calm_env) ex_seen.1 ex_seen.2.
Proof.
  unfold ex_seen. destruct (ex_run ex_batches ex_fresh ex_world) as [[r w]|] eqn:Hrun.
  - apply (ex_run_synced _ _ _ _ _) in Hrun; [done| |exact ex_synced]. repeat constructor.
  - exact ex_synced.
Qed.

(** * Results *)

(** The second result comes from a probe the runtime does not know. *)
Definition ex_unknown : list ObservedResult := [ex_result "a" true 10; ex_result "z" true 10].

Lemma result_batch_error_restores_runtime_witness :
  exists st', @ApplyResultBatch table_Fire World (@store_results calm_env) ex_unknown
    (Some ex_seen.1, Some ex_seen.2) = (inl ErrUnknownProbe, (Some ex_seen.1, st')).
Proof.
  assert (Hres : (@ApplyResultBatch table_Fire World (@store_results calm_env) ex_unknown
    (Some ex_seen.1, Some ex_seen.2)).1 = inl ErrUnknownProbe) by (vm_compute; reflexivity).
  destruct (@ApplyResultBatch table_Fire World (@store_results calm_env) ex_unknown
    (Some ex_seen.1, Some ex_seen.2)) as [res [r' st']] eqn:Hrun.
  simpl in Hres. subst res. exists st'. f_equal. f_equal.
  exact (@result_batch_error_restores_runtime table_Fire World (@store_results calm_env) ex_unknown
           (Some ex_seen.1) (Some ex_seen.2) ErrUnknownProbe r' st' Hrun).
Defined.

Lemma result_batch_keeps_agreement_run :
  exists r' w', @ApplyResultBatch table_Fire World (@store_results calm_env)
    [ex_result "b" false 50; ex_result "c" false 50] (Some ex_seen.1, Some ex_seen.2)
    = (inr tt, (Some r', Some w')) /\ @synced World (@store_ledger calm_env) r' w'.
Proof.
  destruct (both_inv (@ApplyResultBatch table_Fire World (@store_results calm_env)
    [ex_result "b" false 50; ex_result "c" false 50] (Some ex_seen.1, Some ex_seen.2)) (inr tt))
    as (r' & w' & Hrun); [vm_compute; reflexivity|vm_compute; reflexivity|].
  exists r', w'. split; [exact Hrun|].
  refine (@result_batch_keeps_agreement table_Fire table_Fire_laws World (@store_results calm_env) _
    (@store_ledger_laws calm_env) [ex_result "b" false 50; ex_result "c" false 50] ex_seen.1 ex_seen.2
    (inr tt) r' w' ex_seen_synced _ Hrun).
  apply ex_ids_ok. repeat constructor.
Qed.

(** * Heartbeats *)

Lemma heartbeat_all_or_nothing_run :
  @ApplyHeartbeat table_Fire World (@store_heartbeats calm_env) "z" 5 (Some ex_fresh, Some ex_world)
  = (inl ErrUnknownProbe, (Some ex_fresh, Some ex_world)) /\
  (@ApplyHeartbeat table_Fire World (@store_heartbeats calm_env) "a" 5 (Some ex_fresh, Some ex_world)).1
  = inr tt.
Proof.
  split.
  - rewrite (@heartbeat_all_or_nothing table_Fire table_Fire_laws World (@store_heartbeats calm_env)
      "z" 5 ex_fresh ex_world); [reflexivity|apply NewRuntime_wf].
  - vm_compute. reflexivity.
Qed.

(** * Sweeps *)

Definition ex_sweep_at : Time := (60 * Second + 135)%Z.
Definition ex_down_env : StoreEnv := scripted_env (fun _ => Some (FaultBefore "connection refused")).

(** The store refuses every call. *)
Lemma sweep_check_error_restores_run :
  exists e w', @sweepCheck table_Fire World (@store_sweeps ex_down_env) ex_sweep_at ex_id "c" ex_seen
    = (inl e, (ex_seen.1, w')).
Proof.
  assert (Hres : (@sweepCheck table_Fire World (@store_sweeps ex_down_env) ex_sweep_at ex_id "c"
    ex_seen).1 = inl (ErrDriver "connection refused")) by (vm_compute; reflexivity).
  destruct (@sweepCheck table_Fire World (@store_sweeps ex_down_env) ex_sweep_at ex_id "c" ex_seen)
    as [[e|hit] [r' w']] eqn:Hrun; [|discriminate Hres].
  exists e, w'. rewrite (surjective_pairing ex_seen) in Hrun.
  rewrite (@sweep_check_error_restores table_Fire World (@store_sweeps ex_down_env)
             ex_sweep_at ex_id "c" ex_seen.1 ex_seen.2 e r' w' Hrun). reflexivity.
Qed.

(** All three pieces of evidence are stale. *)
Lemma ex_sweep : exists r' w',
  @SweepChecks table_Fire World (@store_sweeps calm_env) (fun _ s => s) ex_sweep_at
    (Some ex_seen.1) (Some ex_seen.2) = ((3%Z, None), (Some r', Some w')).
Proof. apply both_inv; vm_compute; reflexivity. Qed.

Lemma sweep_checks_keeps_agreement_run :
  exists r' w', @SweepChecks table_Fire World (@store_sweeps calm_env) (fun _ s => s) ex_sweep_at
    (Some ex_seen.1) (Some ex_seen.2) = ((3%Z, None), (Some r', Some w')) /\
    @synced World (@store_ledger calm_env) r' w'.
Proof.
  destruct ex_sweep as (r' & w' & Hrun). exists r', w'. split; [exact Hrun|].
  eapply (@sweep_checks_keeps_agreement table_Fire table_Fire_laws World (@store_sweeps calm_env) _
    (@store_sweeper_laws calm_env) (fun _ s => s)); [|exact ex_seen_synced|exact Hrun].
  intros a r w Hs. exact Hs.
Qed.

Lemma sweep_checks_clears_stale_run :
  exists r' w', @SweepChecks table_Fire World (@store_sweeps calm_env) (fun _ s => s) ex_sweep_at
    (Some ex_seen.1) (Some ex_seen.2) = ((3%Z, None), (Some r', Some w')) /\
    stale_assignments ex_sweep_at r' = [].
Proof.
  destruct ex_sweep as (r' & w' & Hrun). exists r', w'. split; [exact Hrun|].
  eapply (@sweep_checks_clears_stale table_Fire table_Fire_laws World (@store_sweeps calm_env));
    [exact (proj1 ex_seen_synced)|exact Hrun].
Qed.

Definition ex_heartbeats (r : Runtime) : Runtime :=
  fold_left (fun r pt => (@ReceiveHeartbeat table_Fire pt.1 pt.2 r).2)
    [("a", 100%Z); ("b", 100%Z); ("c", 20%Z)] r.

Lemma ex_heartbeats_wf r : runtime_wf r -> runtime_wf (ex_heartbeats r).
Proof.
  unfold ex_heartbeats. generalize [("a", 100%Z); ("b", 100%Z); ("c", 20%Z)]. intros l. revert r.
  induction l as [|[p t] l IH]; intros r Hwf; cbn [fold_left]; [done|]. apply IH.
  exact (@exec_op_wf table_Fire table_Fire_laws (OpReceiveHeartbeat p t) r Hwf).
Qed.

Lemma sweep_probes_exact_witness :
  exists r', @SweepProbes table_Fire World (fun _ r => r) (fun _ m => (map_to_list m).*1) 120 50
    (Some (ex_heartbeats ex_seen.1)) (Some ex_seen.2) = ((1%Z, None), Some r') /\ runtime_wf r'.
Proof.
  destruct (@sweep_probes_exact table_Fire table_Fire_laws World (@store_sweeps calm_env)
    (fun _ m => (map_to_list m).*1) 120 50 (ex_heartbeats ex_seen.1) ex_seen.2) as (r' & Hrun & Hwf & _).
  - apply ex_heartbeats_wf. exact (proj1 ex_seen_synced).
  - intros p m. apply Permutation_refl.
  - reflexivity.
  - exists r'. split; [|exact Hwf]. exact Hrun.
Defined.

(** Probes a and b have each reported the check down twice, so that one more report
    opens the incident; c has been silent, and the sweep comes first. *)
Definition ex_outage : Runtime * World :=
  default (ex_fresh, ex_world) (ex_run (take 4 ex_batches) ex_fresh ex_world).
Definition ex_range (_ : string) (m : gmap string QuorumMachine) : list string := (map_to_list m).*1.
Definition ex_swept : (Z * option GoError) * option Runtime :=
  @SweepProbes table_Fire World (fun _ r => r) ex_range 120 50 (Some (ex_heartbeats ex_outage.1)) (Some ex_outage.2).

(** a and b keep reporting the check down, with a sweep between. *)
Definition ex_later : list later :=
  [Reported [ex_result "a" false 130; ex_result "b" false 130]; Swept ex_range 135 50;
   Reported [ex_result "a" false 140; ex_result "b" false 140]].
Definition ex_after (r : Runtime) : option Runtime * option World :=
  fold_left (@happens table_Fire calm_env) ex_later (Some r, Some ex_outage.2).

Lemma ex_outage_synced : @synced World (@store_ledger calm_env) ex_outage.1 ex_outage.2.
Proof.
  unfold ex_outage. destruct (ex_run (take 4 ex_batches) ex_fresh ex_world) as [[r w]|] eqn:Hrun; [|exact ex_synced].
  apply (ex_run_synced _ _ _ _ _) in Hrun; [done| |exact ex_synced]. repeat constructor.
Qed.

(** The sweep opens the incident, and it is never recorded. *)
Lemma probe_sweep_loses_incident_witness :
  exists r1 r2 w2, ex_swept = ((1%Z, None), Some r1) /\ runtime_open r1 ex_id = true /\
    ex_after r1 = (Some r2, Some w2) /\ runtime_open r2 ex_id = true /\ open_incident ex_id (w_tables w2) = false.
Proof.
  assert (Hcount : ex_swept.1 = (1%Z, None)) by (vm_compute; reflexivity).
  assert (Hopen : (fun r => runtime_open r ex_id) <$> ex_swept.2 = Some true) by (vm_compute; reflexivity).
  destruct ex_swept as [out [r1|]] eqn:Hsw; [|discriminate Hopen]. injection Hopen as Hopen. simpl in Hcount. subst out.
  destruct (@probe_sweep_loses_incident table_Fire table_Fire_laws calm_env ex_range 120 50
    (ex_heartbeats ex_outage.1) ex_outage.2 ex_id (1%Z, None) r1 ex_later) as (r2 & w2 & Hrun & Ho & Hrow & _).
  - apply ex_heartbeats_wf. exact (proj1 ex_outage_synced).
  - intros p m. apply Permutation_refl.
  - vm_compute. reflexivity.
  - vm_compute. reflexivity.
  - exact Hsw.
  - exact Hopen.
  - assert (Hrep : forall t, @quietly calm_env ex_id (Reported [ex_result "a" false t; ex_result "b" false t])).
    { intros t. constructor; [|constructor; [|constructor]]; (split; [vm_compute; reflexivity|intros _; reflexivity]). }
    constructor; [exact (Hrep 130%Z)|]. constructor; [intros p m; apply Permutation_refl|].
    constructor; [exact (Hrep 140%Z)|constructor].
  - exists r1, r2, w2. split; [reflexivity|]. split; [exact Hopen|]. split; [exact Hrun|]. split; [exact Ho|exact Hrow].
Defined.

(** Without that first sweep the same reports record the incident and page once. *)
Lemma without_the_sweep_it_is_recorded :
  (fun w => (open_incident ex_id (w_tables w), size (t_notifications (w_tables w))))
    <$> (ex_after (ex_heartbeats ex_outage.1)).2 = Some (true, 1) /\
  (fun w => size (t_notifications (w_tables w))) <$> (default (None, None) (ex_after <$> ex_swept.2)).2 = Some 0.
Proof. split; vm_compute; reflexivity. Qed.

(** * Startup *)

Definition ex_probe_order (m : gmap string ProbeRuntimeState) : list string := (map_to_list m).*1.
Definition ex_quorum_order (p : string) (m : gmap string QuorumMachine) : list string :=
  (map_to_list m).*1.

(** Probe a was seen, probe b never. *)
Definition ex_rows : list PersistedCheckState :=
  [MkPersistedCheckState ex_id "a" 40 "down" 2 100 "down" "timeout";
   MkPersistedCheckState ex_id "b" 20 "up" 1 80 "missing" ""].
Definition ex_probes : list PersistedProbeState :=
  [MkPersistedProbeState "a" (Some 40%Z); MkPersistedProbeState "b" None].

Lemma ex_row_ok c p t o n x st e :
  bool_decide (o = "up" \/ o = "down") = true -> (- 2 ^ 63 <=? n)%Z && (n <? 2 ^ 63)%Z = true ->
  st = counted_state o n -> row_ok (MkPersistedCheckState c p t o n x st e).
Proof.
  intros Ho Hn ->. apply bool_decide_eq_true in Ho. apply andb_true_iff in Hn as [H1 H2].
  split_and!; simpl; [|by destruct Ho as [-> | ->]|lia|lia|done].
  unfold valid_outcome. destruct Ho as [-> | ->]; auto.
Qed.

Lemma recovery_restores_runtime_witness :
  exists r, @buildRuntime table_Fire ex_probe_order ex_quorum_order [set_ck_ID ex_id ex_check] ex_probes
    ex_rows [ex_id] = inr r /\
    recovered [set_ck_ID ex_id ex_check] ex_probes ex_rows [ex_id] r.
Proof.
  apply (@recovery_restores_runtime table_Fire table_Fire_laws ex_probe_order ex_quorum_order).
  - intros m. apply Permutation_refl.
  - intros p m. apply Permutation_refl.
  - repeat constructor; apply ex_row_ok; vm_compute; reflexivity.
  - vm_compute. repeat constructor; set_solver.
  - vm_compute. repeat constructor; set_solver.
Defined.

Lemma restart_establishes_agreement_witness :
  exists r w', @LoadRuntime table_Fire World (@store_recovers calm_env) ex_probe_order ex_quorum_order
    ex_seen.2 = (inr r, w') /\ @synced World (@store_ledger calm_env) r w' /\
    runtime_open r ex_id = true.
Proof.
  pose proof (@restart_establishes_agreement table_Fire table_Fire_laws calm_env ex_probe_order
    ex_quorum_order (fun m => Permutation_refl _) (fun p m => Permutation_refl _) ex_seen.2
    (proj1 (proj2 ex_seen_synced))) as Hload.
  assert (Hok : bool_decide (is_Some (sum_to_option (@LoadRuntime table_Fire World
    (@store_recovers calm_env) ex_probe_order ex_quorum_order ex_seen.2).1)) = true)
    by (vm_compute; reflexivity).
  destruct (@LoadRuntime table_Fire World (@store_recovers calm_env) ex_probe_order ex_quorum_order
    ex_seen.2) as [[e|r] w'] eqn:Hrun; [discriminate Hok|].
  destruct Hload as [Hs Ht]. exists r, w'. split; [reflexivity|]. split; [exact Hs|].
  destruct Hs as (_ & _ & _ & Hag). rewrite Hag; simpl; rewrite Ht; vm_compute; reflexivity.
Defined.

(** * Requests of a probe *)

Definition ex_probe (id : string) : Probe := MkProbe id "dev" None None.

Definition ex_incoming (claimed id : string) (up : bool) : CheckResult :=
  MkCheckResult id "" claimed "" "" up 3 "" 1.

(** A known check, a check nobody has, and a blank one. *)
Lemma process_batch_keeps_agreement_run :
  exists r' w', @ProcessBatch table_Fire World (@store_probes calm_env) 60 (Some (ex_probe "b"))
    [ex_incoming "" ex_id false; ex_incoming "b" "nothing" true; ex_incoming "b" "" true] ex_seen
    = (inr tt, (r', w')) /\ @synced World (@store_ledger calm_env) r' w'.
Proof.
  assert (Hres : (@ProcessBatch table_Fire World (@store_probes calm_env) 60 (Some (ex_probe "b"))
    [ex_incoming "" ex_id false; ex_incoming "b" "nothing" true; ex_incoming "b" "" true] ex_seen).1
    = inr tt) by (vm_compute; reflexivity).
  destruct (@ProcessBatch table_Fire World (@store_probes calm_env) 60 (Some (ex_probe "b"))
    [ex_incoming "" ex_id false; ex_incoming "b" "nothing" true; ex_incoming "b" "" true] ex_seen)
    as [res [r' w']] eqn:Hrun. simpl in Hres. subst res. exists r', w'. split; [reflexivity|].
  rewrite (surjective_pairing ex_seen) in Hrun.
  destruct (@process_batch_keeps_agreement table_Fire table_Fire_laws calm_env 60 (ex_probe "b")
    [ex_incoming "" ex_id false; ex_incoming "b" "nothing" true; ex_incoming "b" "" true]
    ex_seen.1 ex_seen.2 (inr tt) r' w' ex_seen_synced Hrun) as [[Hs _] _]. exact Hs.
Qed.

(** The runtime does not know the probe yet. *)
Lemma heartbeat_request_recorded_run :
  exists r' w', @Heartbeat table_Fire World (@store_probes calm_env) 60 (Some (ex_probe "new"))
    (MkHeartbeatRequest "") ex_seen = (inr tt, (r', w')) /\
    rt_probes r' !! "new" = Some (MkProbeRuntimeState "new" ProbeStateOnline (Some 60%Z) "").
Proof.
  assert (Hres : (@Heartbeat table_Fire World (@store_probes calm_env) 60 (Some (ex_probe "new"))
    (MkHeartbeatRequest "") ex_seen).1 = inr tt) by (vm_compute; reflexivity).
  destruct (@Heartbeat table_Fire World (@store_probes calm_env) 60 (Some (ex_probe "new"))
    (MkHeartbeatRequest "") ex_seen) as [res [r' w']] eqn:Hrun.
  simpl in Hres. subst res. exists r', w'. split; [reflexivity|].
  rewrite (surjective_pairing ex_seen) in Hrun.
  destruct (@heartbeat_request_recorded table_Fire table_Fire_laws calm_env 60 (ex_probe "new")
    (MkHeartbeatRequest "") ex_seen.1 ex_seen.2 (inr tt) r' w' ex_seen_synced
    ltac:(discriminate) Hrun) as (_ & _ & _ & Hp & _). exact Hp.
Qed.
