(* ===== verification/Paging.v ===== *)
(** From the results of the probes to the webhook: a result batch that opens or
    closes an incident queues its page in the same transaction, and a worker of the
    sender delivers it. *)

From S2P Require Import Prelude GoStrings Stateless Types CheckMachine QuorumMachine Runtime.
From S2P Require Import Database StoreNotifications StoreMonitoring StoreChecks StoreInvariant StoreProperties.
From S2P Require Import Results Ledger StoreLedger StoreProbes ProbeProcessor ProbeIngest System Examples.
From S2P Require Import Sender SenderProperties Delivery.

(** The event of a page about an opening or a closing. *)
Definition page_event (opened : bool) : string :=
  if opened then notificationEventDown else notificationEventUp.

(** A page about the last transition of check [c] waits to be sent to [url]. *)
Definition paged (c : string) (opened : bool) (url payload : string) (t : Tables) : Prop :=
  exists k i n, t_incidents t !! n_incident_id n = Some i /\ i_check_id i = c /\
    bool_decide (i_resolved_at i = None) = opened /\
    t_notifications t !! k = Some n /\ n_event n = page_event opened /\
    n_state n = notificationStatePending /\ n_webhook_url n = url /\ n_payload n = payload.

(** [paged] survives a statement that touches neither its incident nor its page. *)
Lemma paged_kept c o url p t t' :
  (forall id i, t_incidents t !! id = Some i -> i_check_id i = c ->
     bool_decide (i_resolved_at i = None) = o -> t_incidents t' !! id = Some i) ->
  (forall k n i, t_notifications t !! k = Some n -> n_event n = page_event o ->
     t_incidents t !! n_incident_id n = Some i -> i_check_id i = c ->
     t_notifications t' !! k = Some n) ->
  paged c o url p t -> paged c o url p t'.
Proof.
  intros Hi Hn (k & i & n & Hi0 & Hc & Ho & Hl & Hev & Hrest). exists k, i, n.
  split_and!; [by apply Hi|done|done|by eapply Hn|done|apply Hrest..].
Qed.

Section writes.
Context `{Env : StoreEnv}.

(** * A page is queued *)

(** The statements that leave incidents and pages alone. *)
Definition same_pages : relation Tables := fun t t' =>
  t_incidents t' = t_incidents t /\ t_notifications t' = t_notifications t.

#[local] Instance same_pages_preorder : PreOrder same_pages.
Proof. split; [done|]. intros t1 t2 t3 [? ?] [? ?]. split; congruence. Qed.

Lemma pages_upsert s : respects same_pages (upsertCheckStateTx s).
Proof.
  unfold upsertCheckStateTx, normalizeCheckStateWrite, normalizeTime. cbv zeta. frame.
  repeat case_match; by split.
Qed.

Lemma pages_heartbeat p at_ : respects same_pages (updateProbeHeartbeatTx p at_).
Proof. unfold updateProbeHeartbeatTx, normalizeTime. frame. by split. Qed.

Lemma run_pages {A} (m : DB A) w a w' :
  respects same_pages m -> m w = (inr a, w') -> same_pages (w_tables w) (w_tables w').
Proof. intros Hm Hr. specialize (Hm w). by rewrite Hr in Hm. Qed.

Lemma paged_same c o url p t t' : same_pages t t' -> paged c o url p t -> paged c o url p t'.
Proof. intros [E1 E2]. unfold paged. by rewrite E1, E2. Qed.

(** The INSERT of a page adds its row, or finds one. *)
Lemma insert_page_run id event rq now w a w' :
  nr_WebhookURL rq <> "" -> nr_Payload rq <> "" ->
  insertIncidentNotification id event (Some rq) now w = (inr a, w') ->
  exists payload, jsonb_in (nr_Payload rq) = Some payload /\
    t_incidents (w_tables w') = t_incidents (w_tables w) /\
    (notified id event (w_tables w) = true /\ t_notifications (w_tables w') = t_notifications (w_tables w) \/
     exists k, t_notifications (w_tables w) !! k = None /\
       t_notifications (w_tables w') = <[k := MkNotificationRow id event notificationStatePending
         (nr_WebhookURL rq) payload 0 None None (Some (timestamptz now)) None (timestamptz now)
         (timestamptz now)]> (t_notifications (w_tables w))).
Proof.
  intros Hu Hp Hrun. unfold insertIncidentNotification in Hrun.
  assert (Hz : (nr_WebhookURL rq == "") || (len (nr_Payload rq) =? 0)%Z = false).
  { rewrite bool_decide_eq_false_2 by done. simpl. destruct (nr_Payload rq); done. }
  rewrite Hz in Hrun. apply call_inr in Hrun.
  apply bind_inr in Hrun as ([] & w1 & Hpar & Hrun).
  destruct (params_run [event; notificationStatePending; nr_WebhookURL rq; nr_Payload rq] [] (next_tick w))
    as [res Hres]. rewrite Hres in Hpar. injection Hpar as -> <-.
  destruct (jsonb_in (nr_Payload rq)) as [payload|]; [|done]. exists payload. split; [done|].
  unfold insert_notification_row, mbind, St_bind, nextval_notifications, get_tables in Hrun. simpl in Hrun.
  destruct (negb _); [done|]. destruct (notified id event (w_tables w)); [injection Hrun as _ <-; auto|].
  destruct (negb _); [done|].
  match type of Hrun with context [bool_decide (is_Some ?x)] => destruct (bool_decide (is_Some x)) eqn:Hfresh end;
    [done|]. apply bool_decide_eq_false, eq_None_not_Some in Hfresh.
  injection Hrun as _ <-. simpl. split; [done|]. right. eauto.
Qed.

Lemma insert_page_kept c o url p id event req now w a w' :
  insertIncidentNotification id event req now w = (inr a, w') ->
  paged c o url p (w_tables w) -> paged c o url p (w_tables w').
Proof.
  intros Hrun Hpg. destruct req as [rq|]; [|by injection Hrun as _ <-].
  destruct (decide (nr_WebhookURL rq = "" \/ nr_Payload rq = "")) as [Hz|Hz].
  { unfold insertIncidentNotification in Hrun.
    assert (E : (nr_WebhookURL rq == "") || (len (nr_Payload rq) =? 0)%Z = true).
    { destruct Hz as [->| ->]; [done|]. apply orb_true_r. }
    rewrite E in Hrun. by injection Hrun as _ <-. }
  apply insert_page_run in Hrun as (payload & _ & Ei & Hn); [|tauto..].
  apply (paged_kept _ _ _ _ (w_tables w)); [by rewrite Ei| |exact Hpg].
  intros k n i Hl _ _ _. destruct Hn as [[_ ->]|(k' & Hk' & ->)]; [done|].
  rewrite lookup_insert_ne; [done|]. congruence.
Qed.

(** A fresh page of an incident is queued. *)
Lemma insert_page_fresh id i o rq now w a w' :
  t_incidents (w_tables w) !! id = Some i -> bool_decide (i_resolved_at i = None) = o ->
  notified id (page_event o) (w_tables w) = false ->
  nr_WebhookURL rq <> "" -> nr_Payload rq <> "" ->
  insertIncidentNotification id (page_event o) (Some rq) now w = (inr a, w') ->
  exists payload, jsonb_in (nr_Payload rq) = Some payload /\
    paged (i_check_id i) o (nr_WebhookURL rq) payload (w_tables w').
Proof.
  intros Hi Ho Hnew Hu Hp Hrun.
  apply insert_page_run in Hrun as (payload & Hj & Ei & [[Hn _]|(k & _ & En)]); [congruence| |done..].
  exists payload. split; [done|]. exists k, i. eexists. rewrite Ei, En, lookup_insert_eq.
  split_and!; [|done|done|reflexivity|done..]. done.
Qed.

(** * Opening and resolving *)

Lemma not_notified id event t :
  (forall k n, t_notifications t !! k = Some n -> n_incident_id n = id -> n_event n <> event) ->
  notified id event t = false.
Proof.
  intros Hn. apply has_row_false. intros k n Hl. apply not_true_is_false. intros Hf.
  apply andb_true_iff in Hf as [Hid Hev]. apply Z.eqb_eq in Hid. apply bool_decide_eq_true in Hev.
  by eapply Hn.
Qed.

Lemma insert_incident_run c now w row w' :
  insert_incident_row c now w = (inr row, w') ->
  t_notifications (w_tables w') = t_notifications (w_tables w) /\
  match row with
  | None => t_incidents (w_tables w') = t_incidents (w_tables w)
  | Some id => t_incidents (w_tables w) !! id = None /\ open_incident c (w_tables w) = false /\
      exists i, i_check_id i = c /\ i_resolved_at i = None /\
        t_incidents (w_tables w') = <[id := i]> (t_incidents (w_tables w))
  end.
Proof.
  unfold insert_incident_row, mbind, St_bind, get_tables, mret, St_ret. simpl.
  destruct (t_checks (w_tables w) !! c) as [row0|]; [|by intros [= <- <-]].
  destruct (bool_decide (is_Some (c_deleted_at row0))); [by intros [= <- <-]|]. simpl.
  destruct (open_incident c (w_tables w)); [by intros [= <- <-]|].
  destruct (bool_decide (is_Some _)) eqn:Hfresh; [done|].
  apply bool_decide_eq_false, eq_None_not_Some in Hfresh. intros [= <- <-]. simpl.
  split_and!; [done|done|done|]. eexists. split_and!; [| |reflexivity]; done.
Qed.

Lemma open_page_kept c o url p c' req now w a w' :
  openIncidentWithNotificationByCheckIDTx c' req now w = (inr a, w') ->
  paged c o url p (w_tables w) -> paged c o url p (w_tables w').
Proof.
  intros Hrun Hpg. apply bind_inr in Hrun as (row & w1 & Hcall & Hrun). apply call_inr in Hcall.
  apply insert_incident_run in Hcall as [En Hrow]. simpl in *.
  assert (Hpg1 : paged c o url p (w_tables w1)).
  { apply (paged_kept _ _ _ _ (w_tables w)); [|by rewrite En|done]. intros id i Hl _ _.
    destruct row as [id'|]; [|by rewrite Hrow]. destruct Hrow as (Hf & _ & i' & _ & _ & ->).
    rewrite lookup_insert_ne; [done|]. congruence. }
  destruct row as [id|]; [|by injection Hrun as _ <-].
  apply bind_inr in Hrun as (u & w2 & Hins & Hrun). injection Hrun as _ <-.
  by eapply insert_page_kept.
Qed.

(** Opening an incident of an active check that has none queues its page. *)
Lemma open_page_fresh c rq now w a w' :
  db_wf w -> active_check (w_tables w) c = true -> open_incident c (w_tables w) = false ->
  nr_WebhookURL rq <> "" -> nr_Payload rq <> "" ->
  openIncidentWithNotificationByCheckIDTx c (Some rq) now w = (inr a, w') ->
  exists payload, jsonb_in (nr_Payload rq) = Some payload /\
    paged c true (nr_WebhookURL rq) payload (w_tables w').
Proof.
  intros [Hwf _] Ha Ho Hu Hp Hrun. apply bind_inr in Hrun as (row & w1 & Hcall & Hrun).
  apply call_inr in Hcall. pose proof Hcall as Heff. apply insert_incident_effect in Heff as [_ Heff].
  apply insert_incident_run in Hcall as [En Hrow]. simpl in *.
  specialize (Heff c Ha). rewrite bool_decide_eq_true_2 in Heff by done.
  destruct row as [id|]; [|by rewrite (open_incident_same _ _ _ Hrow), Ho in Heff].
  destruct Hrow as (Hf & _ & i & <- & Hr & Ei).
  apply bind_inr in Hrun as (u & w2 & Hins & Hrun). injection Hrun as _ <-.
  apply (insert_page_fresh id i true) in Hins; [done| | | |done..].
  - rewrite Ei. by rewrite lookup_insert_eq.
  - by apply bool_decide_eq_true_2.
  - apply not_notified. rewrite En. intros k n Hl Hid _.
    destruct (wf_notifs _ Hwf k n Hl) as (i' & Hi' & _). congruence.
Qed.

Lemma resolve_page_kept c o url p c' req now w a w' :
  (o = true -> c' <> c) ->
  resolveIncidentWithNotificationByCheckIDTx c' req now w = (inr a, w') ->
  paged c o url p (w_tables w) -> paged c o url p (w_tables w').
Proof.
  intros Hne Hrun Hpg. apply bind_inr in Hrun as (row & w1 & Hcall & Hrun).
  destruct (resolve_body_seqs _ _ _ _ _ Hcall) as [_ Ht1]. destruct (Ht1 _ eq_refl) as [Ht Hhead].
  assert (Hpg1 : paged c o url p (w_tables w1)).
  { apply (paged_kept _ _ _ _ (w_tables w)); [|by rewrite Ht|done]. rewrite Ht. intros id i Hl Hc Ho.
    simpl. rewrite lookup_update_where, Hl. simpl.
    destruct (is_open_of c' i) eqn:Hop; [|done]. apply is_open_of_true in Hop as [Hop Hnone].
    rewrite bool_decide_eq_true_2 in Ho by done. by destruct (Hne (eq_sym Ho)); congruence. }
  destruct row as [id|]; [|by injection Hrun as _ <-].
  apply bind_inr in Hrun as (u & w2 & Hsup & Hrun). apply bind_inr in Hrun as (u' & w3 & Hins & Hrun).
  injection Hrun as _ <-. eapply insert_page_kept; [exact Hins|].
  destruct (call_put_run (supersede_down id (timestamptz now)) _ _ _ Hsup) as [_ Ht2]. rewrite (Ht2 _ eq_refl).
  apply (paged_kept _ _ _ _ (w_tables w1)); [done| |done]. intros k n i Hl Hev Hi Hc. simpl.
  rewrite lookup_update_where, Hl. simpl.
  destruct ((n_incident_id n =? id)%Z && _ && _) eqn:Hf; [|done]. exfalso.
  rewrite !andb_true_iff in Hf. destruct Hf as [[Hid Hd] _]. apply Z.eqb_eq in Hid.
  apply bool_decide_eq_true in Hd. rewrite Hev in Hd. destruct o; [|done].
  symmetry in Hhead. apply (head_select (fun _ i => is_open_of c' i)) in Hhead as (i0 & Hi0 & Hop).
  rewrite Ht in Hi. simpl in Hi. rewrite Hid, lookup_update_where, Hi0 in Hi. simpl in Hi. rewrite Hop in Hi.
  injection Hi as <-. apply is_open_of_true in Hop as [Hop _]. simpl in Hc. by apply Hne; congruence.
Qed.

(** Resolving the open incident of a check queues its page. *)
Lemma resolve_page_fresh c rq now w a w' :
  db_wf w -> open_incident c (w_tables w) = true ->
  nr_WebhookURL rq <> "" -> nr_Payload rq <> "" ->
  resolveIncidentWithNotificationByCheckIDTx c (Some rq) now w = (inr a, w') ->
  exists payload, jsonb_in (nr_Payload rq) = Some payload /\
    paged c false (nr_WebhookURL rq) payload (w_tables w').
Proof.
  intros [Hwf _] Ho Hu Hp Hrun. apply bind_inr in Hrun as (row & w1 & Hcall & Hrun).
  destruct (resolve_body_seqs _ _ _ _ _ Hcall) as [_ Ht1]. destruct (Ht1 _ eq_refl) as [Ht Hhead].
  destruct row as [id|].
  2: { exfalso. apply open_incident_true in Ho as (k & i & Hl & Hop).
       by rewrite (head_select_None (fun _ i => is_open_of c i) _ _ _ Hhead Hl) in Hop. }
  symmetry in Hhead. apply (head_select (fun _ i => is_open_of c i)) in Hhead as (i & Hi & Hop).
  apply bind_inr in Hrun as (u & w2 & Hsup & Hrun). apply bind_inr in Hrun as (u' & w3 & Hins & Hrun).
  injection Hrun as _ <-.
  destruct (call_put_run (supersede_down id (timestamptz now)) _ _ _ Hsup) as [_ Ht2].
  specialize (Ht2 _ eq_refl). pose proof Hop as Hop'. apply is_open_of_true in Hop' as [Hc Hnone].
  apply (insert_page_fresh id (set_resolved (timestamptz now) i) false) in Hins; [|idtac..|done|done]; [| | |].
  - destruct Hins as (payload & Hj & Hpg). exists payload. split; [done|]. by rewrite <-Hc.
  - rewrite Ht2, Ht. simpl. rewrite lookup_update_where, Hi. simpl. by rewrite Hop.
  - by apply bool_decide_eq_false_2.
  - apply not_notified. rewrite Ht2, Ht. intros k n' Hl Hid Hev. simpl in Hl.
    apply lookup_update_where_Some in Hl as (n & Hl & ->).
    destruct (wf_notifs _ Hwf k n Hl) as (i' & Hi' & _ & _ & _ & _ & _ & _ & Hup).
    apply Hup; [left|]; destruct (_ && _ && _); simpl in Hid, Hev; congruence.
Qed.

(** * A batch *)

(** A write is its rows, which touch no page, and then its incident. *)
Lemma write_split wr w saved w' :
  db_wf w -> persistMonitoringWriteTx wr w = (inr saved, w') ->
  exists w1, db_wf w1 /\ same_pages (w_tables w) (w_tables w1) /\
    t_checks (w_tables w1) = t_checks (w_tables w) /\
    (mw_IncidentCheckID wr = "" /\ same_pages (w_tables w1) (w_tables w') \/
     exists b, applyMonitoringIncidentTx (mw_IncidentCheckID wr) (mw_ResolveIncident wr)
       (mw_IncidentNotification wr) w1 = (inr b, w')).
Proof.
  intros Hwf Hrun. unfold persistMonitoringWriteTx in Hrun.
  apply bind_inr in Hrun as (u & w1 & Hval & Hrun).
  assert (Hwf1 : db_wf w1) by (apply (validate_keeps wr) in Hwf as [Hk _]; by rewrite Hval in Hk).
  assert (T1 : w_tables w1 = w_tables w)
    by (pose proof (validate_tables wr w) as Hv; by rewrite Hval in Hv).
  destruct (negb (write_nonempty wr)) eqn:Hemp.
  { injection Hrun as _ <-. exists w1. split_and!; [done|by rewrite T1|by rewrite T1|]. left.
    unfold write_nonempty in Hemp. rewrite negb_true_iff, !orb_false_iff in Hemp.
    destruct Hemp as [_ He]. by apply negb_false_iff, bool_decide_eq_true in He. }
  apply bind_inr in Hrun as (rows & w2 & Hst & Hrun).
  apply bind_inr in Hrun as (hb & w3 & Hhb & Hrun).
  apply bind_inr in Hrun as (b & w4 & Hinc & Hrun). injection Hrun as _ <-.
  assert (Hwf2 : db_wf w2).
  { pose proof (commits_collect (mw_CheckStateWrites wr) upsertCheckStateTx) as Hc.
    by eapply Hc; [intros s; apply keeps_commits, upsert_keeps|exact Hwf1|exact Hst]. }
  pose proof (run_pages _ _ _ _ (respects_collect same_pages _ _ (fun s _ => pages_upsert s)) Hst) as P2.
  pose proof (run_same _ _ _ _ (respects_collect same_incidents _ _ (fun s _ => same_upsert s)) Hst) as [C2 _].
  assert (H3 : db_wf w3 /\ same_pages (w_tables w2) (w_tables w3) /\ t_checks (w_tables w3) = t_checks (w_tables w2)).
  { destruct (mw_ProbeHeartbeatID wr != ""); [|by injection Hhb as _ <-]. split_and!.
    - pose proof (heartbeat_keeps (mw_ProbeHeartbeatID wr) (mw_ProbeHeartbeatAt wr) w2 Hwf2) as [Hk _].
      by rewrite Hhb in Hk.
    - eapply run_pages; [apply pages_heartbeat|exact Hhb].
    - eapply (run_same _ _ _ _ (same_heartbeat _ _)); exact Hhb. }
  destruct H3 as (Hwf3 & P3 & C3). exists w3. split_and!; [done| |congruence|right; eauto].
  rewrite T1 in P2. by etransitivity.
Qed.

(** A write keeps the page of a check whose incident it leaves as it is. *)
Lemma write_page_kept c o url p wr w saved w' :
  db_wf w -> (mw_IncidentCheckID wr = "" \/ canonical_id (mw_IncidentCheckID wr)) ->
  (o = true -> mw_ResolveIncident wr = true -> mw_IncidentCheckID wr <> c) ->
  persistMonitoringWriteTx wr w = (inr saved, w') ->
  paged c o url p (w_tables w) -> paged c o url p (w_tables w').
Proof.
  intros Hwf Hname Hne Hrun Hpg.
  destruct (write_split _ _ _ _ Hwf Hrun) as (w1 & _ & P1 & _ & [[_ P2]|[b Hinc]]).
  { by do 2 (eapply paged_same; [eassumption|]). }
  apply (paged_same _ _ _ _ _ _ P1) in Hpg. unfold applyMonitoringIncidentTx in Hinc.
  destruct (bool_decide (mw_IncidentCheckID wr = "")) eqn:He; [by injection Hinc as _ <-|].
  apply bool_decide_eq_false in He. destruct Hname as [Hname|Hname]; [done|].
  unfold canonical_id in Hname. rewrite Hname in Hinc.
  apply bind_inr in Hinc as (now & w2 & Hnow & Hinc). injection Hnow as <- <-.
  destruct (mw_ResolveIncident wr).
  - eapply resolve_page_kept; [|exact Hinc|exact Hpg]. auto.
  - apply bind_inr in Hinc as (ao & w3 & Hopen & Hret). injection Hret as _ <-.
    eapply open_page_kept; [exact Hopen|exact Hpg].
Qed.

(** A write that moves the incident of a check queues the page it asks for. *)
Lemma write_page_fresh c rq wr w saved w' :
  db_wf w -> canonical_id c -> mw_IncidentCheckID wr = c ->
  mw_IncidentNotification wr = Some rq -> nr_WebhookURL rq <> "" -> nr_Payload rq <> "" ->
  active_check (w_tables w) c = true -> open_incident c (w_tables w) = mw_ResolveIncident wr ->
  persistMonitoringWriteTx wr w = (inr saved, w') ->
  exists payload, jsonb_in (nr_Payload rq) = Some payload /\
    paged c (negb (mw_ResolveIncident wr)) (nr_WebhookURL rq) payload (w_tables w').
Proof.
  intros Hwf Hcan Hid Hreq Hu Hp Ha Ho Hrun. pose proof (canonical_nonempty c Hcan) as Hne.
  destruct (write_split _ _ _ _ Hwf Hrun) as (w1 & Hwf1 & [Ei En] & Ec & [[He _]|[b Hinc]]); [congruence|].
  rewrite Hid, Hreq in Hinc. unfold applyMonitoringIncidentTx in Hinc.
  rewrite bool_decide_eq_false_2 in Hinc by done. unfold canonical_id in Hcan. rewrite Hcan in Hinc.
  apply bind_inr in Hinc as (now & w2 & Hnow & Hinc). injection Hnow as <- <-.
  destruct (mw_ResolveIncident wr).
  - eapply resolve_page_fresh; [| |done|done|exact Hinc]; [done|].
    simpl. by rewrite (open_incident_same _ _ _ Ei).
  - apply bind_inr in Hinc as (ao & w3 & Hopen & Hret). injection Hret as _ <-.
    eapply open_page_fresh; [| | |done|done|exact Hopen]; [done| |].
    + simpl. unfold active_check. by rewrite Ec.
    + simpl. by rewrite (open_incident_same _ _ _ Ei).
Qed.

Lemma collect_snoc {A B} (xs : list A) x (body : A -> DB B) : forall w ys w',
  st_collect (xs ++ [x]) body w = (inr ys, w') ->
  exists ys0 y w1, st_collect xs body w = (inr ys0, w1) /\ body x w1 = (inr y, w').
Proof.
  induction xs as [|x0 xs IH]; intros w ys w' Hrun; simpl in Hrun.
  - apply bind_inr in Hrun as (y & w1 & Hx & Hrun). injection Hrun as _ <-. exists [], y, w. by split.
  - apply bind_inr in Hrun as (y0 & w1 & Hx0 & Hrun). apply bind_inr in Hrun as (ys1 & w2 & Hxs & Hrun).
    injection Hrun as _ <-. apply IH in Hxs as (ys0 & y & w3 & Hxs & Hx).
    exists (y0 :: ys0), y, w3. split; [|done]. simpl. unfold mbind, St_bind. by rewrite Hx0, Hxs.
Qed.

(** The page of the last transition of a check survives the rest of the batch. *)
Lemma batch_page c o ws : forall w saved w',
  db_wf w -> Forall (fun wr => mw_IncidentCheckID wr = "" \/ canonical_id (mw_IncidentCheckID wr)) ws ->
  canonical_id c -> active_check (w_tables w) c = true ->
  open_incident c (w_tables w) = negb o ->
  fold_left incident_effect ws (fun c => open_incident c (w_tables w)) c = o ->
  st_collect ws persistMonitoringWriteTx w = (inr saved, w') ->
  exists wr, wr ∈ ws /\ mw_IncidentCheckID wr = c /\ mw_ResolveIncident wr = negb o /\
    forall rq, mw_IncidentNotification wr = Some rq -> nr_WebhookURL rq <> "" -> nr_Payload rq <> "" ->
    exists payload, jsonb_in (nr_Payload rq) = Some payload /\
      paged c o (nr_WebhookURL rq) payload (w_tables w').
Proof.
  induction ws as [|wr ws IH] using rev_ind; intros w saved w' Hwf Hnames Hcan Ha Ho Hend Hrun.
  { simpl in Hend. rewrite Ho in Hend. by destruct o. }
  apply collect_snoc in Hrun as (saved0 & y & w1 & Hws & Hwr).
  apply Forall_app in Hnames as [Hnames Hname]. apply Forall_cons_1 in Hname as [Hname _].
  rewrite fold_left_app in Hend. simpl in Hend.
  assert (Hwf1 : db_wf w1) by (eapply (commits_collect _ _ write_commits); [exact Hwf|exact Hws]).
  destruct (batch_effect ws w saved0 w1 Hnames Hws) as [HC HO].
  specialize (HO c (canonical_nonempty c Hcan) Ha).
  assert (Hkeep : mw_IncidentCheckID wr <> c \/ mw_ResolveIncident wr = negb o ->
    fold_left incident_effect ws (fun c => open_incident c (w_tables w)) c = o ->
    exists wr0, wr0 ∈ ws ++ [wr] /\ mw_IncidentCheckID wr0 = c /\ mw_ResolveIncident wr0 = negb o /\
      forall rq, mw_IncidentNotification wr0 = Some rq -> nr_WebhookURL rq <> "" -> nr_Payload rq <> "" ->
      exists payload, jsonb_in (nr_Payload rq) = Some payload /\
        paged c o (nr_WebhookURL rq) payload (w_tables w')).
  { intros Hother Hmid. destruct (IH w saved0 w1 Hwf Hnames Hcan Ha Ho Hmid Hws) as (wr0 & Hin & Hid & Hres & Hpage).
    exists wr0. split_and!; [apply elem_of_app; by left|done|done|]. intros rq Hrq Hu Hp.
    destruct (Hpage rq Hrq Hu Hp) as (payload & Hj & Hpg). exists payload. split; [done|].
    eapply write_page_kept; [exact Hwf1|exact Hname| |exact Hwr|exact Hpg].
    intros -> Hr. destruct Hother as [|Hother]; [done|]. simpl in Hother. congruence. }
  unfold incident_effect at 1 in Hend. case_bool_decide as Hid; [|by apply Hkeep; [left|]].
  assert (Hres : mw_ResolveIncident wr = negb o) by (rewrite <-Hend; by rewrite negb_involutive).
  destruct (bool_decide (fold_left incident_effect ws (fun c => open_incident c (w_tables w)) c = o)) eqn:Hmid.
  { apply bool_decide_eq_true in Hmid. apply Hkeep; [by right|done]. }
  apply bool_decide_eq_false in Hmid. exists wr. split_and!; [apply elem_of_app; right; by left|done|done|].
  intros rq Hrq Hu Hp. rewrite <-(negb_involutive o), <-Hres.
  eapply (write_page_fresh c rq wr w1); [done..| | |exact Hwr].
  - unfold active_check. by rewrite HC.
  - rewrite HO, Hres. revert Hmid. generalize (fold_left incident_effect ws (fun c => open_incident c (w_tables w)) c). clear. intros b Hb. by destruct o, b.
Qed.
End writes.

(** * The writes of a result batch *)

Lemma alert_text_nonempty p body : marshal_AlertPayload p = inr body -> body <> "".
Proof. intros [= <-]. discriminate. Qed.

(** A write that names an incident asks for the page of the check's webhook. *)
Lemma event_write_request check q prev cur checkID probeID child wr :
  monitoringWriteForCheckEvent check q prev cur (stateWrite checkID probeID child) = inr wr ->
  mw_IncidentCheckID wr <> "" ->
  mw_IncidentCheckID wr = ck_ID check /\
  notificationRequest check (page_event (negb (mw_ResolveIncident wr))) q = inr (mw_IncidentNotification wr).
Proof.
  unfold monitoringWriteForCheckEvent. intros Hw Hne. destruct (_ && _).
  - destruct (notificationRequest check "down" q) eqn:Hreq; [done|]. injection Hw as <-. by split.
  - destruct (_ && _ && _); [|by injection Hw as <-].
    destruct (notificationRequest check "up" q) eqn:Hreq; [done|]. injection Hw as <-. by split.
Qed.

Section results.
Context `{SLL : StatelessLaws}.

Lemma result_write_request check result r wr rb r' :
  applyObservedResultLocked check result r = (inr (wr, rb), r') -> mw_IncidentCheckID wr <> "" ->
  mw_IncidentCheckID wr = ck_ID check /\
  exists q, notificationRequest check (page_event (negb (mw_ResolveIncident wr))) q = inr (mw_IncidentNotification wr).
Proof.
  intros Hrun Hne. destruct (rt_probes r !! cr_ProbeID result) as [p|] eqn:Hp;
    [|unfold applyObservedResultLocked in Hrun; by rewrite Hp in Hrun].
  rewrite (applyObservedResultLocked_eq _ _ _ _ Hp) in Hrun.
  destruct (route _ _ _) as [[e|update] q']; [done|].
  destruct (monitoringWriteForCheckEvent _ _ _ _ _) as [e|wr0] eqn:Hev; [done|]. injection Hrun as <- _ _.
  destruct (event_write_request _ _ _ _ _ _ _ _ Hev Hne) as [Hid Hreq]. eauto.
Qed.

Lemma observe_all_requests observed : forall writes rbs r writes' rbs' r' wr,
  observe_all observed writes rbs r = (inr (writes', rbs'), r') ->
  wr ∈ writes' -> mw_IncidentCheckID wr <> "" ->
  wr ∈ writes \/ exists o q, o ∈ observed /\ mw_IncidentCheckID wr = ck_ID (ob_Check o) /\
    notificationRequest (ob_Check o) (page_event (negb (mw_ResolveIncident wr))) q =
      inr (mw_IncidentNotification wr).
Proof.
  induction observed as [|item observed IH]; intros writes rbs r writes' rbs' r' wr Hrun Hin Hne; simpl in Hrun.
  { injection Hrun as <- _ _. by left. }
  destruct (applyObservedResultLocked _ _ r) as [[e|[wr0 rb]] r1] eqn:Hitem; [done|].
  destruct (IH _ _ _ _ _ _ _ Hrun Hin Hne) as [Hw|(o & q & Ho & Hrest)].
  - apply elem_of_app in Hw as [Hw|Hw]; [by left|]. apply list_elem_of_singleton in Hw as ->. right.
    destruct (result_write_request _ _ _ _ _ _ Hitem Hne) as (Hid & q & Hq).
    exists item, q. split; [left|done].
  - right. exists o, q. split; [by right|done].
Qed.

(** The alert about an opening or closing of [check]'s incident, with the votes of [q]. *)
Definition alert_of (check : Check) (opened : bool) (q : QuorumMachine) : AlertPayload :=
  MkAlertPayload (ck_ID check) (ck_Name check) (ck_Target check) (page_event opened)
    (quorumCounts q).1 (quorumCounts q).2.

Lemma request_of check o q req :
  ck_Webhook check <> "" -> notificationRequest check (page_event o) q = inr req ->
  exists body, marshal_AlertPayload (alert_of check o q) = inr body /\
    req = Some (MkNotificationRequest (ck_Webhook check) body).
Proof.
  intros Hw Hreq. unfold notificationRequest in Hreq. rewrite bool_decide_eq_false_2 in Hreq by done.
  unfold alert_of. destruct (quorumCounts q) as [down total]. simpl.
  destruct (marshal_AlertPayload _) as [e|body]; [done|]. injection Hreq as <-. eauto.
Qed.

Context `{Env : StoreEnv}.

(** A batch that moves the incident of a check leaves its page waiting. *)
Lemma transition_paged observed r w r' w' c check o :
  synced r w -> Forall (fun x => led_id (W := World) (ck_ID (ob_Check x))) observed ->
  (forall x, x ∈ observed -> ck_ID (ob_Check x) = c -> ob_Check x = check) -> ck_Webhook check <> "" ->
  active_check (w_tables w) c = true ->
  ApplyResultBatch observed (Some r, Some w) = (inr tt, (Some r', Some w')) ->
  runtime_open r c = negb o -> runtime_open r' c = o ->
  exists q body payload, marshal_AlertPayload (alert_of check o q) = inr body /\
    jsonb_in body = Some payload /\ paged c o (ck_Webhook check) payload (w_tables w').
Proof.
  intros (Hwf & Hinv & Hkeys & Hag) Hids Hcheck Hweb Ha Hrun Ho Ho'. pose proof Hinv as (Hdb & Hidok & _).
  unfold ApplyResultBatch in Hrun. destruct (bool_decide (length observed = 0)).
  { injection Hrun as <- _. rewrite Ho in Ho'. by destruct o. }
  unfold applyObservedResultBatch in Hrun.
  destruct (observe_all observed [] [] r) as [[e|[ws rbs]] r1] eqn:Hobs; [done|].
  destruct (store_PersistMonitoringBatch ws w) as [[e|saved] w1] eqn:Hst; [done|].
  injection Hrun as <- <-. change (store_PersistMonitoringBatch ws w) with (PersistMonitoringBatch ws w) in Hst.
  assert (Hcan : canonical_id c) by (by apply Hidok, active_is_Some).
  assert (Hne : c <> "") by (by apply canonical_nonempty).
  destruct (observe_all_effect (fun c => led_active w c = true) observed) with
    (writes := @nil MonitoringWrite) (rbs := @nil observedResultRollback) (r := r) (writes' := ws)
    (rbs' := rbs) (r' := r1) (open := led_open w) as (ws0 & E & _ & _ & Hnames & Hag' & _); try done.
  { intros c0 Hc0. by eapply led_id_nonempty, led_active_id. }
  { eapply Forall_impl; [|exact Hids]. intros x. by apply led_id_nonempty. }
  simpl in E. subst ws0. specialize (Hag' c Ha). rewrite Ho' in Hag'. specialize (Hag c Ha) as Hagc.
  assert (Hnames' : Forall (fun wr => mw_IncidentCheckID wr = "" \/ canonical_id (mw_IncidentCheckID wr)) ws).
  { rewrite Forall_forall in Hids. eapply Forall_impl; [|exact Hnames]. intros wr [|He]; [by left|right].
    apply Exists_exists in He as (x & Hx & ->). by apply Hids. }
  destruct (batch_run _ _ _ _ Hst) as [[_ Hemp]|(w2 & w3 & Hdb2 & E2 & E3 & Hbody)].
  { exfalso. rewrite fold_effect_empty in Hag' by done. rewrite Ho, <-Hag' in Hagc. by destruct o. }
  rewrite E3. apply (batch_page c o) in Hbody as (wr & Hin & Hid & Hres & Hpage);
    [|by apply Hdb2|done|done|by rewrite E2| |].
  - destruct (observe_all_requests _ _ _ _ _ _ _ _ Hobs Hin) as [Hnil|(x & q & Hx & Hx' & Hreq)];
      [congruence|by apply not_elem_of_nil in Hnil|].
    rewrite Hid in Hx'. rewrite (Hcheck x Hx (eq_sym Hx')), Hres, negb_involutive in Hreq.
    destruct (request_of check o q _ Hweb Hreq) as (body & Hbody & Hrq).
    destruct (Hpage _ Hrq) as (payload & Hj & Hpg); [done|by eapply alert_text_nonempty|]. eauto 10.
  - rewrite E2, <-Ho. exact (eq_sym Hagc).
  - rewrite E2. exact (eq_sym Hag').
Qed.

(** Every result accepted for a check carries the check as the database has it. *)
Lemma accepted_check t probe now (incoming : list CheckResult) c row x :
  ids_ok t -> t_checks t !! c = Some row -> x ∈ omap (accept t probe now) incoming ->
  ck_ID (ob_Check x) = c -> ob_Check x = scanCheck (c, row).
Proof.
  intros Hids Hrow Hx Hc. apply list_elem_of_omap in Hx as (y & _ & Hy).
  unfold accept, known_check in Hy. destruct (normalizeCheckID _) as [e|c']; [done|].
  destruct (t_checks t !! c') as [row'|] eqn:Hl; [|done]. destruct (is_active row'); [|done].
  injection Hy as <-. simpl in Hc. subst c'. rewrite Hrow in Hl. by injection Hl as <-.
Qed.

Lemma upload_paged now probe incoming r w r' w' c row o :
  synced r w -> t_checks (w_tables w) !! c = Some row -> c_deleted_at row = None -> c_webhook row <> "" ->
  ProcessBatch now (Some probe) incoming (r, w) = (inr tt, (r', w')) ->
  runtime_open r c = negb o -> runtime_open r' c = o ->
  db_wf w' /\ exists q body payload, marshal_AlertPayload (alert_of (scanCheck (c, row)) o q) = inr body /\
    jsonb_in body = Some payload /\ paged c o (c_webhook row) payload (w_tables w').
Proof.
  intros Hs Hrow Hact Hweb Hrun Ho Ho'.
  destruct (process_batch_keeps_agreement _ _ _ _ _ _ _ _ Hs Hrun) as [[Hs' (w1 & Hsame & Happ)] _].
  split; [apply Hs'|]. assert (Hs1 : synced r w1) by (by apply (synced_same r w)). destruct Hsame as [T _].
  eapply (transition_paged _ r w1 r' w' c (scanCheck (c, row)) o); [done| | |done| |exact Happ|done|done].
  - apply accepted_ids, Hs.
  - intros x Hx. by eapply accepted_check; [apply Hs|..].
  - unfold active_check. rewrite T, Hrow. by apply bool_decide_eq_true_2.
Qed.

(** * To the webhook *)

Context `{SE : SenderEnv} (sd : Sender) (N : nat).
Hypothesis calm : forall n, fault_at n = None.
Hypothesis texts : forall n url payload err,
  sd_send sd n url payload = Some err -> pg_text_ok (truncateError err) = true.
Hypothesis running : forall n, stop_taken n = false.
Hypothesis accepting : forall n url payload, N <= n -> sd_send sd n url payload = None.
Hypothesis passing : forall T, exists n0, forall n, n0 <= n ->
  (T <= timestamptz (sender_now n))%Z /\ (T <= timestamptz (sender_now n - sd_staleAfter sd))%Z.

(** C2. An outage reaches its webhook, and so does the recovery.  From a state in
    which runtime and database agree, let an upload of a probe that is taken open
    (or close) the incident of an active check that has a webhook.  Then the same
    transaction has queued one page about it, for that webhook, whose payload is
    the alert for the check as the database has it; and a worker of the sender, on
    a database that answers and with webhooks that accept from some moment on, has
    after finitely many rounds sent that payload to that webhook and recorded the
    page as delivered. *)
Theorem incident_reaches_webhook now probe incoming r w r' w' c row o tick :
  synced r w -> t_checks (w_tables w) !! c = Some row -> c_deleted_at row = None -> c_webhook row <> "" ->
  ProcessBatch now (Some probe) incoming (r, w) = (inr tt, (r', w')) ->
  runtime_open r c = negb o -> runtime_open r' c = o ->
  patient N (MkSenderState w' [] tick) ->
  exists q body payload k i n R,
    marshal_AlertPayload (alert_of (scanCheck (c, row)) o q) = inr body /\ jsonb_in body = Some payload /\
    t_notifications (w_tables w') !! k = Some n /\ n_state n = notificationStatePending /\
    n_event n = page_event o /\ n_webhook_url n = c_webhook row /\ n_payload n = payload /\
    t_incidents (w_tables w') !! n_incident_id n = Some i /\ i_check_id i = c /\
    bool_decide (i_resolved_at i = None) = o /\
    forall m, R <= m ->
      let s' := (worker m (Some sd) true (MkSenderState w' [] tick)).2 in
      exists n', t_notifications (w_tables (sn_store s')) !! k = Some n' /\
        n_state n' = notificationStateDelivered /\ (c_webhook row, payload) ∈ sn_sent s'.
Proof.
  intros Hs Hrow Hact Hweb Hrun Ho Ho' Hpat.
  destruct (upload_paged _ _ _ _ _ _ _ _ _ _ Hs Hrow Hact Hweb Hrun Ho Ho')
    as (Hdb & q & body & payload & Hm & Hj & k & i & n & Hi & Hc & Hres & Hl & Hev & Hst & Hu & Hp).
  destruct (pages_delivered sd N calm texts running accepting passing (MkSenderState w' [] tick)) as [R HR];
    [by split|].
  exists q, body, payload, k, i, n, R. split_and!; try done. intros m Hle.
  rewrite (worker_rounds sd running). simpl. destruct (HR m Hle k n) as (n' & Hl' & Hst' & Hsent).
  - apply lookup_live. split; [done|]. intros [E|E]; rewrite Hst in E; discriminate E.
  - exists n'. by rewrite <-Hu, <-Hp.
Qed.
End results.

(** * Witness *)

(** Two of three probes have confirmed the outage, and the next report opens the
    incident. *)
Definition ex_brink : Runtime * World :=
  default (ex_fresh, ex_world) (ex_run (take 4 ex_batches) ex_fresh ex_world).

Lemma ex_brink_synced : @synced World (@store_ledger calm_env) ex_brink.1 ex_brink.2.
Proof.
  unfold ex_brink. destruct (ex_run (take 4 ex_batches) ex_fresh ex_world) as [[r w]|] eqn:Hrun.
  - apply (ex_run_synced _ _ _ _ _) in Hrun; [done| |exact ex_synced]. repeat constructor.
  - exact ex_synced.
Qed.

Definition ex_upload : (GoError + unit) * (Runtime * World) :=
  @ProcessBatch table_Fire World (@store_probes calm_env) 60 (Some (ex_probe "a"))
    [ex_incoming "" ex_id false] (ex_brink.1, ex_brink.2).

Lemma incident_reaches_webhook_witness :
  exists payload R, forall m, R <= m ->
    ("https://hook.example", payload) ∈ sn_sent (@worker ex_ticking World (@store_notifications calm_env) m
      (Some ex_sender) true (MkSenderState ex_upload.2.2 [] 0)).2.
Proof.
  assert (Hres : ex_upload.1 = inr tt) by (vm_compute; reflexivity).
  assert (Ho : runtime_open ex_brink.1 ex_id = false) by (vm_compute; reflexivity).
  assert (Ho' : runtime_open ex_upload.2.1 ex_id = true) by (vm_compute; reflexivity).
  assert (Hfit : pages_fit 10 ex_upload.2.2 = true) by (vm_compute; reflexivity).
  assert (Hrow : bool_decide (t_checks (w_tables ex_brink.2) !! ex_id =
    Some (MkCheckRow "web" "http" "https://example.com" "https://hook.example" (Some 7%Z) 30 None)) = true)
    by (vm_compute; reflexivity).
  apply bool_decide_eq_true in Hrow.
  destruct ex_upload as [res [r' w']] eqn:Hrun. cbn [fst snd] in *. subst res. unfold ex_upload in Hrun.
  destruct (@incident_reaches_webhook table_Fire table_Fire_laws calm_env ex_ticking ex_sender 10
    (fun _ => eq_refl) ex_texts (fun _ => eq_refl) ex_accepting ex_passing 60%Z (ex_probe "a")
    [ex_incoming "" ex_id false] ex_brink.1 ex_brink.2 r' w' ex_id _ true 0
    ex_brink_synced Hrow eq_refl ltac:(discriminate) Hrun Ho Ho')
    as (q & body & payload & k & i & n & R & _ & _ & _ & _ & _ & _ & _ & _ & _ & _ & HR).
  - apply pages_fit_patient. exact Hfit.
  - exists payload, R. intros m Hm. destruct (HR m Hm) as (n' & _ & _ & Hsent). exact Hsent.
Defined.
