(* ===== verification/ServerInvariant.v ===== *)
(** What every HTTP request keeps: runtime and database in agreement, checks
    known to both, accounts sound.  First the store calls the handlers make. *)

From S2P Require Import Prelude GoStrings Stateless Types Database StoreNotifications StoreMonitoring.
From S2P Require Import StoreChecks StoreProbes StoreInvariant StoreProperties StoreAuth AuthInvariant AuthProperties.
From S2P Require Import StoreFrame ProbeMachine CheckMachine QuorumMachine Runtime Results Ledger Heartbeat Sweepers SweepProperties Recovery.
From S2P Require Import StoreLedger ProbeProcessor AuthProcessor Onboarding ProbeIngest StatusView Server.

#[global] Instance store_status `{StoreEnv} : StatusViewStore World := {|
  store_StatusCheckViews := StatusCheckViews;
  store_PublicStatusCheckViews := PublicStatusCheckViews
|}.

(** The runtime knows no check the database never had. *)
Definition known `{StoreEnv} (r : Runtime) (w : World) : Prop :=
  forall c, is_Some (rt_quorums r !! c) -> is_Some (t_checks (w_tables w) !! c).

Definition healthy `{StoreEnv} (s : Shared) : Prop :=
  synced s.1 s.2 /\ known s.1 s.2 /\ accounts s.2.

(** Acknowledgements arrive: a call that reports a driver's error was not done. *)
Definition acknowledged `{StoreEnv} : Prop := forall n msg, fault_at n <> Some (FaultAfter msg).

(** * Tables that change without touching incidents *)

Definition tidy : relation Tables := fun t t' =>
  t_states t' = t_states t /\ t_incidents t' = t_incidents t /\
  (forall c, active_check t' c = true -> active_check t c = true \/ t_checks t !! c = None) /\
  (forall c, is_Some (t_checks t !! c) -> is_Some (t_checks t' !! c)).

#[global] Instance tidy_preorder : PreOrder tidy.
Proof.
  split; [intros t; split_and!; auto|].
  intros t1 t2 t3 (S1 & I1 & A1 & G1) (S2 & I2 & A2 & G2). split_and!; [congruence..| |auto].
  intros c Hc. destruct (A2 c Hc) as [Ha|Hn]; [auto|]. right. apply eq_None_not_Some. intros Hs.
  apply G1 in Hs. rewrite Hn in Hs. by destruct Hs.
Qed.

Lemma tidy_same t t' :
  t_states t' = t_states t -> t_incidents t' = t_incidents t -> t_checks t' = t_checks t -> tidy t t'.
Proof.
  intros Hs Hi Hc. split_and!; [done..| |]; intros c; unfold active_check; rewrite Hc; auto.
Qed.

Lemma tidy_insert t k row :
  t_checks t !! k = None -> tidy t (set_t_checks (<[k := row]> (t_checks t)) t).
Proof.
  intros Hk. split_and!; [done..| |].
  - intros c. unfold active_check. simpl. destruct (decide (c = k)) as [->|Hne]; [by right|].
    rewrite lookup_insert_ne by done. auto.
  - intros c Hc. simpl. apply lookup_insert_is_Some. destruct (decide (k = c)); auto.
Qed.

Lemma tidy_update t f g :
  (forall row, c_deleted_at (g row) = c_deleted_at row) ->
  tidy t (set_t_checks (update_where f g (t_checks t)) t).
Proof.
  intros Hg. split_and!; [done..| |].
  - intros c. unfold active_check. simpl. rewrite lookup_update_where.
    destruct (t_checks t !! c) as [row|]; simpl; [|by right]. destruct (f c row); rewrite ?Hg; auto.
  - intros c [row Hc]. simpl. rewrite lookup_update_where, Hc. by eexists.
Qed.

Section store.
Context `{SEL : StoreEnvLaws}.

Lemma tidy_insert_check c user conflict :
  respects tidy conflict -> respects tidy (insert_check c user conflict).
Proof.
  intros Hc. unfold insert_check. frame. destruct (_ || _) eqn:Hb; [apply Hc|].
  apply orb_false_iff in Hb as [Hb _]. apply bool_decide_eq_false, eq_None_not_Some in Hb.
  by apply tidy_insert.
Qed.

Definition tidy_op (op : StoreOp) : Prop :=
  match op with
  | OpPersistBatch _ | OpPersistWrite _ | OpDeleteCheck _ _ => False
  | _ => True
  end.

Lemma tidy_store op w : tidy_op op -> tidy (w_tables w) (w_tables (exec_store op w)).
Proof.
  destruct op; try done; intros _; simpl.
  - apply (respects_call tidy). frame. cbv zeta. destruct (negb _); [reflexivity|]. by apply tidy_same.
  - apply (respects_call tidy). frame. by apply tidy_same.
  - apply (respects_call tidy). frame. by apply tidy_same.
  - apply (respects_for tidy). intros c. frame. apply tidy_insert_check. frame.
  - apply (respects_bind tidy); frame. apply tidy_insert_check. frame.
  - apply (respects_call tidy). frame. by apply tidy_update.
  - pose proof (probes_store (OpSeedProbes probes) w I) as E. simpl in E. rewrite E. by apply tidy_same.
  - pose proof (probes_store (OpCreateProbe requestedProbeID) w I) as E. simpl in E. rewrite E.
    by apply tidy_same.
  - pose proof (probes_store (OpRegisterProbe probeID version) w I) as E. simpl in E. rewrite E.
    by apply tidy_same.
Qed.

(** A check without a row has no incident. *)
Lemma no_row_no_incident t c : tables_wf t -> t_checks t !! c = None -> open_incident c t = false.
Proof.
  intros Hwf Hc. apply has_row_false. intros k i Hl. destruct (is_open_of c i) eqn:Ho; [|done].
  apply is_open_of_true in Ho as [<- _]. destruct (wf_incidents t Hwf k i Hl) as [[row Hr] _].
  by rewrite Hc in Hr.
Qed.

Lemma unknown_not_open r w c : known r w -> t_checks (w_tables w) !! c = None -> runtime_open r c = false.
Proof.
  intros Hk Hc. unfold runtime_open. destruct (rt_quorums r !! c) eqn:Hq; [|done].
  destruct (Hk c) as [row Hr]; [by eexists|]. by rewrite Hc in Hr.
Qed.

(** The database may move under the runtime as long as the incidents do not. *)
Lemma healthy_tidy r w w' :
  led_inv w' -> accounts w' -> tidy (w_tables w) (w_tables w') -> healthy (r, w) -> healthy (r, w').
Proof.
  intros Hinv Hacc (_ & Hi & Ha & Hg) ((Hwf & Hinv0 & Hk & Hag) & Hkn & _).
  split; [split; [done|split; [done|split; [done|]]]|split; [intros c Hc; by apply Hg, Hkn|done]].
  intros c Hc. change (active_check (w_tables w') c = true) in Hc.
  change (runtime_open r c = open_incident c (w_tables w')). rewrite (open_incident_same c _ _ Hi).
  destruct (Ha c Hc) as [Hc0|Hn]; [by apply Hag|].
  rewrite (unknown_not_open r w c Hkn Hn). symmetry. apply no_row_no_incident; [apply Hinv0|done].
Qed.

Lemma inv_tidy op w : tidy_op op -> led_inv w -> led_inv (exec_store op w).
Proof.
  intros Hop (Hwf & Hids & Hrows). destruct (tidy_store op w Hop) as (Hs & _).
  split_and!; [by apply exec_store_wf|by apply ids_store|]. unfold rows_ok. by rewrite Hs.
Qed.

Lemma store_accounts op w : accounts w -> accounts (exec_store op w).
Proof. apply other_accounts, store_aside. Qed.

Lemma healthy_store op r w : tidy_op op -> healthy (r, w) -> healthy (r, exec_store op w).
Proof.
  intros Hop Hh. pose proof Hh as ((_ & Hinv & _) & _ & Hacc).
  apply (healthy_tidy r w); [by apply inv_tidy|by apply store_accounts|by apply tidy_store|done].
Qed.

Lemma healthy_same r w w' : same_db w w' -> healthy (r, w) -> healthy (r, w').
Proof.
  intros [T Q] (Hs & Hk & Ha). split; [|split].
  - by apply (synced_same r w).
  - intros c Hc. simpl. rewrite T. by apply Hk.
  - unfold accounts. simpl. rewrite T, Q. exact Ha.
Qed.

(** A created check is in the table under the ID it is given. *)
Lemma create_check_row c userID w created w' :
  CreateCheck c userID w = (inr created, w') -> is_Some (t_checks (w_tables w') !! ck_ID created).
Proof.
  intros Hrun. apply bind_inr in Hrun as (id & w1 & Hrun & [= <- <-]).
  apply call_read in Hrun. apply bind_inr in Hrun as ([] & w2 & _ & Hrun).
  apply bind_inr in Hrun as (uid & w3 & [= <- <-] & Hrun).
  apply bind_inr in Hrun as (t & w4 & [= <- <-] & Hrun).
  destruct (_ || _); [done|]. injection Hrun as <- <-. simpl. rewrite lookup_insert_eq. by eexists.
Qed.

(** * Deletion *)

Lemma delete_run name userID w res w' :
  DeleteCheck name userID w = (res, w') ->
  (w_tables w' = w_tables w /\ forall id, res <> inr (true, id)) \/
  exists checkID at_, w_tables w' = delete_check_t checkID at_ (w_tables w) /\
    is_Some (t_checks (w_tables w) !! checkID) /\ forall b id, res = inr (b, id) -> id = checkID.
Proof.
  intros Hrun. destruct res as [e|[b id]].
  - apply tx_error in Hrun as [T|(a & w2 & Hrun & T & _)]; [by left|].
    apply bind_inr in Hrun as (row & w1 & Hfind & Hrun).
    apply delete_find in Hfind as (T1 & _ & Hrow). specialize (Hrow row eq_refl).
    destruct row as [checkID|]; [|left; injection Hrun as _ <-; split; [by rewrite T, T1|done]].
    apply bind_inr in Hrun as (now & w1' & Hnow & Hrun). injection Hnow as <- <-.
    apply delete_body in Hrun as [_ Ht]. destruct (Ht _ eq_refl) as [_ Htab]. simpl in Htab.
    right. eexists checkID, _. rewrite T, Htab, T1. split_and!; [done| |done].
    destruct (head_select _ _ _ (eq_sym Hrow)) as (c & Hc & _). by eexists.
  - apply tx_ok in Hrun as (w2 & Hrun & ->).
    apply bind_inr in Hrun as (row & w1 & Hfind & Hrun).
    apply delete_find in Hfind as (T1 & _ & Hrow). specialize (Hrow row eq_refl).
    destruct row as [checkID|]; [|left; injection Hrun as <- <- <-; split; [done|by intros id [=]]].
    apply bind_inr in Hrun as (now & w1' & Hnow & Hrun). injection Hnow as <- <-.
    apply delete_body in Hrun as [_ Ht]. destruct (Ht _ eq_refl) as [E Htab]. simpl in Htab.
    right. eexists checkID, _. simpl. rewrite Htab, T1. split_and!; [done| |congruence].
    destruct (head_select _ _ _ (eq_sym Hrow)) as (c & Hc & _). by eexists.
Qed.

Lemma delete_other_open c checkID at_ t :
  c <> checkID -> open_incident c (delete_check_t checkID at_ t) = open_incident c t.
Proof.
  intros Hne. rewrite <-(open_incident_same c _ (resolve_incidents checkID at_ t)) by done.
  rewrite open_incident_resolve. by rewrite bool_decide_eq_false_2.
Qed.

Lemma inv_delete name userID w : led_inv w -> led_inv (exec_store (OpDeleteCheck name userID) w).
Proof.
  intros (Hwf & Hids & Hrows). split_and!; [by apply exec_store_wf|by apply ids_store|].
  simpl. destruct (DeleteCheck name userID w) as [res w'] eqn:Hrun. simpl.
  destruct (delete_run _ _ _ _ _ Hrun) as [[-> _]|(id & at_ & -> & _)]; [done|].
  intros k s Hs. apply lookup_delete_where_Some in Hs as [Hs _]. by apply Hrows.
Qed.

(** Runtime and database forget a deleted check together. *)
Lemma healthy_delete name userID r w res w' :
  DeleteCheck name userID w = (res, w') -> healthy (r, w) ->
  healthy (r, w') /\ forall id, res = inr (true, id) -> healthy (RemoveCheck id r, w').
Proof.
  intros Hrun Hh. pose proof Hh as ((Hwf & Hinv & Hk & Hag) & Hkn & Hacc).
  pose proof (inv_delete name userID w Hinv) as Hinv'.
  pose proof (store_accounts (OpDeleteCheck name userID) w Hacc) as Hacc'.
  simpl in Hinv', Hacc'. rewrite Hrun in Hinv', Hacc'. simpl in Hinv', Hacc'.
  destruct (delete_run _ _ _ _ _ Hrun) as [[T Hno]|(id & at_ & T & Hid & Hres)].
  { split; [|intros id ->; by destruct (Hno id)].
    apply (healthy_tidy r w); [done|done|by rewrite T|done]. }
  destruct (deleted_tables (w_tables w) id at_ (proj1 (proj1 Hinv)) Hid) as (Hd & _ & _ & _ & Hother & _).
  assert (Hact : forall c, active_check (w_tables w') c = true ->
    c <> id /\ active_check (w_tables w) c = true).
  { intros c. rewrite T. intros Hc. assert (c <> id) by congruence. split; [done|].
    revert Hc. unfold active_check. by rewrite Hother. }
  assert (Hdom : forall c, is_Some (t_checks (w_tables w) !! c) -> is_Some (t_checks (w_tables w') !! c)).
  { intros c [row Hc]. rewrite T. simpl. rewrite lookup_update_where. simpl. rewrite Hc. by eexists. }
  split.
  - split; [split; [done|split; [done|split; [done|]]]|split; [intros c Hc; by apply Hdom, Hkn|done]].
    intros c Hc. destruct (Hact c Hc) as [Hne Hc0].
    change (runtime_open r c = open_incident c (w_tables w')).
    rewrite T, delete_other_open by done. by apply Hag.
  - intros id' E. rewrite (Hres _ _ E).
    assert (Hsub : forall c, is_Some (rt_quorums (RemoveCheck id r) !! c) -> is_Some (rt_quorums r !! c)).
    { intros c [q Hc]. simpl in Hc. apply lookup_delete_Some in Hc as [_ Hc]. by eexists. }
    split; [split; [by apply RemoveCheck_wf|split; [done|split]]|split; [|done]].
    + intros c Hc. by apply Hk, Hsub.
    + intros c Hc. destruct (Hact c Hc) as [Hne Hc0].
      change (runtime_open (RemoveCheck id r) c = open_incident c (w_tables w')).
      rewrite T, delete_other_open by done. unfold runtime_open. simpl.
      rewrite lookup_delete_ne by done. by apply Hag.
    + intros c Hc. by apply Hdom, Hkn, Hsub.
Qed.

(** * Writes that fail *)

Lemma batch_error ws w e w' :
  acknowledged -> PersistMonitoringBatch ws w = (inl e, w') -> w_tables w' = w_tables w.
Proof.
  intros Hack Hrun. apply bind_inl in Hrun as [Hrun|([] & w1 & Hval & Hrun)].
  { pose proof (validate_all_tables ws w) as Hv. by rewrite Hrun in Hv. }
  pose proof (validate_all_tables ws w) as Hv. rewrite Hval in Hv. simpl in Hv.
  destruct (negb _); [done|].
  apply tx_error in Hrun as [T|(? & ? & _ & _ & msg & _ & Hf)]; [congruence|by destruct (Hack _ _ Hf)].
Qed.

Lemma write_error wr w e w' :
  acknowledged -> PersistMonitoringWrite wr w = (inl e, w') -> w_tables w' = w_tables w.
Proof.
  intros Hack Hrun. apply bind_inl in Hrun as [Hrun|(ws & w1 & _ & Hret)]; [|done].
  by eapply batch_error.
Qed.

(** A store call that left the tables as they were. *)
Lemma healthy_unchanged op r w :
  w_tables (exec_store op w) = w_tables w -> healthy (r, w) -> healthy (r, exec_store op w).
Proof.
  intros T Hh. pose proof Hh as ((_ & (Hwf & Hids & Hrows) & _) & _ & Hacc).
  apply (healthy_tidy r w); [|by apply store_accounts|by rewrite T|done].
  split_and!; [by apply exec_store_wf|by rewrite T|by rewrite T].
Qed.

Lemma healthy_batch_error ws r w e w' :
  acknowledged -> PersistMonitoringBatch ws w = (inl e, w') -> healthy (r, w) -> healthy (r, w').
Proof.
  intros Hack Hrun. pose proof (healthy_unchanged (OpPersistBatch ws) r w) as Hu. simpl in Hu.
  rewrite Hrun in Hu. apply Hu. by eapply batch_error.
Qed.

Lemma healthy_write_error wr r w e w' :
  acknowledged -> PersistMonitoringWrite wr w = (inl e, w') -> healthy (r, w) -> healthy (r, w').
Proof.
  intros Hack Hrun. pose proof (healthy_unchanged (OpPersistWrite wr) r w) as Hu. simpl in Hu.
  rewrite Hrun in Hu. apply Hu. by eapply write_error.
Qed.

(** * The runtime alone *)

Lemma healthy_quorums r r' w :
  runtime_wf r' -> rt_quorums r' = rt_quorums r -> healthy (r, w) -> healthy (r', w).
Proof.
  intros Hwf E (Hs & Hk & Ha). split; [by apply (synced_quorums r)|]. split; [|done].
  intros c. simpl. rewrite E. apply Hk.
Qed.

Lemma healthy_add_probe id r w : healthy (r, w) -> healthy ((Runtime.AddProbe id r).2, w).
Proof.
  intros Hh. pose proof Hh as ((Hwf & _) & _). apply (healthy_quorums r); [by apply addProbeLocked_wf| |done].
  unfold Runtime.AddProbe, addProbeLocked. repeat case_match; done.
Qed.

(** A new machine has no incident. *)
Lemma ensure_flag c r d : runtime_open (ensureQuorumLocked c r).2 d = runtime_open r d.
Proof.
  unfold ensureQuorumLocked, runtime_open. destruct (rt_quorums r !! c) eqn:Hc; [done|]. simpl.
  destruct (decide (d = c)) as [->|Hne]; [by rewrite lookup_insert_eq, Hc|by rewrite lookup_insert_ne].
Qed.

Lemma healthy_ensure c r w :
  is_Some (t_checks (w_tables w) !! c) -> healthy (r, w) -> healthy ((EnsureCheck c r).2, w).
Proof.
  intros Hc ((Hwf & Hinv & Hk & Hag) & Hkn & Hacc). unfold EnsureCheck.
  pose proof (ensureQuorumLocked_wf r c Hwf) as Hwf'. pose proof (ensure_flag c r) as Ho.
  assert (Hkeys : forall d, is_Some (rt_quorums (ensureQuorumLocked c r).2 !! d) ->
    d = c \/ is_Some (rt_quorums r !! d)).
  { intros d. unfold ensureQuorumLocked. destruct (rt_quorums r !! c); simpl; [by right|].
    intros Hd. apply lookup_insert_is_Some in Hd as [<-|[_ Hd]]; auto. }
  destruct (ensureQuorumLocked c r) as [q r']. simpl in *.
  split; [split; [done|split; [done|split]]|split; [|done]].
  - intros d Hd. destruct (Hkeys d Hd) as [->|Hd']; [by apply Hinv|by apply Hk].
  - intros d Hd. simpl. by rewrite Ho, (Hag d Hd).
  - intros d Hd. destruct (Hkeys d Hd) as [->|Hd']; [done|by apply Hkn].
Qed.
End store.

(** * Accounts *)

Section accounts.
Context `{SEL : StoreEnvLaws} `{AE : AuthEnv}.

(** A call that touches nothing but accounts, and keeps them sound. *)
Definition quiet {A} (m : DB A) : Prop := forall w,
  accounts w -> accounts (m w).2 /\ auth_frame w (m w).2.

Lemma frame_db_wf w w' : auth_frame w w' -> db_wf w -> db_wf w'.
Proof.
  destruct w as [t q n], w' as [t' q' n']. intros [Hp Hc Hs Hi Hn (Hq1 & Hq2 & _) _ _] [Hwf Hq]. simpl in *.
  destruct t, t', q, q'. simpl in *. subst. split; [|exact Hq]. destruct Hwf. by split.
Qed.

Lemma frame_inv w w' : auth_frame w w' -> led_inv w -> led_inv w'.
Proof.
  destruct w as [t q n], w' as [t' q' n']. intros [Hp Hc Hs Hi Hn (Hq1 & Hq2 & _) _ _]. simpl in *.
  destruct t, t', q, q'. simpl in *. subst. intros ([Hwf Hq] & Hids & Hrows).
  split; [split; [|exact Hq]|split; [exact Hids|exact Hrows]]. destruct Hwf. by split.
Qed.

Lemma healthy_quiet {A} (m : DB A) r w : quiet m -> healthy (r, w) -> healthy (r, (m w).2).
Proof.
  intros Hm Hh. pose proof Hh as ((_ & Hinv & _) & _ & Hacc). destruct (Hm w Hacc) as [Hacc' Hf].
  apply (healthy_tidy r w); [by eapply frame_inv|done| |done].
  destruct Hf. by apply tidy_same.
Qed.

Lemma quiet_ret {A} (a : A) : quiet (mret a).
Proof. intros w Hw. split; [done|reflexivity]. Qed.
Lemma quiet_fail {A} e : quiet (st_fail e : DB A).
Proof. intros w Hw. split; [done|reflexivity]. Qed.

Lemma quiet_bind {A B} (m : DB A) (k : A -> DB B) : quiet m -> (forall a, quiet (k a)) -> quiet (m ≫= k).
Proof.
  intros Hm Hk w Hw. destruct (Hm w Hw) as [Ha Hf]. unfold mbind, St_bind.
  destruct (m w) as [[e|a] w1]; [done|]. destruct (Hk a w1 Ha) as [Ha2 Hf2].
  split; [done|by etransitivity].
Qed.

Lemma quiet_wrapping {A} prefix (m : DB A) : quiet m -> quiet (wrapping prefix m).
Proof. intros Hm w Hw. specialize (Hm w Hw). unfold wrapping. by destruct (m w) as [[]]. Qed.

Lemma quiet_op {A} (m : DB A) op : (forall w, exec_auth op w = (m w).2) -> quiet m.
Proof. intros E w Hw. rewrite <-E. destruct (exec_auth_sound op w Hw) as (? & ? & _). done. Qed.

Lemma quiet_login req : quiet (Login req).
Proof.
  apply quiet_bind; [apply quiet_wrapping; by apply (quiet_op _ (OpAuthenticateUser (lr_Email req) (lr_Password req)))|].
  intros [u|]; [|apply quiet_fail]. apply quiet_bind; [|intros; apply quiet_ret].
  apply quiet_wrapping. by apply (quiet_op _ (OpCreateSession (us_ID u))).
Qed.

Lemma quiet_change user req : quiet (ChangePassword user req).
Proof.
  destruct user as [u|]; [|apply quiet_fail]. simpl. case_match; [apply quiet_fail|].
  apply quiet_bind; [|intros []; [apply quiet_ret|apply quiet_fail]].
  apply quiet_wrapping.
  by apply (quiet_op _ (OpUpdateUserPassword (us_ID u) (cp_CurrentPassword req) (cp_NewPassword req))).
Qed.

Lemma quiet_request req : quiet (RequestAccess req).
Proof. apply quiet_wrapping. by apply (quiet_op _ (OpCreateSignupRequest (ra_Email req))). Qed.

Lemma quiet_pending : quiet AuthProcessor.ListPendingSignupRequests.
Proof. apply quiet_wrapping. by apply (quiet_op _ OpListPendingSignupRequests). Qed.

Lemma quiet_approve id : quiet (AuthProcessor.ApproveSignupRequest id).
Proof.
  apply quiet_bind; [apply quiet_wrapping; by apply (quiet_op _ (OpApproveSignupRequest id))|].
  intros a. case_match; [apply quiet_fail|apply quiet_ret].
Qed.

Lemma quiet_reject id : quiet (AuthProcessor.RejectSignupRequest id).
Proof.
  apply quiet_bind; [apply quiet_wrapping; by apply (quiet_op _ (OpRejectSignupRequest id))|].
  intros []; [apply quiet_ret|apply quiet_fail].
Qed.

Lemma quiet_setup req : quiet (AuthProcessor.SetupPassword req).
Proof.
  unfold AuthProcessor.SetupPassword. case_match; [apply quiet_fail|].
  apply quiet_bind; [apply quiet_wrapping; by apply (quiet_op _ (OpSetupPassword (sp_Token req) (sp_NewPassword req)))|].
  intros a. case_match; [apply quiet_fail|apply quiet_ret].
Qed.
End accounts.

(** * Reads *)

Definition reads {A} (m : DB A) : Prop := forall w, same_db w (m w).2.

Section reads.
Context `{Env : StoreEnv}.

Lemma reads_ret {A} (a : A) : reads (mret a).
Proof. by intros w. Qed.
Lemma reads_fail {A} e : reads (st_fail e : DB A).
Proof. by intros w. Qed.
Lemma reads_params texts ints : reads (params texts ints).
Proof. intros w. by destruct (params_run texts ints w) as [res ->]. Qed.
Lemma reads_tables : reads get_tables.
Proof. by intros w. Qed.

Lemma reads_bind {A B} (m : DB A) (k : A -> DB B) : reads m -> (forall a, reads (k a)) -> reads (m ≫= k).
Proof.
  intros Hm Hk w. specialize (Hm w). unfold mbind, St_bind. destruct (m w) as [[e|a] w1]; [done|].
  destruct Hm as [T Q], (Hk a w1) as [T2 Q2]. simpl in *. split; congruence.
Qed.

Lemma reads_call {A} (stmt : DB A) : reads stmt -> reads (call stmt).
Proof. intros Hs w. specialize (Hs (next_tick w)). unfold call. by destruct (fault_at (w_tick w)) as [[]|]. Qed.
End reads.

Create HintDb reads.
#[export] Hint Resolve reads_ret reads_fail reads_params reads_tables reads_bind reads_call : reads.

Section store_reads.
Context `{Env : StoreEnv}.

Lemma reads_authenticate id secret : reads (AuthenticateProbe id secret).
Proof. apply reads_bind; [auto with reads|]. intros [[k p]|]; [case_match|]; auto with reads. Qed.
Lemma reads_all_checks : reads ListAllChecks.
Proof. unfold ListAllChecks. auto with reads. Qed.
Lemma reads_checks u : reads (ListChecks u).
Proof. unfold ListChecks. auto with reads. Qed.
Lemma reads_incidents u n : reads (ListIncidents u n).
Proof. apply reads_call, reads_bind; [auto with reads|]. intros []. case_match; auto with reads. Qed.
Lemma reads_status u : reads (StatusCheckViews u).
Proof. unfold StatusCheckViews. auto with reads. Qed.
Lemma reads_public slug : reads (PublicStatusCheckViews slug).
Proof. apply reads_bind; [auto with reads|]. intros [u|]; auto 8 with reads. Qed.
End store_reads.

(** * Monitoring writes *)

Section writes.
Context `{SLL : StatelessLaws} `{SEL : StoreEnvLaws}.

(** A batch of sound writes that goes with the runtime's flags. *)
Lemma healthy_batch ws r r' w saved w' :
  healthy (r, w) -> runtime_wf r' -> known r' w ->
  Forall sound_write ws ->
  (forall c, active_check (w_tables w) c = true -> runtime_open r' c = fold_left incident_effect ws (led_open w) c) ->
  PersistMonitoringBatch ws w = (inr saved, w') -> healthy (r', w').
Proof.
  intros ((_ & Hinv & _) & _ & Hacc) Hwf Hkn Hsound Hag Hrun.
  assert (Hacc' : accounts w').
  { pose proof (store_accounts (OpPersistBatch ws) w Hacc) as Ha. simpl in Ha. by rewrite Hrun in Ha. }
  destruct (batch_ledger ws w saved w' Hinv Hsound Hrun) as (Hinv' & Hact & Hopen).
  destruct (batch_incidents ws w saved w') as [HC _]; [|done|].
  { eapply Forall_impl; [|exact Hsound]. by intros wr [? _]. }
  assert (Hkn' : known r' w') by (intros c Hc; rewrite HC; by apply Hkn).
  split; [split; [done|split; [done|split]]|done].
  - intros c Hc. apply Hinv'. by apply Hkn'.
  - intros c Hc. change (led_active w' c = true) in Hc. rewrite Hact in Hc.
    change (runtime_open r' c = led_open w' c). rewrite Hopen by done. by apply Hag.
Qed.

Lemma healthy_write wr r r' w saved w' :
  healthy (r, w) -> runtime_wf r' -> known r' w -> sound_write wr ->
  (forall c, active_check (w_tables w) c = true -> runtime_open r' c = incident_effect (led_open w) wr c) ->
  PersistMonitoringWrite wr w = (inr saved, w') -> healthy (r', w').
Proof.
  intros Hh Hwf Hkn Hsound Hag Hrun. apply bind_inr in Hrun as (ws & w1 & Hrun & [= _ <-]).
  by apply (healthy_batch [wr] r r' w ws w1); [..|constructor|apply Hag|].
Qed.

Lemma healthy_heartbeat now probe req r w :
  acknowledged -> healthy (r, w) -> healthy (Heartbeat now probe req (r, w)).2.
Proof.
  intros Hack Hh. unfold Heartbeat. destruct probe as [probe|]; [|done]. cbv zeta. case_match; [done|].
  apply (healthy_add_probe (pb_ProbeID probe)) in Hh.
  set (r1 := (Runtime.AddProbe (pb_ProbeID probe) r).2) in *.
  pose proof Hh as ((Hwf & Hinv & _ & Hag) & Hkn & _).
  unfold at_pointers, ApplyHeartbeat. destruct (rt_probes r1 !! pb_ProbeID probe) as [p|] eqn:Hp.
  2: { unfold applyHeartbeat. by rewrite Hp. }
  rewrite (heartbeat_run _ _ _ _ p Hwf Hp).
  change (store_PersistMonitoringWrite (heartbeatWrite (pb_ProbeID probe) now) w)
    with (PersistMonitoringWrite (heartbeatWrite (pb_ProbeID probe) now) w).
  destruct (PersistMonitoringWrite _ w) as [[e|x] w1] eqn:Hst; simpl.
  { by eapply healthy_write_error. }
  destruct (proj1 Hwf _ _ Hp) as (Hne & _).
  eapply (healthy_write (heartbeatWrite (pb_ProbeID probe) now) r1); [done| |done|by split; [left|]| |exact Hst].
  - apply set_probe_wf; [done|]. split_and!; [done|done|]. split; [by left|by eauto].
  - intros c Hc. change (runtime_open r1 c = incident_effect (led_open w) (heartbeatWrite (pb_ProbeID probe) now) c).
    transitivity (led_open w c); [exact (Hag c Hc)|]. unfold incident_effect. cbn [mw_IncidentCheckID heartbeatWrite].
    pose proof (led_id_nonempty c (led_active_id w c Hinv Hc)) as Hc0.
    by rewrite bool_decide_eq_false_2 by congruence.
Qed.

Lemma healthy_register probe req r w :
  healthy (r, w) -> healthy (Register probe req (r, w)).2.
Proof.
  intros Hh. destruct probe as [probe|]; [|done]. simpl. case_match; [done|].
  pose proof (healthy_store (OpRegisterProbe (pb_ProbeID probe) (rr_Version req)) r w I Hh) as Hs. simpl in Hs.
  change (store_RegisterProbe (pb_ProbeID probe) (rr_Version req) w)
    with (RegisterProbe (pb_ProbeID probe) (rr_Version req) w).
  destruct (RegisterProbe _ _ w) as [[e|[]] w']; simpl; [done|by apply healthy_add_probe].
Qed.

(** The results the server accepts are about checks it has. *)
Lemma accepted_known t probe now incoming :
  Forall (fun o => is_Some (t_checks t !! ck_ID (ob_Check o))) (omap (accept t probe now) incoming).
Proof.
  apply Forall_forall. intros o Ho. apply list_elem_of_In, list_elem_of_omap in Ho as (x & _ & Hx).
  unfold accept, known_check in Hx. destruct (normalizeCheckID _) as [e|c]; [done|].
  destruct (t_checks t !! c) as [row|] eqn:Hl; [|done]. destruct (is_active row); [|done].
  injection Hx as <-. simpl. by eexists.
Qed.

Lemma healthy_results observed r w :
  acknowledged -> healthy (r, w) ->
  Forall (fun o => is_Some (t_checks (w_tables w) !! ck_ID (ob_Check o))) observed ->
  healthy (applyObservedResultBatch observed (r, w)).2.
Proof.
  intros Hack Hh Hobs. pose proof Hh as ((Hwf & Hinv & Hk & Hag) & Hkn & _).
  unfold applyObservedResultBatch. pose proof (observe_all_undo observed [] [] r r eq_refl) as Hu.
  destruct (observe_all observed [] [] r) as [[e|[writes rbs]] r1] eqn:Hrun; simpl; [by rewrite Hu|].
  change (store_PersistMonitoringBatch writes w) with (PersistMonitoringBatch writes w).
  destruct (PersistMonitoringBatch writes w) as [[e|saved] w1] eqn:Hst; simpl.
  { rewrite Hu. by eapply healthy_batch_error. }
  assert (Hids : Forall (fun o => canonical_id (ck_ID (ob_Check o))) observed).
  { eapply Forall_impl; [|exact Hobs]. intros o. apply Hinv. }
  destruct (observe_all_effect (fun c => led_active w c = true) observed) with
    (writes := @nil MonitoringWrite) (rbs := @nil observedResultRollback) (r := r) (writes' := writes)
    (rbs' := rbs) (r' := r1) (open := led_open w) as (ws & -> & Hwf' & Hrows & Hnames & Hag' & Hk'); try done.
  - intros c Hc. by eapply led_id_nonempty, led_active_id.
  - eapply Forall_impl; [|exact Hids]. intros o. apply canonical_nonempty.
  - eapply (healthy_batch ws r); [done|done| | |exact Hag'|exact Hst].
    + intros c Hc. destruct (Hk' c Hc) as [Hk0|He]; [by apply Hkn|].
      rewrite Forall_forall in Hobs. apply Exists_exists in He as (o & Ho & ->). by apply Hobs.
    + rewrite Forall_forall in Hnames, Hrows, Hids. apply Forall_forall. intros wr Hwr.
      split; [|by apply Hrows]. destruct (Hnames wr Hwr) as [|He]; [by left|right].
      apply Exists_exists in He as (o & Ho & ->). by apply Hids.
Qed.

Lemma healthy_process now probe incoming r w :
  acknowledged -> healthy (r, w) -> healthy (ProcessBatch now probe incoming (r, w)).2.
Proof.
  intros Hack Hh. unfold ProcessBatch. destruct probe as [probe|]; [|done]. case_match; [done|].
  pose proof (normalize_batch_run now probe incoming w) as Hn.
  destruct (normalizeBatch now probe incoming w) as [[e|out] w1].
  { destruct Hn as [Hdb _]. by apply (healthy_same r w). }
  destruct Hn as (-> & _ & Hdb). apply (healthy_same r w w1 Hdb) in Hh. destruct Hdb as [T _].
  assert (Hr : healthy (applyObservedResultBatch (omap (accept (w_tables w) probe now) incoming) (r, w1)).2).
  { apply healthy_results; [done|done|]. rewrite T. apply accepted_known. }
  unfold at_pointers, ApplyResultBatch. revert Hr.
  destruct (applyObservedResultBatch _ (r, w1)) as [[e|[]] [r' w']]; intros Hr; by destruct (bool_decide (length (omap _ _) = 0)).
Qed.

(** Looking a check up reads. *)
Lemma reads_get_check id : reads (GetCheckByID id).
Proof. unfold GetCheckByID. case_match; auto with reads. Qed.

(** One step of the evidence sweep. *)
Lemma healthy_sweep_check sweptAt checkID probeID r w :
  acknowledged -> healthy (r, w) -> healthy (sweepCheck sweptAt checkID probeID (r, w)).2.
Proof.
  intros Hack Hh. pose proof Hh as (Hs & Hkn & _).
  destruct (sweepCheck sweptAt checkID probeID (r, w)) as [res [r' w']] eqn:Hrun. simpl.
  assert (Hr : match res with inl _ => r' = r | inr _ => synced r' w' end).
  { destruct res; [by eapply sweepCheck_error_restores|by eapply sweepCheck_synced]. }
  revert Hrun. unfold sweepCheck. destruct (rt_quorums r !! checkID) as [q|] eqn:Hq; [|by intros [= <- <- <-]].
  destruct (qm_checks q !! probeID) as [c|] eqn:Hc; [|by intros [= <- <- <-]].
  destruct (negb _); [by intros [= <- <- <-]|].
  destruct (QuorumMachine.LoseEvidence probeID q) as [[e|update] q']; [by intros [= <- _ <-]; rewrite Hr|].
  match goal with |- (let '(_, _) := ?p in _) = _ -> _ => destruct p as [pres w1] eqn:Hp end.
  assert (Hw1 : healthy (r, w1)).
  { apply (healthy_same r w); [|done]. pose proof (reads_get_check checkID w) as Hg.
    change (store_GetCheckByID checkID w) with (GetCheckByID checkID w) in Hp.
    destruct (cq_LastStableState (qm_state q) != _); [|by injection Hp as _ <-].
    destruct (GetCheckByID checkID w) as [[?|[?|]] ?]; injection Hp as _ <-; exact Hg. }
  destruct pres as [e|wr]; [by intros [= <- _ <-]; rewrite Hr|].
  change (store_PersistMonitoringWrite wr w1) with (PersistMonitoringWrite wr w1).
  destruct (PersistMonitoringWrite wr w1) as [[e|x] w2] eqn:Hst; intros [= <- <- <-].
  { rewrite Hr. by eapply healthy_write_error. }
  pose proof Hw1 as (_ & Hkn1 & Hacc1). split; [done|]. split.
  - assert (HC : t_checks (w_tables w2) = t_checks (w_tables w1)).
    { apply bind_inr in Hst as (ws & w3 & Hst & [= _ <-]). pose proof (checks_batch [wr] w1) as Hb.
      by rewrite Hst in Hb. }
    intros d Hd. simpl. rewrite HC. apply Hkn1. simpl in Hd.
    apply lookup_insert_is_Some in Hd as [<-|[_ Hd]]; [by exists q|done].
  - pose proof (store_accounts (OpPersistWrite wr) w1 Hacc1) as Ha. simpl in Ha. by rewrite Hst in Ha.
Qed.
End writes.
