(* ===== verification/WorldInvariant.v ===== *)
(** What every request and every evidence sweep keeps of the database, however its
    calls fail: anything that each call of the store keeps. *)

From S2P Require Import Prelude GoStrings GoNet ClientIP NetPolicy Checks Stateless Types Database StoreNotifications StoreMonitoring.
From S2P Require Import StoreChecks StoreProbes StoreInvariant StoreProperties StoreAuth AuthInvariant AuthProperties.
From S2P Require Import StoreFrame ProbeMachine CheckMachine QuorumMachine Runtime Results Ledger Heartbeat.
From S2P Require Import Sweepers SweepProperties Recovery StoreLedger ProbeProcessor AuthProcessor Onboarding.
From S2P Require Import ProbeIngest System RateLimiter StatusView Server Routes ServerInvariant.

(** * What a call of the store keeps *)

Definition in_range (seconds : Z) : Prop := (1 <= seconds <= MaxInterval)%Z.

(** The checks an operation writes are in range. *)
Definition timed_op (op : StoreOp) : Prop :=
  match op with
  | OpSeedChecks cs _ => Forall (fun c => in_range (ck_Interval c)) cs
  | OpCreateCheck c _ | OpUpdateCheck c _ => in_range (ck_Interval c)
  | _ => True
  end.

(** The interface between the store's calls and the server's requests: an invariant
    of the database that each call keeps, lost acknowledgements included. *)
Class Preserved `{StoreEnv} (P : World -> Prop) : Prop := {
  pv_accounts w : P w -> accounts w;
  pv_same w w' : same_db w w' -> P w -> P w';
  pv_auth w w' : accounts w' -> auth_frame w w' -> P w -> P w';
  pv_store op w : timed_op op -> P w -> P (exec_store op w)
}.

(** * Requests *)

Section requests.
Context `{SLL : StatelessLaws} `{SEL : StoreEnvLaws} `{AE : AuthEnv} `{UL : UrlLib}.
Context (P : World -> Prop) `{!Preserved P}.
Context (policy : Policy) (trusted : list Prefix) (login_clock signup_clock public_clock : nat -> Time).

(** A handler that keeps what the store's calls keep. *)
Definition steady (h : Handle) : Prop := forall s, P s.2 -> P (h s).2.2.

Lemma steady_reply rs : steady (reply rs).
Proof. by intros s. Qed.

Lemma steady_decoding {R} (decoded : GoError + R) next :
  (forall req, decoded = inr req -> steady (next req)) -> steady (decoding decoded next).
Proof. intros Hn. destruct decoded; [apply steady_reply|by apply Hn]. Qed.

Lemma steady_quiet {A} (m : DB A) k : quiet m -> steady (on_world m k).
Proof.
  intros Hm [r w] Hw. destruct (Hm w (pv_accounts w Hw)) as [Ha Hf]. unfold on_world.
  destruct (m w) as [res w']. by eapply pv_auth.
Qed.

Lemma steady_reads {A} (m : DB A) k : reads m -> steady (on_world m k).
Proof.
  intros Hm [r w] Hw. specialize (Hm w). unfold on_world. destruct (m w) as [res w']. by eapply pv_same.
Qed.

Lemma steady_store {A} (m : DB A) op k : (forall w, exec_store op w = (m w).2) -> timed_op op -> steady (on_world m k).
Proof.
  intros E Hop [r w] Hw. apply (pv_store op w Hop) in Hw. rewrite E in Hw. unfold on_world. by destruct (m w).
Qed.

Lemma steady_probe id secret next : (forall p, steady (next p)) -> steady (requireProbeAuth id secret next).
Proof.
  intros Hn [r w] Hw. unfold requireProbeAuth. cbv zeta. destruct (_ || _); [done|].
  apply (pv_same w _ (reads_authenticate (TrimSpace id) (TrimSpace secret) w)) in Hw.
  destruct (AuthenticateProbe _ _ w) as [[e|[p|]] w']; simpl in *; [done|by apply Hn|done].
Qed.

Lemma steady_session authorization next : (forall u, steady (next u)) -> steady (requireSession authorization next).
Proof.
  intros Hn [r w] Hw. unfold requireSession. cbv zeta. case_bool_decide; [done|].
  assert (Hq : quiet (GetSessionUser (TrimPrefix authorization "Bearer ")))
    by (by apply (quiet_op _ (OpGetSessionUser (TrimPrefix authorization "Bearer ")))).
  destruct (Hq w (pv_accounts w Hw)) as [Ha Hf]. apply (pv_auth _ _ Ha Hf) in Hw.
  destruct (GetSessionUser _ w) as [[e|[u|]] w']; simpl in *; [done|by apply Hn|done].
Qed.

Lemma steady_admin authorization next : steady next -> steady (requireAdmin authorization next).
Proof. intros Hn. apply steady_session. intros u. destruct (negb _); [apply steady_reply|done]. Qed.

(** ** Checks *)

Lemma decoded_in_range lookup name body check :
  decodeCheck policy lookup name body = inr check -> in_range (ck_Interval check).
Proof.
  unfold decodeCheck. destruct (decodeJSONBody _ _ _); [done|].
  destruct (NormalizeAndValidate _ _ _ _ _ _) eqn:E; [done|]. intros [= <-]. by eapply accepted_interval.
Qed.

Lemma steady_create lookup u body : steady (handleCreateCheck policy lookup u body).
Proof.
  apply steady_decoding. intros check Hc%decoded_in_range [r w] Hw.
  apply (pv_store (OpCreateCheck check (us_ID u)) w Hc) in Hw. simpl in Hw.
  by destruct (CreateCheck check (us_ID u) w) as [[e|created] w'].
Qed.

Lemma steady_update lookup u name body : steady (handleUpdateCheck policy lookup u name body).
Proof.
  apply steady_decoding. intros check Hc%decoded_in_range.
  by apply (steady_store _ (OpUpdateCheck check (us_ID u))).
Qed.

Lemma steady_delete u name : steady (handleDeleteCheck u name).
Proof.
  intros [r w] Hw. unfold handleDeleteCheck. apply (pv_store (OpDeleteCheck name (us_ID u)) w I) in Hw. simpl in Hw.
  by destruct (DeleteCheck name (us_ID u) w) as [[e|[[] id]] w'].
Qed.

(** ** Probes *)

Lemma steady_credential body : steady (handleCreateProbeCredential body).
Proof.
  apply steady_decoding. intros id _ [r w] Hw.
  apply (pv_store (OpCreateProbe id) w I) in Hw. simpl in Hw.
  by destruct (CreateProbeCredential id w) as [[e|c] w'].
Qed.

Lemma steady_processed {A} (m : St Shared A) :
  (forall s, P s.2 -> P (m s).2.2) -> steady (processed m).
Proof. intros Hm s Hw. specialize (Hm s Hw). unfold processed. by destruct (m s) as [[]]. Qed.

Lemma write_keeps_world wr w : P w -> P (PersistMonitoringWrite wr w).2.
Proof. apply (pv_store (OpPersistWrite wr) w I). Qed.

Lemma heartbeat_keeps_world now probe req s : P s.2 -> P (ProbeProcessor.Heartbeat now probe req s).2.2.
Proof.
  destruct s as [r w]. intros Hw. unfold ProbeProcessor.Heartbeat. destruct probe as [probe|]; [|done].
  destruct (foreign _ _); [done|]. cbv zeta. unfold at_pointers, ApplyHeartbeat, applyHeartbeat.
  destruct (rt_probes _ !! _) as [p|]; [|done]. destruct (ProbeMachine.ReceiveHeartbeat _ _) as [[e|] p']; [done|].
  match goal with |- context [store_PersistMonitoringWrite ?wr w] =>
    pose proof (write_keeps_world wr w Hw) as Hw';
    change (store_PersistMonitoringWrite wr w) with (PersistMonitoringWrite wr w);
    by destruct (PersistMonitoringWrite wr w) as [[]] end.
Qed.

Lemma register_keeps_world probe req s : P s.2 -> P (ProbeProcessor.Register probe req s).2.2.
Proof.
  destruct s as [r w]. intros Hw. unfold ProbeProcessor.Register. destruct probe as [probe|]; [|done].
  destruct (foreign _ _); [done|].
  change (store_RegisterProbe (pb_ProbeID probe) (rr_Version req) w) with (RegisterProbe (pb_ProbeID probe) (rr_Version req) w).
  apply (pv_store (OpRegisterProbe (pb_ProbeID probe) (rr_Version req)) w I) in Hw. simpl in Hw.
  by destruct (RegisterProbe _ _ w) as [[]].
Qed.

Lemma process_keeps_world now probe incoming s : P s.2 -> P (ProcessBatch now probe incoming s).2.2.
Proof.
  destruct s as [r w]. intros Hw. unfold ProcessBatch. destruct probe as [probe|]; [|done]. case_bool_decide; [done|].
  pose proof (normalize_batch_run now probe incoming w) as Hn.
  assert (Hs : same_db w (normalizeBatch now probe incoming w).2)
    by (destruct (normalizeBatch now probe incoming w) as [[e|out] w1]; destruct_and?; done).
  apply (pv_same _ _ Hs) in Hw. clear Hs Hn.
  destruct (normalizeBatch now probe incoming w) as [[e|out] w1]; [done|]. unfold at_pointers, ApplyResultBatch.
  destruct (bool_decide (length out = 0)); [done|]. unfold applyObservedResultBatch.
  destruct (observe_all out [] [] r) as [[e1|[writes rbs]] r1]; [done|].
  apply (pv_store (OpPersistBatch writes) w1 I) in Hw. simpl in Hw.
  change (store_PersistMonitoringBatch writes w1) with (PersistMonitoringBatch writes w1).
  by destruct (PersistMonitoringBatch writes w1) as [[]].
Qed.

(** ** Status pages *)

Lemma steady_status u : steady (handleStatus u).
Proof.
  intros [r w] Hw. unfold handleStatus, buildAuthenticatedStatusResponse.
  apply (pv_same w _ (reads_status (us_ID u) w)) in Hw.
  change (store_StatusCheckViews (us_ID u) w) with (StatusCheckViews (us_ID u) w).
  by destruct (StatusCheckViews (us_ID u) w) as [[e|views] w'].
Qed.

Lemma steady_public slug : steady (handlePublicStatus slug).
Proof.
  intros [r w] Hw. unfold handlePublicStatus, buildPublicStatusResponse.
  apply (pv_same w _ (reads_public slug w)) in Hw.
  change (store_PublicStatusCheckViews slug w) with (PublicStatusCheckViews slug w).
  by destruct (PublicStatusCheckViews slug w) as [[e|[views []]] w'].
Qed.
Lemma steady_logout authorization : steady (handleLogout authorization).
Proof.
  unfold handleLogout. cbv zeta. case_bool_decide; [apply steady_reply|]. apply steady_quiet.
  by apply (quiet_op _ (OpDeleteSession (TrimPrefix authorization "Bearer "))).
Qed.

Lemma steady_unlimited h s :
  steady h -> P (sv_shared s).2 -> P (sv_shared (unlimited h s).2).2.
Proof. intros Hs Hw. specialize (Hs _ Hw). unfold unlimited. by destruct (h (sv_shared s)). Qed.

Lemma steady_behind clock get set peer h s :
  steady h -> P (sv_shared s).2 -> P (sv_shared (behind trusted clock get set peer h s).2).2.
Proof.
  intros Hs Hw. specialize (Hs _ Hw). unfold behind, rateLimited.
  destruct (get (sv_limiters s)) as [rl|]; [destruct (allow clock (clientIP trusted peer) rl) as [[] rl']|];
    by destruct (h (sv_shared s)).
Qed.

(** Every route keeps what the store's calls keep. *)
Lemma routes_keep_world req s :
  P (sv_shared s).2 ->
  P (sv_shared (Routes policy trusted login_clock signup_clock public_clock req s).2).2.
Proof.
  intros Hw. destruct req; cbn [Routes];
    unfold login_limited, signup_limited, public_limited, probe_route, admin_route, session_route;
    first [apply steady_unlimited; [|done..] | apply steady_behind; [|done..]];
    first [apply steady_reply | apply steady_probe; intros pr | apply steady_admin | apply steady_session; intros u | idtac].
  - apply steady_public.
  - apply steady_decoding. intros. apply steady_quiet, quiet_login.
  - apply steady_logout.
  - apply steady_decoding. intros. apply steady_quiet, quiet_setup.
  - apply steady_decoding. intros. apply steady_quiet, quiet_request.
  - apply steady_decoding. intros. apply steady_processed. intros s0. apply register_keeps_world.
  - apply steady_reads, reads_all_checks.
  - apply steady_decoding. intros. apply steady_processed. intros s0. apply heartbeat_keeps_world.
  - apply steady_decoding. intros. apply steady_processed. intros s0. apply process_keeps_world.
  - apply steady_reply.
  - apply steady_quiet, quiet_pending.
  - destruct id; [apply steady_quiet, quiet_approve|apply steady_reply].
  - destruct id; [apply steady_quiet, quiet_reject|apply steady_reply].
  - apply steady_credential.
  - apply steady_status.
  - apply steady_reads, reads_checks.
  - apply steady_create.
  - apply steady_update.
  - apply steady_delete.
  - apply steady_reply.
  - apply steady_decoding. intros. apply steady_quiet, quiet_change.
  - apply steady_reads, reads_incidents.
Qed.

(** One step of the evidence sweep. *)
Lemma sweep_check_keeps_world now c p sh : P sh.2 -> P (sweepCheck now c p sh).2.2.
Proof.
  destruct sh as [r w]. intros Hw. unfold sweepCheck.
  destruct (rt_quorums r !! c) as [q|]; [|done]. destruct (qm_checks q !! p) as [st|]; [|done].
  destruct (negb _); [done|]. destruct (QuorumMachine.LoseEvidence p q) as [[e|update] q']; [done|].
  match goal with |- context [let '(_, _) := ?x in _] => destruct x as [pres w1] eqn:Hp end.
  assert (Hw1 : P w1).
  { pose proof (reads_get_check c w) as Hs.
    change (store_GetCheckByID c w) with (GetCheckByID c w) in Hp. simpl in Hw.
    destruct (cq_LastStableState (qm_state q) != _); [|by injection Hp as _ <-].
    apply (pv_same _ _ Hs) in Hw. destruct (GetCheckByID c w) as [[?|[?|]] ?]; by injection Hp as _ <-. }
  destruct pres as [e|wr]; [done|].
  change (store_PersistMonitoringWrite wr w1) with (PersistMonitoringWrite wr w1).
  pose proof (write_keeps_world wr w1 Hw1) as Hw'. by destruct (PersistMonitoringWrite wr w1) as [[]].
Qed.
End requests.

