(* ===== verification/ServerProperties.v ===== *)
(** The whole server as a transition system: what holds in every state it can
    reach, whoever calls it. *)

From S2P Require Import Prelude GoStrings GoNet ClientIP NetPolicy Stateless Types Database StoreNotifications StoreMonitoring.
From S2P Require Import StoreChecks StoreProbes StoreInvariant StoreProperties StoreAuth AuthInvariant AuthProperties.
From S2P Require Import StoreFrame ProbeMachine CheckMachine QuorumMachine Runtime Results Ledger Heartbeat.
From S2P Require Import Sweepers SweepProperties Recovery StoreLedger ProbeProcessor AuthProcessor Onboarding.
From S2P Require Import ProbeIngest System RateLimiter StatusView Server Routes ServerInvariant WorldInvariant.

(** * Handlers *)

Section handlers.
Context `{SLL : StatelessLaws} `{SEL : StoreEnvLaws} `{AE : AuthEnv} `{UL : UrlLib}.

(** A handler that leaves a healthy server healthy. *)
Definition sane (h : Handle) : Prop := forall s, healthy s -> healthy (h s).2.

Lemma sane_reply rs : sane (reply rs).
Proof. by intros s. Qed.

Lemma sane_decoding {R} (decoded : GoError + R) next : (forall req, sane (next req)) -> sane (decoding decoded next).
Proof. intros Hn. destruct decoded; [apply sane_reply|apply Hn]. Qed.

Lemma sane_quiet {A} (m : DB A) k : quiet m -> sane (on_world m k).
Proof.
  intros Hm [r w] Hh. pose proof (healthy_quiet m r w Hm Hh) as Hq. unfold on_world. by destruct (m w).
Qed.

Lemma sane_reads {A} (m : DB A) k : reads m -> sane (on_world m k).
Proof.
  intros Hm [r w] Hh. pose proof (healthy_same r w _ (Hm w) Hh) as Hq. unfold on_world. by destruct (m w).
Qed.

Lemma sane_store {A} (m : DB A) op k : (forall w, exec_store op w = (m w).2) -> tidy_op op -> sane (on_world m k).
Proof.
  intros E Hop [r w] Hh. pose proof (healthy_store op r w Hop Hh) as Hq. rewrite E in Hq.
  unfold on_world. by destruct (m w).
Qed.

Lemma sane_processed {A} (m : St Shared A) : (forall s, healthy s -> healthy (m s).2) -> sane (processed m).
Proof. intros Hm s Hh. specialize (Hm s Hh). unfold processed. by destruct (m s) as [[]]. Qed.

Lemma sane_probe id secret next : (forall p, sane (next p)) -> sane (requireProbeAuth id secret next).
Proof.
  intros Hn [r w] Hh. unfold requireProbeAuth. cbv zeta. case_match; [done|].
  pose proof (reads_authenticate (TrimSpace id) (TrimSpace secret) w) as Hr.
  destruct (AuthenticateProbe _ _ w) as [[e|[p|]] w']; simpl; [|apply Hn|];
    by apply (healthy_same r w).
Qed.

Lemma sane_session authorization next : (forall u, sane (next u)) -> sane (requireSession authorization next).
Proof.
  intros Hn [r w] Hh. unfold requireSession. cbv zeta. case_match; [done|].
  assert (Hq : quiet (GetSessionUser (TrimPrefix authorization "Bearer ")))
    by (by apply (quiet_op _ (OpGetSessionUser (TrimPrefix authorization "Bearer ")))).
  pose proof (healthy_quiet _ r w Hq Hh) as Hh'.
  destruct (GetSessionUser _ w) as [[e|[u|]] w']; simpl; [done|by apply Hn|done].
Qed.

Lemma sane_admin authorization next : sane next -> sane (requireAdmin authorization next).
Proof. intros Hn. apply sane_session. intros u. case_match; [apply sane_reply|done]. Qed.

Lemma sane_create_check policy answers u body : sane (handleCreateCheck policy answers u body).
Proof.
  apply sane_decoding. intros check [r w] Hh.
  pose proof (healthy_store (OpCreateCheck check (us_ID u)) r w I Hh) as Hs. simpl in Hs.
  destruct (CreateCheck check (us_ID u) w) as [[e|created] w'] eqn:Hrun; [done|]. simpl in *.
  apply healthy_ensure; [|done]. by eapply create_check_row.
Qed.

Lemma sane_delete u name : sane (handleDeleteCheck u name).
Proof.
  intros [r w] Hh. unfold handleDeleteCheck.
  destruct (DeleteCheck name (us_ID u) w) as [res w'] eqn:Hrun.
  destruct (healthy_delete _ _ _ _ _ _ Hrun Hh) as [Hr Hd].
  destruct res as [e|[[] id]]; simpl; [done|by apply Hd|done].
Qed.

Lemma sane_credential body : sane (handleCreateProbeCredential body).
Proof.
  apply sane_decoding. intros id [r w] Hh.
  pose proof (healthy_store (OpCreateProbe id) r w I Hh) as Hs. simpl in Hs.
  destruct (CreateProbeCredential id w) as [[e|c] w']; [done|]. by apply healthy_add_probe.
Qed.

Lemma sane_status u : sane (handleStatus u).
Proof.
  intros [r w] Hh. unfold handleStatus, buildAuthenticatedStatusResponse.
  pose proof (healthy_same r w _ (reads_status (us_ID u) w) Hh) as Hr.
  change (store_StatusCheckViews (us_ID u) w) with (StatusCheckViews (us_ID u) w).
  by destruct (StatusCheckViews (us_ID u) w) as [[e|views] w'].
Qed.

Lemma sane_public slug : sane (handlePublicStatus slug).
Proof.
  intros [r w] Hh. unfold handlePublicStatus, buildPublicStatusResponse.
  pose proof (healthy_same r w _ (reads_public slug w) Hh) as Hr.
  change (store_PublicStatusCheckViews slug w) with (PublicStatusCheckViews slug w).
  by destruct (PublicStatusCheckViews slug w) as [[e|[views []]] w'].
Qed.

Lemma sane_logout authorization : sane (handleLogout authorization).
Proof.
  unfold handleLogout. cbv zeta. case_match; [apply sane_reply|]. apply sane_quiet.
  by apply (quiet_op _ (OpDeleteSession (TrimPrefix authorization "Bearer "))).
Qed.
End handlers.

(** * The system *)

(** The process is not running, or it serves. *)
Inductive System := Down (w : World) | Up (s : Server).

Definition System_sound `{StoreEnv} (x : System) : Prop :=
  match x with
  | Down w => led_inv w /\ accounts w
  | Up s => healthy (sv_shared s)
  end.

(** What runs before [LoadRuntime], and what the notification workers call. *)
Definition seeds (op : StoreOp) : Prop :=
  match op with OpSeedChecks _ _ | OpSeedProbes _ => True | _ => False end.
Definition delivers (op : StoreOp) : Prop :=
  match op with OpClaimDue _ _ _ | OpMarkDelivered _ _ | OpMarkRetry _ _ _ _ => True | _ => False end.

Section system.
Context `{SLL : StatelessLaws} `{SEL : StoreEnvLaws} `{AE : AuthEnv} `{UL : UrlLib}.
Context (policy : Policy) (trusted : list Prefix) (login_clock signup_clock public_clock : nat -> Time).
Context (probe_order : gmap string ProbeRuntimeState -> list string)
        (quorum_order : string -> gmap string QuorumMachine -> list string).

(** A start of the process, a request, one step of an evidence sweep, one step of
    a probe sweep that opens and closes no incident, a call of a notification
    worker, and the end of the process at any time. *)
Inductive system_step : System -> System -> Prop :=
| step_seed op w : seeds op -> system_step (Down w) (Down (exec_store op w))
| step_account op w : system_step (Down w) (Down (exec_auth op w))
| step_start requests window w :
    system_step (Down w) (match LoadRuntime probe_order quorum_order w with
                          | (inl _, w') => Down w'
                          | (inr r, w') => Up (MkServer (r, w') (new_limiters requests window))
                          end)
| step_request req s : system_step (Up s) (Up (Routes policy trusted login_clock signup_clock public_clock req s).2)
| step_sweep_check now c p sh l :
    system_step (Up (MkServer sh l)) (Up (MkServer (sweepCheck now c p sh).2 l))
| step_sweep_probe order now after p r w l :
    range_of (rt_quorums r) order ->
    (forall c, runtime_open (sweepProbe order now after p r).2 c = runtime_open r c) ->
    system_step (Up (MkServer (r, w) l)) (Up (MkServer ((sweepProbe order now after p r).2, w) l))
| step_deliver op r w l :
    delivers op -> system_step (Up (MkServer (r, w) l)) (Up (MkServer (r, exec_store op w) l))
| step_stop s : system_step (Up s) (Down (sv_shared s).2).

Hypothesis Hack : acknowledged.
Hypothesis probe_order_ok : forall m, range_of m (probe_order m).
Hypothesis quorum_order_ok : forall p m, range_of m (quorum_order p m).

Lemma sane_unlimited h s : sane h -> healthy (sv_shared s) -> healthy (sv_shared (unlimited h s).2).
Proof. intros Hs Hh. specialize (Hs _ Hh). unfold unlimited. by destruct (h (sv_shared s)). Qed.

Lemma sane_behind clock get set peer h s :
  sane h -> healthy (sv_shared s) -> healthy (sv_shared (behind trusted clock get set peer h s).2).
Proof.
  intros Hs Hh. specialize (Hs _ Hh). unfold behind, rateLimited.
  destruct (get (sv_limiters s)) as [rl|]; [destruct (allow clock (clientIP trusted peer) rl) as [[] rl']|];
    by destruct (h (sv_shared s)).
Qed.

(** The two routes of a probe's start, whatever the database calls do. *)
Lemma register_healthy id secret body s :
  healthy (sv_shared s) ->
  healthy (sv_shared (Routes policy trusted login_clock signup_clock public_clock (PostProbeRegister id secret body) s).2).
Proof.
  apply sane_unlimited, sane_probe. intros pr. apply sane_decoding. intros. apply sane_processed. intros [r w].
  apply healthy_register.
Qed.

Lemma checks_healthy id secret s :
  healthy (sv_shared s) ->
  healthy (sv_shared (Routes policy trusted login_clock signup_clock public_clock (GetProbeChecks id secret) s).2).
Proof. apply sane_unlimited, sane_probe. intros pr. apply sane_reads, reads_all_checks. Qed.

(** Every route keeps the server healthy. *)
Lemma routes_healthy req s :
  healthy (sv_shared s) -> healthy (sv_shared (Routes policy trusted login_clock signup_clock public_clock req s).2).
Proof.
  intros Hh. destruct req; cbn [Routes];
    unfold login_limited, signup_limited, public_limited, probe_route, admin_route, session_route;
    first [apply sane_unlimited; [|done] | apply sane_behind; [|done]];
    first [apply sane_reply | apply sane_probe; intros pr | apply sane_admin | apply sane_session; intros u | idtac].
  - apply sane_public.
  - apply sane_decoding. intros. apply sane_quiet, quiet_login.
  - apply sane_logout.
  - apply sane_decoding. intros. apply sane_quiet, quiet_setup.
  - apply sane_decoding. intros. apply sane_quiet, quiet_request.
  - apply sane_decoding. intros. apply sane_processed. intros [r w]. apply healthy_register.
  - apply sane_reads, reads_all_checks.
  - apply sane_decoding. intros. apply sane_processed. intros [r w]. by apply healthy_heartbeat.
  - apply sane_decoding. intros. apply sane_processed. intros [r w]. by apply healthy_process.
  - apply sane_reply.
  - apply sane_quiet, quiet_pending.
  - destruct id; [apply sane_quiet, quiet_approve|apply sane_reply].
  - destruct id; [apply sane_quiet, quiet_reject|apply sane_reply].
  - apply sane_credential.
  - apply sane_status.
  - apply sane_reads, reads_checks.
  - apply sane_create_check.
  - apply sane_decoding. intros check. by apply (sane_store _ (OpUpdateCheck check (us_ID u))).
  - apply sane_delete.
  - apply sane_reply.
  - apply sane_decoding. intros. apply sane_quiet, quiet_change.
  - apply sane_reads, reads_incidents.
Qed.

Lemma load_reads : reads (LoadRuntime probe_order quorum_order).
Proof.
  assert (Hw : forall A prefix (m : DB A), reads m -> reads (wrapped prefix m)).
  { intros A prefix m Hm w. specialize (Hm w). unfold wrapped. by destruct (m w) as [[]]. }
  apply reads_bind; [apply Hw, reads_all_checks|intros cs].
  apply reads_bind; [apply Hw; unfold store_RecoverableProbeStates; simpl; unfold RecoverableProbeStates; auto with reads|intros ps].
  apply reads_bind; [apply Hw; unfold store_PersistedCheckStates; simpl; unfold PersistedCheckStates; auto with reads|intros ss].
  apply reads_bind; [apply Hw; unfold store_OpenIncidentCheckIDs; simpl; unfold OpenIncidentCheckIDs; auto with reads|intros os].
  by intros w.
Qed.

Lemma start_sound requests window w :
  led_inv w -> accounts w ->
  System_sound (match LoadRuntime probe_order quorum_order w with
                | (inl _, w') => Down w'
                | (inr r, w') => Up (MkServer (r, w') (new_limiters requests window))
                end).
Proof.
  intros Hinv Hacc. pose proof (load_reads w) as [T Q].
  pose proof (restart_run probe_order quorum_order probe_order_ok quorum_order_ok w Hinv) as Hr.
  destruct (LoadRuntime probe_order quorum_order w) as [[e|r] w']; simpl in *.
  - unfold accounts, db_wf. rewrite T, Q. by split.
  - destruct Hr as (Hs & _ & Hk). split; [done|]. split.
    + intros c Hc. simpl. rewrite T. by apply Hk.
    + unfold accounts. simpl. by rewrite T, Q.
Qed.

Lemma sweep_probe_healthy order now after p r w :
  range_of (rt_quorums r) order ->
  (forall c, runtime_open (sweepProbe order now after p r).2 c = runtime_open r c) ->
  healthy (r, w) -> healthy ((sweepProbe order now after p r).2, w).
Proof.
  intros Hord Hflags ((Hwf & Hinv & Hk & Hag) & Hkn & Hacc).
  assert (Hr : runtime_wf (sweepProbe order now after p r).2 /\
    dom (rt_quorums (sweepProbe order now after p r).2) = dom (rt_quorums r)).
  { destruct (rt_probes r !! p) as [st|] eqn:Hp; [|unfold sweepProbe; by rewrite Hp].
    destruct (sweepProbe_run order now after p r st Hwf Hord Hp) as [-> Hwf']. split; [done|].
    simpl. case_match; [simpl; apply dom_fmap_L|done]. }
  destruct Hr as [Hwf' Hd].
  assert (Hq : forall c, is_Some (rt_quorums (sweepProbe order now after p r).2 !! c) -> is_Some (rt_quorums r !! c)).
  { intros c. rewrite <-!elem_of_dom, Hd. done. }
  split; [split; [done|split; [done|split]]|split; [|done]].
  - intros c Hc. by apply Hk, Hq.
  - intros c Hc. simpl. rewrite Hflags. by apply Hag.
  - intros c Hc. by apply Hkn, Hq.
Qed.

Lemma step_sound x y : system_step x y -> System_sound x -> System_sound y.
Proof.
  intros Hs. destruct Hs as [op w Hop|op w|req win w|req s|now c p [r w] l|order now after p r w l Hord Hf|op r w l Hop|s];
    simpl.
  - intros [Hinv Hacc]. split; [apply inv_tidy; [by destruct op|done]|by apply store_accounts].
  - intros [Hinv Hacc]. destruct (exec_auth_sound op w Hacc) as (Ha & Hf & _).
    split; [by apply (frame_inv w)|done].
  - intros [Hinv Hacc]. by apply start_sound.
  - apply routes_healthy.
  - intros Hh. by apply healthy_sweep_check.
  - by apply sweep_probe_healthy.
  - apply healthy_store. by destruct op.
  - intros ((_ & Hinv & _) & _ & Hacc). done.
Qed.

Lemma steps_sound x y : rtc system_step x y -> System_sound x -> System_sound y.
Proof. induction 1; eauto using step_sound. Qed.

Lemma empty_sound : System_sound (Down empty_world).
Proof.
  split; [|apply empty_accounts]. split; [apply empty_world_wf|]. split.
  - intros k [row Hk]. simpl in Hk. by rewrite lookup_empty in Hk.
  - apply map_Forall_empty.
Qed.

End system.

(** * The database, whatever fails *)

Definition world_of (x : System) : World := match x with Down w => w | Up s => (sv_shared s).2 end.

#[global] Instance db_preserved `{SEL : StoreEnvLaws} : Preserved (fun w => db_wf w /\ accounts w).
Proof.
  split.
  - by intros w [].
  - intros w w' [T Q]. unfold db_wf, accounts. by rewrite T, Q.
  - intros w w' Ha Hf [Hwf _]. split; [by eapply frame_db_wf|done].
  - intros op w _ [Hwf Hacc]. split; [by apply exec_store_wf|by apply store_accounts].
Qed.

Section agreement.
Context `{SLL : StatelessLaws} `{SEL : StoreEnvLaws} `{AE : AuthEnv} `{UL : UrlLib}.
Context (policy : Policy) (trusted : list Prefix) (login_clock signup_clock public_clock : nat -> Time).
Context (probe_order : gmap string ProbeRuntimeState -> list string)
        (quorum_order : string -> gmap string QuorumMachine -> list string).
Hypothesis probe_order_ok : forall m, range_of m (probe_order m).
Hypothesis quorum_order_ok : forall p m, range_of m (quorum_order p m).

Let step := system_step policy trusted login_clock signup_clock public_clock probe_order quorum_order.

Lemma step_db_sound x y :
  step x y -> db_wf (world_of x) /\ accounts (world_of x) -> db_wf (world_of y) /\ accounts (world_of y).
Proof.
  intros Hs. destruct Hs as [op w Hop|op w|req win w|req s|now c p sh l|order now after p r w l Hord Hf|op r w l Hop|s];
    cbn [world_of].
  - intros [Hwf Hacc]. split; [by apply exec_store_wf|by apply store_accounts].
  - intros Hw. destruct (exec_auth_sound op w (proj2 Hw)) as (Ha & Hf & _).
    by apply (pv_auth (P := fun w => db_wf w /\ accounts w) w).
  - intros Hw. apply (pv_same (P := fun w => db_wf w /\ accounts w) w _ (load_reads probe_order quorum_order w)) in Hw.
    by destruct (LoadRuntime probe_order quorum_order w) as [[e|r] w'].
  - exact (routes_keep_world (fun w => db_wf w /\ accounts w) policy trusted login_clock signup_clock public_clock req s).
  - exact (sweep_check_keeps_world (fun w => db_wf w /\ accounts w) now c p sh).
  - done.
  - intros [Hwf Hacc]. split; [by apply exec_store_wf|by apply store_accounts].
  - done.
Qed.

Lemma steps_db_sound x y :
  rtc step x y -> db_wf (world_of x) /\ accounts (world_of x) -> db_wf (world_of y) /\ accounts (world_of y).
Proof. induction 1 as [|x y z Hs _ IH]; [done|]. intros Hx. by eapply IH, step_db_sound. Qed.

(** C1. The server keeps its database sound, and runtime and database in agreement,
    whoever calls it.  From an empty database, through any sequence of seeding,
    starts and stops of the process at any time, HTTP requests of every route with
    any headers and bodies, steps of evidence sweeps, deliveries, and steps of
    probe sweeps that leave the incident flags alone: the tables and the accounts
    are sound, whatever database calls fail, before or after their work was done.
    Where no call that was done is reported as failed, the runtime of a serving
    process is well formed and holds an incident open exactly for the active checks
    for which the database has an unresolved one. *)
Theorem server_stays_in_agreement x :
  rtc step (Down empty_world) x ->
  db_wf (world_of x) /\ accounts (world_of x) /\
  (acknowledged ->
   match x with
   | Down _ => True
   | Up (MkServer (r, w) _) => runtime_wf r /\
       forall c, active_check (w_tables w) c = true -> runtime_open r c = open_incident c (w_tables w)
   end).
Proof.
  intros Hr. destruct (steps_db_sound _ _ Hr) as [Hdb Hacc]; [split; [apply empty_world_wf|apply empty_accounts]|].
  split; [done|]. split; [done|]. intros Hack.
  pose proof (steps_sound policy trusted login_clock signup_clock public_clock probe_order quorum_order
    Hack probe_order_ok quorum_order_ok _ _ Hr empty_sound) as Hs.
  destruct x as [w|[[r w] l]]; [done|]. destruct Hs as ((Hwf & _ & _ & Hag) & _). by split.
Qed.
End agreement.
