(* ===== verification/ProbeServer.v ===== *)
(** A probe and its server: the calls of the probe's client, carried to the
    server's routes.

    The network delivers a request and its response, or loses either one.  The
    server reads at most [maxProbeJSONRequestBodyBytes] of a body; what its decoder
    finds in it is an argument. *)

From S2P Require Import Prelude GoStrings GoNet ClientIP NetPolicy Stateless Types Database StoreNotifications StoreMonitoring.
From S2P Require Import StoreChecks StoreProbes StoreInvariant StoreProperties StoreAuth AuthInvariant AuthProperties.
From S2P Require Import StoreFrame ProbeMachine CheckMachine QuorumMachine Runtime Results Ledger Heartbeat.
From S2P Require Import Sweepers SweepProperties Recovery StoreLedger ProbeProcessor AuthProcessor Onboarding.
From S2P Require Import ProbeIngest System RateLimiter Config StatusView Server Routes ServerInvariant ServerProperties.
From S2P Require Import ProbeProperties Batcher Scheduler ProbeClient.

Definition maxProbeJSONRequestBodyBytes : Z := 65536.

Class WireLib : Type := {
  decode_register : string -> BodyRead RegisterRequest;
  decode_heartbeat : string -> BodyRead HeartbeatRequest;
  decode_results : string -> BodyRead (list CheckResult);
  encode_body : Body -> string
}.

Inductive Fate := Delivered | RequestLost (err : GoError) | ResponseLost (err : GoError).

Definition header_value (key : string) (req : Request) : string :=
  default "" (snd <$> List.find (fun kv => fst kv == key) (rq_Header req)).

(** [http.MaxBytesReader] under the decoder: an encoded value that is longer than
    the limit is cut. *)
Definition read_body {R} (decode : string -> BodyRead R) (body : option string) : BodyRead R :=
  match body with
  | None => BodyEOF
  | Some data =>
      if (maxProbeJSONRequestBodyBytes <? Z.of_nat (String.length data))%Z then BodyTooLarge else decode data
  end.

Section wire.
Context `{SL : Stateless} `{Env : StoreEnv} `{AE : AuthEnv} `{UL : UrlLib} `{PL : ProbeLib} `{WL : WireLib}.
Context (policy : Policy) (trusted : list Prefix) (login_clock signup_clock public_clock : nat -> Time).

(** What the server's mux makes of a request to the server at [base]. *)
Definition route (base : string) (now : Time) (req : Request) : HttpRequest :=
  let id := header_value HeaderProbeID req in
  let secret := header_value HeaderProbeSecret req in
  let to method path := (rq_Method req == method) && (rq_URL req == base +:+ path) in
  if to "POST" PathRegister then PostProbeRegister id secret (read_body decode_register (rq_Body req))
  else if to "GET" PathChecks then GetProbeChecks id secret
  else if to "POST" PathHeartbeat then PostProbeHeartbeat id secret now (read_body decode_heartbeat (rq_Body req))
  else if to "POST" PathResults then Routes.PostResults id secret now (read_body decode_results (rq_Body req))
  else OtherRoute.

Definition wire (base : string) (fate : Fate) (now : Time) (req : Request) (s : Server)
    : (GoError + HTTPResponse) * Server :=
  match fate with
  | RequestLost err => (inl err, s)
  | _ =>
      let '(rs, s') := Routes policy trusted login_clock signup_clock public_clock (route base now req) s in
      match fate with
      | ResponseLost err => (inl err, s')
      | _ => (inr (MkHTTPResponse (rs_status rs) (encode_body (rs_body rs))), s')
      end
  end.

Lemma url_eq (base p q : string) : (base +:+ p == base +:+ q) = (p == q).
Proof.
  apply bool_decide_ext. split; [|by intros ->]. induction base as [|a base IH]; [done|].
  intros [= E]. by apply IH.
Qed.

(** The routes the client's calls reach. *)
Lemma route_results c now reader :
  route (c_baseURL c) now (MkRequest "POST" (c_baseURL c +:+ PathResults)
    ([(HeaderProbeID, c_probeID c); (HeaderProbeSecret, c_secret c)] ++ [("Content-Type", "application/json")]) reader)
  = Routes.PostResults (c_probeID c) (c_secret c) now (read_body decode_results reader).
Proof. unfold route. cbn [rq_Method rq_URL rq_Header rq_Body]. by rewrite !url_eq. Qed.

Lemma routed_checks c now :
  route (c_baseURL c) now (MkRequest "GET" (c_baseURL c +:+ PathChecks)
    ([(HeaderProbeID, c_probeID c); (HeaderProbeSecret, c_secret c)] ++ []) None)
  = GetProbeChecks (c_probeID c) (c_secret c).
Proof. unfold route. cbn [rq_Method rq_URL rq_Header rq_Body]. by rewrite !url_eq. Qed.
End wire.

(** * Uploads *)

Section upload.
Context `{SLL : StatelessLaws} `{SEL : StoreEnvLaws} `{AE : AuthEnv} `{UL : UrlLib} `{PL : ProbeLib} `{WL : WireLib}.
Context (policy : Policy) (trusted : list Prefix) (login_clock signup_clock public_clock : nat -> Time).
Hypothesis Hack : acknowledged.

(** A batch that fails is a batch that left no trace. *)
Lemma process_error_unchanged now probe incoming r w e r' w' :
  ProcessBatch now (Some probe) incoming (r, w) = (inl e, (r', w')) -> r' = r /\ w_tables w' = w_tables w.
Proof.
  unfold ProcessBatch. case_bool_decide; [by intros [= _ <- <-]|].
  pose proof (normalize_batch_run now probe incoming w) as Hn.
  destruct (normalizeBatch now probe incoming w) as [[e1|out] w1].
  { intros [= _ <- <-]. destruct Hn as [[T _] _]. done. }
  destruct Hn as (_ & _ & T & _). rewrite <-T. unfold at_pointers, ApplyResultBatch.
  destruct (bool_decide (length out = 0)); [done|].
  unfold applyObservedResultBatch. pose proof (observe_all_undo out [] [] r r eq_refl) as Hu.
  destruct (observe_all out [] [] r) as [[e1|[writes rbs]] r1]; simpl.
  { intros [= _ <- <-]. by rewrite Hu. }
  change (store_PersistMonitoringBatch writes w1) with (PersistMonitoringBatch writes w1).
  destruct (PersistMonitoringBatch writes w1) as [[e1|saved] w2] eqn:Hst; simpl; [|done].
  intros [= _ <- <-]. rewrite Hu. split; [done|]. by eapply batch_error.
Qed.
Lemma error_not_204 e : (rs_status (error_response e) =? 204)%Z = false.
Proof.
  unfold error_response, writeProcessorError.
  destruct (errors_As e "badRequestError"); [done|]. destruct (errors_As e "requestEntityTooLargeError"); [done|].
  destruct (errors_As e "unauthorizedError"); [done|]. by destruct (errors_As e "notFoundError").
Qed.

(** The answer to an upload, by what the server did. *)
Lemma results_served c now body s rs s' :
  Routes policy trusted login_clock signup_clock public_clock
    (Routes.PostResults (c_probeID c) (c_secret c) now body) s = (rs, s') ->
  let '(r, w) := sv_shared s in
  let '(r', w') := sv_shared s' in
  if (rs_status rs =? 204)%Z then
    exists probe w1 results, AuthenticateProbe (TrimSpace (c_probeID c)) (TrimSpace (c_secret c)) w = (inr (Some probe), w1) /\
      same_db w w1 /\ decodeJSONBody [] false body = inr results /\
      ProcessBatch now (Some probe) results (r, w1) = (inr tt, (r', w'))
  else r' = r /\ w_tables w' = w_tables w.
Proof.
  destruct s as [[r w] lim]. cbn [Routes sv_shared]. unfold probe_route, unlimited. cbn [sv_shared].
  unfold requireProbeAuth. cbv zeta. destruct ((_ == "") || (_ == "")); [by intros [= <- <-]|].
  pose proof (reads_authenticate (TrimSpace (c_probeID c)) (TrimSpace (c_secret c)) w) as Hdb.
  destruct (AuthenticateProbe _ _ w) as [[e|[probe|]] w1]; cbn [snd] in Hdb;
    [intros [= <- <-]; split; [done|apply Hdb]| |intros [= <- <-]; split; [done|apply Hdb]].
  unfold handleResult, decoding. destruct (decodeJSONBody [] false body) as [e|results] eqn:Hd.
  { intros [= <- <-]. cbn [sv_shared reply].
    rewrite error_not_204. split; [done|apply Hdb]. }
  unfold processed. destruct (ProcessBatch now (Some probe) results (r, w1)) as [[e|[]] [r' w']] eqn:Hp.
  - intros [= <- <-]. cbn [sv_shared].
    rewrite error_not_204. destruct (process_error_unchanged _ _ _ _ _ _ _ _ Hp) as [-> T].
    split; [done|]. rewrite T. apply Hdb.
  - intros [= <- <-]. cbn [sv_shared rs_status]. exists probe, w1, results. done.
Qed.

(** An upload that is too long is refused, whoever sends it. *)
Lemma too_large_refused c now s rs s' :
  Routes policy trusted login_clock signup_clock public_clock
    (Routes.PostResults (c_probeID c) (c_secret c) now BodyTooLarge) s = (rs, s') ->
  (rs_status rs =? 204)%Z = false /\
  (TrimSpace (c_probeID c) <> "" -> TrimSpace (c_secret c) <> "" ->
   (exists probe w1, AuthenticateProbe (TrimSpace (c_probeID c)) (TrimSpace (c_secret c)) (sv_shared s).2
                     = (inr (Some probe), w1)) -> rs_status rs = 413%Z).
Proof.
  destruct s as [[r w] lim]. cbn [Routes sv_shared]. unfold probe_route, unlimited. cbn [sv_shared snd].
  unfold requireProbeAuth. cbv zeta.
  destruct (TrimSpace (c_probeID c) == "") eqn:E1; [intros [= <- <-]; split; [done|]; intros Hne;
    by apply bool_decide_eq_true in E1|].
  destruct (TrimSpace (c_secret c) == "") eqn:E2; [intros [= <- <-]; split; [done|]; intros _ Hne;
    by apply bool_decide_eq_true in E2|].
  cbn [orb]. destruct (AuthenticateProbe _ _ w) as [[e|[probe|]] w1]; intros [= <- <-].
  - split; [done|]. by intros _ _ (? & ? & ?).
  - done.
  - split; [done|]. by intros _ _ (? & ? & ?).
Qed.

(** The state a batch leaves behind that the server took. *)
Definition taken (c : Client) (now : Time) (results : list CheckResult) (s s' : Server) : Prop :=
  exists probe w1, AuthenticateProbe (TrimSpace (c_probeID c)) (TrimSpace (c_secret c)) (sv_shared s).2 = (inr (Some probe), w1) /\
    same_db (sv_shared s).2 w1 /\ ProcessBatch now (Some probe) results ((sv_shared s).1, w1) = (inr tt, sv_shared s').

Definition untouched (s s' : Server) : Prop :=
  (sv_shared s').1 = (sv_shared s).1 /\ w_tables (sv_shared s').2 = w_tables (sv_shared s).2.

Lemma upload_answered c now body results s rs s' :
  Routes policy trusted login_clock signup_clock public_clock
    (Routes.PostResults (c_probeID c) (c_secret c) now body) s = (rs, s') ->
  if (rs_status rs =? 204)%Z then
    (body = BodyTooLarge \/ body = BodyValue results RestEOF) -> taken c now results s s'
  else untouched s s'.
Proof.
  intros Hrun. pose proof (results_served c now body s rs s' Hrun) as Hs. unfold taken, untouched.
  destruct (sv_shared s) as [r w], (sv_shared s') as [r' w']. destruct (rs_status rs =? 204)%Z; [|done].
  intros Hval. destruct Hs as (probe & w1 & l & Ha & Hdb & Hd & Hp). exists probe, w1. split_and!; [done|apply Hdb..|].
  destruct Hval as [-> | ->]; [done|]. by injection Hd as <-.
Qed.

(** C25. Uploads are settled as they were served.  Whatever the network does to an
    upload that survives encoding, and whichever database calls fail short of a
    lost acknowledgement, the server stays in agreement with its database, and:
    if the client reports success, the server authenticated the probe and applied
    exactly these results; if it reports a status, the server kept no trace of
    the batch, so the batch the buffer then discards was refused as a whole and
    the one it keeps can be sent again; if it reports another error, the batch
    was taken or left no trace, and the buffer keeps it.  A batch that is encoded
    in more than 64 KiB is never taken: an authenticated probe is answered 413,
    and its buffer discards all of the batch. *)
Theorem upload_settles_as_served c results data fate now s :
  healthy (sv_shared s) ->
  json_Marshal (ResultsPayload results) = inr data ->
  http_NewRequest "POST" (c_baseURL c +:+ PathResults) = None ->
  decode_results data = BodyValue results RestEOF ->
  let '(err, s') := PostResults (wire policy trusted login_clock signup_clock public_clock (c_baseURL c) fate now) c results s in
  healthy (sv_shared s') /\
  match err with
  | None => taken c now results s s'
  | Some (StatusError _ _ _) => untouched s s'
  | Some (PlainError _) => (untouched s s' \/ taken c now results s s') /\
      IsRetryablePostResultsError (post_error <$> err) = true
  end /\
  ((maxProbeJSONRequestBodyBytes < Z.of_nat (String.length data))%Z ->
   untouched s s' /\
   (fate = Delivered -> TrimSpace (c_probeID c) <> "" -> TrimSpace (c_secret c) <> "" ->
    (exists probe w1, AuthenticateProbe (TrimSpace (c_probeID c)) (TrimSpace (c_secret c)) (sv_shared s).2
                      = (inr (Some probe), w1)) ->
    err = Some (StatusError "POST" 413 204) /\ IsRetryablePostResultsError (post_error <$> err) = false)).
Proof.
  intros Hh Hdata Hreq Hdec. unfold PostResults, roundtrip, newRequest. rewrite Hdata, Hreq.
  rewrite bool_decide_eq_true_2 by eauto. unfold wire. rewrite route_results. unfold read_body.
  destruct fate as [|e|e].
  2: { split; [done|]. split; [split; [left; by split|done]|]. intros _. split; [by split|done]. }
  all: set (body := if (_ <? _)%Z then _ else _);
    pose proof (routes_healthy policy trusted login_clock signup_clock public_clock Hack
      (Routes.PostResults (c_probeID c) (c_secret c) now body) s Hh) as Hh';
    destruct (Routes _ _ _ _ _ _ s) as [rs s'] eqn:Hrun; cbn [snd] in Hh';
    pose proof (upload_answered c now body results s rs s' Hrun) as Hs;
    assert (Hbig : (maxProbeJSONRequestBodyBytes < Z.of_nat (String.length data))%Z -> body = BodyTooLarge)
      by (intros Hl; unfold body; rewrite (proj2 (Z.ltb_lt _ _) Hl); reflexivity);
    assert (Hval : body = BodyTooLarge \/ body = BodyValue results RestEOF)
      by (unfold body; rewrite Hdec; destruct (_ <? _)%Z; auto).
  - cbn [hp_StatusCode]. destruct (rs_status rs =? 204)%Z eqn:Hst; cbn [negb]; (split; [done|]).
    + split; [by apply Hs|]. intros Hl. specialize (Hbig Hl). subst body. rewrite Hbig in Hrun.
      destruct (too_large_refused _ _ _ _ _ Hrun) as [E _]. by rewrite E in Hst.
    + split; [done|]. intros Hl. split; [done|]. intros _ H1 H2 H3. specialize (Hbig Hl). rewrite Hbig in Hrun.
      destruct (too_large_refused _ _ _ _ _ Hrun) as [_ E]. by rewrite (E H1 H2 H3).
  - split; [done|]. split.
    + split; [|done]. destruct (rs_status rs =? 204)%Z; [right; by apply Hs|by left].
    + intros Hl. split; [|done]. specialize (Hbig Hl). rewrite Hbig in Hrun.
      destruct (too_large_refused _ _ _ _ _ Hrun) as [E _]. by rewrite E in Hs.
Qed.
End upload.

(** * Check sync *)

(** What the probe is to run for an ID. *)
Definition wanted (t : Tables) (id : string) : option ProbeCheck :=
  match t_checks t !! id with
  | Some row => if is_active row then Some (probe_check (scanCheck (id, row))) else None
  | None => None
  end.

Lemma index_foldl latest : forall (m : gmap string ProbeCheck) id,
  NoDup (pc_ID <$> latest) ->
  foldl (fun next check => <[pc_ID check := check]> next) m latest !! id =
  match List.find (fun check => pc_ID check == id) latest with Some check => Some check | None => m !! id end.
Proof.
  induction latest as [|c latest IH]; intros m id; simpl; [done|].
  rewrite list.NoDup_cons. intros [Hni Hnd]. rewrite IH by done.
  destruct (List.find _ latest) as [d|] eqn:Hf.
  - apply find_some in Hf as [Hin E]. apply bool_decide_eq_true in E.
    rewrite bool_decide_eq_false_2; [done|]. intros E'. apply Hni, list_elem_of_fmap.
    exists d. split; [congruence|by apply list_elem_of_In].
  - case_bool_decide as E; [by rewrite E, lookup_insert_eq|by rewrite lookup_insert_ne].
Qed.

Section sync.
Context `{SLL : StatelessLaws} `{SEL : StoreEnvLaws} `{AE : AuthEnv} `{UL : UrlLib} `{PL : ProbeLib} `{WL : WireLib}.
Context (policy : Policy) (trusted : list Prefix) (login_clock signup_clock public_clock : nat -> Time).
Context (running_order : gmap string runningCheck -> list string) (next_order : gmap string ProbeCheck -> list string).

Definition probe_payload (t : Tables) : list ProbeCheck := probe_check <$> listed_checks t.

Lemma payload_ids t : pc_ID <$> probe_payload t = ck_ID <$> listed_checks t.
Proof. unfold probe_payload. by rewrite <-list_fmap_compose. Qed.

Lemma NoDup_payload t : NoDup (pc_ID <$> probe_payload t).
Proof.
  rewrite payload_ids. unfold listed_checks. rewrite <-list_fmap_compose, order_by_perm.
  assert (E : (ck_ID ∘ scanCheck) <$> select (fun _ c => is_active c) (t_checks t) =
    (select (fun _ c => is_active c) (t_checks t)).*1) by (apply list_fmap_ext; by intros i []).
  rewrite E. apply (NoDup_fst_filter (fun kc : string * CheckRow => is_active kc.2)), NoDup_fst_map_to_list.
Qed.

Lemma index_payload t id : index_latest (probe_payload t) !! id = wanted t id.
Proof.
  unfold index_latest. rewrite index_foldl by apply NoDup_payload. rewrite lookup_empty. unfold wanted.
  destruct (List.find _ _) as [c|] eqn:Hf.
  - apply find_some in Hf as [Hin E]. apply bool_decide_eq_true in E as <-. apply list_elem_of_In in Hin.
    unfold probe_payload, listed_checks in Hin. rewrite <-list_fmap_compose in Hin.
    apply list_elem_of_fmap in Hin as ([k row] & -> & Hin). rewrite order_by_perm in Hin.
    apply (elem_of_select (fun _ c => is_active c)) in Hin as [Hl Ha]. simpl. by rewrite Hl, Ha.
  - destruct (t_checks t !! id) as [row|] eqn:Hl; [|done]. destruct (is_active row) eqn:Ha; [|done]. exfalso.
    assert (Hin : probe_check (scanCheck (id, row)) ∈ probe_payload t).
    { unfold probe_payload, listed_checks. rewrite <-list_fmap_compose. apply list_elem_of_fmap.
      exists (id, row). split; [done|]. rewrite order_by_perm.
      by apply (elem_of_select (fun _ c => is_active c)). }
    apply list_elem_of_In in Hin. apply (find_none _ _ Hf) in Hin. by apply bool_decide_eq_false in Hin.
Qed.

(** A worker settled against the payload runs what is wanted. *)
Lemma settled_wanted t id old new :
  settled (index_latest (probe_payload t) !! id) old new -> rc_check <$> new = wanted t id.
Proof.
  unfold settled. rewrite index_payload. destruct (wanted t id); [by intros (job & -> & <- & _)|by intros ->].
Qed.

(** The checks route reads, and answers 200 with the active checks. *)
Lemma checks_served c s rs s' :
  Routes policy trusted login_clock signup_clock public_clock (GetProbeChecks (c_probeID c) (c_secret c)) s = (rs, s') ->
  untouched s s' /\
  (rs_status rs = 200%Z -> rs_body rs = ProbeChecksJSON (probe_payload (w_tables (sv_shared s).2))).
Proof.
  destruct s as [[r w] lim]. cbn [Routes sv_shared snd]. unfold probe_route, unlimited. cbn [sv_shared].
  unfold requireProbeAuth. cbv zeta. destruct ((_ == "") || (_ == "")); [by intros [= <- <-]|].
  pose proof (reads_authenticate (TrimSpace (c_probeID c)) (TrimSpace (c_secret c)) w) as [T _].
  destruct (AuthenticateProbe _ _ w) as [[e|[probe|]] w1]; cbn [snd] in T;
    [by intros [= <- <-]| |by intros [= <- <-]].
  unfold handleProbeChecks, on_world. pose proof (read_run listed_checks w1) as Hl.
  pose proof (reads_all_checks w1) as [T2 _].
  change (call (t ← get_tables; mret (listed_checks t)) w1) with (ListAllChecks w1) in Hl.
  destruct (ListAllChecks w1) as [[e|l] w2]; cbn [snd] in T2; intros [= <- <-]; unfold untouched; cbn.
  - split; [split; [done|congruence]|done].
  - destruct Hl as (-> & _). split; [split; [done|congruence]|]. intros _. by rewrite T.
Qed.

Lemma checks_served_live c s p :
  (forall n, fault_at n = None) -> pg_text_ok (TrimSpace (c_probeID c)) = true ->
  TrimSpace (c_probeID c) <> "" -> TrimSpace (c_secret c) <> "" ->
  t_probes (w_tables (sv_shared s).2) !! TrimSpace (c_probeID c) = Some p -> p_revoked_at p = None ->
  p_secret_hash p = hashProbeSecret (TrimSpace (c_secret c)) ->
  rs_status (Routes policy trusted login_clock signup_clock public_clock
    (GetProbeChecks (c_probeID c) (c_secret c)) s).1 = 200%Z.
Proof.
  intros Hf Hid H1 H2 Hp Hr Hh. destruct s as [[r w] lim]. cbn [sv_shared snd] in *.
  cbn [Routes sv_shared snd]. unfold probe_route, unlimited. cbn [sv_shared]. unfold requireProbeAuth. cbv zeta.
  rewrite !bool_decide_eq_false_2 by done. cbn [orb].
  pose proof (authenticate_run (TrimSpace (c_probeID c)) (TrimSpace (c_secret c)) w Hid (Hf _)) as Ha.
  rewrite Hp, Hr, Hh, !bool_decide_eq_true_2 in Ha by done. cbn [andb] in Ha.
  destruct (AuthenticateProbe _ _ w) as [res w1]. cbn [fst] in Ha. subst res.
  unfold handleProbeChecks, on_world, ListAllChecks, call. by rewrite Hf.
Qed.

(** The client's request for the checks. *)
Definition get_checks (c : Client) : Request :=
  MkRequest "GET" (c_baseURL c +:+ PathChecks)
    ([(HeaderProbeID, c_probeID c); (HeaderProbeSecret, c_secret c)] ++ []) None.

(** A fetch over a network that treats each request in its own way. *)
Lemma fetch_answer c (fate : Request -> Fate) now s :
  http_NewRequest "GET" (c_baseURL c +:+ PathChecks) = None ->
  FetchChecks (fun req => wire policy trusted login_clock signup_clock public_clock (c_baseURL c) (fate req) now req) c s =
    match fate (get_checks c) with
    | RequestLost e => (inl (Wrapf "GET" e), s)
    | _ => let '(rs, s') := Routes policy trusted login_clock signup_clock public_clock
                              (GetProbeChecks (c_probeID c) (c_secret c)) s in
           match fate (get_checks c) with
           | ResponseLost e => (inl (Wrapf "GET" e), s')
           | _ => if negb (rs_status rs =? 200)%Z then (inl (Errorf "expected status 200"), s')
                  else (json_checks (encode_body (rs_body rs)), s')
           end
    end.
Proof.
  intros Hreq. unfold FetchChecks, roundtrip, newRequest. rewrite Hreq. rewrite bool_decide_eq_false_2 by (by intros []).
  fold (get_checks c). unfold wire.
  assert (E : route (c_baseURL c) now (get_checks c) = GetProbeChecks (c_probeID c) (c_secret c)) by apply routed_checks.
  rewrite ?E, ?routed_checks.
  destruct (fate (get_checks c)); [|done|]; by destruct (Routes _ _ _ _ _ _ s).
Qed.

(** C26. A sync makes the probe run what the server has.  Whatever the network does,
    a tick of the check sync changes nothing on the server and leaves the
    scheduler's table and its live workers the same; if the fetch fails the
    workers stay as they are, and if it succeeds the probe runs exactly the
    server's active checks, each as the database has it.  The fetch does succeed
    if nothing is lost, the database answers, and the client has the credential
    of a probe that is not revoked. *)
Theorem sync_runs_active_checks c fate now s sched :
  let t := w_tables (sv_shared s).2 in
  let net := wire policy trusted login_clock signup_clock public_clock (c_baseURL c) fate now in
  ranges running_order -> ranges next_order -> sched_ok sched ->
  http_NewRequest "GET" (c_baseURL c +:+ PathChecks) = None ->
  json_checks (encode_body (ProbeChecksJSON (probe_payload t))) = inr (probe_payload t) ->
  let '(sched', s') := sync_tick net running_order next_order c sched s in
  sched_ok sched' /\ untouched s s' /\
  match (FetchChecks net c s).1 with
  | inl _ => sched' = sched
  | inr _ => forall id, rc_check <$> s_running sched' !! id = wanted t id
  end /\
  (fate = Delivered -> (forall n, fault_at n = None) ->
   TrimSpace (c_secret c) <> "" -> pg_text_ok (TrimSpace (c_probeID c)) = true -> TrimSpace (c_probeID c) <> "" ->
   (exists p, t_probes t !! TrimSpace (c_probeID c) = Some p /\ p_revoked_at p = None /\
      p_secret_hash p = hashProbeSecret (TrimSpace (c_secret c))) ->
   exists checks, (FetchChecks net c s).1 = inr checks).
Proof.
  intros t net Hr1 Hr2 Hok Hreq Hjson. unfold sync_tick.
  pose proof (fetch_answer c (fun _ => fate) now s Hreq) as Hfetch. cbv beta in Hfetch. fold net in Hfetch.
  change (FetchChecks (fun req => net req) c s) with (FetchChecks net c s) in Hfetch.
  rewrite Hfetch. clear Hfetch. destruct fate as [|e|e]; [| by split_and! |].
  all: pose proof (checks_served c s) as Hs; pose proof (checks_served_live c s) as Hlive;
    destruct (Routes _ _ _ _ _ _ s) as [rs s']; destruct (Hs rs s' eq_refl) as [Hu Hb]; cbn [fst] in Hlive.
  - destruct (rs_status rs =? 200)%Z eqn:Hst; cbn [negb].
    + apply Z.eqb_eq in Hst. rewrite (Hb Hst). fold t. rewrite Hjson. cbn [fst].
      destruct (reconcile_runs running_order next_order (probe_payload t) sched Hr1 Hr2 Hok) as [(Hok' & _) Hset].
      split_and!; [done|apply Hu..| |eauto]. intros id. eapply settled_wanted, Hset.
    + split_and!; [done|apply Hu..|done|]. intros _ Hf H1 H2 H3 (p & Hp & Hr & Hh).
      rewrite (Hlive p Hf H2 H3 H1 Hp Hr Hh) in Hst. done.
  - split_and!; [done|apply Hu..|done|done].
Qed.
End sync.
