(* ===== verification/ProbeStart.v ===== *)
(** The start of a probe against the server: cmd/wacht-probe/main.go with the server's
    register and checks routes. *)

From S2P Require Import Prelude GoStrings GoNet ClientIP NetPolicy Stateless Types Database StoreNotifications StoreMonitoring.
From S2P Require Import StoreChecks StoreProbes StoreInvariant StoreProperties StoreAuth AuthInvariant AuthProperties.
From S2P Require Import StoreFrame ProbeMachine CheckMachine QuorumMachine Runtime Results Ledger Heartbeat.
From S2P Require Import Sweepers SweepProperties Recovery StoreLedger ProbeProcessor AuthProcessor Onboarding.
From S2P Require Import ProbeIngest System RateLimiter Config StatusView Server Routes ServerInvariant ServerProperties.
From S2P Require Import ProbeProperties Batcher Scheduler ProbeClient ProbeServer.

Section start.
Context `{SLL : StatelessLaws} `{SEL : StoreEnvLaws} `{AE : AuthEnv} `{UL : UrlLib} `{PL : ProbeLib} `{WL : WireLib}.
Context (policy : Policy) (trusted : list Prefix) (login_clock signup_clock public_clock : nat -> Time).
Context (running_order : gmap string runningCheck -> list string)
        (next_order : gmap string ProbeCheck -> list string).

(** * Registration *)

(** A network that treats each request in its own way. *)
Definition network (c : Client) (fate : Request -> Fate) (now : Time) (req : Request)
    : Server -> (GoError + HTTPResponse) * Server :=
  wire policy trusted login_clock signup_clock public_clock (c_baseURL c) (fate req) now req.

Definition post_register (c : Client) (data : string) : Request :=
  MkRequest "POST" (c_baseURL c +:+ PathRegister)
    ([(HeaderProbeID, c_probeID c); (HeaderProbeSecret, c_secret c)] ++ [("Content-Type", "application/json")]) (Some data).

(** What the server knows of a probe that registered. *)
Definition joined (c : Client) (s : Server) : Prop :=
  is_Some (rt_probes (sv_shared s).1 !! TrimSpace (c_probeID c)) /\
  exists p, t_probes (w_tables (sv_shared s).2) !! TrimSpace (c_probeID c) = Some p /\
    p_secret_hash p = hashProbeSecret (TrimSpace (c_secret c)) /\ p_revoked_at p = None /\
    p_version p = "dev" /\ is_Some (p_registered_at p) /\ is_Some (p_last_seen_at p).

Lemma route_register c now data :
  route (c_baseURL c) now (post_register c data) =
  PostProbeRegister (c_probeID c) (c_secret c) (read_body decode_register (Some data)).
Proof. unfold route. cbn [rq_Method rq_URL rq_Header rq_Body post_register]. by rewrite !url_eq. Qed.

Lemma register_answer c fate now data s :
  json_Marshal (RegisterPayload (MkRegisterRequest (c_probeID c) "dev")) = inr data ->
  http_NewRequest "POST" (c_baseURL c +:+ PathRegister) = None ->
  Register (network c fate now) c "dev" s =
    match fate (post_register c data) with
    | RequestLost e => (Some (PlainError (Wrapf "POST" e)), s)
    | _ => let '(rs, s') := Routes policy trusted login_clock signup_clock public_clock
             (PostProbeRegister (c_probeID c) (c_secret c) (read_body decode_register (Some data))) s in
           match fate (post_register c data) with
           | ResponseLost e => (Some (PlainError (Wrapf "POST" e)), s')
           | _ => if negb (rs_status rs =? 204)%Z then (Some (StatusError "POST" (rs_status rs) 204), s') else (None, s')
           end
    end.
Proof.
  intros Hm Hr. unfold ProbeClient.Register, roundtrip, newRequest. rewrite Hm, Hr.
  rewrite bool_decide_eq_true_2 by (by eexists). fold (post_register c data). unfold network, wire.
  rewrite route_register. destruct (fate (post_register c data)); [|done|]; by destruct (Routes _ _ _ _ _ _ s).
Qed.

Lemma AddProbe_known id r : id <> "" -> is_Some (rt_probes (AddProbe id r).2 !! id).
Proof.
  intros Hid. unfold AddProbe, addProbeLocked. rewrite bool_decide_eq_false_2 by done.
  destruct (rt_probes r !! id) eqn:E; cbn [snd]; [by rewrite E|]. unfold set_probe. simpl. by rewrite lookup_insert_eq.
Qed.
Lemma register_effect id version w w' :
  RegisterProbe id version w = (inr tt, w') ->
  t_checks (w_tables w') = t_checks (w_tables w) /\
  exists now, t_probes (w_tables w') =
    update_where (fun k p => (k == id) && bool_decide (p_revoked_at p = None)) (register_row version now) (t_probes (w_tables w)).
Proof.
  unfold RegisterProbe, mbind, St_bind, time_Now, call, params.
  destruct (fault_at _) as [[]|]; [done..|]. cbn. destruct (negb _); [done|]. cbn.
  intros [= <-]. cbn. split; [done|]. by eexists.
Qed.

Lemma register_served c s rs s' :
  Routes policy trusted login_clock signup_clock public_clock
    (PostProbeRegister (c_probeID c) (c_secret c) (BodyValue (MkRegisterRequest (c_probeID c) "dev") RestEOF)) s = (rs, s') ->
  rs_status rs = 204%Z ->
  t_checks (w_tables (sv_shared s').2) = t_checks (w_tables (sv_shared s).2) /\ joined c s'.
Proof.
  destruct s as [[r w] lim]. cbn [Routes sv_shared snd]. unfold probe_route, unlimited. cbn [sv_shared].
  unfold requireProbeAuth. cbv zeta. destruct (bool_decide_reflect (TrimSpace (c_probeID c) = "")) as [|Hid]; cbn [orb];
    [by intros [= <- <-]|]. destruct (_ == ""); [by intros [= <- <-]|].
  pose proof (reads_authenticate (TrimSpace (c_probeID c)) (TrimSpace (c_secret c)) w) as [T _].
  destruct (AuthenticateProbe _ _ w) as [[e|[probe|]] w1] eqn:Ha; cbn [snd] in T; [by intros [= <- <-]| |by intros [= <- <-]].
  apply authenticated_row in Ha as (Hp & p & Hl & Hr & Hh).
  unfold handleProbeRegister, decoding, decodeJSONBody, processed, ProbeProcessor.Register. cbn [rr_ProbeID rr_Version].
  pose proof (error_not_204 err_mismatch) as E204.
  destruct (foreign _ _); [intros [= <- <-] Hst; by rewrite Hst in E204|].
  change (store_RegisterProbe (pb_ProbeID probe) "dev" w1) with (RegisterProbe (pb_ProbeID probe) "dev" w1).
  destruct (RegisterProbe _ _ w1) as [[e|[]] w2] eqn:Hreg; cbn.
  { intros [= <- <-] Hst. pose proof (error_not_204 e) as E. by rewrite Hst in E. }
  intros [= <- <-] _. apply register_effect in Hreg as (Hc & now & Hpr). rewrite Hp in *. rewrite T in *.
  split; [done|]. split; [by apply AddProbe_known|]. exists (register_row "dev" now p). cbn [sv_shared snd].
  rewrite Hpr, lookup_update_where, Hl. cbn [fmap option_fmap option_map].
  rewrite !bool_decide_eq_true_2 by done. done.
Qed.

(** A client with the credential of a probe, and a database that answers. *)
Definition may_join (c : Client) (s : Server) : Prop :=
  (forall n, fault_at n = None) /\ TrimSpace (c_probeID c) = c_probeID c /\ c_probeID c <> "" /\
  pg_text_ok (c_probeID c) = true /\ TrimSpace (c_secret c) <> "" /\
  exists p, t_probes (w_tables (sv_shared s).2) !! c_probeID c = Some p /\ p_revoked_at p = None /\
    p_secret_hash p = hashProbeSecret (TrimSpace (c_secret c)).

Lemma register_served_live c s :
  may_join c s ->
  rs_status (Routes policy trusted login_clock signup_clock public_clock
    (PostProbeRegister (c_probeID c) (c_secret c) (BodyValue (MkRegisterRequest (c_probeID c) "dev") RestEOF)) s).1 = 204%Z.
Proof.
  intros (Hf & Ht & Hid & Hok & Hs & p & Hp & Hr & Hh). destruct s as [[r w] lim]. cbn [sv_shared snd] in *.
  cbn [Routes sv_shared snd]. unfold probe_route, unlimited. cbn [sv_shared]. unfold requireProbeAuth. cbv zeta.
  rewrite Ht, !bool_decide_eq_false_2 by done. cbn [orb].
  pose proof (authenticate_run (c_probeID c) (TrimSpace (c_secret c)) w Hok (Hf _)) as Ha.
  rewrite Hp, Hr, Hh, !bool_decide_eq_true_2 in Ha by done. cbn [andb] in Ha.
  destruct (AuthenticateProbe _ _ w) as [res w1]. cbn [fst] in Ha. subst res.
  unfold handleProbeRegister, decoding, decodeJSONBody, processed, ProbeProcessor.Register. cbn [rr_ProbeID rr_Version pb_ProbeID].
  unfold foreign. cbn [pb_ProbeID]. rewrite (bool_decide_eq_true_2 (c_probeID c = c_probeID c)) by done.
  rewrite andb_false_r.
  change (store_RegisterProbe (c_probeID c) "dev" w1) with (RegisterProbe (c_probeID c) "dev" w1).
  unfold RegisterProbe, mbind, St_bind, time_Now, call, params. rewrite Hf. cbn [forallb]. rewrite Hok. done.
Qed.
(** * The start *)

Definition start_client (cfg : ProbeConfig) (serverOverride : string) : Client :=
  NewClient (if serverOverride != "" then serverOverride else pcfg_Server cfg) (pcfg_ProbeID cfg) (pcfg_Secret cfg).

(** The probe's first fetch, on a server where it has joined. *)
Lemma fetch_joined c fate now s res s' :
  http_NewRequest "GET" (c_baseURL c +:+ PathChecks) = None ->
  json_checks (encode_body (ProbeChecksJSON (probe_payload (w_tables (sv_shared s).2)))) =
    inr (probe_payload (w_tables (sv_shared s).2)) ->
  FetchChecks (network c fate now) c s = (res, s') ->
  untouched s s' /\ (healthy (sv_shared s) -> healthy (sv_shared s')) /\
  (forall l, res = inr l -> l = probe_payload (w_tables (sv_shared s).2)) /\
  (fate (get_checks c) = Delivered -> joined c s -> (forall n, fault_at n = None) ->
   TrimSpace (c_probeID c) <> "" -> TrimSpace (c_secret c) <> "" -> pg_text_ok (TrimSpace (c_probeID c)) = true ->
   exists l, res = inr l).
Proof.
  intros Hreq Hjson. unfold network. rewrite fetch_answer by done.
  pose proof (checks_served policy trusted login_clock signup_clock public_clock c s) as Hs.
  pose proof (checks_served_live policy trusted login_clock signup_clock public_clock c s) as Hlive.
  pose proof (checks_healthy policy trusted login_clock signup_clock public_clock (c_probeID c) (c_secret c) s) as Hh.
  destruct (fate (get_checks c)) as [|e|e]; [|by intros [= <- <-]|].
  all: destruct (Routes _ _ _ _ _ _ s) as [rs s1]; destruct (Hs rs s1 eq_refl) as [Hu Hb]; cbn [fst snd] in *.
  - destruct (rs_status rs =? 200)%Z eqn:Hst; cbn [negb].
    + apply Z.eqb_eq in Hst. rewrite (Hb Hst), Hjson. intros [= <- <-]. split_and!; [apply Hu..|done|by intros l [= <-]|eauto].
    + intros [= <- <-]. split_and!; [apply Hu..|done|done|]. intros _ (_ & p & Hp & Hsec & Hrev & _) Hf H1 H2 H3.
      by rewrite (Hlive p Hf H3 H1 H2 Hp Hrev Hsec) in Hst.
  - intros [= <- <-]. split_and!; [apply Hu..|done|done|done].
Qed.

(** C27. A probe that starts has joined.  Whatever the network does to the two requests
    of a probe's start and whichever database calls fail, before or after their work
    was done, the server stays in agreement with its database, and a start
    that succeeds leaves the probe registered in the database and known to the
    runtime, the checks as they were, an empty result buffer, and one worker
    for exactly each active check.  The start does succeed if nothing is lost, the
    database answers and the configuration has the credential of a probe that is
    not revoked. *)
Theorem probe_start_joins unmarshal file serverOverride cfg fate now data s :
  let c := start_client cfg serverOverride in
  let t := w_tables (sv_shared s).2 in
  LoadProbe unmarshal file = inr cfg -> healthy (sv_shared s) ->
  ranges running_order -> ranges next_order ->
  json_Marshal (RegisterPayload (MkRegisterRequest (c_probeID c) "dev")) = inr data ->
  decode_register data = BodyValue (MkRegisterRequest (c_probeID c) "dev") RestEOF ->
  (Z.of_nat (String.length data) <= maxProbeJSONRequestBodyBytes)%Z ->
  http_NewRequest "POST" (c_baseURL c +:+ PathRegister) = None ->
  http_NewRequest "GET" (c_baseURL c +:+ PathChecks) = None ->
  json_checks (encode_body (ProbeChecksJSON (probe_payload t))) = inr (probe_payload t) ->
  let '(res, s') := start_probe (network c fate now) running_order next_order unmarshal file serverOverride s in
  healthy (sv_shared s') /\
  match res with
  | inl _ => True
  | inr pp =>
      joined c s' /\ t_checks (w_tables (sv_shared s').2) = t_checks t /\
      pp_client pp = c /\ b_pending (pp_buffer pp) = [] /\ sched_ok (pp_scheduler pp) /\
      forall id, rc_check <$> s_running (pp_scheduler pp) !! id = wanted t id
  end /\
  ((forall req, fate req = Delivered) -> may_join c s -> exists pp, res = inr pp).
Proof.
  intros c t Hcfg Hh Hr1 Hr2 Hm Hdec Hlen Hreq1 Hreq2 Hjson. unfold start_probe. rewrite Hcfg. fold (start_client cfg serverOverride).
  fold c. rewrite (register_answer c fate now data s Hm Hreq1).
  assert (Hbody : read_body decode_register (Some data) = BodyValue (MkRegisterRequest (c_probeID c) "dev") RestEOF).
  { unfold read_body. by rewrite (proj2 (Z.ltb_ge _ _) Hlen). }
  rewrite Hbody. pose proof (register_served c s) as Hserved. pose proof (register_served_live c s) as Hlive.
  match goal with |- context [Routes _ _ _ _ _ (PostProbeRegister ?i ?x ?b) s] =>
    pose proof (register_healthy policy trusted login_clock signup_clock public_clock i x b s Hh) as Hh1 end.
  destruct (fate (post_register c data)) as [|e|e] eqn:Ef;
    [|split; [done|]; split; [done|]; intros Hd; by rewrite Hd in Ef|].
  all: destruct (Routes _ _ _ _ _ _ s) as [rs s1]; cbn [fst snd] in *.
  2: { split; [done|]. split; [done|]. intros Hd. by rewrite Hd in Ef. }
  destruct (rs_status rs =? 204)%Z eqn:Hst; cbn [negb]; apply Z.eqb_eq in Hst || apply Z.eqb_neq in Hst.
  2: { split; [done|]. split; [done|]. intros _ Hj. by rewrite Hlive in Hst. }
  destruct (Hserved rs s1 eq_refl Hst) as [Hc Hjoin].
  assert (Hpay : probe_payload (w_tables (sv_shared s1).2) = probe_payload t).
  { unfold probe_payload, listed_checks. by rewrite Hc. }
  destruct (FetchChecks (network c fate now) c s1) as [res s2] eqn:Hf.
  apply fetch_joined in Hf as ([Er Et] & Hh2 & Hl & Hlive2); [|done|by rewrite Hpay].
  destruct res as [e|l].
  { split; [by apply Hh2|]. split; [done|]. intros Hd (Hnf & Htr & Hid & Hok & Hs & _).
    destruct (Hlive2 (Hd _) Hjoin Hnf); [by rewrite Htr|done|by rewrite Htr|done]. }
  split; [by apply Hh2|]. split; [|by eexists]. rewrite (Hl l eq_refl), Hpay. cbn [pp_client pp_buffer pp_scheduler].
  destruct (reconcile_runs running_order next_order (probe_payload t) newScheduler Hr1 Hr2 newScheduler_ok) as [(Hok' & _) Hset].
  split_and!; [|by rewrite Et|done|done|done|].
  - unfold joined. by rewrite Er, Et.
  - intros id. eapply settled_wanted, Hset.
Qed.
End start.
