(* ===== verification/StatusProperties.v ===== *)
(** The status pages: what they show is what the runtime holds and what the
    database recorded. *)

From S2P Require Import Prelude GoStrings GoTime Stateless Types Database StoreNotifications StoreMonitoring.
From S2P Require Import StoreChecks StoreProbes StoreInvariant StoreProperties StoreAuth AuthInvariant AuthProperties.
From S2P Require Import ProbeMachine CheckMachine QuorumMachine Runtime Results Ledger Heartbeat Sweepers SweepProperties.
From S2P Require Import Recovery StoreLedger ProbeProcessor AuthProcessor Onboarding ProbeIngest StatusView Server.
From S2P Require Import ServerInvariant.

(** The rows a status page lists: the user's active checks, in order. *)
Definition owned_rows `{StoreEnv} (userID : Z) (t : Tables) : list (string * CheckRow) :=
  order_by check_order (select (fun _ c => owned_by userID c && is_active c) (t_checks t)).

(** When the open incident of a check started. *)
Definition open_since (checkID : string) (t : Tables) : option Time :=
  i_started_at ∘ snd <$> head (open_rows checkID t).

(** The public state of a check in the runtime; pending while it has none. *)
Definition public_state (r : Runtime) (checkID : string) : string :=
  match rt_quorums r !! checkID with Some q => cq_State (qm_state q) | None => QuorumStatePending end.

Section rows.
Context `{Env : StoreEnv}.

Lemma NoDup_select {K} `{Countable K} {V} (f : K -> V -> bool) (m : gmap K V) : NoDup (select f m).*1.
Proof. apply (NoDup_fst_filter (fun kv => f kv.1 kv.2)), NoDup_fst_map_to_list. Qed.

(** An open incident is the only one of its check. *)
Lemma open_rows_single t c : tables_wf t -> length (open_rows c t) <= 1.
Proof.
  intros Hwf. pose proof (NoDup_select (fun _ i => is_open_of c i) (t_incidents t)) as Hnd.
  fold (open_rows c t) in Hnd.
  destruct (open_rows c t) as [|[k1 i1] [|[k2 i2] l]] eqn:Hl; simpl; [lia|lia|]. exfalso.
  assert (H1 : (k1, i1) ∈ open_rows c t) by (rewrite Hl; left).
  assert (H2 : (k2, i2) ∈ open_rows c t) by (rewrite Hl; right; left).
  apply (elem_of_select (fun _ i => is_open_of c i)) in H1 as [L1 O1], H2 as [L2 O2].
  apply is_open_of_true in O1 as [E1 R1], O2 as [E2 R2].
  assert (k1 = k2) as -> by (eapply (wf_open_unique t Hwf); [exact L1|exact L2|congruence|done|done]).
  simpl in Hnd. apply list.NoDup_cons in Hnd as [Hn _]. apply Hn. left.
Qed.

Lemma status_rows_eq userID t :
  tables_wf t -> status_rows userID t = (fun kc => (kc, open_since kc.1 t)) <$> owned_rows userID t.
Proof.
  intros Hwf. unfold status_rows. fold (owned_rows userID t). generalize (owned_rows userID t) as l.
  induction l as [|kc l IH]; [done|]. simpl. rewrite IH. unfold open_since.
  pose proof (open_rows_single t kc.1 Hwf) as Hlen.
  destruct (open_rows kc.1 t) as [|ki [|? ?]]; simpl in *; [done|done|lia].
Qed.

Lemma open_since_open c t : is_Some (open_since c t) <-> open_incident c t = true.
Proof.
  unfold open_since, open_incident. rewrite fmap_is_Some, has_row_true. split.
  - intros [[k i] Hh]. exists k, i. apply (elem_of_select (fun _ i => is_open_of c i)).
    fold (open_rows c t). destruct (open_rows c t); [done|]. injection Hh as ->. left.
  - intros (k & i & Hl & Ho). assert (Hin : (k, i) ∈ open_rows c t) by (by apply elem_of_select).
    destruct (open_rows c t); [by apply not_elem_of_nil in Hin|by eexists].
Qed.

Lemma elem_of_owned userID t k row :
  (k, row) ∈ owned_rows userID t <-> t_checks t !! k = Some row /\ owned_by userID row = true /\ is_active row = true.
Proof.
  unfold owned_rows. rewrite order_by_perm, (elem_of_select (fun _ c => owned_by userID c && is_active c)).
  by rewrite andb_true_iff.
Qed.

Lemma NoDup_owned userID t : NoDup (owned_rows userID t).*1.
Proof. unfold owned_rows. rewrite order_by_perm. apply NoDup_select. Qed.

(** Reading the snapshots through the index gives each check its own state. *)
Lemma index_lookup c st l :
  (forall q, q ∈ l -> cq_CheckID q = c -> cq_State q = st) ->
  forall m, indexed_state m c = st \/ c ∈ cq_CheckID <$> l ->
  indexed_state (foldl (fun m quorum => <[cq_CheckID quorum := quorum]> m) m l) c = st.
Proof.
  induction l as [|q l IH]; intros Hl m Hm; simpl; [by destruct Hm as [|Hm%not_elem_of_nil]|].
  apply IH; [intros q' Hq'; apply Hl; by right|]. unfold indexed_state.
  destruct (decide (cq_CheckID q = c)) as [E|E].
  - left. rewrite E, lookup_insert_eq. apply Hl; [left|done].
  - rewrite lookup_insert_ne by done. destruct Hm as [Hm|Hm]; [by left|right].
    simpl in Hm. apply elem_of_cons in Hm as [->|Hm]; done.
Qed.

Lemma snapshot_id r c :
  runtime_wf r ->
  cq_CheckID (match rt_quorums r !! c with None => newCheckQuorumState c | Some q => QuorumMachine.Snapshot q end) = c /\
  cq_State (match rt_quorums r !! c with None => newCheckQuorumState c | Some q => QuorumMachine.Snapshot q end)
    = public_state r c.
Proof.
  intros Hwf. unfold public_state. destruct (rt_quorums r !! c) as [q|] eqn:Hq; [|done].
  split; [|done]. by destruct (runtime_wf_quorum _ _ _ Hwf Hq) as [(? & _) _].
Qed.

Lemma indexed_public r ids c :
  runtime_wf r -> c ∈ ids -> c <> "" -> indexed_state (quorum_index (QuorumSnapshots ids r)) c = public_state r c.
Proof.
  intros Hwf Hc Hne. apply index_lookup.
  - intros q Hq Hid. unfold QuorumSnapshots in Hq. apply list_elem_of_fmap in Hq as (d & -> & _).
    destruct (snapshot_id r d Hwf) as [E ->]. rewrite E in Hid. by subst d.
  - right. unfold QuorumSnapshots. rewrite <-list_fmap_compose. apply list_elem_of_fmap. exists c.
    split; [symmetry; by apply snapshot_id|by apply elem_of_uniqueIDs].
Qed.
End rows.

Section page.
Context `{SLL : StatelessLaws} `{Env : StoreEnv}.

Lemma status_views_run userID w :
  match StatusCheckViews userID w with
  | (inr views, _) => tables_wf (w_tables w) -> views =
      (fun kc => MkStatusCheckView kc.1 (c_name kc.2) (c_target kc.2) (open_since kc.1 (w_tables w))) <$>
        owned_rows userID (w_tables w)
  | (inl _, _) => True
  end.
Proof.
  destruct (StatusCheckViews userID w) as [[e|views] w'] eqn:Hrun; [done|]. intros Hwf.
  apply call_read in Hrun. apply bind_inr in Hrun as ([] & w1 & Hp & Hrun).
  destruct (params_run [] [userID] (next_tick w)) as [res E]. rewrite E in Hp. injection Hp as _ <-.
  injection Hrun as <- _. simpl. rewrite status_rows_eq by done. rewrite <-list_fmap_compose.
  apply list_fmap_ext. by intros i [k row] _.
Qed.

(** C3. The status page tells the truth.  In a state in which runtime and database
    agree, the page of a logged-in user lists the user's active checks, each once
    and in the order of their names; the status of each is the state of the
    check's quorum in the runtime, pending for a check without one; an incident is
    shown exactly when the runtime holds one open, with the start time of the
    recorded one; and serving the page changes neither. *)
Theorem status_page_tells_truth u r w checks probes s' :
  healthy (r, w) -> handleStatus u (r, w) = (MkResponse 200 (StatusJSON checks probes), s') ->
  s'.1 = r /\ same_db w s'.2 /\
  sc_CheckID <$> checks = (owned_rows (us_ID u) (w_tables w)).*1 /\ NoDup (sc_CheckID <$> checks) /\
  forall d, d ∈ checks ->
    active_check (w_tables w) (sc_CheckID d) = true /\
    sc_Status d = public_state r (sc_CheckID d) /\
    (is_Some (sc_IncidentSince d) <-> runtime_open r (sc_CheckID d) = true) /\
    sc_IncidentSince d = format_RFC3339 <$> open_since (sc_CheckID d) (w_tables w).
Proof.
  intros ((Hwf & Hinv & _ & Hag) & _ & _). unfold handleStatus, buildAuthenticatedStatusResponse.
  change (store_StatusCheckViews (us_ID u) w) with (StatusCheckViews (us_ID u) w).
  pose proof (reads_status (us_ID u) w) as Hr. pose proof (status_views_run (us_ID u) w) as Hv.
  destruct (StatusCheckViews (us_ID u) w) as [[e|views] w'] eqn:Hrun; [done|].
  specialize (Hv (proj1 (proj1 Hinv))). intros [= <- _ <-]. split_and!; [done|apply Hr| | |].
  - subst views. rewrite <-!list_fmap_compose. by apply list_fmap_ext.
  - subst views. rewrite <-!list_fmap_compose. apply NoDup_owned.
  - intros d Hd. apply list_elem_of_fmap in Hd as (view & -> & Hview). simpl.
    assert (Hid : sv_CheckID view ∈ sv_CheckID <$> views) by (by apply list_elem_of_fmap_2).
    subst views. apply list_elem_of_fmap in Hview as ([k row] & -> & Hk). simpl in *.
    apply elem_of_owned in Hk as (Hl & _ & Hact).
    assert (Ha : active_check (w_tables w) k = true) by (unfold active_check; by rewrite Hl).
    assert (Hne : k <> "") by exact (led_id_nonempty k (led_active_id w k Hinv Ha)).
    split_and!; [done|by apply indexed_public| |done].
    unfold formatOptionalTimestamp. rewrite fmap_is_Some, open_since_open.
    by rewrite (Hag k Ha).
Qed.
End page.
