(* ===== verification/Startup.v ===== *)
(** cmd/wacht-server/main.go and monitoring_sweepers.go: how the server process
    starts, and its two background loops.

    The configuration file, the environment, the connection to the database, the
    resolver's answers and the time of the first sweep are arguments.  [fatal]
    ends the process: it is an error with the message as prefix.  The loops run
    over the times of their ticks; what the rest of the process does before a tick
    is [meanwhile]. *)

From S2P Require Import Prelude GoStrings GoNet ClientIP NetPolicy Checks Stateless Types Database StoreNotifications StoreMonitoring.
From S2P Require Import StoreChecks StoreProbes StoreInvariant StoreProperties StoreAuth AuthInvariant AuthProperties.
From S2P Require Import StoreFrame ProbeMachine CheckMachine QuorumMachine Runtime Results Ledger Heartbeat.
From S2P Require Import Sweepers SweepProperties Recovery StoreLedger ProbeProcessor AuthProcessor Onboarding.
From S2P Require Import ProbeIngest System RateLimiter Config StatusView Server Routes ServerInvariant ServerProperties.

(** * Start *)

Definition fatal {A} (msg : string) (x : GoError + A) : GoError + A :=
  match x with inl err => inl (Wrapf msg err) | inr a => inr a end.

Definition probe_seeds (cfg : ServerConfig) : list ProbeSeed :=
  (fun p => MkProbeSeed (pa_ID p) (pa_Secret p)) <$> cfg_Probes cfg.

Section start.
Context `{SL : Stateless} `{Env : StoreEnv} `{AE : AuthEnv} `{UL : UrlLib}.
Context (unmarshal : string -> GoError + ServerConfig) (getenv : string -> string)
        (read : string -> GoError + string) (connect : string -> GoError + unit)
        (answers : nat -> string -> GoError + list IP).
Context (probe_order : gmap string ProbeRuntimeState -> list string)
        (quorum_order : string -> gmap string QuorumMachine -> list string)
        (range_order : string -> gmap string QuorumMachine -> list string).

(** The seed user's ID, 0 where there is none. *)
Definition seed_user (cfg : ServerConfig) : DB Z :=
  let u := cfg_SeedUser cfg in
  if (seed_Email u != "") && (seed_Password u != "") then
    exists_ ← wrapping "check existing users failed" UserExists;
    if negb exists_ then
      u ← wrapping "seed user failed" (CreateAdminUser (seed_Email u) (seed_Password u)); mret (us_ID u)
    else
      u ← wrapping "look up seed user failed" (AuthenticateUser (seed_Email u) (seed_Password u));
      mret (match u with Some u => us_ID u | None => 0%Z end)
  else mret 0%Z.

(** The loop over the configured checks. *)
Fixpoint valid_checks (policy : Policy) (i : nat) (checks : list Check) : GoError + list Check :=
  match checks with
  | [] => inr []
  | c :: checks =>
      match NormalizeAndValidate unicode_ToLower (answers i) url_Parse policy true c with
      | inl err => inl (Wrapf "configured check is invalid" err)
      | inr check =>
          match valid_checks policy (S i) checks with
          | inl err => inl err
          | inr seed => inr (check :: seed)
          end
      end
  end.

(** The first sweep; no other goroutine runs yet. *)
Definition first_sweep (cfg : ServerConfig) (now : Time) (r : Runtime) : DB Runtime := fun w =>
  match SweepProbes (fun _ r => r) range_order (UTC now) (cfg_ProbeOfflineAfter cfg) (Some r) (Some w) with
  | ((_, Some err), _) => (inl (Wrapf "initial probe sweep failed" err), w)
  | ((_, None), r') => (inr (default r r'), w)
  end.

(** [main] up to [ListenAndServe]: the configuration and the handler's state. *)
Definition main (configPath : string) (now : Time) : DB (ServerConfig * (Runtime * Limiters)) :=
  cfg ← st_lift (fatal "load config failed" (LoadServer unmarshal (read configPath)));
  dbDSN ← st_lift (fatal "load database DSN failed" (ResolveDatabaseDSN getenv read));
  st_lift (fatal "open database failed" (connect dbDSN));;
  wrapping "seed probe credentials failed" (SeedProbes (probe_seeds cfg));;
  seedUserID ← seed_user cfg;
  seed ← st_lift (valid_checks (MkPolicy (cfg_AllowPrivateTargets cfg)) 0 (cfg_Checks cfg));
  wrapping "seed checks failed" (SeedChecks seed seedUserID);;
  monitoringRuntime ← wrapping "load monitoring runtime failed" (LoadRuntime probe_order quorum_order);
  monitoringRuntime ← first_sweep cfg now monitoringRuntime;
  let limit := cfg_AuthRateLimit cfg in
  mret (cfg, (monitoringRuntime, new_limiters (lim_Requests limit) (lim_Window limit))).

(** * Loops *)

Fixpoint probeSweepTicks (between : string -> Runtime -> Runtime) (meanwhile : Time -> Shared -> Shared)
    (offlineAfter : Duration) (ticks : list Time) (s : Shared) : Shared :=
  match ticks with
  | [] => s
  | now :: ticks =>
      let '(r, w) := meanwhile now s in
      let '(_, r') := SweepProbes between range_order (UTC now) offlineAfter (Some r) (Some w) in
      probeSweepTicks between meanwhile offlineAfter ticks (default r r', w)
  end.

Definition probeSweepLoop (between : string -> Runtime -> Runtime) (meanwhile : Time -> Shared -> Shared)
    (offlineAfter : Duration) (ticks : list Time) (s : Shared) : Shared :=
  let offlineAfter := if (offlineAfter <=? 0)%Z then DefaultProbeOfflineAfter else offlineAfter in
  probeSweepTicks between meanwhile offlineAfter ticks s.

Fixpoint checkSweepLoop (between : string * string -> Shared -> Shared) (meanwhile : Time -> Shared -> Shared)
    (ticks : list Time) (s : Shared) : Shared :=
  match ticks with
  | [] => s
  | now :: ticks =>
      let '(r, w) := meanwhile now s in
      let '(_, (r', w')) := SweepChecks between (UTC now) (Some r) (Some w) in
      checkSweepLoop between meanwhile ticks (default r r', default w w')
  end.
End start.
