(* ===== verification/StartupProperties.v ===== *)
(** The start of the process and its loops against the transition system of
    ServerProperties.v. *)

From S2P Require Import Prelude GoStrings GoNet ClientIP NetPolicy Checks Stateless Types Database StoreNotifications StoreMonitoring.
From S2P Require Import StoreChecks StoreProbes StoreInvariant StoreProperties StoreAuth AuthInvariant AuthProperties.
From S2P Require Import StoreFrame ProbeMachine CheckMachine QuorumMachine Runtime Results Ledger Heartbeat.
From S2P Require Import Sweepers SweepProperties Recovery StoreLedger ProbeProcessor AuthProcessor Onboarding.
From S2P Require Import ProbeIngest System RateLimiter Config StatusView Server Routes ServerInvariant ServerProperties Startup.

Section startup.
Context `{SLL : StatelessLaws} `{SEL : StoreEnvLaws} `{AE : AuthEnv} `{UL : UrlLib}.
Context (unmarshal : string -> GoError + ServerConfig) (getenv : string -> string)
        (read : string -> GoError + string) (connect : string -> GoError + unit)
        (answers : nat -> string -> GoError + list IP).
Context (probe_order : gmap string ProbeRuntimeState -> list string)
        (quorum_order range_order : string -> gmap string QuorumMachine -> list string).
Context (policy : Policy) (trusted : list Prefix) (login_clock signup_clock public_clock : nat -> Time).
Hypothesis probe_order_ok : forall m, range_of m (probe_order m).
Hypothesis quorum_order_ok : forall p m, range_of m (quorum_order p m).
Hypothesis range_order_ok : forall p m, range_of m (range_order p m).

Let step := system_step policy trusted login_clock signup_clock public_clock probe_order quorum_order.

(** A call before the process serves: steps of the system, and a database that is
    sound stays so. *)
Definition prepares {A} (m : DB A) : Prop := forall w,
  rtc step (Down w) (Down (m w).2) /\ (System_sound (Down w) -> System_sound (Down (m w).2)).

Lemma prepares_ret {A} (a : A) : prepares (mret a).
Proof. by intros w. Qed.
Lemma prepares_lift {A} (x : GoError + A) : prepares (st_lift x).
Proof. by intros w. Qed.
Lemma prepares_bind {A B} (m : DB A) (k : A -> DB B) : prepares m -> (forall a, prepares (k a)) -> prepares (m ≫= k).
Proof.
  intros Hm Hk w. specialize (Hm w). unfold mbind, St_bind. destruct (m w) as [[e|a] w1]; cbn [snd] in *; [done|].
  destruct Hm as [Hm Hs], (Hk a w1) as [Hk' Hs']. split; [by etransitivity|auto].
Qed.
Lemma prepares_wrapping {A} msg (m : DB A) : prepares m -> prepares (wrapping msg m).
Proof. intros Hm w. specialize (Hm w). unfold wrapping. by destruct (m w) as [[]]. Qed.
Lemma prepares_account {A} (m : DB A) op : (forall w, exec_auth op w = (m w).2) -> prepares m.
Proof.
  intros E w. rewrite <-E. split; [apply rtc_once; constructor|]. intros [Hinv Hacc].
  destruct (exec_auth_sound op w Hacc) as (Ha & Hf & _). split; [by apply (frame_inv w)|done].
Qed.
Lemma prepares_seed {A} (m : DB A) op : seeds op -> (forall w, exec_store op w = (m w).2) -> prepares m.
Proof.
  intros Hop E w. rewrite <-E. split; [apply rtc_once; by constructor|]. intros [Hinv Hacc].
  split; [apply inv_tidy; [by destruct op|done]|by apply store_accounts].
Qed.

Lemma prepares_seed_user cfg : prepares (seed_user cfg).
Proof.
  unfold seed_user. cbv zeta. case_match; [|apply prepares_ret].
  apply prepares_bind; [by apply prepares_wrapping, (prepares_account _ OpUserExists)|]. intros [].
  - apply prepares_bind; [|intros; apply prepares_ret].
    by eapply prepares_wrapping, (prepares_account _ (OpAuthenticateUser _ _)).
  - apply prepares_bind; [|intros; apply prepares_ret].
    by eapply prepares_wrapping, (prepares_account _ (OpCreateUser _ _ true)).
Qed.

(** * The probe sweep *)

(** A sweep that runs alone, from a runtime that is well formed. *)
Lemma sweep_probes_alone now after r (w : World) :
  runtime_wf r -> (0 < after)%Z ->
  exists n r', SweepProbes (fun _ r => r) range_order now after (Some r) (Some w) = ((n, None), Some r') /\
    runtime_wf r' /\ forall p, rt_probes r' !! p =
      (fun st => if heartbeat_expired now after st then ProbeMachine.set_State ProbeStateOffline st else st)
        <$> rt_probes r !! p.
Proof.
  intros Hwf Hpos. unfold SweepProbes, UTC. destruct (Z.leb_spec after 0); [lia|].
  assert (Hmem : forall p, p ∈ sorted_keys (rt_probes r) <-> is_Some (rt_probes r !! p)).
  { intros p. apply range_of_elem, sorted_keys_perm. }
  destruct (sweepProbes_effect range_order now after (sorted_keys (rt_probes r)) 0 r Hwf range_order_ok)
    as (r' & Hrun & Hwf' & Hps & _).
  { rewrite sorted_keys_perm. apply NoDup_fst_map_to_list. }
  { intros p. apply Hmem. }
  rewrite Hrun. eexists _, r'. split_and!; [done|done|]. intros p. rewrite Hps.
  destruct (rt_probes r !! p) eqn:Hp; [|done]. simpl. f_equal.
  rewrite bool_decide_eq_true_2; [done|]. apply Hmem. by rewrite Hp.
Qed.

(** No probe is left overdue. *)
Definition fresh (now : Time) (after : Duration) (r : Runtime) : Prop :=
  forall p st, rt_probes r !! p = Some st -> heartbeat_expired now after st = false.

Lemma swept_fresh now after r r' :
  (forall p, rt_probes r' !! p =
     (fun st => if heartbeat_expired now after st then ProbeMachine.set_State ProbeStateOffline st else st)
       <$> rt_probes r !! p) -> fresh now after r'.
Proof.
  intros Hp p st. rewrite Hp. destruct (rt_probes r !! p) as [st0|]; [|done]. simpl. intros [= <-].
  destruct (heartbeat_expired now after st0) eqn:E; [|done]. unfold heartbeat_expired. by destruct st0.
Qed.

(** * Start *)

(** [main] up to the first probe sweep: the configuration and the runtime loaded. *)
Definition until_sweep (configPath : string) : DB (ServerConfig * Runtime) :=
  cfg ← st_lift (fatal "load config failed" (LoadServer unmarshal (read configPath)));
  dbDSN ← st_lift (fatal "load database DSN failed" (ResolveDatabaseDSN getenv read));
  st_lift (fatal "open database failed" (connect dbDSN));;
  wrapping "seed probe credentials failed" (SeedProbes (probe_seeds cfg));;
  seedUserID ← seed_user cfg;
  seed ← st_lift (valid_checks answers (MkPolicy (cfg_AllowPrivateTargets cfg)) 0 (cfg_Checks cfg));
  wrapping "seed checks failed" (SeedChecks seed seedUserID);;
  r ← wrapping "load monitoring runtime failed" (LoadRuntime probe_order quorum_order);
  mret (cfg, r).

(** The limiters [main] serves with. *)
Definition main_limiters (cfg : ServerConfig) : Limiters :=
  new_limiters (lim_Requests (cfg_AuthRateLimit cfg)) (lim_Window (cfg_AuthRateLimit cfg)).

(** The outcome of [until_sweep] from [w]: stopped, or with the loaded runtime in
    agreement with the database and the configured time positive. *)
Definition prepared (w : World) (out : (GoError + ServerConfig * Runtime) * World) : Prop :=
  match out with
  | (inl _, w') => rtc step (Down w) (Down w') /\ System_sound (Down w')
  | (inr (cfg, r0), w') =>
      rtc step (Down w) (Up (MkServer (r0, w') (main_limiters cfg))) /\ healthy (r0, w') /\
      (0 < cfg_ProbeOfflineAfter cfg)%Z
  end.

Lemma prepared_trans w w1 out : rtc step (Down w) (Down w1) -> prepared w1 out -> prepared w out.
Proof.
  intros Hs. destruct out as [[e|[cfg r]] w']; simpl; intros [Hr Hx]; (split; [by etransitivity|done]).
Qed.

(** A call that prepares, and then the rest. *)
Lemma prepared_bind {A} (m : DB A) k w :
  prepares m -> System_sound (Down w) ->
  (forall a w1, m w = (inr a, w1) -> System_sound (Down w1) -> prepared w1 (k a w1)) ->
  prepared w ((m ≫= k) w).
Proof.
  intros Hm Hw Hk. destruct (Hm w) as [Hs Hx]. unfold mbind, St_bind.
  destruct (m w) as [[e|a] w1]; cbn [snd] in *; [split; auto|].
  apply (prepared_trans w w1); [done|]. apply Hk; [done|auto].
Qed.

Lemma load_prepared cfg w :
  (0 < cfg_ProbeOfflineAfter cfg)%Z -> System_sound (Down w) ->
  prepared w
    ((r ← wrapping "load monitoring runtime failed" (LoadRuntime probe_order quorum_order); mret (cfg, r)) w).
Proof.
  intros Hpos [Hinv Hacc]. set (limit := cfg_AuthRateLimit cfg).
  pose proof (step_start policy trusted login_clock signup_clock public_clock probe_order quorum_order
    (lim_Requests limit) (lim_Window limit) w) as Hstep.
  pose proof (start_sound probe_order quorum_order probe_order_ok quorum_order_ok
    (lim_Requests limit) (lim_Window limit) w Hinv Hacc) as Hsound.
  unfold mbind, St_bind, wrapping.
  destruct (LoadRuntime probe_order quorum_order w) as [[e|r0] w1]; (split; [by apply rtc_once|done]).
Qed.

Lemma loaded_offline file cfg : LoadServer unmarshal file = inr cfg -> (0 < cfg_ProbeOfflineAfter cfg)%Z.
Proof.
  unfold LoadServer. destruct file as [e|data]; [done|]. destruct (unmarshal data); [done|].
  destruct (check_probes _ _ _); [done|]. destruct (parse_proxies _ _); [done|]. intros [= <-]. simpl.
  unfold or_default. case_match; [done|lia].
Qed.

Lemma until_sweep_prepared configPath w :
  System_sound (Down w) -> prepared w (until_sweep configPath w).
Proof.
  intros Hw. unfold until_sweep.
  apply prepared_bind; [apply prepares_lift|done|]. intros cfg w1 Hcfg H1.
  apply prepared_bind; [apply prepares_lift|done|]. intros dsn w2 _ H2.
  apply prepared_bind; [apply prepares_lift|done|]. intros [] w3 _ H3.
  apply prepared_bind; [by apply prepares_wrapping, (prepares_seed _ (OpSeedProbes (probe_seeds cfg)))|done|].
  intros [] w4 _ H4.
  apply prepared_bind; [apply prepares_seed_user|done|]. intros u w5 _ H5.
  apply prepared_bind; [apply prepares_lift|done|]. intros seed w6 _ H6.
  apply prepared_bind; [by apply prepares_wrapping, (prepares_seed _ (OpSeedChecks seed u))|done|].
  intros [] w7 _ H7. apply load_prepared; [|done].
  unfold st_lift, fatal in Hcfg. destruct (LoadServer unmarshal (read configPath)) eqn:E; [done|].
  injection Hcfg as -> _. by eapply loaded_offline.
Qed.

Lemma bind_assoc {A B C} (m : DB A) (k : A -> DB B) (h : B -> DB C) w :
  ((m ≫= k) ≫= h) w = (m ≫= (fun a => k a ≫= h)) w.
Proof. unfold mbind, St_bind. by destruct (m w) as [[]]. Qed.

Lemma bind_ext {A B} (m : DB A) (k h : A -> DB B) w :
  (forall a w, k a w = h a w) -> (m ≫= k) w = (m ≫= h) w.
Proof. intros E. unfold mbind, St_bind. destruct (m w) as [[]]; [done|apply E]. Qed.

(** [main] is its part before the sweep, the sweep, and the limiters. *)
Lemma main_until_sweep configPath now w :
  main unmarshal getenv read connect answers probe_order quorum_order range_order configPath now w =
  (x ← until_sweep configPath;
   r ← first_sweep range_order x.1 now x.2; mret (x.1, (r, main_limiters x.1))) w.
Proof.
  unfold main, until_sweep. symmetry.
  repeat (rewrite bind_assoc; apply bind_ext; intros ? ?). done.
Qed.

(** C38. Starting the server is a run of the system.  From a sound database and
    whatever the configuration, the environment and the resolver say: if what
    [main] does before its probe sweep fails, [main] gives up with that error, and
    has only taken steps of the system that leave it stopped, with the database
    and the accounts sound.  Otherwise these steps led to a serving state in which
    the loaded runtime and the database agree; the sweep of that runtime succeeds,
    and [main] serves exactly its result: a well-formed runtime whose probes are
    those loaded, the overdue ones offline, so that none is overdue, and where the
    sweep opened and closed no incident, in agreement with the database. *)
Theorem startup_refines_system configPath now w :
  System_sound (Down w) ->
  let started := main unmarshal getenv read connect answers probe_order quorum_order range_order configPath now w in
  match until_sweep configPath w with
  | (inl e, w') => started = (inl e, w') /\ rtc step (Down w) (Down w') /\ System_sound (Down w')
  | (inr (cfg, r0), w') =>
      rtc step (Down w) (Up (MkServer (r0, w') (main_limiters cfg))) /\ healthy (r0, w') /\
      exists n r,
        SweepProbes (fun _ r => r) range_order (UTC now) (cfg_ProbeOfflineAfter cfg) (Some r0) (Some w') =
          ((n, None), Some r) /\
        started = (inr (cfg, (r, main_limiters cfg)), w') /\
        runtime_wf r /\ fresh now (cfg_ProbeOfflineAfter cfg) r /\
        (forall p, rt_probes r !! p =
           (fun st => if heartbeat_expired now (cfg_ProbeOfflineAfter cfg) st
                      then ProbeMachine.set_State ProbeStateOffline st else st) <$> rt_probes r0 !! p) /\
        ((forall c, runtime_open r c = runtime_open r0 c) ->
         forall c, active_check (w_tables w') c = true -> runtime_open r c = open_incident c (w_tables w'))
  end.
Proof.
  intros Hw. cbv zeta. rewrite main_until_sweep. pose proof (until_sweep_prepared configPath w Hw) as Hp.
  unfold mbind, St_bind. destruct (until_sweep configPath w) as [[e|[cfg r0]] w']; [by split|].
  destruct Hp as (Hr & Hh & Hpos). split; [done|]. split; [done|]. cbn [fst snd].
  pose proof Hh as ((Hwf & _ & _ & Hag) & _ & _). unfold first_sweep.
  destruct (sweep_probes_alone (UTC now) (cfg_ProbeOfflineAfter cfg) r0 w' Hwf Hpos) as (n & r & Hs & Hwfr & Hps).
  rewrite Hs. exists n, r. split_and!; [done|done|done|by eapply swept_fresh|exact Hps|].
  intros Hf c Hc. rewrite Hf. by apply Hag.
Qed.

(** * Loops *)

(** Other goroutines, as seen by a loop: they take steps of the system. *)
Definition others (f : Shared -> Shared) : Prop :=
  forall s l, rtc step (Up (MkServer s l)) (Up (MkServer (f s) l)).

Lemma sweep_checks_steps between now l : forall (assignments : list (string * string)) n s,
  (forall a, others (between a)) ->
  rtc step (Up (MkServer s l)) (Up (MkServer (sweepChecks between now assignments n s).2 l)).
Proof.
  induction assignments as [|[c p] assignments IH]; intros n s Hb; simpl; [done|].
  etransitivity; [apply (Hb (c, p))|].
  pose proof (step_sweep_check policy trusted login_clock signup_clock public_clock probe_order quorum_order
    now c p (between (c, p) s) l) as Hs. apply rtc_once in Hs.
  destruct (sweepCheck now c p (between (c, p) s)) as [[e|hit] s']; [done|].
  etransitivity; [exact Hs|by apply IH].
Qed.

Lemma probe_ticks_fresh meanwhile after ticks now s :
  (forall t s, runtime_wf s.1 -> runtime_wf (meanwhile t s).1) -> (0 < after)%Z -> runtime_wf s.1 ->
  let s' := probeSweepTicks range_order (fun _ r => r) meanwhile after (ticks ++ [now]) s in
  runtime_wf s'.1 /\ fresh now after s'.1.
Proof.
  intros Hm Hpos. revert s. induction ticks as [|t ticks IH]; intros s Hwf; cbn [app probeSweepTicks].
  - specialize (Hm now s Hwf). destruct (meanwhile now s) as [r w].
    destruct (sweep_probes_alone (UTC now) after r w Hm Hpos) as (n & r' & -> & Hwf' & Hp).
    split; [done|]. by eapply swept_fresh.
  - specialize (Hm t s Hwf). destruct (meanwhile t s) as [r w].
    destruct (sweep_probes_alone (UTC t) after r w Hm Hpos) as (n & r' & -> & Hwf' & _). by apply IH.
Qed.

(** The background loops do their work, tick after tick.  However often the
    evidence loop ticks and whichever of its calls fail, if the rest of the
    process takes only steps of the system, the loop as a whole is a run of the
    system; and the probe loop, with the default where the configured time is not
    positive, leaves after every tick a well-formed runtime with no probe whose
    heartbeat is overdue at that tick. *)
Lemma sweep_loops_do_their_work between meanwhile ticks now after s l :
  (forall a, others (between a)) -> (forall t, others (meanwhile t)) ->
  (forall t s, runtime_wf s.1 -> runtime_wf (meanwhile t s).1) -> runtime_wf s.1 ->
  rtc step (Up (MkServer s l)) (Up (MkServer (checkSweepLoop between meanwhile ticks s) l)) /\
  let s' := probeSweepLoop range_order (fun _ r => r) meanwhile after (ticks ++ [now]) s in
  runtime_wf s'.1 /\ fresh now (if (after <=? 0)%Z then DefaultProbeOfflineAfter else after) s'.1.
Proof.
  intros Hb Hm Hmw Hwf. split.
  - clear Hwf. revert s. induction ticks as [|t ticks IH]; intros s; simpl; [done|].
    etransitivity; [apply (Hm t)|]. destruct (meanwhile t s) as [r w].
    pose proof (sweep_checks_steps between (UTC t) l
      (merge_sort assignment_le (stale_assignments (UTC t) r)) 0 (r, w) Hb) as Hs.
    destruct (sweepChecks _ _ _ _ _) as [res [r' w']]. etransitivity; [exact Hs|apply IH].
  - apply probe_ticks_fresh; [done| |done]. case_match; [done|lia].
Qed.
End startup.
