(* ===== verification/ProbeSafety.v ===== *)
(** What the server may tell a probe to run.  A worker's ticker panics on an
    interval that is not positive, and a panic ends the whole probe; here: no
    request, seed, sweep or delivery puts such an interval into the database. *)

From S2P Require Import Prelude GoStrings GoNet ClientIP NetPolicy Checks Stateless Types Database StoreNotifications StoreMonitoring.
From S2P Require Import StoreChecks StoreProbes StoreInvariant StoreProperties StoreAuth AuthInvariant AuthProperties.
From S2P Require Import StoreFrame ProbeMachine CheckMachine QuorumMachine Runtime Results Ledger Heartbeat.
From S2P Require Import Sweepers SweepProperties Recovery StoreLedger ProbeProcessor AuthProcessor Onboarding.
From S2P Require Import ProbeIngest System RateLimiter Config StatusView Server Routes ServerInvariant WorldInvariant ServerProperties.
From S2P Require Import Batcher Scheduler Executors ProbeClient ProbeServer Startup.

(** * The store *)

Definition timed (t : Tables) : Prop := map_Forall (fun _ row => in_range (c_interval_seconds row)) (t_checks t).
Definition keeps_timed : relation Tables := fun t t' => timed t -> timed t'.

#[global] Instance keeps_timed_preorder : PreOrder keeps_timed.
Proof. unfold keeps_timed. split; [by intros t ?|]. intros t1 t2 t3. auto. Qed.

Lemma timed_same t t' : t_checks t' = t_checks t -> keeps_timed t t'.
Proof. intros E. unfold keeps_timed, timed. by rewrite E. Qed.

Lemma timed_update t f g :
  (forall row, in_range (c_interval_seconds row) -> in_range (c_interval_seconds (g row))) ->
  keeps_timed t (set_t_checks (update_where f g (t_checks t)) t).
Proof.
  intros Hg Ht k row. simpl. rewrite lookup_update_where_Some. intros (old & Hl & ->). specialize (Ht k old Hl).
  cbv beta in Ht. case_match; auto.
Qed.

Section store.
Context `{SEL : StoreEnvLaws}.

Lemma timed_insert_check c user conflict :
  in_range (ck_Interval c) -> respects keeps_timed conflict -> respects keeps_timed (insert_check c user conflict).
Proof.
  intros Hc Hconf. unfold insert_check. frame. destruct (_ || _); [apply Hconf|].
  intros Ht. apply map_Forall_insert_2; [exact Hc|exact Ht].
Qed.

Lemma timed_delete name user : respects keeps_timed (DeleteCheck name user).
Proof.
  unfold DeleteCheck, supersede_all, resolve_all, delete_states, mark_deleted. frame; simpl;
    try (by apply timed_same). by apply timed_update.
Qed.

Lemma timed_store op w : timed_op op -> keeps_timed (w_tables w) (w_tables (exec_store op w)).
Proof.
  destruct op; simpl; intros Hop.
  - apply timed_same, checks_batch.
  - apply (respects_bind keeps_timed); [intros w0; apply timed_same, checks_batch|frame].
  - apply (respects_call keeps_timed). frame. cbv zeta. destruct (negb _); [reflexivity|]. by apply timed_same.
  - apply (respects_call keeps_timed). frame. by apply timed_same.
  - apply (respects_call keeps_timed). frame. by apply timed_same.
  - revert w. induction Hop as [|c cs Hc _ IH]; intros w; [reflexivity|]. unfold SeedChecks. cbn [st_for].
    revert w. apply (respects_bind keeps_timed); [|intros _; exact IH].
    frame. apply timed_insert_check; [done|frame].
  - apply (respects_bind keeps_timed); frame. apply timed_insert_check; [done|frame].
  - unfold UpdateCheck. apply (respects_call keeps_timed). frame. by apply timed_update.
  - apply timed_delete.
  - apply timed_same. exact (f_equal t_checks (probes_store (OpSeedProbes probes) w I)).
  - apply timed_same. exact (f_equal t_checks (probes_store (OpCreateProbe requestedProbeID) w I)).
  - apply timed_same. exact (f_equal t_checks (probes_store (OpRegisterProbe probeID version) w I)).
Qed.
End store.

(** The intervals in a database with sound accounts. *)
Definition timed_world (w : World) : Prop := accounts w /\ timed (w_tables w).

#[global] Instance timed_preserved `{SEL : StoreEnvLaws} : Preserved timed_world.
Proof.
  split.
  - by intros w [].
  - intros w w' [T Q]. unfold timed_world, accounts. by rewrite T, Q.
  - intros w w' Ha Hf [_ Ht]. split; [done|]. apply (timed_same (w_tables w)); [apply Hf|done].
  - intros op w Hop [Ha Ht]. split; [by apply store_accounts|by apply (timed_store op w)].
Qed.

(** * The system *)

(** A check that passed validation. *)
Definition validated (c : Check) : Prop :=
  exists unicode_lower lookup parse_url policy requireName input,
    NormalizeAndValidate unicode_lower lookup parse_url policy requireName input = inr c.

Lemma validated_in_range c : validated c -> in_range (ck_Interval c).
Proof. intros (? & ? & ? & ? & ? & ? & Hc). by eapply accepted_interval. Qed.

(** The checks [main] seeds have passed it. *)
Lemma seeds_validated `{AuthEnv} `{UrlLib} answers policy checks : forall i seed,
  valid_checks answers policy i checks = inr seed -> Forall validated seed.
Proof.
  induction checks as [|c checks IH]; intros i seed; cbn [valid_checks]; [by intros [= <-]|].
  destruct (NormalizeAndValidate _ _ _ _ _ _) as [e|check] eqn:E; [done|].
  destruct (valid_checks _ _ _ _) as [e|rest] eqn:Er; [done|]. intros [= <-]. constructor; [|by eapply IH].
  unfold validated. eauto 10.
Qed.

Section system.
Context `{SLL : StatelessLaws} `{SEL : StoreEnvLaws} `{AE : AuthEnv} `{UL : UrlLib}.
Context (policy : Policy) (trusted : list Prefix) (login_clock signup_clock public_clock : nat -> Time).
Context (probe_order : gmap string ProbeRuntimeState -> list string)
        (quorum_order : string -> gmap string QuorumMachine -> list string).

(** The server's steps, where the checks it seeds have passed validation; a probe
    sweep may open and close incidents, and any database call may fail. *)
Inductive server_step : System -> System -> Prop :=
| server_seed_checks cs user w :
    Forall validated cs -> server_step (Down w) (Down (exec_store (OpSeedChecks cs user) w))
| server_seed_probes probes w : server_step (Down w) (Down (exec_store (OpSeedProbes probes) w))
| server_account op w : server_step (Down w) (Down (exec_auth op w))
| server_start requests window w :
    server_step (Down w) (match LoadRuntime probe_order quorum_order w with
                          | (inl _, w') => Down w'
                          | (inr r, w') => Up (MkServer (r, w') (new_limiters requests window))
                          end)
| server_request req s :
    server_step (Up s) (Up (Routes policy trusted login_clock signup_clock public_clock req s).2)
| server_sweep_check now c p sh l :
    server_step (Up (MkServer sh l)) (Up (MkServer (sweepCheck now c p sh).2 l))
| server_sweep_probe order now after p r w l :
    server_step (Up (MkServer (r, w) l)) (Up (MkServer ((sweepProbe order now after p r).2, w) l))
| server_deliver op r w l :
    delivers op -> server_step (Up (MkServer (r, w) l)) (Up (MkServer (r, exec_store op w) l))
| server_stop s : server_step (Up s) (Down (sv_shared s).2).

Lemma server_step_timed x y : server_step x y -> timed_world (world_of x) -> timed_world (world_of y).
Proof.
  intros Hs Hx. destruct Hs as [cs user w Hcs|probes w|op w|requests window w|req s|now c p sh l| |op r w l Hop|s];
    cbn [world_of] in *.
  - apply (pv_store (OpSeedChecks cs user) w); [|done]. simpl.
    eapply list.Forall_impl; [exact Hcs|exact validated_in_range].
  - by apply (pv_store (OpSeedProbes probes) w I).
  - destruct (exec_auth_sound op w (proj1 Hx)) as (Ha & Hf & _). by apply (pv_auth (P := timed_world) w).
  - apply (pv_same (P := timed_world) w _ (load_reads probe_order quorum_order w)) in Hx.
    by destruct (LoadRuntime probe_order quorum_order w) as [[e|r] w'].
  - exact (routes_keep_world timed_world policy trusted login_clock signup_clock public_clock req s Hx).
  - exact (sweep_check_keeps_world timed_world now c p sh Hx).
  - done.
  - apply (pv_store op w); [by destruct op|done].
  - done.
Qed.

Lemma server_timed x : rtc server_step (Down empty_world) x -> timed_world (world_of x).
Proof.
  intros Hr. assert (Hg : forall y, rtc server_step y x -> timed_world (world_of y) -> timed_world (world_of x)).
  { clear Hr. induction 1 as [|y z x Hs _ IH]; [done|]. intros Hy. by eapply IH, server_step_timed. }
  apply (Hg (Down empty_world)); [done|]. split; [apply empty_accounts|apply map_Forall_empty].
Qed.

(** C28. Nothing the server's users do crashes a probe.  A worker's ticker panics, and
    with it the probe and all its workers, if the check's interval is not positive or
    overflows.  In every state the server reaches from an empty database, through
    validated seeds, accounts, starts and stops, any HTTP requests, any steps of both
    sweeps and deliveries, with any database calls failing in any way, every check
    that a probe is told to run has a period of one second to one day, so its
    worker, whatever its runs meet, goes on until it is cancelled. *)
Theorem probes_are_not_crashed x id check :
  rtc server_step (Down empty_world) x ->
  wanted (w_tables (world_of x)) id = Some check ->
  (exists d, ticker_period (pc_Interval check) = Some d /\ (Second <= d <= 24 * Hour)%Z) /\
  forall run meanwhile ticks sink, is_Some (startRuntimeWorker run meanwhile check ticks sink).
Proof.
  intros Hr Hw. pose proof (server_timed x Hr) as [_ Ht]. unfold wanted in Hw.
  destruct (t_checks _ !! id) as [row|] eqn:Hl; [|done]. destruct (is_active row); [|done]. injection Hw as <-.
  specialize (Ht id row Hl). cbv beta in Ht. unfold in_range, MaxInterval in Ht.
  assert (Hd : exists d, ticker_period (c_interval_seconds row) = Some d /\ (Second <= d <= 24 * Hour)%Z).
  { unfold ticker_period. rewrite wrap64_id by (unfold Second; lia).
    destruct (Z.leb_spec (c_interval_seconds row * Second) 0); [unfold Second in *; lia|].
    eexists. split; [done|]. unfold Hour, Minute, Second in *. lia. }
  split; [exact Hd|]. destruct Hd as (d & Hd & _). intros run meanwhile ticks sink.
  unfold startRuntimeWorker. cbn [pc_Interval probe_check scanCheck ck_Interval]. rewrite Hd. by eexists.
Qed.
End system.
