(* ===== verification/ServerExamples.v ===== *)
(** A run of the whole server: seeded, started, logged in to, told of an outage by
    two probes, and asked for its status page. *)

From S2P Require Import Prelude GoStrings GoTime GoNet ClientIP NetPolicy Checks Stateless Types Database StoreNotifications StoreMonitoring.
From S2P Require Import StoreChecks StoreProbes StoreInvariant StoreProperties StoreAuth AuthInvariant AuthProperties.
From S2P Require Import ProbeMachine CheckMachine QuorumMachine Runtime Results Ledger Heartbeat Sweepers SweepProperties.
From S2P Require Import Recovery StoreLedger ProbeProcessor AuthProcessor Onboarding AuthExamples ProbeIngest System.
From S2P Require Import RateLimiter Config StatusView Server Routes ServerInvariant ServerProperties StatusProperties.
From S2P Require Import Startup StartupProperties.

#[local] Instance ex_urls : UrlLib := ex_url.
#[local] Existing Instances ex_auth_store ex_auth ex_auth_store_laws ex_auth_laws table_Fire table_Fire_laws.

Definition ex_clock (n : nat) : Time := Z.of_nat n.
Definition ex_probe_order (m : gmap string ProbeRuntimeState) : list string := (map_to_list m).*1.
Definition ex_quorum_order (_ : string) (m : gmap string QuorumMachine) : list string := (map_to_list m).*1.

Lemma ex_orders : (forall m, range_of m (ex_probe_order m)) /\ (forall p m, range_of m (ex_quorum_order p m)).
Proof. split; unfold range_of; reflexivity. Qed.

Definition ex_seed_probes : StoreOp :=
  OpSeedProbes [MkProbeSeed "a" "sa"; MkProbeSeed "b" "sb"; MkProbeSeed "c" "sc"].
Definition ex_seed_user : AuthOp := OpCreateUser "ada@example.org" "secret" true.
Definition ex_seed_checks : StoreOp := OpSeedChecks [ex_check] 1.

Definition ex_with_probes : World := exec_store ex_seed_probes empty_world.
Definition ex_with_user : World := exec_auth ex_seed_user ex_with_probes.
Definition ex_seeded : World := exec_store ex_seed_checks ex_with_user.

Definition ex_started : System :=
  match LoadRuntime ex_probe_order ex_quorum_order ex_seeded with
  | (inl _, w') => Down w'
  | (inr r, w') => Up (MkServer (r, w') (new_limiters 10 Minute))
  end.

Definition ex_serve : HttpRequest -> Server -> Response * Server := Routes (MkPolicy false) ex_loopback ex_clock ex_clock ex_clock.
Definition ex_answer (x : System) (req : HttpRequest) : option Response :=
  match x with Up s => Some (ex_serve req s).1 | Down _ => None end.
Definition ex_step (x : System) (req : HttpRequest) : System :=
  match x with Up s => Up (ex_serve req s).2 | Down w => Down w end.

Definition ex_login : HttpRequest := PostLogin (MkPeer "192.0.2.1:4000" [] []) (BodyValue (MkLoginRequest "ada@example.org" "secret") RestEOF).
Definition ex_token : string :=
  match ex_answer ex_started ex_login with
  | Some (MkResponse _ (TokenJSON token _)) => token
  | _ => ""
  end.
Definition ex_check_key : string := default "" (head (map_to_list (t_checks (w_tables ex_seeded))).*1).

Definition ex_report (p secret : string) (up : bool) (now : Time) : HttpRequest :=
  PostResults p secret now
    (BodyValue [MkCheckResult ex_check_key "" p "" "" up 0 (if up then "" else "timeout") now] RestEOF).

(** A heartbeat, two rounds up from all, then three rounds down from a and b. *)
Definition ex_reports : list HttpRequest :=
  [PostProbeHeartbeat "a" "sa" 5 BodyNil; ex_report "a" "sa" true 10; ex_report "b" "sb" true 11; ex_report "c" "sc" true 12;
   ex_report "a" "sa" true 20; ex_report "b" "sb" true 21; ex_report "c" "sc" true 22;
   ex_report "a" "sa" false 30; ex_report "b" "sb" false 31;
   ex_report "a" "sa" false 40; ex_report "b" "sb" false 41; ex_report "a" "sa" false 50].

Definition ex_served : System := fold_left ex_step (ex_login :: ex_reports) ex_started.
Definition ex_status : option Response := ex_answer ex_served (GetStatus ("Bearer " +:+ ex_token)).

Definition ex_flag (x : System) : option (bool * bool) :=
  match x with
  | Up (MkServer (r, w) _) => Some (runtime_open r ex_check_key, open_incident ex_check_key (w_tables w))
  | Down _ => None
  end.

Lemma ex_steps reqs x :
  rtc (system_step (MkPolicy false) ex_loopback ex_clock ex_clock ex_clock ex_probe_order ex_quorum_order) x (fold_left ex_step reqs x).
Proof.
  revert x. induction reqs as [|req reqs IH]; intros x; [constructor|]. simpl.
  etransitivity; [|apply IH]. destruct x as [w|s]; [constructor|]. apply rtc_once. apply step_request.
Qed.

Lemma ex_reached :
  rtc (system_step (MkPolicy false) ex_loopback ex_clock ex_clock ex_clock ex_probe_order ex_quorum_order) (Down empty_world) ex_served.
Proof.
  transitivity ex_started.
  - apply (rtc_l _ _ (Down ex_with_probes)); [exact (step_seed _ _ _ _ _ _ _ ex_seed_probes empty_world I)|].
    apply (rtc_l _ _ (Down ex_with_user)); [exact (step_account _ _ _ _ _ _ _ ex_seed_user ex_with_probes)|].
    apply (rtc_l _ _ (Down ex_seeded)); [exact (step_seed _ _ _ _ _ _ _ ex_seed_checks ex_with_user I)|].
    apply rtc_once. exact (step_start _ _ _ _ _ _ _ 10 Minute ex_seeded).
  - exact (ex_steps (ex_login :: ex_reports) ex_started).
Qed.

(** No call of the example's database loses its acknowledgement. *)
Lemma ex_acknowledged : acknowledged.
Proof. intros n msg. discriminate. Qed.

(** The outage is open in the runtime and in the database. *)
Lemma server_stays_in_agreement_witness :
  (db_wf (world_of ex_served) /\ accounts (world_of ex_served) /\
   match ex_served with
   | Down _ => True
   | Up (MkServer (r, w) _) => runtime_wf r /\
       forall c, active_check (w_tables w) c = true -> runtime_open r c = open_incident c (w_tables w)
   end) /\ ex_flag ex_served = Some (true, true).
Proof.
  split; [|vm_compute; reflexivity].
  pose proof (server_stays_in_agreement (MkPolicy false) ex_loopback ex_clock ex_clock ex_clock ex_probe_order ex_quorum_order
    (proj1 ex_orders) (proj2 ex_orders) ex_served ex_reached) as Hs.
  revert Hs. generalize ex_served. intros x (Hdb & Hacc & Hag).
  split; [exact Hdb|]. split; [exact Hacc|]. apply Hag, ex_acknowledged.
Defined.

Definition ex_user : User := MkUser 1 "ada@example.org" "" "" true 0.

(** The rows of the page, if it is served. *)
Definition ex_page (x : System) : option (list (string * string * bool)) :=
  match x with
  | Up (MkServer s _) =>
      match (handleStatus ex_user s).1 with
      | MkResponse 200 (StatusJSON checks _) =>
          Some ((fun d => (sc_CheckID d, sc_Status d, bool_decide (is_Some (sc_IncidentSince d)))) <$> checks)
      | _ => None
      end
  | Down _ => None
  end.

Lemma ex_page_inv x l : ex_page x = Some l ->
  exists r w lim checks probes s', x = Up (MkServer (r, w) lim) /\
    handleStatus ex_user (r, w) = (MkResponse 200 (StatusJSON checks probes), s') /\
    l = (fun d => (sc_CheckID d, sc_Status d, bool_decide (is_Some (sc_IncidentSince d)))) <$> checks.
Proof.
  destruct x as [w|[[r w] lim]]; [done|]. unfold ex_page.
  destruct (handleStatus ex_user (r, w)) as [[st body] s'] eqn:Hrun. simpl.
  repeat (case_match; try done). intros [= <-]. subst. by eexists _, _, _, _, _, _.
Qed.

(** The page of the run shows the check down with its incident. *)
Lemma status_page_tells_truth_witness :
  ex_page ex_served = Some [(ex_check_key, QuorumStateDown, true)] /\
  exists r w lim checks probes s', ex_served = Up (MkServer (r, w) lim) /\
    handleStatus ex_user (r, w) = (MkResponse 200 (StatusJSON checks probes), s') /\
    same_db w s'.2 /\ NoDup (sc_CheckID <$> checks) /\
    forall d, d ∈ checks -> sc_Status d = public_state r (sc_CheckID d) /\
      (is_Some (sc_IncidentSince d) <-> runtime_open r (sc_CheckID d) = true).
Proof.
  assert (Hp : ex_page ex_served = Some [(ex_check_key, QuorumStateDown, true)]) by (vm_compute; reflexivity).
  split; [exact Hp|]. destruct (ex_page_inv _ _ Hp) as (r & w & lim & checks & probes & s' & E & Hrun & _).
  exists r, w, lim, checks, probes, s'. split; [exact E|]. split; [exact Hrun|].
  assert (Hh : System_sound ex_served).
  { apply (steps_sound (MkPolicy false) ex_loopback ex_clock ex_clock ex_clock ex_probe_order ex_quorum_order) with (x := Down empty_world);
      [intros n msg; discriminate|intros m; unfold range_of; reflexivity|intros p m; unfold range_of; reflexivity|exact ex_reached|apply empty_sound]. }
  rewrite E in Hh. destruct (status_page_tells_truth ex_user r w checks probes s' Hh Hrun)
    as (_ & H2 & _ & H4 & H5).
  split; [exact H2|]. split; [exact H4|]. intros d Hd. destruct (H5 d Hd) as (_ & H6 & H7 & _). exact (conj H6 H7).
Defined.

(** * A start *)

Definition ex_yaml (data : string) : GoError + ServerConfig :=
  inr (MkServerConfig [MkProbeAuth "a" "sa"; MkProbeAuth "b" "sb"] [ex_definition]
    (MkSeedUser "ada@example.org" "secret") false (MkRateLimit 0 0) None 0 []).
Definition ex_getenv (name : string) : string := if name == EnvDatabaseDSN then "postgres://db" else "".
Definition ex_read (path : string) : GoError + string :=
  if path == "server.yaml" then inr "" else inl (Errorf "no such file").
Definition ex_main (path : string) : DB (ServerConfig * (Runtime * Limiters)) :=
  main ex_yaml ex_getenv ex_read (fun _ => inr tt) (fun _ => ex_dns) ex_probe_order ex_quorum_order ex_quorum_order
    path 5.

Definition ex_until (path : string) : DB (ServerConfig * Runtime) :=
  until_sweep ex_yaml ex_getenv ex_read (fun _ => inr tt) (fun _ => ex_dns) ex_probe_order ex_quorum_order path.

(** With a file the process serves what its sweep makes of the loaded runtime,
    without one it stops. *)
Lemma startup_refines_system_witness :
  (exists cfg r0 n r w', ex_until "server.yaml" empty_world = (inr (cfg, r0), w') /\ healthy (r0, w') /\
     SweepProbes (fun _ r => r) ex_quorum_order 5 (cfg_ProbeOfflineAfter cfg) (Some r0) (Some w') = ((n, None), Some r) /\
     ex_main "server.yaml" empty_world = (inr (cfg, (r, main_limiters cfg)), w')) /\
  exists e w', ex_main "other.yaml" empty_world = (inl e, w') /\ System_sound (Down w').
Proof.
  pose proof (fun path => startup_refines_system ex_yaml ex_getenv ex_read (fun _ => inr tt) (fun _ => ex_dns)
    ex_probe_order ex_quorum_order ex_quorum_order (MkPolicy false) ex_loopback ex_clock ex_clock ex_clock
    (proj1 ex_orders) (proj2 ex_orders) (proj2 ex_orders) path 5 empty_world empty_sound) as Hs.
  cbv zeta in Hs. split.
  - specialize (Hs "server.yaml"). change (until_sweep _ _ _ _ _ _ _ "server.yaml") with (ex_until "server.yaml") in Hs.
    assert (E : match ex_until "server.yaml" empty_world with (inr _, _) => true | (inl _, _) => false end = true)
      by (vm_compute; reflexivity).
    destruct (ex_until "server.yaml" empty_world) as [[e|[cfg r0]] w']; [discriminate E|].
    destruct Hs as (_ & Hh & n & r & Hsw & Hm & _). exists cfg, r0, n, r, w'.
    split; [reflexivity|]. split; [exact Hh|]. split; [exact Hsw|exact Hm].
  - specialize (Hs "other.yaml"). change (until_sweep _ _ _ _ _ _ _ "other.yaml") with (ex_until "other.yaml") in Hs.
    assert (E : match ex_until "other.yaml" empty_world with (inr _, _) => true | (inl _, _) => false end = false)
      by (vm_compute; reflexivity).
    destruct (ex_until "other.yaml" empty_world) as [[e|[cfg r0]] w']; [|discriminate E].
    destruct Hs as (Hm & _ & Hw'). exists e, w'. split; [exact Hm|exact Hw'].
Defined.

(** The loops beside a process that answers a health check before every tick. *)
Definition ex_health (s : Shared) : Shared := (reply (MkResponse 200 NoBody) s).2.

Lemma sweep_loops_do_their_work_run :
  runtime_wf (probeSweepLoop ex_quorum_order (fun _ r => r) (fun _ => ex_health) 0 [1; 2]%Z
    (NewRuntime [] [], empty_world)).1.
Proof.
  destruct ex_orders as [Hp Hq].
  assert (Ho : others ex_probe_order ex_quorum_order (MkPolicy false) ex_loopback ex_clock ex_clock ex_clock ex_health).
  { intros s l. apply rtc_once. exact (step_request _ _ _ _ _ _ _ GetHealthz (MkServer s l)). }
  assert (Hw : runtime_wf (NewRuntime [] [], empty_world).1) by apply NewRuntime_wf.
  exact (proj1 (proj2 (sweep_loops_do_their_work ex_probe_order ex_quorum_order ex_quorum_order (MkPolicy false) ex_loopback
    ex_clock ex_clock ex_clock Hq (fun _ => ex_health) (fun _ => ex_health) [1]%Z 2 0
    (NewRuntime [] [], empty_world) (new_limiters 10 Minute) (fun _ => Ho) (fun _ => Ho) (fun _ _ H => H) Hw))).
Qed.
