(* ===== verification/LogExamples.v ===== *)
(** A logged request to the server of ServerExamples.v. *)

From S2P Require Import Prelude GoStrings GoTime GoNet ClientIP NetPolicy Checks Stateless Types Database StoreNotifications StoreMonitoring.
From S2P Require Import StoreChecks StoreProbes StoreAuth Runtime Results Heartbeat Sweepers ProbeProcessor AuthProcessor AuthExamples System.
From S2P Require Import RateLimiter Config StatusView Server Routes ServerInvariant ServerProperties ServerExamples Logx RequestLog.

#[local] Instance ex_urls : UrlLib := ex_url.
#[local] Existing Instances ex_auth_store ex_auth ex_auth_store_laws ex_auth_laws table_Fire table_Fire_laws.

Definition ex_log_server : Server :=
  match ex_served with Up s => s | Down w => MkServer (NewRuntime [] [], w) (new_limiters 10 Minute) end.
Definition ex_logger : Logger := New (fun r => r) "wacht-server" "".
Definition ex_me : HttpRequest := GetMe ("Bearer " +:+ ex_token).

Definition ex_logged : string * statusRecorder * option LogRecord * Server :=
  serve_logged (MkPolicy false) ex_loopback ex_clock ex_clock ex_clock (fun _ => 70%Z) ex_logger
    " trace-7 " (inl (Errorf "no entropy")) "GET" "/api/auth/me" 3 ex_me ex_log_server.

(** The signed-in user's request is logged with the user's number. *)
Lemma access_log_tells_truth_witness :
  let '(id, rec, line, s') := ex_logged in
  (exists rs who,
     Routes (MkPolicy false) ex_loopback ex_clock ex_clock ex_clock ex_me ex_log_server = (rs, s') /\
     names ex_me (sv_shared ex_log_server).2 rs who) /\
  id = "trace-7" /\
  line = Some (MkLogRecord LevelInfo "request completed"
    [AttrString "service" "wacht-server"; AttrString "request_id" "trace-7"; AttrString "component" "http";
     AttrString "method" "GET"; AttrString "path" "/api/auth/me"; AttrInt "status" 200;
     AttrInt "duration_ms" 3; AttrInt "bytes" 70; AttrInt "user_id" 1]).
Proof.
  pose proof (access_log_tells_truth (MkPolicy false) ex_loopback ex_clock ex_clock ex_clock (fun _ => 70%Z) ex_logger
    " trace-7 " (inl (Errorf "no entropy")) "GET" "/api/auth/me" 3 ex_me ex_log_server
    ltac:(intros b Hb; discriminate Hb)) as Ht.
  fold ex_logged in Ht.
  assert (E : (ex_logged.1.1.1, ex_logged.1.2) = ("trace-7", Some (MkLogRecord LevelInfo "request completed"
    [AttrString "service" "wacht-server"; AttrString "request_id" "trace-7"; AttrString "component" "http";
     AttrString "method" "GET"; AttrString "path" "/api/auth/me"; AttrInt "status" 200;
     AttrInt "duration_ms" 3; AttrInt "bytes" 70; AttrInt "user_id" 1]))) by (vm_compute; reflexivity).
  destruct ex_logged as [[[id rec] line] s']. cbn [fst snd] in E. injection E as E1 E2.
  destruct Ht as (rs & who & Hr & _ & _ & _ & _ & Hn & _).
  split; [exists rs, who; split; [exact Hr|exact Hn]|]. split; [exact E1|exact E2].
Defined.
