(* ===== verification/ProbeExamples.v ===== *)
(** A probe at work against the server of ServerExamples.v: an upload, an upload
    that is too long, and a check sync. *)

From S2P Require Import Prelude GoStrings GoTime GoNet ClientIP NetPolicy Checks Stateless Types Database StoreNotifications StoreMonitoring.
From S2P Require Import StoreChecks StoreProbes StoreInvariant StoreProperties StoreAuth AuthInvariant AuthProperties.
From S2P Require Import ProbeMachine CheckMachine QuorumMachine Runtime Results Ledger Heartbeat Sweepers SweepProperties.
From S2P Require Import Recovery StoreLedger ProbeProcessor AuthProcessor Onboarding AuthExamples ProbeIngest System.
From S2P Require Import RateLimiter Config StatusView Server Routes ServerInvariant ServerProperties.
From S2P Require Import Batcher Scheduler ProbeClient ProbeServer ProbeStart Startup Executors ProbeSafety ServerExamples.

#[local] Instance ex_urls : UrlLib := ex_url.
#[local] Existing Instances ex_auth_store ex_auth ex_auth_store_laws ex_auth_laws table_Fire table_Fire_laws.

Definition ex_server : Server :=
  match ex_started with Up s => s | Down w => MkServer (NewRuntime [] [], w) (new_limiters 10 Minute) end.

Lemma ex_server_up : ex_started = Up ex_server.
Proof.
  assert (E : match ex_started with Up _ => true | Down _ => false end = true) by (vm_compute; reflexivity).
  unfold ex_server. destruct ex_started; [discriminate E|reflexivity].
Qed.

Lemma ex_server_healthy : healthy (sv_shared ex_server).
Proof.
  assert (Hs : System_sound ex_started).
  { apply (steps_sound (MkPolicy false) ex_loopback ex_clock ex_clock ex_clock ex_probe_order ex_quorum_order)
      with (x := Down empty_world); [exact ex_acknowledged|apply ex_orders|apply ex_orders| |apply empty_sound].
    apply (rtc_l _ _ (Down ex_with_probes)); [exact (step_seed _ _ _ _ _ _ _ ex_seed_probes empty_world I)|].
    apply (rtc_l _ _ (Down ex_with_user)); [exact (step_account _ _ _ _ _ _ _ ex_seed_user ex_with_probes)|].
    apply (rtc_l _ _ (Down ex_seeded)); [exact (step_seed _ _ _ _ _ _ _ ex_seed_checks ex_with_user I)|].
    apply rtc_once. exact (step_start _ _ _ _ _ _ _ 10 Minute ex_seeded). }
  rewrite ex_server_up in Hs. exact Hs.
Qed.

Definition ex_probe : Client := NewClient "http://server/" "a" "sa".
Definition ex_batch : list CheckResult := [MkCheckResult ex_check_key "" "a" "" "" true 0 "" 10].
Definition ex_long : string := String.concat "" (repeat "xxxxxxxxxxxxxxxx" 4097).
Definition ex_payload : list ProbeCheck := probe_payload (w_tables (sv_shared ex_server).2).

(** A codec for the values of these examples; [long] makes it wordy. *)
Definition ex_lib (long : bool) : ProbeLib := {|
  json_Marshal _ := inr (if long then ex_long else "results");
  json_checks _ := inr ex_payload;
  http_NewRequest _ _ := None
|}.
Definition ex_wire_lib : WireLib := {|
  decode_register _ := BodyBad;
  decode_heartbeat _ := BodyBad;
  decode_results _ := BodyValue ex_batch RestEOF;
  encode_body _ := ""
|}.
#[local] Existing Instance ex_wire_lib.

Definition ex_net : Request -> Server -> (GoError + HTTPResponse) * Server :=
  wire (MkPolicy false) ex_loopback ex_clock ex_clock ex_clock (c_baseURL ex_probe) Delivered 20.

(** The short upload is applied, the long one is discarded. *)
Lemma upload_settles_as_served_witness :
  (exists s', @PostResults (ex_lib false) _ ex_net ex_probe ex_batch ex_server = (None, s') /\
     taken ex_probe 20 ex_batch ex_server s') /\
  (exists s', @PostResults (ex_lib true) _ ex_net ex_probe ex_batch ex_server = (Some (StatusError "POST" 413 204), s') /\
     untouched ex_server s').
Proof.
  assert (Hauth : match AuthenticateProbe (TrimSpace (c_probeID ex_probe)) (TrimSpace (c_secret ex_probe))
    (sv_shared ex_server).2 with (inr (Some _), _) => true | _ => false end = true) by (vm_compute; reflexivity).
  pose proof (fun long => @upload_settles_as_served table_Fire table_Fire_laws ex_auth_store ex_auth_store_laws ex_auth
    ex_urls (ex_lib long) ex_wire_lib (MkPolicy false) ex_loopback ex_clock ex_clock ex_clock ex_acknowledged
    ex_probe ex_batch (if long then ex_long else "results") Delivered 20 ex_server ex_server_healthy
    eq_refl eq_refl eq_refl) as Hu.
  split.
  - specialize (Hu false). fold ex_net in Hu.
    assert (E : bool_decide (is_Some (@PostResults (ex_lib false) _ ex_net ex_probe ex_batch ex_server).1) = false)
      by (vm_compute; reflexivity).
    destruct (@PostResults (ex_lib false) _ ex_net ex_probe ex_batch ex_server) as [err s'].
    cbn [fst] in E. destruct err as [err|]; [discriminate E|].
    exists s'. split; [reflexivity|exact (proj1 (proj2 Hu))].
  - specialize (Hu true). fold ex_net in Hu.
    destruct (@PostResults (ex_lib true) _ ex_net ex_probe ex_batch ex_server) as [err s'].
    destruct Hu as (_ & _ & Hl).
    assert (Hbig : (maxProbeJSONRequestBodyBytes < Z.of_nat (String.length ex_long))%Z) by (vm_compute; reflexivity).
    destruct (Hl Hbig) as [Hsame Herr]. exists s'. split; [|exact Hsame]. f_equal.
    apply Herr; [reflexivity|vm_compute; discriminate|vm_compute; discriminate|].
    destruct (AuthenticateProbe _ _ _) as [[e|[p|]] w1]; [discriminate Hauth|exists p, w1; reflexivity|discriminate Hauth].
Defined.

Definition ex_order {V} (m : gmap string V) : list string := (map_to_list m).*1.
Lemma ex_ranges {V} : ranges (ex_order (V := V)).
Proof. intros m. reflexivity. Qed.

(** A first sync starts a worker for the seeded check. *)
Lemma sync_runs_active_checks_witness :
  exists sched s', @sync_tick (ex_lib false) _ ex_net ex_order ex_order ex_probe newScheduler ex_server = (sched, s') /\
    sched_ok sched /\ untouched ex_server s' /\
    is_Some (wanted (w_tables (sv_shared ex_server).2) ex_check_key) /\
    forall id, rc_check <$> s_running sched !! id = wanted (w_tables (sv_shared ex_server).2) id.
Proof.
  pose proof (@sync_runs_active_checks table_Fire ex_auth_store ex_auth ex_urls (ex_lib false) ex_wire_lib
    (MkPolicy false) ex_loopback ex_clock ex_clock ex_clock ex_order ex_order ex_probe Delivered 20 ex_server
    newScheduler ex_ranges ex_ranges newScheduler_ok eq_refl eq_refl) as Hs.
  cbv zeta in Hs. fold ex_net in Hs.
  destruct (@sync_tick (ex_lib false) _ ex_net ex_order ex_order ex_probe newScheduler ex_server) as [sched s'].
  destruct Hs as (Hok & Hu & Hrun & Hlive).
  assert (Hc : match t_probes (w_tables (sv_shared ex_server).2) !! TrimSpace (c_probeID ex_probe) with
               | Some p => bool_decide (p_revoked_at p = None) &&
                           (p_secret_hash p == hashProbeSecret (TrimSpace (c_secret ex_probe)))
               | None => false end = true) by (vm_compute; reflexivity).
  assert (Hw : bool_decide (is_Some (wanted (w_tables (sv_shared ex_server).2) ex_check_key)) = true)
    by (vm_compute; reflexivity).
  exists sched, s'. split; [reflexivity|]. split; [exact Hok|]. split; [exact Hu|].
  split; [exact (proj1 (bool_decide_eq_true _) Hw)|].
  destruct Hlive as [checks E]; [reflexivity|intros n; reflexivity|vm_compute; discriminate|vm_compute; reflexivity|
    vm_compute; discriminate| |rewrite E in Hrun; exact Hrun].
  destruct (t_probes _ !! _) as [p|]; [|discriminate Hc]. exists p. split; [reflexivity|].
  apply andb_true_iff in Hc as [H1 H2]. split; [exact (proj1 (bool_decide_eq_true _) H1)|].
  exact (proj1 (bool_decide_eq_true _) H2).
Defined.

(** A probe starts. *)
Definition ex_config : ProbeConfig := MkProbeConfig "sa" "http://server/" "a" (30 * Second)%Z (5 * Second)%Z false.
Definition ex_start_lib : WireLib := {|
  decode_register _ := BodyValue (MkRegisterRequest "a" "dev") RestEOF;
  decode_heartbeat _ := BodyBad;
  decode_results _ := BodyBad;
  encode_body _ := ""
|}.
Definition ex_begin : (GoError + ProbeProcess) * Server :=
  @start_probe (ex_lib false) _
    (@network table_Fire ex_auth_store ex_auth ex_urls ex_start_lib (MkPolicy false) ex_loopback ex_clock ex_clock ex_clock
       (start_client ex_config "") (fun _ => Delivered) 20)
    ex_order ex_order (fun _ => inr ex_config) (inr "yaml") "" ex_server.

Lemma probe_start_joins_witness :
  exists pp s', ex_begin = (inr pp, s') /\ joined (start_client ex_config "") s' /\
    forall id, rc_check <$> s_running (pp_scheduler pp) !! id = wanted (w_tables (sv_shared ex_server).2) id.
Proof.
  pose proof (@probe_start_joins table_Fire ex_auth_store ex_auth_store_laws ex_auth ex_urls
    (ex_lib false) ex_start_lib (MkPolicy false) ex_loopback ex_clock ex_clock ex_clock ex_order ex_order
    (fun _ => inr ex_config) (inr "yaml") "" ex_config (fun _ => Delivered) 20 "results" ex_server
    eq_refl ex_server_healthy ex_ranges ex_ranges eq_refl eq_refl ltac:(vm_compute; discriminate) eq_refl eq_refl eq_refl) as Hs.
  cbv zeta in Hs. fold ex_begin in Hs. destruct ex_begin as [res s'].
  destruct Hs as (_ & Hpp & Hlive).
  assert (Hc : match t_probes (w_tables (sv_shared ex_server).2) !! c_probeID (start_client ex_config "") with
               | Some p => bool_decide (p_revoked_at p = None) &&
                           (p_secret_hash p == hashProbeSecret (TrimSpace (c_secret (start_client ex_config ""))))
               | None => false end = true) by (vm_compute; reflexivity).
  destruct Hlive as [pp E]; [reflexivity| |].
  - split; [intros n; reflexivity|]. split; [vm_compute; reflexivity|]. split; [vm_compute; discriminate|].
    split; [vm_compute; reflexivity|]. split; [vm_compute; discriminate|].
    destruct (t_probes _ !! _) as [p|]; [|discriminate Hc]. exists p. split; [reflexivity|].
    apply andb_true_iff in Hc as [H1 H2]. split; [exact (proj1 (bool_decide_eq_true _) H1)|].
    exact (proj1 (bool_decide_eq_true _) H2).
  - subst res. exists pp, s'. split; [reflexivity|]. split; [exact (proj1 Hpp)|].
    exact (proj2 (proj2 (proj2 (proj2 (proj2 Hpp))))).
Defined.

(** The seeded check has passed validation, and its workers go on. *)
Lemma ex_check_validated : validated ex_check.
Proof.
  exists (fun r => r), (fun _ => inr [[93; 184; 216; 34]%Z]),
    (fun s => inr (MkURL "https" (if s == "https://example.com" then "example.com" else "hook.example") false)),
    (MkPolicy false), true, ex_check.
  vm_compute. reflexivity.
Qed.

Lemma ex_server_runs reqs x :
  rtc (server_step (MkPolicy false) ex_loopback ex_clock ex_clock ex_clock ex_probe_order ex_quorum_order) x (fold_left ex_step reqs x).
Proof.
  revert x. induction reqs as [|req reqs IH]; intros x; [constructor|]. simpl.
  etransitivity; [|apply IH]. destruct x as [w|s]; [constructor|]. apply rtc_once, server_request.
Qed.

Lemma probes_are_not_crashed_witness :
  exists check, wanted (w_tables (world_of ex_served)) ex_check_key = Some check /\
    forall run meanwhile ticks sink, is_Some (startRuntimeWorker run meanwhile check ticks sink).
Proof.
  assert (Hw : bool_decide (is_Some (wanted (w_tables (world_of ex_served)) ex_check_key)) = true) by (vm_compute; reflexivity).
  destruct (wanted (w_tables (world_of ex_served)) ex_check_key) as [check|] eqn:E; [|discriminate Hw].
  exists check. split; [reflexivity|].
  refine (proj2 (@probes_are_not_crashed table_Fire ex_auth_store ex_auth_store_laws ex_auth ex_urls
    (MkPolicy false) ex_loopback ex_clock ex_clock ex_clock ex_probe_order ex_quorum_order ex_served ex_check_key check _ E)).
  transitivity ex_started.
  - apply (rtc_l _ _ (Down ex_with_probes)); [exact (server_seed_probes _ _ _ _ _ _ _ _ empty_world)|].
    apply (rtc_l _ _ (Down ex_with_user)); [exact (server_account _ _ _ _ _ _ _ ex_seed_user ex_with_probes)|].
    apply (rtc_l _ _ (Down ex_seeded)).
    { apply server_seed_checks. constructor; [exact ex_check_validated|constructor]. }
    apply rtc_once. exact (server_start _ _ _ _ _ _ _ 10 Minute ex_seeded).
  - exact (ex_server_runs (ex_login :: ex_reports) ex_started).
Defined.
